(** * BamBlend: the Bambu Studio 3MF reader and writer

    A shallow embedding of the parsing and serialization core of the
    add-on ([core/transform.py], [core/parser.py], [core/serializer.py])
    together with the properties its specification states about it.

    Conventions of the embedding.
    - A Python [str] is a [string]; each [ascii] stands for the code point
      of the same number, so the model covers the strings over U+0000..U+00FF.
    - A Python [float] is a binary64 primitive [float]; an [int] is a [Z].
    - A call that can raise returns a [result]; [None] is an [option].
    - A [dict] whose iteration order reaches the output is an association
      list in insertion order ([pydict]); a [dict] or [set] that is only
      looked up is a [gmap] or [gset]. *)

From Stdlib Require Import ZArith String Ascii List Bool Lia Floats DecimalString.
From Stdlib Require Import Reals Lra DecimalN.
From stdpp Require Import gmap strings.
Import ListNotations.

Local Open Scope string_scope.
Local Open Scope Z_scope.
Local Open Scope list_scope.

Local Set Warnings "-register-all".

(** * Python built-ins used by the add-on *)

Module Py.

(** ** Exceptions *)

Inductive exn : Type :=
| ValueError
| TypeError
| UnicodeDecodeError
| KeyError
| BadZipFile
| RuntimeError
| NotImplementedError
| OtherError (class_name : string).

Inductive result (A : Type) : Type :=
| Ok (a : A)
| Raise (e : exn).
Arguments Ok {A} a.
Arguments Raise {A} e.

Definition bind {A B : Type} (r : result A) (k : A -> result B) : result B :=
  match r with
  | Ok a => k a
  | Raise e => Raise e
  end.

(** A comprehension [[f(v) for v in xs]]: the first failing element
    aborts the whole list. *)
Fixpoint map_result {A B : Type} (f : A -> result B) (xs : list A)
  : result (list B) :=
  match xs with
  | [] => Ok []
  | x :: xs' =>
      bind (f x) (fun y => bind (map_result f xs') (fun ys => Ok (y :: ys)))
  end.

(** ** Characters *)

Definition code (c : ascii) : Z := Z.of_N (N_of_ascii c).

(** [str.isspace] on the code points below 256. *)
Definition is_space (c : ascii) : bool :=
  let n := code c in
  ((9 <=? n) && (n <=? 13)) || ((28 <=? n) && (n <=? 32))
  || (n =? 133) || (n =? 160).

(** C's [isspace], which the numeric constructors use once the text has
    been brought to ASCII. *)
Definition is_c_space (c : ascii) : bool :=
  let n := code c in
  ((9 <=? n) && (n <=? 13)) || (n =? 32).

Definition is_digit (c : ascii) : bool :=
  let n := code c in (48 <=? n) && (n <=? 57).

Definition digit_val (c : ascii) : Z := code c - 48.

Definition lower (c : ascii) : ascii :=
  let n := code c in
  if (65 <=? n) && (n <=? 90) then ascii_of_N (Z.to_N (n + 32)) else c.

(** ** [str.strip] and [str.split] without arguments *)

Fixpoint lstrip_by (sp : ascii -> bool) (s : string) : string :=
  match s with
  | String c s' => if sp c then lstrip_by sp s' else s
  | EmptyString => EmptyString
  end.

Fixpoint rstrip_by (sp : ascii -> bool) (s : string) : string :=
  match s with
  | String c s' =>
      match rstrip_by sp s' with
      | EmptyString => if sp c then EmptyString else String c EmptyString
      | t => String c t
      end
  | EmptyString => EmptyString
  end.

Definition strip (s : string) : string :=
  rstrip_by is_space (lstrip_by is_space s).

(** [split_from cur s]: [cur] is the token being read.  Runs of
    whitespace separate tokens and no empty token is produced. *)
Fixpoint split_from (cur : string) (s : string) : list string :=
  match s with
  | EmptyString =>
      match cur with EmptyString => [] | _ => [cur] end
  | String c s' =>
      if is_space c then
        match cur with
        | EmptyString => split_from EmptyString s'
        | _ => cur :: split_from EmptyString s'
        end
      else split_from (cur +:+ String c EmptyString) s'
  end.

Definition split (s : string) : list string := split_from EmptyString s.

(** [sep.join(parts)]. *)
Fixpoint join (sep : string) (parts : list string) : string :=
  match parts with
  | [] => EmptyString
  | [p] => p
  | p :: rest => p +:+ sep +:+ join sep rest
  end.

(** [s.replace(old, new)] for a one-character [old]. *)
Fixpoint replace_char (old : ascii) (new : string) (s : string) : string :=
  match s with
  | EmptyString => EmptyString
  | String c s' =>
      if Ascii.eqb c old then new +:+ replace_char old new s'
      else String c (replace_char old new s')
  end.

(** ** Numeric literals *)

(** Both [int(str)] and [float(str)] first bring the text to ASCII
    (a space for each non-ASCII blank, [?] for any other non-ASCII
    character) and drop the surrounding C blanks. *)
Definition to_ascii_char (c : ascii) : ascii :=
  if code c <? 127 then c
  else if is_space c then " "%char else "?"%char.

Fixpoint to_ascii (s : string) : string :=
  match s with
  | EmptyString => EmptyString
  | String c s' => String (to_ascii_char c) (to_ascii s')
  end.

Definition numeric_text (s : string) : string :=
  rstrip_by is_c_space (lstrip_by is_c_space (to_ascii s)).

(** Digit grouping: an underscore is legal only between two digits and
    is then ignored.  [prev] is the character just read. *)
Fixpoint drop_underscores (prev : option ascii) (s : string) : option string :=
  let prev_digit := match prev with Some p => is_digit p | None => false end in
  let prev_under :=
    match prev with Some p => Ascii.eqb p "_"%char | None => false end in
  match s with
  | EmptyString => if prev_under then None else Some EmptyString
  | String c s' =>
      if Ascii.eqb c "_"%char then
        if prev_digit then drop_underscores (Some c) s' else None
      else if prev_under && negb (is_digit c) then None
      else option_map (String c) (drop_underscores (Some c) s')
  end.

(** Longest run of digits at the head of [s], folded into [acc];
    returns the value, the number of digits read and the rest. *)
Fixpoint take_digits (acc : Z) (n : Z) (s : string) : Z * Z * string :=
  match s with
  | String c s' =>
      if is_digit c then take_digits (10 * acc + digit_val c) (n + 1) s'
      else (acc, n, s)
  | EmptyString => (acc, n, s)
  end.

Definition take_sign (s : string) : bool * string :=
  match s with
  | String c s' =>
      if Ascii.eqb c "-"%char then (true, s')
      else if Ascii.eqb c "+"%char then (false, s')
      else (false, s)
  | EmptyString => (false, s)
  end.

(** [sys.int_info.default_max_str_digits]: a text with more digits is
    refused (the sign and the underscores are not counted). *)
Definition max_str_digits : Z := 4300.

(** [int(s)] for a string, base ten. *)
Definition int (s : string) : result Z :=
  match drop_underscores None (numeric_text s) with
  | None => Raise ValueError
  | Some t =>
      let '(neg, body) := take_sign t in
      match take_digits 0 0 body with
      | (v, n, EmptyString) =>
          if (0 <? n) && (n <=? max_str_digits) then
            Ok (if neg then - v else v)
          else Raise ValueError
      | _ => Raise ValueError
      end
  end.

(** [str(n)] for an integer. *)
Definition str_of_int (n : Z) : string :=
  NilZero.string_of_int (Z.to_int n).

(** ** Floating point *)

(** Nearest binary64 to [±m·10^e], ties to even, as [float(str)]
    computes it.  For a negative [e] the quotient is taken with enough
    extra bits ([k]) that its remainder only decides the rounding. *)
Definition float_of_decimal (neg : bool) (m e : Z) : float :=
  if m =? 0 then (if neg then neg_zero else zero)
  else if 0 <=? e then
    SF2Prim (binary_normalize prec emax (cond_Zopp neg (m * 10 ^ e)) 0 false)
  else
    let d := 10 ^ (- e) in
    let k := Z.max 0 (Z.log2 d - Z.log2 m + 66) in
    let n := m * 2 ^ k in
    let q := n / d in
    let r := n mod d in
    let loc := if r =? 0 then loc_Exact else loc_Inexact (2 * r ?= d) in
    SF2Prim (binary_round_aux prec emax neg q (- k) loc).

Fixpoint lower_str (s : string) : string :=
  match s with
  | EmptyString => EmptyString
  | String c s' => String (lower c) (lower_str s')
  end.

(** The optional exponent part; [None] when the text is not one. *)
Definition take_exponent (s : string) : option Z :=
  match s with
  | EmptyString => Some 0
  | String c s' =>
      if Ascii.eqb (lower c) "e"%char then
        let '(neg, body) := take_sign s' in
        match take_digits 0 0 body with
        | (v, n, EmptyString) =>
            if 0 <? n then Some (if neg then - v else v) else None
        | _ => None
        end
      else None
  end.

(** [float(s)] for a string. *)
Definition float (s : string) : result PrimFloat.float :=
  match drop_underscores None (numeric_text s) with
  | None => Raise ValueError
  | Some t =>
      let '(neg, body) := take_sign t in
      let word := lower_str body in
      if String.eqb word "inf" || String.eqb word "infinity" then
        Ok (if neg then neg_infinity else infinity)
      else if String.eqb word "nan" then Ok nan
      else
        let '(ip, n1, r1) := take_digits 0 0 body in
        let '(mant, n2, r2) :=
          match r1 with
          | String c r1' =>
              if Ascii.eqb c "."%char then take_digits ip 0 r1'
              else (ip, 0, r1)
          | EmptyString => (ip, 0, r1)
          end in
        if 0 <? n1 + n2 then
          match take_exponent r2 with
          | Some ex => Ok (float_of_decimal neg mant (ex - n2))
          | None => Raise ValueError
          end
        else Raise ValueError
  end.

(** *** [format(x, ".<p>g")] *)

Definition digits_of (n : Z) : string :=
  NilZero.string_of_uint (N.to_uint (Z.to_N n)).

Definition num_digits (n : Z) : Z := Z.of_nat (String.length (digits_of n)).

Fixpoint zeros (n : nat) : string :=
  match n with
  | O => EmptyString
  | S n' => String "0"%char (zeros n')
  end.

Definition is_zero_char (c : ascii) : bool := Ascii.eqb c "0"%char.

(** Quotient rounded to nearest, ties to even. *)
Definition div_half_even (n d : Z) : Z :=
  let q := n / d in
  match 2 * (n mod d) ?= d with
  | Lt => q
  | Gt => q + 1
  | Eq => if Z.even q then q else q + 1
  end.

(** [n/d] scaled by [10^s] and rounded to an integer. *)
Definition scaled_round (n d s : Z) : Z :=
  if 0 <=? s then div_half_even (n * 10 ^ s) d
  else div_half_even n (d * 10 ^ (- s)).

(** The decimal exponent [x] of [n/d]: [10^x <= n/d < 10^(x+1)]. *)
Definition decimal_exponent (n d : Z) : Z :=
  let x0 := num_digits n - num_digits d in
  let ge := if 0 <=? x0 then d * 10 ^ x0 <=? n else d <=? n * 10 ^ (- x0) in
  if ge then x0 else x0 - 1.

Definition exponent_text (x : Z) : string :=
  (if x <? 0 then "-" else "+")
  +:+ (if Z.abs x <? 10 then "0" else "")
  +:+ digits_of (Z.abs x).

(** The layout of the [g] presentation for the digit string [ds]
    (trailing zeros already removed) and decimal exponent [x]. *)
Definition layout_g (p : Z) (ds : string) (x : Z) : string :=
  let len := Z.of_nat (String.length ds) in
  if (x <? -4) || (p <=? x) then
    String.substring 0 1 ds
    +:+ (if 1 <? len then "." +:+ String.substring 1 (Z.to_nat (len - 1)) ds
         else "")
    +:+ "e" +:+ exponent_text x
  else if 0 <=? x then
    if len <=? x + 1 then ds +:+ zeros (Z.to_nat (x + 1 - len))
    else String.substring 0 (Z.to_nat (x + 1)) ds
         +:+ "." +:+ String.substring (Z.to_nat (x + 1)) (Z.to_nat (len - x - 1)) ds
  else "0." +:+ zeros (Z.to_nat (- x - 1)) +:+ ds.

(** [p] significant digits ([p >= 1]; a precision of zero counts as one). *)
Definition format_g (p : Z) (v : PrimFloat.float) : string :=
  let p := Z.max 1 p in
  match Prim2SF v with
  | S754_nan => "nan"
  | S754_infinity s => if s then "-inf" else "inf"
  | S754_zero s => if s then "-0" else "0"
  | S754_finite s m e =>
      let n := if 0 <=? e then Z.pos m * 2 ^ e else Z.pos m in
      let d := if 0 <=? e then 1 else 2 ^ (- e) in
      let x := decimal_exponent n d in
      let q := scaled_round n d (p - 1 - x) in
      let '(q, x) := if q =? 10 ^ p then (10 ^ (p - 1), x + 1) else (q, x) in
      (if s then "-" else "")
      +:+ layout_g p (rstrip_by is_zero_char (digits_of q)) x
  end.

End Py.

(** * Ordered dictionaries

    A [dict] keeps its keys in insertion order; assigning to a key that
    is present replaces the value in place. *)

Module Dict.

Section ordered.
Context {K V : Type} `{EqDecision K}.

Definition pydict : Type := list (K * V).

Fixpoint get (k : K) (d : pydict) : option V :=
  match d with
  | [] => None
  | (k', v) :: d' => if decide (k' = k) then Some v else get k d'
  end.

(** [d.get(k, default)] *)
Definition get_or (k : K) (default : V) (d : pydict) : V :=
  match get k d with Some v => v | None => default end.

(** [d[k] = v] *)
Fixpoint set (k : K) (v : V) (d : pydict) : pydict :=
  match d with
  | [] => [(k, v)]
  | (k', v') :: d' =>
      if decide (k' = k) then (k, v) :: d' else (k', v') :: set k v d'
  end.

Definition keys (d : pydict) : list K := map fst d.
End ordered.

Arguments pydict K V : clear implicits.

End Dict.

(** * The transform codec ([core/transform.py]) *)

Module Transform.
Import Py.

(** The host's [Matrix]: four rows of four components. *)
Definition row4 : Type := PrimFloat.float * PrimFloat.float * PrimFloat.float * PrimFloat.float.
Definition Matrix : Type := row4 * row4 * row4 * row4.

(** [Matrix.Identity(4)] *)
Definition Identity4 : Matrix :=
  ((1, 0, 0, 0), (0, 1, 0, 0), (0, 0, 1, 0), (0, 0, 0, 1))%float.

Definition row (m : Matrix) (i : nat) : row4 :=
  let '(r0, r1, r2, r3) := m in
  match i with O => r0 | 1%nat => r1 | 2%nat => r2 | _ => r3 end.

Definition col (r : row4) (j : nat) : PrimFloat.float :=
  let '(c0, c1, c2, c3) := r in
  match j with O => c0 | 1%nat => c1 | 2%nat => c2 | _ => c3 end.

(** [mat[i][j]] for [i, j < 4]. *)
Definition entry (m : Matrix) (i j : nat) : PrimFloat.float := col (row m i) j.

(** [0.001] and [1000.0] as binary64 values. *)
Definition MM_TO_M : PrimFloat.float := 0x1.0624dd2f1a9fcp-10%float.
Definition M_TO_MM : PrimFloat.float := 1000%float.

Definition IDENTITY_3MF : string := "1 0 0 0 1 0 0 0 1 0 0 0".

Definition parse_3mf_transform (transform_str : option string)
    (scale : PrimFloat.float) : result Matrix :=
  match transform_str with
  | None => Ok Identity4
  | Some s =>
      if String.eqb s "" || String.eqb (strip s) "" then Ok Identity4
      else
        bind (map_result float (split (strip s))) (fun vals =>
          match vals with
          | [v0; v1; v2; v3; v4; v5; v6; v7; v8; v9; v10; v11] =>
              Ok ((v0, v3, v6, v9 * scale),
                  (v1, v4, v7, v10 * scale),
                  (v2, v5, v8, v11 * scale),
                  (0, 0, 0, 1))%float
          | _ => Ok Identity4
          end)
  end.

Definition g9 : PrimFloat.float -> string := format_g 9.

Definition matrix_to_3mf_transform (mat : Matrix) (scale : PrimFloat.float)
  : string :=
  (g9 (entry mat 0 0) +:+ " " +:+ g9 (entry mat 1 0) +:+ " "
     +:+ g9 (entry mat 2 0) +:+ " ")
  +:+ (g9 (entry mat 0 1) +:+ " " +:+ g9 (entry mat 1 1) +:+ " "
     +:+ g9 (entry mat 2 1) +:+ " ")
  +:+ (g9 (entry mat 0 2) +:+ " " +:+ g9 (entry mat 1 2) +:+ " "
     +:+ g9 (entry mat 2 2) +:+ " ")
  +:+ (g9 (entry mat 0 3 * scale)%float +:+ " "
     +:+ g9 (entry mat 1 3 * scale)%float +:+ " "
     +:+ g9 (entry mat 2 3 * scale)%float).

Definition scale_vertices
    (vertices : list (PrimFloat.float * PrimFloat.float * PrimFloat.float))
    (scale : PrimFloat.float)
  : list (PrimFloat.float * PrimFloat.float * PrimFloat.float) :=
  map (fun '(x, y, z) => (x * scale, y * scale, z * scale)%float) vertices.

End Transform.

(** * Element trees

    What [xml.etree.ElementTree.fromstring] returns: the parsers below
    start from the tree, the XML tokenizer itself is the library's. *)

Module Xml.

Inductive element : Type :=
| Element (tag : string) (attrib : Dict.pydict string string)
          (text : option string) (children : list element).

Definition tag (e : element) : string :=
  let '(Element t _ _ _) := e in t.
Definition attrib (e : element) : Dict.pydict string string :=
  let '(Element _ a _ _) := e in a.
Definition text (e : element) : option string :=
  let '(Element _ _ x _) := e in x.
Definition children (e : element) : list element :=
  let '(Element _ _ _ c) := e in c.

(** [e.get(name)] and [e.get(name, default)] *)
Definition get (name : string) (e : element) : option string :=
  Dict.get name (attrib e).
Definition get_or (name default : string) (e : element) : string :=
  Dict.get_or name default (attrib e).

(** [e.findall(tag)] and [e.find(tag)] for a plain tag: the direct
    children with that tag, in document order, and the first of them. *)
Definition findall (t : string) (e : element) : list element :=
  List.filter (fun c => String.eqb (tag c) t) (children e).
Definition find (t : string) (e : element) : option element :=
  head (findall t e).

End Xml.

(** * The package parser ([core/parser.py]) *)

Module Parser.
Import Py.

Definition NS_CORE : string :=
  "http://schemas.microsoft.com/3dmanufacturing/core/2015/02".
Definition NS_PROD : string :=
  "http://schemas.microsoft.com/3dmanufacturing/production/2015/06".
Definition NS_BAMBU : string := "http://schemas.bambulab.com/package/2021".

Definition _NS_MAP : Dict.pydict string string :=
  [("core", NS_CORE); ("p", NS_PROD); ("bambu", NS_BAMBU)].

(** [_NS_MAP[prefix]]; every call site passes one of the three keys. *)
Definition ns_uri (prefix : string) : string := Dict.get_or prefix "" _NS_MAP.

Definition _qn (prefix tag : string) : string :=
  "{" +:+ ns_uri prefix +:+ "}" +:+ tag.
Definition _attr (prefix name : string) : string :=
  "{" +:+ ns_uri prefix +:+ "}" +:+ name.

(** [int(el.get(name))]: a missing attribute hands [None] to [int]. *)
Definition int_attr (v : option string) : result Z :=
  match v with
  | Some s => int s
  | None => Raise TypeError
  end.

(** [int(el.get(name, 0))] *)
Definition int_attr_or_zero (v : option string) : result Z :=
  match v with
  | Some s => int s
  | None => Ok 0
  end.

(** ** Assembly root *)

Record component : Type := {
  c_path : string;
  c_objectid : Z;
  c_uuid : string;
  c_transform : string
}.

Record assembly_object : Type := {
  o_id : Z;
  o_uuid : string;
  o_name : string;
  o_extruder : Z;
  o_components : list component
}.

Record build_item : Type := {
  b_objectid : Z;
  b_uuid : string;
  b_transform : string;
  b_printable : bool
}.

Definition text_or_empty (t : option string) : string :=
  match t with Some s => s | None => "" end.

Definition parse_metadata (root : Xml.element) : Dict.pydict string string :=
  fold_left
    (fun metadata m =>
       Dict.set (Xml.get_or "name" "" m) (strip (text_or_empty (Xml.text m)))
                metadata)
    (Xml.findall (_qn "core" "metadata") root) [].

Definition parse_component (c : Xml.element) : result component :=
  bind (int_attr_or_zero (Xml.get "objectid" c)) (fun oid =>
    Ok {| c_path := Xml.get_or (_attr "p" "path") "" c;
          c_objectid := oid;
          c_uuid := Xml.get_or (_attr "p" "UUID") "" c;
          c_transform := Xml.get_or "transform" "" c |}).

Definition parse_object (obj_el : Xml.element) : result assembly_object :=
  bind (int_attr (Xml.get "id" obj_el)) (fun obj_id =>
    bind
      (match Xml.find (_qn "core" "components") obj_el with
       | Some comps_el =>
           map_result parse_component
             (Xml.findall (_qn "core" "component") comps_el)
       | None => Ok []
       end)
      (fun comps =>
         Ok {| o_id := obj_id;
               o_uuid := Xml.get_or (_attr "p" "UUID") "" obj_el;
               o_name := "";
               o_extruder := 1;
               o_components := comps |})).

Definition parse_item (item : Xml.element) : result build_item :=
  bind (int_attr_or_zero (Xml.get "objectid" item)) (fun oid =>
    Ok {| b_objectid := oid;
          b_uuid := Xml.get_or (_attr "p" "UUID") "" item;
          b_transform := Xml.get_or "transform" "" item;
          b_printable := String.eqb (Xml.get_or "printable" "1" item) "1" |}).

(** The [<item>] elements of the [<build>] section, in file order. *)
Definition item_elements (root : Xml.element) : list Xml.element :=
  match Xml.find (_qn "core" "build") root with
  | Some build => Xml.findall (_qn "core" "item") build
  | None => []
  end.

Definition _parse_assembly (root : Xml.element)
  : result (Dict.pydict string string
            * Dict.pydict Z assembly_object
            * list build_item) :=
  let metadata := parse_metadata root in
  bind
    (match Xml.find (_qn "core" "resources") root with
     | Some resources =>
         bind (map_result parse_object
                 (Xml.findall (_qn "core" "object") resources))
           (fun objs =>
              Ok (fold_left (fun objects obj => Dict.set (o_id obj) obj objects)
                            objs []))
     | None => Ok []
     end)
    (fun objects =>
       bind (map_result parse_item (item_elements root)) (fun build_items =>
         Ok (metadata, objects, build_items))).

(** ** [Metadata/slice_info.config] *)

Record slice_object : Type := {
  so_identify_id : string;
  so_name : string;
  so_skipped : bool
}.

(** A [<filament>] entry of one plate. *)
Record plate_filament : Type := {
  pf_id : Z;
  pf_type : string;
  pf_color : string;
  pf_tray_info_idx : string;
  pf_used_m : string;
  pf_used_g : string
}.

(** An entry of the global filament table. *)
Record filament : Type := {
  fil_id : Z;
  fil_type : string;
  fil_color : string;
  fil_tray_info_idx : string
}.

Record slice_plate : Type := {
  sp_index : Z;
  sp_objects : list slice_object;
  sp_filaments : list plate_filament;
  sp_metadata : Dict.pydict (option string) (option string)
}.

(** The [<metadata>] loop of one plate: every pair is recorded, and the
    pair whose key is [index] also sets the plate's index. *)
Fixpoint plate_metadata (metas : list Xml.element) (index : Z)
    (metadata : Dict.pydict (option string) (option string))
  : result (Z * Dict.pydict (option string) (option string)) :=
  match metas with
  | [] => Ok (index, metadata)
  | meta :: rest =>
      let key := Xml.get "key" meta in
      let val := Xml.get "value" meta in
      let metadata := Dict.set key val metadata in
      if decide (key = Some "index") then
        bind (int_attr val) (fun i => plate_metadata rest i metadata)
      else plate_metadata rest index metadata
  end.

Definition plate_object (obj_el : Xml.element) : slice_object :=
  {| so_identify_id := Xml.get_or "identify_id" "" obj_el;
     so_name := Xml.get_or "name" "" obj_el;
     so_skipped := String.eqb (Xml.get_or "skipped" "false" obj_el) "true" |}.

Definition filament_info (fid : Z) (fil_el : Xml.element) : plate_filament :=
  {| pf_id := fid;
     pf_type := Xml.get_or "type" "" fil_el;
     pf_color := Xml.get_or "color" "#808080" fil_el;
     pf_tray_info_idx := Xml.get_or "tray_info_idx" "" fil_el;
     pf_used_m := Xml.get_or "used_m" "" fil_el;
     pf_used_g := Xml.get_or "used_g" "" fil_el |}.

Definition global_entry (info : plate_filament) : filament :=
  {| fil_id := pf_id info;
     fil_type := pf_type info;
     fil_color := pf_color info;
     fil_tray_info_idx := pf_tray_info_idx info |}.

(** The [<filament>] loop of one plate; [filaments] is the table shared
    by all plates, which only ever gains ids it does not have yet. *)
Fixpoint plate_filaments (fils : list Xml.element)
    (filaments : gmap Z filament) (seen : list plate_filament)
  : result (gmap Z filament * list plate_filament) :=
  match fils with
  | [] => Ok (filaments, seen)
  | fil_el :: rest =>
      bind (int_attr (Xml.get "id" fil_el)) (fun fid =>
        let info := filament_info fid fil_el in
        let filaments :=
          match filaments !! fid with
          | None => <[fid := global_entry info]> filaments
          | Some _ => filaments
          end in
        plate_filaments rest filaments (seen ++ [info]))
  end.

Definition parse_plate (plate_el : Xml.element) (filaments : gmap Z filament)
  : result (gmap Z filament * slice_plate) :=
  bind (plate_metadata (Xml.findall "metadata" plate_el) 0 [])
    (fun '(index, metadata) =>
       let objects := map plate_object (Xml.findall "object" plate_el) in
       bind (plate_filaments (Xml.findall "filament" plate_el) filaments [])
         (fun '(filaments, fils) =>
            Ok (filaments,
                {| sp_index := index;
                   sp_objects := objects;
                   sp_filaments := fils;
                   sp_metadata := metadata |}))).

Fixpoint parse_plates (plate_els : list Xml.element)
    (filaments : gmap Z filament) (plates : list slice_plate)
  : result (gmap Z filament * list slice_plate) :=
  match plate_els with
  | [] => Ok (filaments, plates)
  | plate_el :: rest =>
      bind (parse_plate plate_el filaments) (fun '(filaments, plate) =>
        parse_plates rest filaments (plates ++ [plate]))
  end.

(** [xml] is the parsed part, [None] when the package has none. *)
Definition _parse_slice_info (xml : option Xml.element)
  : result (gmap Z filament * list slice_plate) :=
  match xml with
  | None => Ok (∅, [])
  | Some root => parse_plates (Xml.findall "plate" root) ∅ []
  end.

(** ** Sub-model mesh files *)

(** [float(el.get(name))]: a missing attribute hands [None] to [float]. *)
Definition float_attr (v : option string) : result PrimFloat.float :=
  match v with
  | Some s => float s
  | None => Raise TypeError
  end.

Record mesh : Type := {
  m_vertices : list (PrimFloat.float * PrimFloat.float * PrimFloat.float);
  m_triangles : list (Z * Z * Z)
}.

Definition parse_vertex (v : Xml.element)
  : result (PrimFloat.float * PrimFloat.float * PrimFloat.float) :=
  bind (float_attr (Xml.get "x" v)) (fun x =>
    bind (float_attr (Xml.get "y" v)) (fun y =>
      bind (float_attr (Xml.get "z" v)) (fun z => Ok (x, y, z)))).

Definition parse_triangle (t : Xml.element) : result (Z * Z * Z) :=
  bind (int_attr (Xml.get "v1" t)) (fun v1 =>
    bind (int_attr (Xml.get "v2" t)) (fun v2 =>
      bind (int_attr (Xml.get "v3" t)) (fun v3 => Ok (v1, v2, v3)))).

(** The [<vertex>] and the [<triangle>] elements of a [<mesh>]. *)
Definition vertex_elements (mesh_el : Xml.element) : list Xml.element :=
  match Xml.find (_qn "core" "vertices") mesh_el with
  | Some verts_el => Xml.findall (_qn "core" "vertex") verts_el
  | None => []
  end.

Definition triangle_elements (mesh_el : Xml.element) : list Xml.element :=
  match Xml.find (_qn "core" "triangles") mesh_el with
  | Some tris_el => Xml.findall (_qn "core" "triangle") tris_el
  | None => []
  end.

Definition parse_mesh (mesh_el : Xml.element) : result mesh :=
  bind (map_result parse_vertex (vertex_elements mesh_el)) (fun vertices =>
    bind (map_result parse_triangle (triangle_elements mesh_el))
      (fun triangles =>
         Ok {| m_vertices := vertices; m_triangles := triangles |})).

(** The loop over the [<object>] elements: an object without [<mesh>]
    is passed over once its id has been read. *)
Fixpoint mesh_objects (obj_els : list Xml.element)
  : result (list (Z * mesh)) :=
  match obj_els with
  | [] => Ok []
  | obj_el :: rest =>
      bind (int_attr (Xml.get "id" obj_el)) (fun obj_id =>
        match Xml.find (_qn "core" "mesh") obj_el with
        | None => mesh_objects rest
        | Some mesh_el =>
            bind (parse_mesh mesh_el) (fun m =>
              bind (mesh_objects rest) (fun ms => Ok ((obj_id, m) :: ms)))
        end)
  end.

(** The generator run to its end, as its only caller does: the pairs it
    yields, in order, or the exception that stops it. *)
Definition _parse_sub_model (root : Xml.element) : result (list (Z * mesh)) :=
  match Xml.find (_qn "core" "resources") root with
  | None => Ok []
  | Some resources =>
      mesh_objects (Xml.findall (_qn "core" "object") resources)
  end.

(** ** [Metadata/model_settings.config] *)

Record part_settings : Type := {
  ps_id : Z;
  ps_subtype : string;
  ps_name : string;
  ps_extruder : option Z;
  ps_face_count : Z
}.

Record object_settings : Type := {
  os_name : string;
  os_extruder : Z;
  os_parts : Dict.pydict Z part_settings
}.

(** [int(val) if val else default] *)
Definition int_if_set {A : Type} (some : Z -> A) (default : A)
    (val : option string) : result A :=
  match val with
  | Some s =>
      if String.eqb s "" then Ok default
      else bind (int s) (fun z => Ok (some z))
  | None => Ok default
  end.

(** The [<metadata>] loop of an object ([default] is 1) and of a part
    ([default] is [None]): the keys [name] and [extruder] are read, the
    others are passed over. *)
Fixpoint name_and_extruder {A : Type} (some : Z -> A) (default : A)
    (metas : list Xml.element) (name : string) (extruder : A)
  : result (string * A) :=
  match metas with
  | [] => Ok (name, extruder)
  | meta :: rest =>
      let key := Xml.get "key" meta in
      let val := Xml.get "value" meta in
      if decide (key = Some "name") then
        name_and_extruder some default rest (text_or_empty val) extruder
      else if decide (key = Some "extruder") then
        bind (int_if_set some default val) (fun e =>
          name_and_extruder some default rest name e)
      else name_and_extruder some default rest name extruder
  end.

Definition parse_part (part_el : Xml.element) : result part_settings :=
  bind (int_attr (Xml.get "id" part_el)) (fun part_id =>
    bind (name_and_extruder Some None (Xml.findall "metadata" part_el) "" None)
      (fun '(name, extruder) =>
         bind
           (match Xml.find "mesh_stat" part_el with
            | Some ms => int_attr_or_zero (Xml.get "face_count" ms)
            | None => Ok 0
            end)
           (fun face_count =>
              Ok {| ps_id := part_id;
                    ps_subtype := Xml.get_or "subtype" "normal_part" part_el;
                    ps_name := name;
                    ps_extruder := extruder;
                    ps_face_count := face_count |}))).

Definition parse_settings_object (obj_el : Xml.element)
  : result (Z * object_settings) :=
  bind (int_attr (Xml.get "id" obj_el)) (fun obj_id =>
    bind (name_and_extruder (fun z => z) 1 (Xml.findall "metadata" obj_el) "" 1)
      (fun '(name, extruder) =>
         bind (map_result parse_part (Xml.findall "part" obj_el)) (fun parts =>
           Ok (obj_id,
               {| os_name := name;
                  os_extruder := extruder;
                  os_parts :=
                    fold_left (fun d part => Dict.set (ps_id part) part d)
                              parts [] |})))).

Definition _parse_model_settings (xml : option Xml.element)
  : result (Dict.pydict Z object_settings) :=
  match xml with
  | None => Ok []
  | Some root =>
      bind (map_result parse_settings_object (Xml.findall "object" root))
        (fun entries =>
           Ok (fold_left (fun result e => Dict.set (fst e) (snd e) result)
                         entries []))
  end.

(** ** Enrichment *)

(** An entry of [model_settings] always has its three keys, so [if ms]
    asks whether the id has an entry. *)
Definition _enrich_objects (objects : Dict.pydict Z assembly_object)
    (model_settings : Dict.pydict Z object_settings)
  : Dict.pydict Z assembly_object :=
  map (fun '(obj_id, obj) =>
         match Dict.get obj_id model_settings with
         | Some ms =>
             (obj_id,
              {| o_id := o_id obj;
                 o_uuid := o_uuid obj;
                 o_name := os_name ms;
                 o_extruder := os_extruder ms;
                 o_components := o_components obj |})
         | None => (obj_id, obj)
         end)
      objects.

(** ** ZIP helpers *)

(** An open archive: for each member name what reading the member
    gives, its bytes or the exception the read ends in (a damaged
    member, an encrypted one, a compression that is not supported). *)
Abbreviation zipfile := (gmap string (result (list Byte.byte))).

(** [zf.read(name)]: a name that is not in the archive is a [KeyError]. *)
Definition read (zf : zipfile) (name : string) : result (list Byte.byte) :=
  match zf !! name with
  | Some r => r
  | None => Raise KeyError
  end.

(** Only [KeyError] is caught. *)
Definition _read_zip (zf : zipfile) (path : string)
  : result (option (list Byte.byte)) :=
  match read zf path with
  | Ok raw => Ok (Some raw)
  | Raise KeyError => Ok None
  | Raise e => Raise e
  end.

(** *** [bytes.decode("utf-8")]

    The decoded text is given as its code points. *)
Definition bval (b : Byte.byte) : Z := Z.of_N (Byte.to_N b).

Definition is_cont (b : Byte.byte) : bool :=
  (128 <=? bval b) && (bval b <=? 191).

Definition cont (b : Byte.byte) : Z := bval b - 128.

Fixpoint utf8_decode (bs : list Byte.byte) : result (list Z) :=
  match bs with
  | [] => Ok []
  | b0 :: r0 =>
      let n0 := bval b0 in
      if n0 <? 128 then bind (utf8_decode r0) (fun t => Ok (n0 :: t))
      else
        match r0 with
        | b1 :: r1 =>
            if (194 <=? n0) && (n0 <=? 223) && is_cont b1 then
              bind (utf8_decode r1) (fun t =>
                Ok (((n0 - 192) * 64 + cont b1) :: t))
            else
              match r1 with
              | b2 :: r2 =>
                  let lo1 := if n0 =? 224 then 160
                             else if n0 =? 240 then 144 else 128 in
                  let hi1 := if n0 =? 237 then 159
                             else if n0 =? 244 then 143 else 191 in
                  let ok1 := (lo1 <=? bval b1) && (bval b1 <=? hi1) in
                  if (224 <=? n0) && (n0 <=? 239) && ok1 && is_cont b2 then
                    bind (utf8_decode r2) (fun t =>
                      Ok (((n0 - 224) * 4096 + cont b1 * 64 + cont b2) :: t))
                  else
                    match r2 with
                    | b3 :: r3 =>
                        if (240 <=? n0) && (n0 <=? 244) && ok1
                           && is_cont b2 && is_cont b3 then
                          bind (utf8_decode r3) (fun t =>
                            Ok (((n0 - 240) * 262144 + cont b1 * 4096
                                 + cont b2 * 64 + cont b3) :: t))
                        else Raise UnicodeDecodeError
                    | [] => Raise UnicodeDecodeError
                    end
              | [] => Raise UnicodeDecodeError
              end
        | [] => Raise UnicodeDecodeError
        end
  end.

(** [raw.decode("utf-8") if raw else None] *)
Definition _read_zip_str (zf : zipfile) (path : string)
  : result (option (list Z)) :=
  bind (_read_zip zf path) (fun raw =>
    match raw with
    | None => Ok None
    | Some [] => Ok None
    | Some raw => bind (utf8_decode raw) (fun s => Ok (Some s))
    end).

End Parser.

(** * The package writer ([core/serializer.py]) *)

Module Serializer.
Import Py Transform.

(** The double quote, and one [name="value"] attribute as the
    f-strings of the writer spell it. *)
Definition dq : string := String "034"%char EmptyString.

Definition attr (name value : string) : string :=
  " " +:+ name +:+ "=" +:+ dq +:+ value +:+ dq.

Definition _esc (text : string) : string :=
  if String.eqb text "" then ""
  else
    replace_char "034"%char "&quot;"
      (replace_char ">"%char "&gt;"
         (replace_char "<"%char "&lt;"
            (replace_char "&"%char "&amp;" text))).

(** ** The host scene *)

(** A scene object with the custom properties the writer reads; a
    property that is not set is [None].  [mesh_vertices] and
    [mesh_polygons] are the evaluated, triangulated mesh the host hands
    out for a mesh object. *)
Inductive bobject : Type := BObject {
  name : string;
  type : string;
  children : list bobject;
  matrix_world : Matrix;
  matrix_local : Matrix;
  mesh_vertices : list (PrimFloat.float * PrimFloat.float * PrimFloat.float);
  mesh_polygons : list (Z * Z * Z);
  bambu_object_id : option Z;
  bambu_uuid : option string;
  bambu_build_transform : option string;
  bambu_printable : option bool;
  bambu_extruder : option Z;
  bambu_part_id : option Z;
  bambu_part_uuid : option string;
  bambu_component_transform : option string;
  bambu_subtype : option string;
  bambu_part_name : option string
}.

Record context : Type := {
  selected_objects : list bobject;
  scene_objects : list bobject
}.

Record group : Type := {
  parent : bobject;
  g_children : list bobject
}.

Definition is_type (t : string) (o : bobject) : bool := String.eqb (type o) t.

Definition has_object_id (o : bobject) : bool :=
  match bambu_object_id o with Some _ => true | None => false end.

Definition _collect_export_groups (ctx : context) (selection_only : bool)
  : list group :=
  let source := if selection_only then selected_objects ctx
                else scene_objects ctx in
  let empties :=
    List.filter (fun o => is_type "EMPTY" o && has_object_id o) source in
  match empties with
  | _ :: _ =>
      flat_map
        (fun empty =>
           match List.filter (is_type "MESH") (children empty) with
           | [] => []
           | cs => [{| parent := empty; g_children := cs |}]
           end)
        empties
  | [] =>
      map (fun m => {| parent := m; g_children := [m] |})
          (List.filter (is_type "MESH") source)
  end.

(** ** Round-trip data kept by the host

    The host keeps each blob as JSON text in a collection property.
    A property is [None] when it is not set, [Some None] when its text
    is not JSON, and [Some (Some v)] when [json.loads] gives [v]. *)

Definition json_prop (A : Type) : Type := option (option A).

(** [json.loads(collection.get(key, default_text))] under the
    [try]/[except] that keeps the default. *)
Definition loads {A : Type} (default : A) (p : json_prop A) : A :=
  match p with
  | Some (Some v) => v
  | _ => default
  end.

Definition is_set {A : Type} (p : option A) : bool :=
  match p with Some _ => true | None => false end.

(** A plate of [model_settings.config]. *)
Record ms_plate : Type := {
  mp_metadata : option (Dict.pydict string string);
  mp_instances : option (list (Dict.pydict string string))
}.

(** A plate of [slice_info.config] and its entries. *)
Record plate_object : Type := {
  po_name : option string;
  po_identify_id : option string;
  po_skipped : option bool
}.

Record plate_filament : Type := {
  pf_id : option Z;
  pf_type : option string;
  pf_color : option string;
  pf_tray_info_idx : option string;
  pf_used_m : option string;
  pf_used_g : option string
}.

Record slice_plate : Type := {
  sp_index : option Z;
  sp_metadata : option (Dict.pydict string (option string));
  sp_objects : option (list plate_object);
  sp_filaments : option (list plate_filament)
}.

Record filament_json : Type := {
  fj_id : option Z;
  fj_type : option string;
  fj_color : option string;
  fj_tray_info_idx : option string
}.

Record collection : Type := {
  bambu_project_settings_ref : option string;
  bambu_model_metadata : json_prop (Dict.pydict string string);
  bambu_plates : json_prop (list slice_plate);
  bambu_filaments : json_prop (Dict.pydict string filament_json);
  bambu_ms_plates : json_prop (list ms_plate);
  bambu_ms_assemble : json_prop (list (Dict.pydict string string))
}.

(** [bpy.data]: the collections and the text blocks by name. *)
Record bpy_data : Type := {
  collections : list collection;
  texts : gmap string string
}.

Definition _find_bambu_collection (data : bpy_data) : option collection :=
  List.find
    (fun col => is_set (bambu_project_settings_ref col)
                || is_set (bambu_model_metadata col))
    (collections data).

(** [x.get(key, default)] on an optional field. *)
Definition or_default {A : Type} (default : A) (v : option A) : A :=
  match v with Some a => a | None => default end.

(** ** Fresh identifiers

    [uuid.uuid4()] draws from the operating system.  The draws of one
    run are given as a sequence [uuid_at]; a computation that draws is
    a function of the number of draws made so far. *)

Definition gen (A : Type) : Type := nat -> A * nat.

Definition ret {A : Type} (a : A) : gen A := fun n => (a, n).

Definition gbind {A B : Type} (m : gen A) (k : A -> gen B) : gen B :=
  fun n => let '(a, n') := m n in k a n'.

Notation "x <- m ;; k" := (gbind m (fun x => k))
  (at level 100, m at next level, right associativity).

(** A [for] loop that threads an accumulator. *)
Fixpoint gfold {A S : Type} (f : S -> A -> gen S) (xs : list A) (s : S)
  : gen S :=
  match xs with
  | [] => ret s
  | x :: xs' => s' <- f s x ;; gfold f xs' s'
  end.

Section writer.
Variable uuid_at : nat -> string.
(** What [get_bambu_version_string()] returns in this session. *)
Variable version_string : string.

Definition uuid4 : gen string := fun n => (uuid_at n, S n).

(** ** Sub-model parts *)

Record part_component : Type := {
  pc_id : Z;
  pc_uuid : string;
  pc_transform : string
}.

(** The ids the children already carry. *)
Definition stored_part_ids (mesh_objects : list bobject) : gset Z :=
  fold_left
    (fun used obj =>
       match bambu_part_id obj with
       | Some pid => {[pid]} ∪ used
       | None => used
       end)
    mesh_objects ∅.

(** [while fallback_id in used_ids: fallback_id += 1], run for at
    most [fuel] rounds. *)
Fixpoint skip_used (fuel : nat) (used_ids : gset Z) (fallback_id : Z) : Z :=
  match fuel with
  | O => fallback_id
  | S fuel' =>
      if decide (fallback_id ∈ used_ids)
      then skip_used fuel' used_ids (fallback_id + 1)
      else fallback_id
  end.

(** One more round than there are used ids always ends the loop
    (see [skip_used_free]). *)
Definition first_free (used_ids : gset Z) (fallback_id : Z) : Z :=
  skip_used (S (size used_ids)) used_ids fallback_id.

(** The id of one child and the allocator state after it. *)
Definition part_id_of (obj : bobject) (fallback_id : Z) (used_ids : gset Z)
  : Z * Z * gset Z :=
  match bambu_part_id obj with
  | None =>
      let f := first_free used_ids fallback_id in
      (f, f + 1, {[f]} ∪ used_ids)
  | Some pid => (pid, fallback_id, used_ids)
  end.

Definition g8 : PrimFloat.float -> string := format_g 8.

Definition vertex_line
    (v : PrimFloat.float * PrimFloat.float * PrimFloat.float) : string :=
  let '(x, y, z) := v in
  "     <vertex" +:+ attr "x" (g8 (x * M_TO_MM)%float)
    +:+ attr "y" (g8 (y * M_TO_MM)%float)
    +:+ attr "z" (g8 (z * M_TO_MM)%float) +:+ " />".

Definition triangle_line (poly : Z * Z * Z) : string :=
  let '(v1, v2, v3) := poly in
  "     <triangle" +:+ attr "v1" (str_of_int v1)
    +:+ attr "v2" (str_of_int v2)
    +:+ attr "v3" (str_of_int v3) +:+ " />".

Definition mesh_object_lines (obj : bobject) (part_id : Z)
    (obj_uuid : string) : list string :=
  [ "  <object" +:+ attr "id" (str_of_int part_id)
      +:+ attr "p:UUID" obj_uuid +:+ attr "type" "model" +:+ ">";
    "   <mesh>";
    "    <vertices>" ]
  ++ map vertex_line (mesh_vertices obj)
  ++ [ "    </vertices>";
       "    <triangles>" ]
  ++ map triangle_line (mesh_polygons obj)
  ++ [ "    </triangles>";
       "   </mesh>";
       "  </object>" ].

Definition model_open_tag : string :=
  "<model" +:+ attr "unit" "millimeter" +:+ attr "xml:lang" "en-US"
    +:+ attr "xmlns" "http://schemas.microsoft.com/3dmanufacturing/core/2015/02"
    +:+ attr "xmlns:p"
          "http://schemas.microsoft.com/3dmanufacturing/production/2015/06"
    +:+ attr "xmlns:BambuStudio" "http://schemas.bambulab.com/package/2021"
    +:+ attr "requiredextensions" "p" +:+ ">".

Definition xml_decl : string :=
  "<?xml" +:+ attr "version" "1.0" +:+ attr "encoding" "UTF-8" +:+ "?>".

Definition version_line : string :=
  " <metadata" +:+ attr "name" "BambuStudio:3mfVersion" +:+ ">1</metadata>".

(** A stored transform, or the one computed from [mat] when none is
    stored or the stored one is empty. *)
Definition transform_or (stored : option string) (mat : Matrix) : string :=
  let t := or_default "" stored in
  if String.eqb t "" then matrix_to_3mf_transform mat M_TO_MM else t.

Record sub_state : Type := {
  ss_fallback_id : Z;
  ss_used_ids : gset Z;
  ss_lines : list string;
  ss_components : list part_component
}.

Definition sub_model_step (st : sub_state) (obj : bobject) : gen sub_state :=
  let '(part_id, fallback_id, used_ids) :=
    part_id_of obj (ss_fallback_id st) (ss_used_ids st) in
  fresh <- uuid4 ;;
  let obj_uuid := or_default fresh (bambu_part_uuid obj) in
  let comp_transform :=
    transform_or (bambu_component_transform obj) (matrix_local obj) in
  ret {| ss_fallback_id := fallback_id;
         ss_used_ids := used_ids;
         ss_lines := ss_lines st ++ mesh_object_lines obj part_id obj_uuid;
         ss_components :=
           ss_components st
           ++ [{| pc_id := part_id; pc_uuid := obj_uuid;
                  pc_transform := comp_transform |}] |}.

(** The text of the part and its components; the third result of
    the source, [id_map], is always the empty dict and is left out. *)
Definition _build_sub_model (mesh_objects : list bobject)
  : gen (string * list part_component) :=
  st <- gfold sub_model_step mesh_objects
          {| ss_fallback_id := 1;
             ss_used_ids := stored_part_ids mesh_objects;
             ss_lines := [xml_decl; model_open_tag; version_line;
                          " <resources>"];
             ss_components := [] |} ;;
  ret (join (String "010"%char EmptyString)
            (ss_lines st ++ [" </resources>"; "</model>"]),
       ss_components st).

(** ** Main model (assembly root) *)

Record assembly : Type := {
  a_id : Z;
  a_uuid : string;
  a_components : list Parser.component
}.

Definition nl : string := String "010"%char EmptyString.

Definition metadata_line (key val : string) : string :=
  " <metadata" +:+ attr "name" (_esc key) +:+ ">" +:+ _esc val
    +:+ "</metadata>".

Definition _written : list string := ["Application"; "BambuStudio:3mfVersion"].

Definition application_line (app : string) : string :=
  " <metadata" +:+ attr "name" "Application" +:+ ">" +:+ _esc app
    +:+ "</metadata>".

(** One round of the loop over [model_metadata.items()]. *)
Definition add_round_trip (lines : list string) (kv : string * string)
  : list string :=
  let '(key, val) := kv in
  if negb (existsb (String.eqb key) _written) && negb (String.eqb val "")
  then lines ++ [metadata_line key val]
  else lines.

Definition component_line (comp : Parser.component) : string :=
  "    <component" +:+ attr "p:path" (Parser.c_path comp)
    +:+ attr "objectid" (str_of_int (Parser.c_objectid comp))
    +:+ attr "p:UUID" (Parser.c_uuid comp)
    +:+ attr "transform" (Parser.c_transform comp) +:+ " />".

Definition add_resource (lines : list string) (asm : assembly) : list string :=
  let lines :=
    lines ++ [ "  <object" +:+ attr "id" (str_of_int (a_id asm))
                 +:+ attr "p:UUID" (a_uuid asm) +:+ attr "type" "model"
                 +:+ ">";
               "   <components>" ] in
  let lines :=
    fold_left (fun ls comp => ls ++ [component_line comp])
              (a_components asm) lines in
  lines ++ ["   </components>"; "  </object>"].

Definition item_line (bi : Parser.build_item) : string :=
  "  <item" +:+ attr "objectid" (str_of_int (Parser.b_objectid bi))
    +:+ attr "p:UUID" (Parser.b_uuid bi)
    +:+ attr "transform" (Parser.b_transform bi)
    +:+ attr "printable" (if Parser.b_printable bi then "1" else "0")
    +:+ " />".

(** The lines of the part, in the order the source appends them. *)
Definition main_model_lines (assembly_objects : list assembly)
    (build_items : list Parser.build_item)
    (model_metadata : Dict.pydict string string) (build_uuid : string)
  : list string :=
  let lines := [xml_decl; model_open_tag] in
  let app :=
    match model_metadata with
    | [] => version_string
    | _ => Dict.get_or "Application" version_string model_metadata
    end in
  let lines := lines ++ [application_line app] in
  let lines := lines ++ [version_line] in
  let lines := fold_left add_round_trip model_metadata lines in
  let lines := lines ++ [" <resources>"] in
  let lines := fold_left add_resource assembly_objects lines in
  let lines := lines ++ [" </resources>"] in
  let lines := lines ++ [" <build" +:+ attr "p:UUID" build_uuid +:+ ">"] in
  let lines :=
    fold_left (fun ls bi => ls ++ [item_line bi]) build_items lines in
  lines ++ [" </build>"; "</model>"].

Definition _build_main_model (assembly_objects : list assembly)
    (build_items : list Parser.build_item)
    (model_metadata : Dict.pydict string string) : gen string :=
  build_uuid <- uuid4 ;;
  ret (join nl (main_model_lines assembly_objects build_items
                  model_metadata build_uuid)).

(** ** [Metadata/model_settings.config] *)

Definition key_value_line (indent key val : string) : string :=
  indent +:+ "<metadata" +:+ attr "key" key +:+ attr "value" val +:+ " />".

Definition part_lines (child : bobject) (comp : Parser.component)
  : list string :=
  [ "    <part" +:+ attr "id" (str_of_int (Parser.c_objectid comp))
      +:+ attr "subtype" (_esc (or_default "normal_part" (bambu_subtype child)))
      +:+ ">";
    key_value_line "      " "name"
      (_esc (or_default (name child) (bambu_part_name child))) ]
  ++ match bambu_extruder child with
     | Some extruder =>
         [key_value_line "      " "extruder" (str_of_int extruder)]
     | None => []
     end
  ++ ["    </part>"].

Definition object_lines (g : group) (asm : assembly) : list string :=
  [ "  <object" +:+ attr "id" (str_of_int (a_id asm)) +:+ ">";
    key_value_line "    " "name" (_esc (name (parent g)));
    key_value_line "    " "extruder"
      (str_of_int (or_default 1 (bambu_extruder (parent g)))) ]
  ++ flat_map (fun cc => part_lines (fst cc) (snd cc))
              (combine (g_children g) (a_components asm))
  ++ ["  </object>"].

Definition instance_lines (instance : Dict.pydict string string)
  : list string :=
  ["    <model_instance>"]
  ++ map (fun kv => key_value_line "      " (_esc (fst kv)) (_esc (snd kv)))
         instance
  ++ ["    </model_instance>"].

Definition ms_plate_lines (plate : ms_plate) : list string :=
  ["  <plate>"]
  ++ map (fun kv => key_value_line "    " (_esc (fst kv)) (_esc (snd kv)))
         (or_default [] (mp_metadata plate))
  ++ flat_map instance_lines (or_default [] (mp_instances plate))
  ++ ["  </plate>"].

Definition item_get (key : string) (item : Dict.pydict string string)
  : string := Dict.get_or key "" item.

Definition assemble_item_line (item : Dict.pydict string string) : string :=
  "   <assemble_item" +:+ attr "object_id" (_esc (item_get "object_id" item))
    +:+ attr "instance_id" (_esc (item_get "instance_id" item))
    +:+ attr "transform" (_esc (item_get "transform" item))
    +:+ attr "offset" (_esc (item_get "offset" item)) +:+ " />".

Definition _build_model_settings (groups : list group)
    (assembly_objects : list assembly) (ms_plates : list ms_plate)
    (ms_assemble : list (Dict.pydict string string)) : string :=
  join nl
    ([xml_decl; "<config>"]
     ++ flat_map (fun ga => object_lines (fst ga) (snd ga))
                 (combine groups assembly_objects)
     ++ flat_map ms_plate_lines ms_plates
     ++ match ms_assemble with
        | [] => []
        | _ => ["  <assemble>"] ++ map assemble_item_line ms_assemble
               ++ ["  </assemble>"]
        end
     ++ ["</config>"]).

(** ** Default plates for an export from scratch *)

(** [enumerate(xs)] *)
Definition enumerate {A : Type} (xs : list A) : list (Z * A) :=
  combine (map Z.of_nat (seq 0 (length xs))) xs.

Definition _generate_default_plates (groups : list group)
    (assembly_objects : list assembly)
  : list ms_plate * list (Dict.pydict string string) :=
  let pairs := enumerate (combine groups assembly_objects) in
  let instances :=
    map (fun '(idx, (_, asm)) =>
           [("object_id", str_of_int (a_id asm));
            ("instance_id", "0");
            ("identify_id", str_of_int idx)])
        pairs in
  let assemble_items :=
    map (fun '(idx, (_, asm)) =>
           [("object_id", str_of_int (a_id asm));
            ("instance_id", "0");
            ("transform", "");
            ("offset", "")])
        pairs in
  ([{| mp_metadata := Some [("index", "1"); ("locked", "false")];
       mp_instances := Some instances |}],
   assemble_items).

Definition _generate_default_slice_plates (groups : list group)
    (assembly_objects : list assembly) : list slice_plate :=
  let objects :=
    map (fun '(idx, (g, _)) =>
           {| po_name := Some (name (parent g));
              po_identify_id := Some (str_of_int idx);
              po_skipped := Some false |})
        (enumerate (combine groups assembly_objects)) in
  [{| sp_index := None;
      sp_metadata := Some [("index", Some "1")];
      sp_objects := Some objects;
      sp_filaments := Some [] |}].

(** ** Stale references *)

Definition index_of (i : Z) : string := str_of_int (i + 1).

Definition live_instance (valid_object_ids : gset string)
    (inst : Dict.pydict string string) : bool :=
  bool_decide (Dict.get_or "object_id" "" inst ∈ valid_object_ids).

(** The first loop: the plates that keep an instance, each with the
    kept instances only. *)
Definition surviving_plates (ms_plates : list ms_plate)
    (valid_object_ids : gset string) : list ms_plate :=
  flat_map
    (fun plate =>
       match List.filter (live_instance valid_object_ids)
                    (or_default [] (mp_instances plate)) with
       | [] => []
       | kept => [{| mp_metadata := mp_metadata plate;
                     mp_instances := Some kept |}]
       end)
    ms_plates.

(** The second loop: [meta["index"] = str(i + 1)]. *)
Definition renumber_plates (cleaned : list ms_plate) : list ms_plate :=
  map (fun '(i, plate) =>
         {| mp_metadata :=
              Some (Dict.set "index" (index_of i)
                             (or_default [] (mp_metadata plate)));
            mp_instances := mp_instances plate |})
      (enumerate cleaned).

Definition _clean_stale_plates (ms_plates : list ms_plate)
    (valid_object_ids : gset string) : list ms_plate :=
  match ms_plates with
  | [] => ms_plates
  | _ => renumber_plates (surviving_plates ms_plates valid_object_ids)
  end.

Definition _clean_stale_assemble
    (ms_assemble : list (Dict.pydict string string))
    (valid_object_ids : gset string) : list (Dict.pydict string string) :=
  match ms_assemble with
  | [] => ms_assemble
  | _ => List.filter (live_instance valid_object_ids) ms_assemble
  end.

Definition live_object (valid_names : gset string) (obj : plate_object)
  : bool :=
  bool_decide (or_default "" (po_name obj) ∈ valid_names).

Definition surviving_slice_plates (plates_json : list slice_plate)
    (valid_names : gset string) : list slice_plate :=
  flat_map
    (fun plate =>
       match List.filter (live_object valid_names)
                    (or_default [] (sp_objects plate)) with
       | [] => []
       | kept => [{| sp_index := sp_index plate;
                     sp_metadata := sp_metadata plate;
                     sp_objects := Some kept;
                     sp_filaments := sp_filaments plate |}]
       end)
    plates_json.

Definition renumber_slice_plates (cleaned : list slice_plate)
  : list slice_plate :=
  map (fun '(i, plate) =>
         {| sp_index := sp_index plate;
            sp_metadata :=
              Some (Dict.set "index" (Some (index_of i))
                             (or_default [] (sp_metadata plate)));
            sp_objects := sp_objects plate;
            sp_filaments := sp_filaments plate |})
      (enumerate cleaned).

Definition _clean_stale_slice_plates (plates_json : list slice_plate)
    (valid_names : gset string) : list slice_plate :=
  match plates_json with
  | [] => plates_json
  | _ => renumber_slice_plates (surviving_slice_plates plates_json valid_names)
  end.

(** ** [Metadata/slice_info.config] *)

(** [s.split("-", 1)[1] if "-" in s else s] *)
Fixpoint after_dash (s : string) : option string :=
  match s with
  | EmptyString => None
  | String c s' => if Ascii.eqb c "-"%char then Some s' else after_dash s'
  end.

Definition raw_version : string :=
  or_default version_string (after_dash version_string).

(** [str(val)] for a value that is a string or [None]. *)
Definition str_of_value (val : option string) : string :=
  or_default "None" val.

Definition id_text (fid : option Z) (default : string) : string :=
  match fid with Some z => str_of_int z | None => default end.

Definition slice_object_line (obj_entry : plate_object) : string :=
  "    <object"
    +:+ attr "identify_id" (_esc (or_default "" (po_identify_id obj_entry)))
    +:+ attr "name" (_esc (or_default "" (po_name obj_entry)))
    +:+ attr "skipped"
          (if or_default false (po_skipped obj_entry) then "true" else "false")
    +:+ " />".

Definition slice_filament_line (fil : plate_filament) : string :=
  "    <filament" +:+ attr "id" (id_text (pf_id fil) "")
    +:+ attr "tray_info_idx" (_esc (or_default "" (pf_tray_info_idx fil)))
    +:+ attr "type" (_esc (or_default "" (pf_type fil)))
    +:+ attr "color" (_esc (or_default "" (pf_color fil)))
    +:+ attr "used_m" (or_default "" (pf_used_m fil))
    +:+ attr "used_g" (or_default "" (pf_used_g fil)) +:+ " />".

Definition slice_plate_lines (plate : slice_plate) : list string :=
  ["  <plate>"]
  ++ map (fun kv => key_value_line "    " (_esc (fst kv))
                      (_esc (str_of_value (snd kv))))
         (or_default [] (sp_metadata plate))
  ++ map slice_object_line (or_default [] (sp_objects plate))
  ++ map slice_filament_line (or_default [] (sp_filaments plate))
  ++ ["  </plate>"].

Definition fallback_object_line (g : group) : string :=
  "    <object" +:+ attr "identify_id" "0"
    +:+ attr "name" (_esc (name (parent g)))
    +:+ attr "skipped" "false" +:+ " />".

Definition fallback_filament_line (entry : string * filament_json) : string :=
  let '(fid_str, info) := entry in
  "    <filament" +:+ attr "id" (id_text (fj_id info) fid_str)
    +:+ attr "tray_info_idx" (_esc (or_default "" (fj_tray_info_idx info)))
    +:+ attr "type" (_esc (or_default "PLA" (fj_type info)))
    +:+ attr "color" (_esc (or_default "#808080" (fj_color info)))
    +:+ attr "used_m" "" +:+ attr "used_g" "" +:+ " />".

Definition _build_slice_info (groups : list group)
    (plates_json : list slice_plate)
    (filaments_json : Dict.pydict string filament_json) : string :=
  join nl
    ([ xml_decl; "<config>";
       "  <header>";
       "    <header_item" +:+ attr "key" "X-BBL-Client-Type"
         +:+ attr "value" "slicer" +:+ " />";
       "    <header_item" +:+ attr "key" "X-BBL-Client-Version"
         +:+ attr "value" raw_version +:+ " />";
       "  </header>" ]
     ++ match plates_json with
        | _ :: _ => flat_map slice_plate_lines plates_json
        | [] =>
            ["  <plate>";
             "    <metadata" +:+ attr "key" "index" +:+ attr "value" "1"
               +:+ " />"]
            ++ map fallback_object_line groups
            ++ map fallback_filament_line filaments_json
            ++ ["  </plate>"]
        end
     ++ ["</config>"]).

(** ** OPC boilerplate *)

Definition _content_types_xml : string :=
  join nl
    [ xml_decl;
      "<Types" +:+ attr "xmlns"
        "http://schemas.openxmlformats.org/package/2006/content-types" +:+ ">";
      " <Default" +:+ attr "Extension" "rels" +:+ attr "ContentType"
        "application/vnd.openxmlformats-package.relationships+xml" +:+ " />";
      " <Default" +:+ attr "Extension" "model" +:+ attr "ContentType"
        "application/vnd.ms-package.3dmanufacturing-3dmodel+xml" +:+ " />";
      " <Default" +:+ attr "Extension" "png" +:+ attr "ContentType" "image/png"
        +:+ " />";
      " <Default" +:+ attr "Extension" "config" +:+ attr "ContentType"
        "text/xml" +:+ " />";
      "</Types>" ].

Definition relationships_open : string :=
  "<Relationships" +:+ attr "xmlns"
    "http://schemas.openxmlformats.org/package/2006/relationships" +:+ ">".

Definition relationship_line (target rel_id : string) : string :=
  " <Relationship" +:+ attr "Target" target +:+ attr "Id" rel_id
    +:+ attr "Type"
          "http://schemas.microsoft.com/3dmanufacturing/2013/01/3dmodel"
    +:+ " />".

Definition _root_rels_xml : string :=
  join nl
    [ xml_decl; relationships_open;
      relationship_line "/3D/3dmodel.model" "rel0";
      "</Relationships>" ].

Definition _model_rels_xml (sub_model_paths : list string) : string :=
  join nl
    ([xml_decl; relationships_open]
     ++ map (fun '(i, path) =>
               relationship_line path ("rel" +:+ str_of_int (i + 1)))
            (enumerate sub_model_paths)
     ++ ["</Relationships>"]).

(** ** The export entry point *)

Inductive status : Type := CANCELLED | FINISHED.

(** A written archive: its members in the order they were added.
    The file system maps a path to the archive stored there. *)
Definition archive : Type := list (string * string).
Abbreviation filesystem := (gmap string archive).

Record export_state : Type := {
  next_part_id : Z;
  sub_model_refs : list string;
  sub_model_xmls : Dict.pydict string string;
  assembly_objects : list assembly;
  build_items : list Parser.build_item
}.

Definition initial_state : export_state :=
  {| next_part_id := 1;
     sub_model_refs := [];
     sub_model_xmls := [];
     assembly_objects := [];
     build_items := [] |}.

(** The assembly id of a group and the counter after it. *)
Definition assembly_id_of (parent : bobject) (next_part_id : Z) : Z * Z :=
  match bambu_object_id parent with
  | None => (next_part_id, next_part_id + 1)
  | Some stored => (stored, next_part_id)
  end.

Definition sub_path_of (assembly_id : Z) : string :=
  "/3D/Objects/object_" +:+ str_of_int assembly_id +:+ ".model".

(** One component per part; the default of [comp.get("uuid", ...)]
    is drawn and not used, since every part carries its uuid. *)
Definition component_of (sub_path : string)
    (acc : list Parser.component) (comp : part_component)
  : gen (list Parser.component) :=
  _ <- uuid4 ;;
  ret (acc ++ [{| Parser.c_path := sub_path;
                  Parser.c_objectid := pc_id comp;
                  Parser.c_uuid := pc_uuid comp;
                  Parser.c_transform := pc_transform comp |}]).

Definition export_group (st : export_state) (g : group) : gen export_state :=
  let '(assembly_id, next) := assembly_id_of (parent g) (next_part_id st) in
  let sub_path := sub_path_of assembly_id in
  sub <- _build_sub_model (g_children g) ;;
  fresh <- uuid4 ;;
  let obj_uuid := or_default fresh (bambu_uuid (parent g)) in
  components <- gfold (component_of sub_path) (snd sub) [] ;;
  item_uuid <- uuid4 ;;
  ret {| next_part_id := next;
         sub_model_refs := sub_model_refs st ++ [sub_path];
         sub_model_xmls := Dict.set sub_path (fst sub) (sub_model_xmls st);
         assembly_objects :=
           assembly_objects st
           ++ [{| a_id := assembly_id; a_uuid := obj_uuid;
                  a_components := components |}];
         build_items :=
           build_items st
           ++ [{| Parser.b_objectid := assembly_id;
                  Parser.b_uuid := item_uuid;
                  Parser.b_transform :=
                    transform_or (bambu_build_transform (parent g))
                                 (matrix_world (parent g));
                  Parser.b_printable :=
                    or_default true (bambu_printable (parent g)) |}] |}.

(** The loop over the groups. *)
Definition export_groups (groups : list group) : gen export_state :=
  gfold export_group groups initial_state.

Definition project_settings_of (data : bpy_data) (col : option collection)
  : string :=
  match col with
  | Some c =>
      let ref := or_default "" (bambu_project_settings_ref c) in
      if String.eqb ref "" then ""
      else or_default "" (texts data !! ref)
  | None => ""
  end.

(** [json.loads] of one property of the collection, if there is one. *)
Definition stored {A : Type} (default : A) (col : option collection)
    (field : collection -> json_prop A) : A :=
  match col with
  | Some c => loads default (field c)
  | None => default
  end.

Definition write_members (data : bpy_data) (groups : list group)
  : gen archive :=
  let col := _find_bambu_collection data in
  let project_settings := project_settings_of data col in
  let model_metadata := stored [] col bambu_model_metadata in
  let plates_json := stored [] col bambu_plates in
  let filaments_json := stored [] col bambu_filaments in
  let ms_plates_json := stored [] col bambu_ms_plates in
  let ms_assemble_json := stored [] col bambu_ms_assemble in
  st <- export_groups groups ;;
  let valid_object_ids : gset string :=
    list_to_set (map (fun asm => str_of_int (a_id asm)) (assembly_objects st)) in
  let valid_names : gset string :=
    list_to_set (map (fun g => name (parent g)) groups) in
  let ms_plates_json := _clean_stale_plates ms_plates_json valid_object_ids in
  let ms_assemble_json :=
    _clean_stale_assemble ms_assemble_json valid_object_ids in
  let plates_json := _clean_stale_slice_plates plates_json valid_names in
  let '(ms_plates_json, ms_assemble_json) :=
    match ms_plates_json with
    | [] => _generate_default_plates groups (assembly_objects st)
    | _ => (ms_plates_json, ms_assemble_json)
    end in
  let plates_json :=
    match plates_json with
    | [] => _generate_default_slice_plates groups (assembly_objects st)
    | _ => plates_json
    end in
  main_xml <- _build_main_model (assembly_objects st) (build_items st)
                model_metadata ;;
  ret ([ ("[Content_Types].xml", _content_types_xml);
         ("_rels/.rels", _root_rels_xml);
         ("3D/3dmodel.model", main_xml);
         ("3D/_rels/3dmodel.model.rels",
          _model_rels_xml (sub_model_refs st)) ]
       ++ map (fun '(path, xml_str) =>
                 (lstrip_by (Ascii.eqb "/"%char) path, xml_str))
              (sub_model_xmls st)
       ++ [ ("Metadata/model_settings.config",
             _build_model_settings groups (assembly_objects st)
               ms_plates_json ms_assemble_json);
            ("Metadata/slice_info.config",
             _build_slice_info groups plates_json filaments_json) ]
       ++ (if String.eqb project_settings "" then []
           else [("Metadata/project_settings.config", project_settings)])).

(** The result and the file system after the call.  Nothing is
    touched before the groups are known to be non-empty; the archive
    is then created at [filepath] and filled. *)
Definition export_3mf (data : bpy_data) (ctx : context) (filepath : string)
    (selection_only : bool) (fs : filesystem) : gen (status * filesystem) :=
  match _collect_export_groups ctx selection_only with
  | [] => ret (CANCELLED, fs)
  | groups =>
      members <- write_members data groups ;;
      ret (FINISHED, <[filepath := members]> fs)
  end.

End writer.

End Serializer.

(** * Properties of the transform codec *)

Section transform_properties.
Import Py Transform.

Lemma map_result_length {A B : Type} (f : A -> result B) (xs : list A)
    (ys : list B) :
  map_result f xs = Ok ys -> length ys = length xs.
Proof.
  revert ys. induction xs as [|x xs IH]; intros ys H; simpl in H.
  - inversion H. reflexivity.
  - destruct (f x) as [y|e]; simpl in H; [|discriminate].
    destruct (map_result f xs) as [ys'|e]; simpl in H; [|discriminate].
    inversion H. simpl. f_equal. apply IH. reflexivity.
Qed.

Lemma map_result_total {A B : Type} (f : A -> result B) (xs : list A) :
  Forall (fun x => exists y, f x = Ok y) xs ->
  exists ys, map_result f xs = Ok ys.
Proof.
  induction 1 as [|x xs [y Hy] _ [ys Hys]]; simpl.
  - exists []. reflexivity.
  - exists (y :: ys). rewrite Hy, Hys. reflexivity.
Qed.

(** A token that [float] accepts. *)
Definition numeric (tok : string) : Prop := exists v, float tok = Ok v.

(** The inputs the codec answers with the identity: no string, a
    string that is blank once stripped (the empty string among them),
    and numeric tokens that are not twelve. *)
Inductive lenient_input : option string -> Prop :=
| input_missing : lenient_input None
| input_blank (s : string) : strip s = "" -> lenient_input (Some s)
| input_wrong_count (s : string) :
    Forall numeric (split (strip s)) ->
    length (split (strip s)) <> 12%nat ->
    lenient_input (Some s).

Lemma twelve_or_identity (vals : list PrimFloat.float)
    (scale : PrimFloat.float) :
  length vals <> 12%nat ->
  match vals with
  | [v0; v1; v2; v3; v4; v5; v6; v7; v8; v9; v10; v11] =>
      Ok ((v0, v3, v6, v9 * scale),
          (v1, v4, v7, v10 * scale),
          (v2, v5, v8, v11 * scale),
          (0, 0, 0, 1))%float
  | _ => Ok Identity4
  end = Ok Identity4.
Proof.
  intros Hlen.
  do 12 (destruct vals as [|? vals]; [reflexivity|]).
  destruct vals; [|reflexivity].
  exfalso. apply Hlen. reflexivity.
Qed.

End transform_properties.

(** Settles [numeric tok] for a literal token by running [float]. *)
Ltac numeric_token :=
  match goal with
  | |- numeric ?tok =>
      let r := eval vm_compute in (Py.float tok) in
      match r with
      | Py.Ok ?v => exists v; vm_compute; reflexivity
      end
  end.

(** C1 (as amended): a transform string that is missing, empty, blank, or
    made of numeric tokens that are not twelve in number decodes to the
    4x4 identity matrix, and the decoder does not raise on it. *)
Theorem parse_3mf_transform_lenient (transform_str : option string)
    (scale : PrimFloat.float) :
  lenient_input transform_str ->
  Transform.parse_3mf_transform transform_str scale = Py.Ok Transform.Identity4.
Proof.
  intros H. destruct H as [|s Hblank|s Hnum Hlen]; simpl.
  - reflexivity.
  - rewrite Hblank. simpl. rewrite orb_true_r. reflexivity.
  - destruct (String.eqb s "" || String.eqb (Py.strip s) ""); [reflexivity|].
    destruct (map_result_total Py.float _ Hnum) as [vals Hvals].
    rewrite Hvals. simpl. apply twelve_or_identity.
    rewrite (map_result_length _ _ _ Hvals). exact Hlen.
Qed.

Lemma parse_3mf_transform_lenient_witness :
  lenient_input (Some "1 0 0 0 1 0 0 0 1 0 0")
  /\ Transform.parse_3mf_transform (Some "1 0 0 0 1 0 0 0 1 0 0") Transform.MM_TO_M
     = Py.Ok Transform.Identity4.
Proof.
  assert (Hs : Py.split (Py.strip "1 0 0 0 1 0 0 0 1 0 0")
               = ["1"; "0"; "0"; "0"; "1"; "0"; "0"; "0"; "1"; "0"; "0"])
    by (vm_compute; reflexivity).
  assert (H : lenient_input (Some "1 0 0 0 1 0 0 0 1 0 0")).
  { apply input_wrong_count; rewrite Hs.
    - repeat constructor; numeric_token.
    - simpl. discriminate. }
  split; [exact H|]. apply (parse_3mf_transform_lenient _ _ H).
Defined.

(** C1 (as stated) fails: a string with a token that is not a number makes
    the decoder raise [ValueError] instead of returning the identity. *)
Lemma parse_3mf_transform_non_numeric_raises :
  Transform.parse_3mf_transform (Some "1 0 0 0 1 0 0 0 1 0 0 x") Transform.MM_TO_M
  = Py.Raise Py.ValueError
  /\ Transform.parse_3mf_transform (Some "1 0 0 0 1 0 0 0 1 0 0 x") Transform.MM_TO_M
     <> Py.Ok Transform.Identity4.
Proof.
  assert (H : Transform.parse_3mf_transform (Some "1 0 0 0 1 0 0 0 1 0 0 x")
                Transform.MM_TO_M = Py.Raise Py.ValueError)
    by (vm_compute; reflexivity).
  split; [exact H|]. rewrite H. discriminate.
Qed.

(** The decoder raises exactly when [float] raises on one of the tokens,
    and with the same exception. *)
Lemma parse_3mf_transform_raises (s : string) (scale : PrimFloat.float)
    (e : Py.exn) :
  Transform.parse_3mf_transform (Some s) scale = Py.Raise e
  <-> Py.map_result Py.float (Py.split (Py.strip s)) = Py.Raise e.
Proof.
  unfold Transform.parse_3mf_transform.
  destruct (String.eqb_spec s "") as [->|_]; simpl.
  { split; discriminate. }
  destruct (String.eqb_spec (Py.strip s) "") as [->|_]; simpl.
  { split; discriminate. }
  destruct (Py.map_result Py.float (Py.split (Py.strip s))) as [vals|e'];
    simpl; [|split; intros H; inversion H; reflexivity].
  split; [|discriminate].
  do 12 (destruct vals as [|? vals]; [discriminate|]).
  destruct vals; discriminate.
Qed.

(** Twelve numeric tokens: the matrix the decoder builds from them. *)
Lemma parse_3mf_transform_twelve (s : string) (scale : PrimFloat.float)
    (v0 v1 v2 v3 v4 v5 v6 v7 v8 v9 v10 v11 : PrimFloat.float) :
  Py.map_result Py.float (Py.split (Py.strip s))
  = Py.Ok [v0; v1; v2; v3; v4; v5; v6; v7; v8; v9; v10; v11] ->
  Transform.parse_3mf_transform (Some s) scale
  = Py.Ok ((v0, v3, v6, v9 * scale),
           (v1, v4, v7, v10 * scale),
           (v2, v5, v8, v11 * scale),
           (0, 0, 0, 1))%float.
Proof.
  intros Hvals. unfold Transform.parse_3mf_transform.
  assert (Hne : String.eqb s "" || String.eqb (Py.strip s) "" = false).
  { destruct (String.eqb_spec (Py.strip s) "") as [E|_].
    - rewrite E in Hvals. simpl in Hvals. inversion Hvals.
    - destruct (String.eqb_spec s "") as [E|_]; [|reflexivity].
      subst s. simpl in Hvals. inversion Hvals. }
  rewrite Hne, Hvals. reflexivity.
Qed.

(** C7: on a string of twelve numeric tokens the decoder returns the
    matrix whose column [j] (for [j < 3]) is row [j] of the input, whose
    last column is the translation triple (tokens 10 to 12) times [scale]
    and whose bottom row is (0, 0, 0, 1); the 3x3 block is not scaled. *)
Theorem parse_3mf_transform_layout (s : string) (scale : PrimFloat.float)
    (vals : list PrimFloat.float) :
  Py.map_result Py.float (Py.split (Py.strip s)) = Py.Ok vals ->
  length vals = 12%nat ->
  exists m,
    Transform.parse_3mf_transform (Some s) scale = Py.Ok m
    /\ (forall i j, (i < 3)%nat -> (j < 3)%nat ->
          Transform.entry m i j = nth (3 * j + i) vals 0%float)
    /\ (forall i, (i < 3)%nat ->
          Transform.entry m i 3 = (nth (9 + i) vals 0 * scale)%float)
    /\ Transform.row m 3 = (0, 0, 0, 1)%float.
Proof.
  intros Hvals Hlen.
  do 12 (destruct vals as [|? vals]; [discriminate|]).
  destruct vals; [|discriminate].
  eexists. split; [apply parse_3mf_transform_twelve; exact Hvals|].
  repeat split.
  - intros i j Hi Hj.
    destruct i as [|[|[|i]]]; [| | |lia];
      (destruct j as [|[|[|j]]]; [| | |lia]); reflexivity.
  - intros i Hi. destruct i as [|[|[|i]]]; [| | |lia]; reflexivity.
Qed.

Lemma parse_3mf_transform_layout_witness :
  exists m,
    Transform.parse_3mf_transform (Some "1 2 3 4 5 6 7 8 9 10 20 30") 2%float
    = Py.Ok m
    /\ (forall i j, (i < 3)%nat -> (j < 3)%nat ->
          Transform.entry m i j
          = nth (3 * j + i) [1; 2; 3; 4; 5; 6; 7; 8; 9; 10; 20; 30]%float 0%float)
    /\ (forall i, (i < 3)%nat ->
          Transform.entry m i 3
          = (nth (9 + i) [1; 2; 3; 4; 5; 6; 7; 8; 9; 10; 20; 30] 0 * 2)%float)
    /\ Transform.row m 3 = (0, 0, 0, 1)%float.
Proof.
  apply (parse_3mf_transform_layout "1 2 3 4 5 6 7 8 9 10 20 30" 2%float
           [1; 2; 3; 4; 5; 6; 7; 8; 9; 10; 20; 30]%float).
  - vm_compute. reflexivity.
  - reflexivity.
Defined.

(** * Properties of the package parser *)

(** C9: a member that is stored with zero bytes reads as [None] through
    [_read_zip_str], which is also what a missing member reads as. *)
Theorem read_zip_str_empty_part_is_absent (zf : Parser.zipfile) (path : string) :
  zf !! path = Some (Py.Ok []) ->
  Parser._read_zip zf path = Py.Ok (Some [])
  /\ Parser._read_zip_str zf path = Py.Ok None
  /\ Parser._read_zip_str zf path = Parser._read_zip_str (delete path zf) path.
Proof.
  intros H. unfold Parser._read_zip_str, Parser._read_zip, Parser.read.
  rewrite H, lookup_delete_eq. repeat split.
Qed.

Lemma read_zip_str_empty_part_is_absent_witness :
  Parser._read_zip
    ({["Metadata/project_settings.config" := Py.Ok []]} : Parser.zipfile)
    "Metadata/project_settings.config" = Py.Ok (Some [])
  /\ Parser._read_zip_str
       ({["Metadata/project_settings.config" := Py.Ok []]} : Parser.zipfile)
       "Metadata/project_settings.config" = Py.Ok None
  /\ Parser._read_zip_str
       ({["Metadata/project_settings.config" := Py.Ok []]} : Parser.zipfile)
       "Metadata/project_settings.config"
     = Parser._read_zip_str
         (delete "Metadata/project_settings.config"
            ({["Metadata/project_settings.config" := Py.Ok []]} : Parser.zipfile))
         "Metadata/project_settings.config".
Proof.
  apply (read_zip_str_empty_part_is_absent
           ({["Metadata/project_settings.config" := Py.Ok []]} : Parser.zipfile)
           "Metadata/project_settings.config").
  apply lookup_singleton_eq.
Defined.

Lemma map_result_Forall2 {A B : Type} (f : A -> Py.result B) (xs : list A)
    (ys : list B) :
  Py.map_result f xs = Py.Ok ys -> Forall2 (fun x y => f x = Py.Ok y) xs ys.
Proof.
  revert ys. induction xs as [|x xs IH]; intros ys H; simpl in H.
  - inversion H. constructor.
  - destruct (f x) as [y|e] eqn:Ey; simpl in H; [|discriminate].
    destruct (Py.map_result f xs) as [ys'|e]; simpl in H; [|discriminate].
    inversion H. constructor; [exact Ey|]. apply IH. reflexivity.
Qed.

(** The attribute of an [<item>] that makes it printable: missing, or
    the string [1]. *)
Definition printable_attribute_ok (item : Xml.element) : Prop :=
  Xml.get "printable" item = None \/ Xml.get "printable" item = Some "1".

Lemma parse_item_printable (item : Xml.element) (bi : Parser.build_item) :
  Parser.parse_item item = Py.Ok bi ->
  (Parser.b_printable bi = true <-> printable_attribute_ok item).
Proof.
  unfold Parser.parse_item, printable_attribute_ok, Xml.get_or, Xml.get,
    Dict.get_or.
  destruct (Parser.int_attr_or_zero _) as [oid|e]; simpl; [|discriminate].
  intros H. inversion H; subst; clear H. simpl.
  destruct (Dict.get "printable" (Xml.attrib item)) as [v|].
  - destruct (String.eqb_spec v "1") as [->|Hne]; split; auto.
    + discriminate.
    + intros [?|E]; [discriminate|]. inversion E. contradiction.
  - split; auto.
Qed.

(** C10: in every assembly root that parses, each build item is printable
    exactly when its [<item>] has no [printable] attribute or has it equal
    to the string [1]; the items come in file order, one per element. *)
Theorem parse_assembly_printable (root : Xml.element)
    (metadata : Dict.pydict string string)
    (objects : Dict.pydict Z Parser.assembly_object)
    (build_items : list Parser.build_item) :
  Parser._parse_assembly root = Py.Ok (metadata, objects, build_items) ->
  Forall2
    (fun item bi => Parser.b_printable bi = true <-> printable_attribute_ok item)
    (Parser.item_elements root) build_items.
Proof.
  unfold Parser._parse_assembly. intros H.
  destruct (match Xml.find _ root with Some _ => _ | None => _ end)
    as [objs|e]; simpl in H; [|discriminate].
  destruct (Py.map_result Parser.parse_item (Parser.item_elements root))
    as [items|e] eqn:E; simpl in H; [|discriminate].
  inversion H; subst; clear H.
  apply map_result_Forall2 in E.
  induction E as [|item bi items bis Hi _ IH]; constructor; auto.
  apply parse_item_printable. exact Hi.
Qed.

(** A root with three build items: [printable="1"], no attribute, and
    [printable="true"]. *)
Definition sample_item (attrs : Dict.pydict string string) : Xml.element :=
  Xml.Element (Parser._qn "core" "item") attrs None [].

Definition sample_root : Xml.element :=
  Xml.Element (Parser._qn "core" "model") [] None
    [ Xml.Element (Parser._qn "core" "build") [] None
        [ sample_item [("objectid", "1"); ("printable", "1")];
          sample_item [("objectid", "2")];
          sample_item [("objectid", "3"); ("printable", "true")] ] ].

Definition sample_build_items : list Parser.build_item :=
  [ {| Parser.b_objectid := 1; Parser.b_uuid := ""; Parser.b_transform := "";
       Parser.b_printable := true |};
    {| Parser.b_objectid := 2; Parser.b_uuid := ""; Parser.b_transform := "";
       Parser.b_printable := true |};
    {| Parser.b_objectid := 3; Parser.b_uuid := ""; Parser.b_transform := "";
       Parser.b_printable := false |} ].

Lemma parse_assembly_printable_witness :
  Parser._parse_assembly sample_root = Py.Ok ([], [], sample_build_items)
  /\ Forall2
       (fun item bi =>
          Parser.b_printable bi = true <-> printable_attribute_ok item)
       (Parser.item_elements sample_root) sample_build_items.
Proof.
  assert (H : Parser._parse_assembly sample_root
              = Py.Ok ([], [], sample_build_items))
    by (vm_compute; reflexivity).
  split; [exact H|].
  apply (parse_assembly_printable sample_root [] [] sample_build_items H).
Defined.

(** * Properties of the export entry point *)

(** C8: when no group is collected the export answers [CANCELLED], leaves
    the file system as it was (nothing is created at the target path) and
    draws no identifier. *)
Theorem export_3mf_no_groups_cancelled (uuid_at : nat -> string)
    (version_string : string) (data : Serializer.bpy_data)
    (ctx : Serializer.context) (filepath : string) (selection_only : bool)
    (fs : gmap string Serializer.archive) (n : nat) :
  Serializer._collect_export_groups ctx selection_only = [] ->
  Serializer.export_3mf uuid_at version_string data ctx filepath
    selection_only fs n
  = ((Serializer.CANCELLED, fs), n)
  /\ snd (fst (Serializer.export_3mf uuid_at version_string data ctx filepath
                 selection_only fs n)) !! filepath
     = fs !! filepath.
Proof.
  intros H. unfold Serializer.export_3mf. rewrite H. split; reflexivity.
Qed.

(** With a group to export the call finishes and the archive stands at
    the target path. *)
Lemma export_3mf_groups_finished (uuid_at : nat -> string)
    (version_string : string) (data : Serializer.bpy_data)
    (ctx : Serializer.context) (filepath : string) (selection_only : bool)
    (fs : gmap string Serializer.archive) (n : nat) :
  Serializer._collect_export_groups ctx selection_only <> [] ->
  exists members n',
    Serializer.export_3mf uuid_at version_string data ctx filepath
      selection_only fs n
    = ((Serializer.FINISHED, <[filepath := members]> fs), n').
Proof.
  intros H. unfold Serializer.export_3mf.
  destruct (Serializer._collect_export_groups ctx selection_only)
    as [|g groups]; [contradiction|].
  unfold Serializer.gbind, Serializer.ret.
  destruct (Serializer.write_members uuid_at version_string data (g :: groups) n)
    as [members n'].
  exists members, n'. reflexivity.
Qed.

Definition empty_scene : Serializer.context :=
  {| Serializer.selected_objects := []; Serializer.scene_objects := [] |}.

Definition no_data : Serializer.bpy_data :=
  {| Serializer.collections := []; Serializer.texts := ∅ |}.

Lemma export_3mf_no_groups_cancelled_witness :
  Serializer.export_3mf (fun _ => "") "BambuStudio-02.00.00.00" no_data
    empty_scene "out.3mf" false ∅ 0%nat
  = ((Serializer.CANCELLED, ∅), 0%nat)
  /\ snd (fst (Serializer.export_3mf (fun _ => "") "BambuStudio-02.00.00.00"
                 no_data empty_scene "out.3mf" false ∅ 0%nat)) !! "out.3mf"
     = (∅ : gmap string Serializer.archive) !! "out.3mf".
Proof.
  apply (export_3mf_no_groups_cancelled (fun _ => "") "BambuStudio-02.00.00.00"
           no_data empty_scene "out.3mf" false ∅ 0%nat).
  reflexivity.
Defined.

(** * The global filament table *)

Section filament_table.
Import Py Parser.

(** The [<filament>] elements of a [slice_info] root in document order:
    plate by plate, and within a plate as they are written. *)
Definition filament_elements (plate_els : list Xml.element) : list Xml.element :=
  flat_map (Xml.findall "filament") plate_els.

(** An attribute, or [default] when the element does not have it. *)
Definition attribute (name default : string) (el : Xml.element) : string :=
  match Dict.get name (Xml.attrib el) with
  | Some v => v
  | None => default
  end.

(** [el] declares the filament slot [fid]: its [id] attribute reads as
    the number [fid]. *)
Definition declares (fid : Z) (el : Xml.element) : bool :=
  match Dict.get "id" (Xml.attrib el) with
  | Some s =>
      match int s with
      | Ok z => Z.eqb z fid
      | Raise _ => false
      end
  | None => false
  end.

(** The entry the first declaration of [fid] gives, if there is one: the
    id with the type, color and tray index written on that element, a
    missing color being [#808080] and a missing type or tray index the
    empty string. *)
Definition first_declared (fid : Z) (els : list Xml.element) : option filament :=
  match List.find (declares fid) els with
  | Some el =>
      Some {| fil_id := fid;
              fil_type := attribute "type" "" el;
              fil_color := attribute "color" "#808080" el;
              fil_tray_info_idx := attribute "tray_info_idx" "" el |}
  | None => None
  end.

Definition id_parses (fil_el : Xml.element) : Prop :=
  exists s z, Dict.get "id" (Xml.attrib fil_el) = Some s /\ int s = Ok z.

Definition index_parses (meta : Xml.element) : Prop :=
  Dict.get "key" (Xml.attrib meta) = Some "index" ->
  exists s z, Dict.get "value" (Xml.attrib meta) = Some s /\ int s = Ok z.

Lemma int_attr_of_text (name s : string) (z : Z) (el : Xml.element) :
  Dict.get name (Xml.attrib el) = Some s -> int s = Ok z ->
  int_attr (Xml.get name el) = Ok z.
Proof. intros Hs Hz. unfold Xml.get. rewrite Hs. exact Hz. Qed.

(** Every number the parser reads in the part is one: the [index] of each
    plate and the [id] of each filament. *)
Definition numbers_parse (root : Xml.element) : Prop :=
  Forall
    (fun plate_el =>
       Forall index_parses (Xml.findall "metadata" plate_el)
       /\ Forall id_parses (Xml.findall "filament" plate_el))
    (Xml.findall "plate" root).

(** The table after more declarations: what it had stays, the rest comes
    from the first declaration among the new ones. *)
Definition extended (old : gmap Z filament) (els : list Xml.element)
    (new : gmap Z filament) : Prop :=
  forall fid,
    new !! fid = match old !! fid with
                 | Some entry => Some entry
                 | None => first_declared fid els
                 end.

Lemma find_app_first {A : Type} (p : A -> bool) (xs ys : list A) :
  List.find p (xs ++ ys)
  = match List.find p xs with Some x => Some x | None => List.find p ys end.
Proof.
  induction xs as [|x xs IH]; simpl; [reflexivity|].
  destruct (p x); [reflexivity|exact IH].
Qed.

Lemma extended_trans (t0 t1 t2 : gmap Z filament) (xs ys : list Xml.element) :
  extended t0 xs t1 -> extended t1 ys t2 -> extended t0 (xs ++ ys) t2.
Proof.
  intros H1 H2 fid. rewrite (H2 fid), (H1 fid).
  unfold first_declared. rewrite find_app_first.
  destruct (t0 !! fid); [reflexivity|].
  destruct (List.find (declares fid) xs); reflexivity.
Qed.

Lemma plate_metadata_total (metas : list Xml.element) (index : Z)
    (metadata : Dict.pydict (option string) (option string)) :
  Forall index_parses metas ->
  exists r, plate_metadata metas index metadata = Ok r.
Proof.
  intros H. revert index metadata.
  induction H as [|meta metas Hm _ IH]; intros index metadata; simpl.
  - eexists. reflexivity.
  - destruct (decide (Xml.get "key" meta = Some "index")) as [E|_].
    + destruct (Hm E) as (s & z & Hs & Hz).
      rewrite (int_attr_of_text _ _ _ _ Hs Hz). simpl. apply IH.
    + apply IH.
Qed.

Lemma plate_filaments_extended (fils : list Xml.element)
    (filaments : gmap Z filament) (seen : list plate_filament) :
  Forall id_parses fils ->
  exists filaments' seen',
    plate_filaments fils filaments seen = Ok (filaments', seen')
    /\ extended filaments fils filaments'.
Proof.
  intros H. revert filaments seen.
  induction H as [|fil_el fils (s & z & Hs & Hz) _ IH];
    intros filaments seen; simpl.
  - exists filaments, seen. split; [reflexivity|].
    intros fid. unfold first_declared. simpl. destruct (filaments !! fid); reflexivity.
  - rewrite (int_attr_of_text _ _ _ _ Hs Hz). simpl.
    destruct (IH (match filaments !! z with
                  | Some _ => filaments
                  | None => <[z := global_entry (filament_info z fil_el)]> filaments
                  end) (seen ++ [filament_info z fil_el]))
      as (f' & s' & Hrun & Hext).
    exists f', s'. split; [exact Hrun|].
    intros fid. rewrite (Hext fid). unfold first_declared.
    cbn [List.find].
    assert (Hd : declares fid fil_el = Z.eqb z fid)
      by (unfold declares; rewrite Hs, Hz; reflexivity).
    rewrite Hd. destruct (Z.eqb_spec z fid) as [->|Hne].
    + destruct (filaments !! fid) as [entry|] eqn:E.
      * rewrite E. reflexivity.
      * rewrite lookup_insert_eq. reflexivity.
    + destruct (filaments !! z) as [entry|] eqn:E.
      * reflexivity.
      * rewrite lookup_insert_ne by exact Hne. reflexivity.
Qed.

Lemma parse_plates_extended (plate_els : list Xml.element)
    (filaments : gmap Z filament) (plates : list slice_plate) :
  Forall
    (fun plate_el =>
       Forall index_parses (Xml.findall "metadata" plate_el)
       /\ Forall id_parses (Xml.findall "filament" plate_el))
    plate_els ->
  exists filaments' plates',
    parse_plates plate_els filaments plates = Ok (filaments', plates')
    /\ extended filaments (filament_elements plate_els) filaments'.
Proof.
  intros H. revert filaments plates.
  induction H as [|plate_el plate_els [Hmeta Hfil] _ IH];
    intros filaments plates; simpl.
  - exists filaments, plates. split; [reflexivity|].
    intros fid. unfold first_declared. simpl. destruct (filaments !! fid); reflexivity.
  - unfold parse_plate.
    destruct (plate_metadata_total _ 0 [] Hmeta) as [[index metadata] Hm].
    rewrite Hm. simpl.
    destruct (plate_filaments_extended _ filaments [] Hfil)
      as (f1 & s1 & Hrun1 & Hext1).
    rewrite Hrun1. simpl.
    destruct (IH f1 (plates ++ [{| sp_index := index;
                                   sp_objects :=
                                     map plate_object (Xml.findall "object" plate_el);
                                   sp_filaments := s1;
                                   sp_metadata := metadata |}]))
      as (f2 & p2 & Hrun2 & Hext2).
    exists f2, p2. split; [exact Hrun2|].
    apply (extended_trans filaments f1 f2); assumption.
Qed.

End filament_table.

(** C6: on a [slice_info] part whose numbers parse (the [index] value of
    each plate and the [id] of each filament), the metadata parser
    returns, and the global filament table it returns has an entry for an
    id exactly when some [<filament>] declares it; the entry carries the
    [type], [color] and [tray_info_idx] attributes of the first
    [<filament>] with that id in document order.  Later declarations of
    the id, on the same or on another plate and with whatever type or
    color, do not change it (the table is a map, so an id has one
    entry). *)
Theorem parse_slice_info_first_declaration_wins (root : Xml.element) :
  numbers_parse root ->
  exists filaments plates,
    Parser._parse_slice_info (Some root) = Py.Ok (filaments, plates)
    /\ forall fid,
         filaments !! fid
         = match
             List.find (declares fid)
               (flat_map (Xml.findall "filament") (Xml.findall "plate" root))
           with
           | Some el =>
               Some {| Parser.fil_id := fid;
                       Parser.fil_type := attribute "type" "" el;
                       Parser.fil_color := attribute "color" "#808080" el;
                       Parser.fil_tray_info_idx :=
                         attribute "tray_info_idx" "" el |}
           | None => None
           end.
Proof.
  intros H. unfold Parser._parse_slice_info.
  destruct (parse_plates_extended _ ∅ [] H) as (f & p & Hrun & Hext).
  exists f, p. split; [exact Hrun|].
  intros fid. rewrite (Hext fid), lookup_empty. reflexivity.
Qed.

(** Two plates that both declare filament 3, with different types and
    colors. *)
Definition plate_with_filament (index type color : string) : Xml.element :=
  Xml.Element "plate" [] None
    [ Xml.Element "metadata" [("key", "index"); ("value", index)] None [];
      Xml.Element "filament"
        [("id", "3"); ("type", type); ("color", color)] None [] ].

Definition two_plate_root : Xml.element :=
  Xml.Element "config" [] None
    [ plate_with_filament "1" "PLA" "#C12E1F";
      plate_with_filament "2" "PETG" "#00FF00" ].

Lemma two_plate_root_numbers_parse : numbers_parse two_plate_root.
Proof.
  unfold numbers_parse.
  change (Xml.findall "plate" two_plate_root)
    with [plate_with_filament "1" "PLA" "#C12E1F";
          plate_with_filament "2" "PETG" "#00FF00"].
  constructor; [|constructor; [|constructor]].
  - split; (constructor; [|constructor]).
    + intros _. exists "1", 1. split; reflexivity.
    + exists "3", 3. split; reflexivity.
  - split; (constructor; [|constructor]).
    + intros _. exists "2", 2. split; reflexivity.
    + exists "3", 3. split; reflexivity.
Defined.

Lemma declares_three (fid : Z) (type color : string) :
  declares fid
    (Xml.Element "filament" [("id", "3"); ("type", type); ("color", color)]
       None [])
  = Z.eqb 3 fid.
Proof. reflexivity. Qed.

(** The scenario of the specification: the table has the one entry for
    id 3, with the type and color of the first plate. *)
Lemma parse_slice_info_first_declaration_wins_witness :
  exists filaments plates,
    Parser._parse_slice_info (Some two_plate_root) = Py.Ok (filaments, plates)
    /\ filaments !! 3
       = Some {| Parser.fil_id := 3; Parser.fil_type := "PLA";
                 Parser.fil_color := "#C12E1F";
                 Parser.fil_tray_info_idx := "" |}
    /\ forall fid, fid <> 3 -> filaments !! fid = None.
Proof.
  destruct (parse_slice_info_first_declaration_wins two_plate_root
              two_plate_root_numbers_parse)
    as (filaments & plates & Hrun & Htable).
  exists filaments, plates. split; [exact Hrun|]. split.
  - rewrite (Htable 3). reflexivity.
  - intros fid Hne. rewrite (Htable fid).
    change (flat_map (Xml.findall "filament") (Xml.findall "plate" two_plate_root))
      with [ Xml.Element "filament"
               [("id", "3"); ("type", "PLA"); ("color", "#C12E1F")] None [];
             Xml.Element "filament"
               [("id", "3"); ("type", "PETG"); ("color", "#00FF00")] None [] ].
    cbn [List.find]. rewrite !declares_three.
    destruct (Z.eqb_spec 3 fid) as [E|_]; [|reflexivity].
    exfalso. apply Hne. symmetry. exact E.
Defined.

(** * Stale-reference cleanup

    The two cleanup functions of the writer are one algorithm over two
    plate types.  The algorithm is studied once, over the operations it
    uses, and then instantiated. *)

Section stale_cleanup.
Context {P E : Type}.
(** The entries of a plate, the test that keeps an entry, the copy of a
    plate with the kept entries, and the copy with index [i + 1]. *)
Variables (entries : P -> list E) (live : E -> bool)
          (keep : P -> list E -> P) (reindex : Z -> P -> P).
Hypothesis entries_keep : forall p k, entries (keep p k) = k.
Hypothesis entries_reindex : forall i p, entries (reindex i p) = entries p.
Hypothesis keep_keep : forall p k, keep (keep p k) k = keep p k.
Hypothesis keep_reindex : forall i p k, keep (reindex i p) k = reindex i (keep p k).
Hypothesis reindex_reindex : forall i p, reindex i (reindex i p) = reindex i p.

Definition survivors (l : list P) : list P :=
  flat_map
    (fun p => match List.filter live (entries p) with
              | [] => []
              | k => [keep p k]
              end)
    l.

Definition renumbered_from (n : nat) (l : list P) : list P :=
  map (fun '(i, p) => reindex i p)
      (combine (map Z.of_nat (seq n (length l))) l).

Definition cleaned (l : list P) : list P :=
  match l with
  | [] => l
  | _ => renumbered_from 0 (survivors l)
  end.

(** A plate the first loop leaves as it is. *)
Definition settled (p : P) : Prop :=
  List.filter live (entries p) <> [] /\ keep p (List.filter live (entries p)) = p.

Lemma filter_live_twice (k : list E) : List.filter live (List.filter live k) = List.filter live k.
Proof.
  induction k as [|e k IH]; simpl; [reflexivity|].
  destruct (live e) eqn:He; simpl; [rewrite He, IH|]; auto.
Qed.

Lemma survivors_settled (l : list P) : Forall settled (survivors l).
Proof using entries_keep keep_keep.
  induction l as [|p l IH]; simpl; [constructor|].
  destruct (List.filter live (entries p)) as [|e k] eqn:Hk; simpl; [exact IH|].
  constructor; [|exact IH].
  unfold settled. rewrite entries_keep, <- Hk, filter_live_twice, Hk.
  split; [discriminate|apply keep_keep].
Qed.

Lemma survivors_fixed (l : list P) : Forall settled l -> survivors l = l.
Proof.
  induction 1 as [|p l [Hne Hkeep] _ IH]; simpl; [reflexivity|].
  destruct (List.filter live (entries p)) as [|e k] eqn:Hk; [contradiction|].
  simpl. rewrite Hkeep, IH. reflexivity.
Qed.

Lemma renumbered_settled (n : nat) (l : list P) :
  Forall settled l -> Forall settled (renumbered_from n l).
Proof using entries_reindex keep_reindex.
  intros H. revert n. unfold renumbered_from.
  induction H as [|p l [Hne Hkeep] _ IH]; intros n; simpl; constructor.
  - unfold settled. rewrite entries_reindex, keep_reindex, Hkeep. auto.
  - apply IH.
Qed.

Lemma renumbered_length (n : nat) (l : list P) :
  length (renumbered_from n l) = length l.
Proof.
  unfold renumbered_from. revert n.
  induction l as [|p l IH]; intros n; simpl; [reflexivity|].
  f_equal. apply IH.
Qed.

Lemma renumbered_twice (n : nat) (l : list P) :
  renumbered_from n (renumbered_from n l) = renumbered_from n l.
Proof using reindex_reindex.
  revert n. induction l as [|p l IH]; intros n; [reflexivity|].
  specialize (IH (S n)). unfold renumbered_from in *. simpl in *.
  rewrite reindex_reindex. f_equal. exact IH.
Qed.

Lemma cleaned_unfold (l : list P) : cleaned l = renumbered_from 0 (survivors l).
Proof. destruct l; reflexivity. Qed.

(** Cleaning a cleaned list changes nothing. *)
Lemma cleaned_idempotent (l : list P) : cleaned (cleaned l) = cleaned l.
Proof using All.
  rewrite (cleaned_unfold (cleaned l)), (cleaned_unfold l).
  rewrite survivors_fixed.
  - apply renumbered_twice.
  - apply renumbered_settled, survivors_settled.
Qed.

(** Whatever is read off a renumbered plate that depends on its index
    only: the k-th plate gives the value for [k]. *)
Lemma renumbered_reads {X : Type} (g : P -> X) (h : Z -> X) (n : nat)
    (l : list P) :
  (forall i p, g (reindex i p) = h i) ->
  map g (renumbered_from n l) = map (fun k => h (Z.of_nat k)) (seq n (length l)).
Proof.
  intros Hg. unfold renumbered_from. revert n.
  induction l as [|p l IH]; intros n; simpl; [reflexivity|].
  rewrite Hg, IH. reflexivity.
Qed.

Lemma renumbered_entries (n : nat) (l : list P) :
  map entries (renumbered_from n l) = map entries l.
Proof using entries_reindex.
  unfold renumbered_from. revert n.
  induction l as [|p l IH]; intros n; simpl; [reflexivity|].
  rewrite entries_reindex, IH. reflexivity.
Qed.

Definition non_empty (k : list E) : bool :=
  match k with [] => false | _ => true end.

(** The cleaned plates are the plates that keep an entry, in their
    original order, each with its kept entries. *)
Lemma cleaned_entries (l : list P) :
  map entries (cleaned l)
  = List.filter non_empty (map (fun p => List.filter live (entries p)) l).
Proof using entries_keep entries_reindex.
  rewrite cleaned_unfold, renumbered_entries.
  induction l as [|p l IH]; simpl; [reflexivity|].
  destruct (List.filter live (entries p)) as [|e k] eqn:Hk; simpl; [exact IH|].
  rewrite entries_keep, IH. reflexivity.
Qed.

End stale_cleanup.

Section dict_facts.
Context {K V : Type} `{EqDecision K}.

Lemma dict_get_set (k : K) (v : V) (d : Dict.pydict K V) :
  Dict.get k (Dict.set k v d) = Some v.
Proof.
  induction d as [|[k' v'] d IH]; simpl.
  - destruct (decide (k = k)); [reflexivity|contradiction].
  - destruct (decide (k' = k)) as [E|N]; simpl.
    + destruct (decide (k = k)); [reflexivity|contradiction].
    + destruct (decide (k' = k)); [contradiction|exact IH].
Qed.

Lemma dict_set_set (k : K) (v : V) (d : Dict.pydict K V) :
  Dict.set k v (Dict.set k v d) = Dict.set k v d.
Proof.
  induction d as [|[k' v'] d IH]; simpl.
  - destruct (decide (k = k)); [reflexivity|contradiction].
  - destruct (decide (k' = k)) as [E|N]; simpl.
    + destruct (decide (k = k)); [reflexivity|contradiction].
    + destruct (decide (k' = k)); [contradiction|]. rewrite IH. reflexivity.
Qed.

End dict_facts.

(** ** The two instances *)

Section cleanup_instances.
Import Serializer.

Definition ms_entries (plate : ms_plate) : list (Dict.pydict string string) :=
  or_default [] (mp_instances plate).

Definition ms_keep (plate : ms_plate) (kept : list (Dict.pydict string string))
  : ms_plate :=
  {| mp_metadata := mp_metadata plate; mp_instances := Some kept |}.

Definition ms_reindex (i : Z) (plate : ms_plate) : ms_plate :=
  {| mp_metadata :=
       Some (Dict.set "index" (index_of i) (or_default [] (mp_metadata plate)));
     mp_instances := mp_instances plate |}.

Lemma clean_stale_plates_cleaned (ms_plates : list ms_plate)
    (valid_object_ids : gset string) :
  _clean_stale_plates ms_plates valid_object_ids
  = cleaned ms_entries (live_instance valid_object_ids) ms_keep ms_reindex
      ms_plates.
Proof. reflexivity. Qed.

Definition slice_entries (plate : slice_plate) : list plate_object :=
  or_default [] (sp_objects plate).

Definition slice_keep (plate : slice_plate) (kept : list plate_object)
  : slice_plate :=
  {| sp_index := sp_index plate;
     sp_metadata := sp_metadata plate;
     sp_objects := Some kept;
     sp_filaments := sp_filaments plate |}.

Definition slice_reindex (i : Z) (plate : slice_plate) : slice_plate :=
  {| sp_index := sp_index plate;
     sp_metadata :=
       Some (Dict.set "index" (Some (index_of i))
                      (or_default [] (sp_metadata plate)));
     sp_objects := sp_objects plate;
     sp_filaments := sp_filaments plate |}.

Lemma clean_stale_slice_plates_cleaned (plates_json : list slice_plate)
    (valid_names : gset string) :
  _clean_stale_slice_plates plates_json valid_names
  = cleaned slice_entries (live_object valid_names) slice_keep slice_reindex
      plates_json.
Proof. reflexivity. Qed.

(** The [index] entry of a plate's metadata. *)
Definition ms_index (plate : ms_plate) : option string :=
  Dict.get "index" (or_default [] (mp_metadata plate)).

Definition slice_index (plate : slice_plate) : option (option string) :=
  Dict.get "index" (or_default [] (sp_metadata plate)).

(** The decimal numerals of 1, 2, ..., n. *)
Definition one_to (n : nat) : list string :=
  map (fun k => Py.str_of_int (Z.of_nat k)) (seq 1 n).

Lemma one_to_shift (n : nat) :
  map (fun k => index_of (Z.of_nat k)) (seq 0 n) = one_to n.
Proof.
  unfold one_to, index_of. rewrite <- seq_shift, map_map.
  apply map_ext. intros k. f_equal. lia.
Qed.

End cleanup_instances.

Section cleanup_results.
Import Serializer.

Lemma ms_cleanup_facts (ms_plates : list ms_plate) (valid : gset string) :
  let r := _clean_stale_plates ms_plates valid in
  _clean_stale_plates r valid = r
  /\ map ms_index r = map Some (one_to (length r))
  /\ map ms_entries r
     = List.filter non_empty
         (map (fun p => List.filter (live_instance valid) (ms_entries p))
              ms_plates).
Proof.
  intros r. subst r. rewrite !clean_stale_plates_cleaned. repeat split.
  - apply cleaned_idempotent; try reflexivity.
    intros i p. unfold ms_reindex. simpl. rewrite dict_set_set. reflexivity.
  - rewrite cleaned_unfold, renumbered_length.
    rewrite (renumbered_reads _ ms_index (fun i => Some (index_of i))).
    + rewrite <- one_to_shift, map_map. reflexivity.
    + intros i p. apply dict_get_set.
  - apply cleaned_entries; reflexivity.
Qed.

Lemma slice_cleanup_facts (plates_json : list slice_plate) (valid : gset string) :
  let r := _clean_stale_slice_plates plates_json valid in
  _clean_stale_slice_plates r valid = r
  /\ map slice_index r = map (fun s => Some (Some s)) (one_to (length r))
  /\ map slice_entries r
     = List.filter non_empty
         (map (fun p => List.filter (live_object valid) (slice_entries p))
              plates_json).
Proof.
  intros r. subst r. rewrite !clean_stale_slice_plates_cleaned. repeat split.
  - apply cleaned_idempotent; try reflexivity.
    intros i p. unfold slice_reindex. simpl. rewrite dict_set_set. reflexivity.
  - rewrite cleaned_unfold, renumbered_length.
    rewrite (renumbered_reads _ slice_index (fun i => Some (Some (index_of i)))).
    + rewrite <- one_to_shift, map_map. reflexivity.
    + intros i p. apply dict_get_set.
  - apply cleaned_entries; reflexivity.
Qed.

End cleanup_results.

(** C3: for every plate list and every fixed set of valid object ids
    (valid names for the slice plates), cleaning the cleaned list gives the
    cleaned list again; the [index] metadata of the cleaned plates reads
    1, 2, ..., N; and the cleaned plates are the plates that keep an
    entry, in their original order, each with its kept entries. *)
Theorem clean_stale_idempotent_contiguous
    (ms_plates : list Serializer.ms_plate)
    (plates_json : list Serializer.slice_plate)
    (valid_object_ids valid_names : gset string) :
  let r := Serializer._clean_stale_plates ms_plates valid_object_ids in
  let q := Serializer._clean_stale_slice_plates plates_json valid_names in
  (Serializer._clean_stale_plates r valid_object_ids = r
   /\ map ms_index r = map Some (one_to (length r))
   /\ map ms_entries r
      = List.filter non_empty
          (map (fun p => List.filter (Serializer.live_instance valid_object_ids)
                                     (ms_entries p))
               ms_plates))
  /\ (Serializer._clean_stale_slice_plates q valid_names = q
      /\ map slice_index q = map (fun s => Some (Some s)) (one_to (length q))
      /\ map slice_entries q
         = List.filter non_empty
             (map (fun p => List.filter (Serializer.live_object valid_names)
                                        (slice_entries p))
                  plates_json)).
Proof.
  intros r q. split.
  - apply ms_cleanup_facts.
  - apply slice_cleanup_facts.
Qed.

(** * Strings built by appending *)

Lemma append_nil (t : string) : "" +:+ t = t.
Proof. reflexivity. Qed.

Lemma append_cons (c : ascii) (s t : string) :
  String c s +:+ t = String c (s +:+ t).
Proof. reflexivity. Qed.

Lemma append_empty_r (s : string) : s +:+ "" = s.
Proof.
  induction s as [|c s IH]; [reflexivity|].
  rewrite append_cons, IH. reflexivity.
Qed.

Lemma append_assoc (a b c : string) : (a +:+ b) +:+ c = a +:+ (b +:+ c).
Proof.
  induction a as [|x a IH]; [reflexivity|].
  rewrite !append_cons, IH. reflexivity.
Qed.

(** * The metadata block of the main model *)

Section main_model.
Import Serializer.
Variable version_string : string.

(** The value written for [Application]: the round-tripped one when the
    metadata has the key, else the host's version string. *)
Definition application_value (model_metadata : Dict.pydict string string)
  : string :=
  match Dict.get "Application" model_metadata with
  | Some v => v
  | None => version_string
  end.

Definition is_written_key (key : string) : bool :=
  existsb (String.eqb key) _written.

(** The entries the loop writes: a key that is not one of the two
    written before it, and a value that is not empty. *)
Definition round_tripped (kv : string * string) : bool :=
  negb (is_written_key (fst kv)) && negb (String.eqb (snd kv) "").

Definition entry_line (kv : string * string) : string :=
  metadata_line (fst kv) (snd kv).

Definition resource_lines (asm : assembly) : list string :=
  [ "  <object" +:+ attr "id" (Py.str_of_int (a_id asm))
      +:+ attr "p:UUID" (a_uuid asm) +:+ attr "type" "model" +:+ ">";
    "   <components>" ]
  ++ map component_line (a_components asm)
  ++ [ "   </components>"; "  </object>" ].

Lemma fold_append_one {A : Type} (f : A -> string) (xs : list A)
    (lines : list string) :
  fold_left (fun ls x => ls ++ [f x]) xs lines = lines ++ map f xs.
Proof.
  revert lines. induction xs as [|x xs IH]; intros lines; simpl.
  - rewrite app_nil_r. reflexivity.
  - rewrite IH, <- app_assoc. reflexivity.
Qed.

Lemma add_round_trip_step (lines : list string) (kv : string * string) :
  add_round_trip lines kv
  = lines ++ (if round_tripped kv then [entry_line kv] else []).
Proof.
  destruct kv as [key val].
  unfold add_round_trip, round_tripped, is_written_key, entry_line.
  cbn [fst snd].
  destruct (negb (existsb (String.eqb key) _written)
            && negb (String.eqb val "")).
  - reflexivity.
  - rewrite app_nil_r. reflexivity.
Qed.

Lemma fold_add_round_trip (model_metadata : Dict.pydict string string)
    (lines : list string) :
  fold_left add_round_trip model_metadata lines
  = lines ++ map entry_line (List.filter round_tripped model_metadata).
Proof.
  revert lines.
  induction model_metadata as [|kv md IH]; intros lines;
    cbn [fold_left List.filter].
  - rewrite app_nil_r. reflexivity.
  - rewrite add_round_trip_step, IH.
    destruct (round_tripped kv); rewrite <- app_assoc; reflexivity.
Qed.

Lemma add_resource_lines (lines : list string) (asm : assembly) :
  add_resource lines asm = lines ++ resource_lines asm.
Proof.
  unfold add_resource, resource_lines.
  rewrite fold_append_one, <- !app_assoc. reflexivity.
Qed.

Lemma fold_add_resource (assembly_objects : list assembly)
    (lines : list string) :
  fold_left add_resource assembly_objects lines
  = lines ++ flat_map resource_lines assembly_objects.
Proof.
  revert lines. induction assembly_objects as [|asm l IH]; intros lines; simpl.
  - rewrite app_nil_r. reflexivity.
  - rewrite IH, add_resource_lines, <- app_assoc. reflexivity.
Qed.

Lemma application_value_spec (model_metadata : Dict.pydict string string) :
  match model_metadata with
  | [] => version_string
  | _ => Dict.get_or "Application" version_string model_metadata
  end = application_value model_metadata.
Proof. destruct model_metadata; reflexivity. Qed.

(** The text of the part, spelled out.  [quote] is the double quote. *)
Definition quote : string := String "034"%char EmptyString.

Definition newline : string := String "010"%char EmptyString.

Definition xml_declaration : string :=
  "<?xml version=" +:+ quote +:+ "1.0" +:+ quote
    +:+ " encoding=" +:+ quote +:+ "UTF-8" +:+ quote +:+ "?>".

Definition model_tag : string :=
  "<model unit=" +:+ quote +:+ "millimeter" +:+ quote
    +:+ " xml:lang=" +:+ quote +:+ "en-US" +:+ quote
    +:+ " xmlns=" +:+ quote
    +:+ "http://schemas.microsoft.com/3dmanufacturing/core/2015/02" +:+ quote
    +:+ " xmlns:p=" +:+ quote
    +:+ "http://schemas.microsoft.com/3dmanufacturing/production/2015/06"
    +:+ quote
    +:+ " xmlns:BambuStudio=" +:+ quote
    +:+ "http://schemas.bambulab.com/package/2021" +:+ quote
    +:+ " requiredextensions=" +:+ quote +:+ "p" +:+ quote +:+ ">".

(** One metadata element: [ <metadata name="name">text</metadata>]. *)
Definition metadata_element (name text : string) : string :=
  " <metadata name=" +:+ quote +:+ name +:+ quote +:+ ">" +:+ text
    +:+ "</metadata>".

(** The entries that follow the two fixed elements: the key is neither
    [Application] nor [BambuStudio:3mfVersion], the value is not empty. *)
Definition remaining (kv : string * string) : bool :=
  negb (String.eqb (fst kv) "Application")
  && negb (String.eqb (fst kv) "BambuStudio:3mfVersion")
  && negb (String.eqb (snd kv) "").

Lemma metadata_element_attr (name text : string) :
  " <metadata" +:+ attr "name" name +:+ ">" +:+ text +:+ "</metadata>"
  = metadata_element name text.
Proof.
  unfold metadata_element, attr, dq, quote.
  repeat first [rewrite append_assoc | rewrite append_cons
               | rewrite append_nil].
  reflexivity.
Qed.

Lemma build_tag_attr (build_uuid : string) :
  " <build" +:+ attr "p:UUID" build_uuid +:+ ">"
  = " <build p:UUID=" +:+ quote +:+ build_uuid +:+ quote +:+ ">".
Proof.
  unfold attr, dq, quote.
  repeat first [rewrite append_assoc | rewrite append_cons
               | rewrite append_nil].
  reflexivity.
Qed.

Lemma round_tripped_remaining (kv : string * string) :
  round_tripped kv = remaining kv.
Proof.
  unfold round_tripped, remaining, is_written_key, _written. cbn [existsb].
  destruct (String.eqb (fst kv) "Application");
    destruct (String.eqb (fst kv) "BambuStudio:3mfVersion"); reflexivity.
Qed.

Lemma round_tripped_elements (model_metadata : Dict.pydict string string) :
  map entry_line (List.filter round_tripped model_metadata)
  = map (fun kv => metadata_element (_esc (fst kv)) (_esc (snd kv)))
        (List.filter remaining model_metadata).
Proof.
  rewrite (List.filter_ext _ _ round_tripped_remaining).
  apply map_ext. intros kv. apply metadata_element_attr.
Qed.

(** Metadata as the reader hands it back: an [Application] of an older
    release, a version key, an entry without value and two entries to
    carry over, one of which needs escaping. *)
Definition stored_metadata : Dict.pydict string string :=
  [ ("Title", "A&B"); ("Application", "BambuStudio-01.09.00.70");
    ("Description", ""); ("BambuStudio:3mfVersion", "2");
    ("Designer", "me") ].

End main_model.

(** C5 (as amended): the serialized main model is the lines below joined
    by newlines.  After the XML declaration and the opening [<model>] tag,
    its first metadata element is [Application], holding the escaped
    round-tripped value when the metadata has that key and the host's
    version string otherwise; the [BambuStudio:3mfVersion] element with
    text 1 comes next; then come, in their original order, the elements
    of the round-tripped entries whose key is neither [Application] nor
    [BambuStudio:3mfVersion] and whose value is not empty.  No other
    metadata element is written: the resources and the build follow. *)
Theorem main_model_metadata_block (uuid_at : nat -> string)
    (version_string : string) (assembly_objects : list Serializer.assembly)
    (build_items : list Parser.build_item)
    (model_metadata : Dict.pydict string string) (n : nat) :
  Serializer._build_main_model uuid_at version_string assembly_objects
    build_items model_metadata n
  = (Py.join newline
       ([ xml_declaration; model_tag;
          metadata_element "Application"
            (Serializer._esc
               match Dict.get "Application" model_metadata with
               | Some v => v
               | None => version_string
               end);
          metadata_element "BambuStudio:3mfVersion" "1" ]
        ++ map (fun kv =>
                  metadata_element (Serializer._esc (fst kv))
                    (Serializer._esc (snd kv)))
               (List.filter remaining model_metadata)
        ++ [" <resources>"]
        ++ flat_map resource_lines assembly_objects
        ++ [ " </resources>";
             " <build p:UUID=" +:+ quote +:+ uuid_at n +:+ quote +:+ ">" ]
        ++ map Serializer.item_line build_items
        ++ [" </build>"; "</model>"]),
     S n).
Proof.
  unfold Serializer._build_main_model, Serializer.gbind, Serializer.uuid4,
    Serializer.ret.
  f_equal. f_equal.
  unfold Serializer.main_model_lines.
  rewrite application_value_spec, fold_add_round_trip, fold_add_resource,
    fold_append_one, round_tripped_elements, build_tag_attr.
  unfold Serializer.application_line. rewrite metadata_element_attr.
  repeat (rewrite <- app_assoc; cbn [app]). reflexivity.
Qed.

(** On [stored_metadata] the stored [Application] is written first, the
    stored version key and the entry without value are left out, and the
    other two entries follow in their order; without stored metadata the
    host's version string is written. *)
Lemma main_model_metadata_block_witness :
  Serializer._build_main_model (fun _ => "u") "BambuStudio-02.00.00.00" [] []
    stored_metadata 0%nat
  = (Py.join newline
       [ xml_declaration; model_tag;
         " <metadata name=" +:+ quote +:+ "Application" +:+ quote
           +:+ ">BambuStudio-01.09.00.70</metadata>";
         " <metadata name=" +:+ quote +:+ "BambuStudio:3mfVersion" +:+ quote
           +:+ ">1</metadata>";
         " <metadata name=" +:+ quote +:+ "Title" +:+ quote
           +:+ ">A&amp;B</metadata>";
         " <metadata name=" +:+ quote +:+ "Designer" +:+ quote
           +:+ ">me</metadata>";
         " <resources>"; " </resources>";
         " <build p:UUID=" +:+ quote +:+ "u" +:+ quote +:+ ">";
         " </build>"; "</model>" ],
     1%nat)
  /\ Serializer._build_main_model (fun _ => "u") "BambuStudio-02.00.00.00" []
       [] [] 0%nat
     = (Py.join newline
          [ xml_declaration; model_tag;
            " <metadata name=" +:+ quote +:+ "Application" +:+ quote
              +:+ ">BambuStudio-02.00.00.00</metadata>";
            " <metadata name=" +:+ quote +:+ "BambuStudio:3mfVersion" +:+ quote
              +:+ ">1</metadata>";
            " <resources>"; " </resources>";
            " <build p:UUID=" +:+ quote +:+ "u" +:+ quote +:+ ">";
            " </build>"; "</model>" ],
        1%nat).
Proof.
  split.
  - exact (main_model_metadata_block (fun _ => "u") "BambuStudio-02.00.00.00"
             [] [] stored_metadata 0%nat).
  - exact (main_model_metadata_block (fun _ => "u") "BambuStudio-02.00.00.00"
             [] [] [] 0%nat).
Defined.

(** The entries of the specification's wording, which sets no empty
    value apart: all those whose key is not one of the two. *)
Definition stated_entries (model_metadata : Dict.pydict string string)
  : list (string * string) :=
  List.filter (fun kv => negb (is_written_key (fst kv))) model_metadata.

Definition has_line (line : string) (lines : list string) : bool :=
  existsb (String.eqb line) lines.

(** C5 (as stated) fails: an entry with an empty value, here [Title], is
    one of the remaining round-tripped entries and gets no element. *)
Lemma main_model_skips_empty_value :
  In ("Title", "") (stated_entries [("Title", ""); ("Designer", "me")])
  /\ has_line (entry_line ("Title", ""))
       (Serializer.main_model_lines "BambuStudio-02.00.00.00" [] []
          [("Title", ""); ("Designer", "me")] "u")
     = false
  /\ has_line (entry_line ("Designer", "me"))
       (Serializer.main_model_lines "BambuStudio-02.00.00.00" [] []
          [("Title", ""); ("Designer", "me")] "u")
     = true.
Proof.
  split; [left; reflexivity|]. split; vm_compute; reflexivity.
Qed.

(** * Export-side identifiers *)

Section export_ids.
Import Serializer.

(** The loop that looks for a free id ends within its fuel: the id it
    returns is not a used one. *)
Lemma skip_used_free_from (fuel : nat) (used_ids : gset Z) (fallback_id : Z) :
  (size (filter (fun x => (fallback_id <= x)%Z) used_ids) < fuel)%nat ->
  skip_used fuel used_ids fallback_id ∉ used_ids.
Proof.
  revert fallback_id. induction fuel as [|fuel IH]; intros n Hsize; [lia|].
  simpl. destruct (decide (n ∈ used_ids)) as [Hin|Hout]; [|exact Hout].
  apply IH.
  assert (Hlt : filter (fun x => n + 1 <= x) used_ids
                ⊂ filter (fun x => n <= x) used_ids).
  { split.
    - intros x. rewrite !elem_of_filter. intros [? ?]. split; [lia|assumption].
    - intros Hsub. specialize (Hsub n).
      rewrite !elem_of_filter in Hsub.
      assert (n + 1 <= n) by (apply Hsub; split; [lia|assumption]). lia. }
  apply subset_size in Hlt. lia.
Qed.

Lemma skip_used_free (used_ids : gset Z) (fallback_id : Z) :
  first_free used_ids fallback_id ∉ used_ids.
Proof.
  apply skip_used_free_from.
  assert (H : filter (fun x => fallback_id <= x) used_ids ⊆ used_ids).
  { intros x. rewrite elem_of_filter. tauto. }
  apply subseteq_size in H. lia.
Qed.

(** The ids an export gives out: one per group, and one per part of
    each group, in group order. *)
Definition assembly_ids (st : export_state) : list Z :=
  map a_id (assembly_objects st).

Definition part_ids (st : export_state) : list Z :=
  flat_map (fun asm => map Parser.c_objectid (a_components asm))
           (assembly_objects st).

(** A mesh object that carries no property. *)
Definition plain_mesh (nm : string) : bobject :=
  {| name := nm; type := "MESH"; children := [];
     matrix_world := Transform.Identity4; matrix_local := Transform.Identity4;
     mesh_vertices := []; mesh_polygons := [];
     bambu_object_id := None; bambu_uuid := None;
     bambu_build_transform := None; bambu_printable := None;
     bambu_extruder := None; bambu_part_id := None; bambu_part_uuid := None;
     bambu_component_transform := None; bambu_subtype := None;
     bambu_part_name := None |}.

(** A scene made from scratch: two meshes. *)
Definition two_meshes : context :=
  {| selected_objects := [];
     scene_objects := [plain_mesh "Cube"; plain_mesh "Sphere"] |}.

(** An empty that carries an assembly id, with one mesh under it. *)
Definition stored_empty (nm : string) (id : Z) : bobject :=
  {| name := nm; type := "EMPTY"; children := [plain_mesh (nm +:+ "_part")];
     matrix_world := Transform.Identity4; matrix_local := Transform.Identity4;
     mesh_vertices := []; mesh_polygons := [];
     bambu_object_id := Some id; bambu_uuid := None;
     bambu_build_transform := None; bambu_printable := None;
     bambu_extruder := None; bambu_part_id := None; bambu_part_uuid := None;
     bambu_component_transform := None; bambu_subtype := None;
     bambu_part_name := None |}.

(** An imported object and a copy of it made in the host. *)
Definition duplicated_empty : context :=
  {| selected_objects := [];
     scene_objects := [stored_empty "Object_5" 5; stored_empty "Object_5.001" 5] |}.

Definition no_uuid (n : nat) : string := "".

End export_ids.

(** C2 (the code at a failing input): exporting a scene of two meshes that
    carry no stored id makes two groups with assembly ids 1 and 2, and
    gives the single part of each group the part id 1: the part ids of the
    export are not pairwise distinct across its sub-models. *)
Theorem export_part_ids_collide :
  let groups := Serializer._collect_export_groups two_meshes false in
  let st := fst (Serializer.export_groups no_uuid groups 0%nat) in
  length groups = 2%nat
  /\ assembly_ids st = [1; 2]
  /\ part_ids st = [1; 1]
  /\ ~ NoDup (part_ids st).
Proof.
  cbv zeta.
  assert (E : part_ids
                (fst (Serializer.export_groups no_uuid
                        (Serializer._collect_export_groups two_meshes false)
                        0%nat))
              = [1; 1]) by (vm_compute; reflexivity).
  repeat split; try (vm_compute; reflexivity).
  rewrite E. intros H. inversion H as [|x l Hnotin _]; subst.
  apply Hnotin. constructor.
Qed.

(** The same allocation on stored assembly ids: an imported object and a
    copy of it both carry id 5; both groups keep it, name the same
    sub-model part, and the second part text replaces the first. *)
Lemma export_assembly_ids_collide :
  let groups := Serializer._collect_export_groups duplicated_empty false in
  let st := fst (Serializer.export_groups no_uuid groups 0%nat) in
  assembly_ids st = [5; 5]
  /\ Serializer.sub_model_refs st
     = ["/3D/Objects/object_5.model"; "/3D/Objects/object_5.model"]
  /\ length (Serializer.sub_model_xmls st) = 1%nat.
Proof. cbv zeta. repeat split; vm_compute; reflexivity. Qed.

(** A stored id and the counter: the first group takes 1 from the counter,
    the second one carries the stored id 1. *)
Lemma export_counter_ignores_stored_ids :
  let groups :=
    [ {| Serializer.parent := plain_mesh "Cube";
         Serializer.g_children := [plain_mesh "Cube"] |};
      {| Serializer.parent := stored_empty "Object_1" 1;
         Serializer.g_children := [plain_mesh "Object_1_part"] |} ] in
  assembly_ids (fst (Serializer.export_groups no_uuid groups 0%nat)) = [1; 1].
Proof. vm_compute. reflexivity. Qed.

(** * Encoding and decoding a transform *)

Section tokens.
Import Py.

Fixpoint no_space (s : string) : bool :=
  match s with
  | EmptyString => true
  | String c s' => negb (is_space c) && no_space s'
  end.

(** A token: not empty, no blank in it. *)
Definition token (s : string) : Prop := s <> "" /\ no_space s = true.

Lemma append_not_empty_r (a b : string) : b <> "" -> a +:+ b <> "".
Proof. destruct a; [auto|rewrite append_cons; discriminate]. Qed.

Lemma append_not_empty_l (a b : string) : a <> "" -> a +:+ b <> "".
Proof. destruct a; [contradiction|rewrite append_cons; discriminate]. Qed.

Lemma no_space_app (a b : string) :
  no_space (a +:+ b) = no_space a && no_space b.
Proof.
  induction a as [|c a IH]; [reflexivity|].
  rewrite append_cons. simpl. rewrite IH, andb_assoc. reflexivity.
Qed.

Lemma lstrip_token (tok rest : string) :
  token tok -> lstrip_by is_space (tok +:+ rest) = tok +:+ rest.
Proof.
  intros [Hne Hns]. destruct tok as [|c tok]; [contradiction|].
  rewrite append_cons. simpl in *. apply andb_prop in Hns as [Hc _].
  destruct (is_space c); [discriminate|reflexivity].
Qed.

Lemma rstrip_no_space (s : string) :
  no_space s = true -> rstrip_by is_space s = s.
Proof.
  induction s as [|c s IH]; simpl; [reflexivity|].
  intros H. apply andb_prop in H as [Hc Hs]. rewrite (IH Hs).
  destruct s; [|reflexivity].
  destruct (is_space c); [discriminate|reflexivity].
Qed.

Lemma rstrip_app (a t : string) :
  rstrip_by is_space t <> "" ->
  rstrip_by is_space (a +:+ t) = a +:+ rstrip_by is_space t.
Proof.
  intros Ht. induction a as [|c a IH]; [reflexivity|].
  rewrite !append_cons. simpl. rewrite IH.
  destruct (a +:+ rstrip_by is_space t) eqn:E; [|reflexivity].
  exfalso. apply (append_not_empty_r a _ Ht). exact E.
Qed.

Lemma split_from_token (tok cur rest : string) :
  no_space tok = true ->
  split_from cur (tok +:+ rest) = split_from (cur +:+ tok) rest.
Proof.
  revert cur. induction tok as [|c tok IH]; intros cur H.
  - rewrite append_nil, append_empty_r. reflexivity.
  - simpl in H. apply andb_prop in H as [Hc Htok].
    rewrite append_cons. simpl.
    destruct (is_space c); [discriminate|].
    rewrite (IH _ Htok), append_assoc. reflexivity.
Qed.

Lemma split_from_blank (cur rest : string) :
  cur <> "" ->
  split_from cur (String " " rest) = cur :: split_from "" rest.
Proof. intros H. simpl. destruct cur; [contradiction|reflexivity]. Qed.

Lemma join_token_not_empty (tok : string) (toks : list string) :
  token tok -> join " " (tok :: toks) <> "".
Proof.
  intros [Hne _]. destruct toks; simpl; [exact Hne|].
  apply append_not_empty_l. exact Hne.
Qed.

Lemma join_cons (tok tok' : string) (toks : list string) :
  join " " (tok :: tok' :: toks)
  = tok +:+ String " " (join " " (tok' :: toks)).
Proof. reflexivity. Qed.

Lemma rstrip_join (toks : list string) :
  Forall token toks -> rstrip_by is_space (join " " toks) = join " " toks.
Proof.
  induction 1 as [|tok toks Htok Htoks IH]; [reflexivity|].
  destruct toks as [|tok' toks].
  - simpl. apply rstrip_no_space. apply Htok.
  - rewrite join_cons.
    inversion Htoks as [|? ? Htok' _]; subst.
    assert (Hne : join " " (tok' :: toks) <> "")
      by (apply join_token_not_empty; exact Htok').
    rewrite rstrip_app.
    + change (String " " (join " " (tok' :: toks)))
        with (" " +:+ join " " (tok' :: toks)).
      rewrite rstrip_app; rewrite IH; [reflexivity|exact Hne].
    + change (String " " (join " " (tok' :: toks)))
        with (" " +:+ join " " (tok' :: toks)).
      rewrite rstrip_app; rewrite IH; [|exact Hne].
      apply append_not_empty_r. exact Hne.
Qed.

Lemma strip_join (toks : list string) :
  Forall token toks -> strip (join " " toks) = join " " toks.
Proof.
  intros H. unfold strip.
  destruct H as [|tok toks Htok Htoks]; [reflexivity|].
  assert (E : lstrip_by is_space (join " " (tok :: toks)) = join " " (tok :: toks)).
  { destruct toks as [|tok' toks].
    - simpl. rewrite <- (append_empty_r tok).
      apply lstrip_token. exact Htok.
    - rewrite join_cons. apply lstrip_token. exact Htok. }
  rewrite E. apply rstrip_join. constructor; assumption.
Qed.

Lemma split_join (toks : list string) :
  Forall token toks -> split (join " " toks) = toks.
Proof.
  unfold split. induction 1 as [|tok toks [Hne Hns] Htoks IH]; [reflexivity|].
  destruct toks as [|tok' toks].
  - simpl join. rewrite <- (append_empty_r tok) at 1.
    rewrite (split_from_token _ _ _ Hns), append_nil. simpl.
    destruct tok; [contradiction|reflexivity].
  - rewrite join_cons.
    rewrite (split_from_token _ _ _ Hns), append_nil.
    rewrite (split_from_blank _ _ Hne), IH. reflexivity.
Qed.

End tokens.

(** ** The text of a formatted float is a token *)

Section format_tokens.
Import Py.

Lemma no_space_substring (n m : nat) (s : string) :
  no_space s = true -> no_space (String.substring n m s) = true.
Proof.
  revert n m. induction s as [|c s IH]; intros n m H.
  - destruct n, m; reflexivity.
  - simpl in H. apply andb_prop in H as [Hc Hs].
    destruct n as [|n]; destruct m as [|m]; simpl; auto.
    rewrite Hc. simpl. apply IH. exact Hs.
Qed.

Lemma no_space_zeros (n : nat) : no_space (zeros n) = true.
Proof. induction n as [|n IH]; [reflexivity|exact IH]. Qed.

Lemma no_space_rstrip (f : ascii -> bool) (s : string) :
  no_space s = true -> no_space (rstrip_by f s) = true.
Proof.
  induction s as [|c s IH]; simpl; [reflexivity|].
  intros H. apply andb_prop in H as [Hc Hs]. specialize (IH Hs).
  destruct (rstrip_by f s) as [|c' t].
  - destruct (f c); simpl; [reflexivity|]. rewrite Hc. reflexivity.
  - simpl in *. rewrite Hc. exact IH.
Qed.

Lemma no_space_uint (d : Decimal.uint) :
  no_space (NilEmpty.string_of_uint d) = true.
Proof. induction d; simpl; auto. Qed.

Lemma no_space_digits (n : Z) : no_space (digits_of n) = true.
Proof.
  unfold digits_of, NilZero.string_of_uint.
  destruct (N.to_uint (Z.to_N n)) eqn:E; try reflexivity;
    rewrite <- E; apply no_space_uint.
Qed.

Lemma no_space_exponent (x : Z) : no_space (exponent_text x) = true.
Proof.
  unfold exponent_text. rewrite !no_space_app, no_space_digits.
  destruct (x <? 0), (Z.abs x <? 10); reflexivity.
Qed.

Lemma token_layout (p : Z) (ds : string) (x : Z) :
  no_space ds = true -> token (layout_g p ds x).
Proof.
  intros Hds. unfold layout_g.
  destruct ((x <? -4) || (p <=? x)).
  - split.
    + apply append_not_empty_r, append_not_empty_r, append_not_empty_l.
      discriminate.
    + rewrite !no_space_app, no_space_exponent, no_space_substring by exact Hds.
      destruct (1 <? Z.of_nat (String.length ds)); [|reflexivity].
      rewrite no_space_app, no_space_substring by exact Hds. reflexivity.
  - destruct (0 <=? x) eqn:Hx.
    + destruct (Z.of_nat (String.length ds) <=? x + 1) eqn:Hlen.
      * split.
        -- destruct ds as [|c ds]; [|rewrite append_cons; discriminate].
           apply Z.leb_le in Hx. rewrite append_nil.
           destruct (Z.to_nat (x + 1 - Z.of_nat (String.length "")))
             eqn:E; [simpl in E; lia|discriminate].
        -- rewrite no_space_app, Hds, no_space_zeros. reflexivity.
      * split.
        -- apply append_not_empty_r, append_not_empty_l. discriminate.
        -- rewrite !no_space_app, !no_space_substring by exact Hds. reflexivity.
    + split.
      * apply append_not_empty_l. discriminate.
      * rewrite !no_space_app, no_space_zeros, Hds. reflexivity.
Qed.

(** Whatever the float and the precision, [format_g] gives a token. *)
Lemma token_format_g (p : Z) (v : PrimFloat.float) : token (format_g p v).
Proof.
  unfold format_g. destruct (Prim2SF v) as [s|s| |s m e].
  - destruct s; split; (discriminate || reflexivity).
  - destruct s; split; (discriminate || reflexivity).
  - split; (discriminate || reflexivity).
  - match goal with
    | |- context [let '(q, x) := ?c in _] => destruct c as [q x]
    end.
    pose proof (token_layout (Z.max 1 p)
                  (rstrip_by is_zero_char (digits_of q)) x
                  (no_space_rstrip _ _ (no_space_digits q))) as [Hne Hns].
    split.
    + apply append_not_empty_r. exact Hne.
    + rewrite no_space_app, Hns. destruct s; reflexivity.
Qed.

End format_tokens.

(** ** Decoding an encoded matrix *)

Section decode_encode.
Import Py Transform.

(** The twelve texts [matrix_to_3mf_transform] writes, in order. *)
Definition encoded_tokens (mat : Matrix) (scale : PrimFloat.float)
  : list string :=
  [ g9 (entry mat 0 0); g9 (entry mat 1 0); g9 (entry mat 2 0);
    g9 (entry mat 0 1); g9 (entry mat 1 1); g9 (entry mat 2 1);
    g9 (entry mat 0 2); g9 (entry mat 1 2); g9 (entry mat 2 2);
    g9 (entry mat 0 3 * scale)%float; g9 (entry mat 1 3 * scale)%float;
    g9 (entry mat 2 3 * scale)%float ].

Lemma matrix_to_3mf_transform_join (mat : Matrix) (scale : PrimFloat.float) :
  matrix_to_3mf_transform mat scale = join " " (encoded_tokens mat scale).
Proof.
  unfold matrix_to_3mf_transform, encoded_tokens, join.
  rewrite !append_assoc. reflexivity.
Qed.

Lemma encoded_tokens_are_tokens (mat : Matrix) (scale : PrimFloat.float) :
  Forall token (encoded_tokens mat scale).
Proof. unfold encoded_tokens, g9. repeat constructor; apply token_format_g. Qed.

(** The decoder reads back exactly the twelve texts of the encoder. *)
Lemma split_encoded (mat : Matrix) (scale : PrimFloat.float) :
  split (strip (matrix_to_3mf_transform mat scale)) = encoded_tokens mat scale.
Proof.
  rewrite matrix_to_3mf_transform_join, strip_join, split_join;
    auto using encoded_tokens_are_tokens.
Qed.

(** Decoding an encoded matrix never takes the lenient branches for an
    empty string: it reads the twelve texts back and places them. *)
Lemma decode_encode_reads_tokens (mat : Matrix) (s r : PrimFloat.float) :
  parse_3mf_transform (Some (matrix_to_3mf_transform mat s)) r
  = bind (map_result float (encoded_tokens mat s)) (fun vals =>
      match vals with
      | [v0; v1; v2; v3; v4; v5; v6; v7; v8; v9; v10; v11] =>
          Ok ((v0, v3, v6, v9 * r),
              (v1, v4, v7, v10 * r),
              (v2, v5, v8, v11 * r),
              (0, 0, 0, 1))%float
      | _ => Ok Identity4
      end).
Proof.
  unfold parse_3mf_transform.
  pose proof (split_encoded mat s) as Hsplit.
  assert (Hne : String.eqb (matrix_to_3mf_transform mat s) ""
                || String.eqb (strip (matrix_to_3mf_transform mat s)) "" = false).
  { destruct (String.eqb_spec (strip (matrix_to_3mf_transform mat s)) "")
      as [E|_].
    - rewrite E in Hsplit. discriminate Hsplit.
    - destruct (String.eqb_spec (matrix_to_3mf_transform mat s) "") as [E|_];
        [|reflexivity].
      rewrite E in Hsplit. discriminate Hsplit. }
  rewrite Hne, Hsplit. reflexivity.
Qed.

End decode_encode.

(** ** Rounding to binary64

    How far the decoded matrix is from the encoded one depends on how
    [float], the [.9g] presentation and [*] round.  The magnitudes are
    followed in the reals: a binary64 operation returns a nearest
    representable magnitude to its exact result, the text of nine digits
    is within [5e-9] of the number it is written from, and reading it
    back returns a nearest representable magnitude to the decimal. *)

Section powers_of_two.
Local Open Scope R_scope.

Definition pow2 (e : Z) : R := powerRZ 2 e.

Lemma pow2_pos (e : Z) : 0 < pow2 e.
Proof. apply powerRZ_lt. lra. Qed.

Lemma pow2_add (a b : Z) : pow2 (a + b) = pow2 a * pow2 b.
Proof. apply powerRZ_add. lra. Qed.

Lemma pow2_succ (e : Z) : pow2 (e + 1) = 2 * pow2 e.
Proof. rewrite pow2_add. unfold pow2 at 2. simpl. lra. Qed.

Lemma pow2_le (a b : Z) : (a <= b)%Z -> pow2 a <= pow2 b.
Proof.
  intros H. replace b with (a + (b - a))%Z by lia. rewrite pow2_add.
  assert (1 <= pow2 (b - a)).
  { unfold pow2. destruct (b - a)%Z as [|p|p] eqn:E; try lia.
    - simpl. lra.
    - simpl. apply pow_R1_Rle. lra. }
  pose proof (pow2_pos a). nra.
Qed.

Lemma pow2_lt (a b : Z) : (a < b)%Z -> pow2 a < pow2 b.
Proof.
  intros H. pose proof (pow2_le (a + 1) b ltac:(lia)) as Hle.
  rewrite pow2_succ in Hle. pose proof (pow2_pos a). lra.
Qed.

Lemma pow2_IZR (n : Z) : (0 <= n)%Z -> pow2 n = IZR (2 ^ n).
Proof.
  intros H. unfold pow2. destruct n as [|p|p]; try lia.
  - simpl. reflexivity.
  - simpl. rewrite <- (positive_nat_Z p), <- pow_IZR. reflexivity.
Qed.

Lemma pow2_lt_inv (a b : Z) : pow2 a < pow2 b -> (a < b)%Z.
Proof.
  intros H. destruct (Z_lt_le_dec a b) as [Hlt|Hge]; [exact Hlt|].
  pose proof (pow2_le b a Hge). lra.
Qed.

End powers_of_two.

(** *** The number of binary digits *)

Section digits.

Lemma digits2_pos_bounds (p : positive) :
  2 ^ (Z.pos (digits2_pos p) - 1) <= Z.pos p < 2 ^ Z.pos (digits2_pos p).
Proof.
  induction p as [p IH|p IH|]; cbn [digits2_pos].
  - rewrite Pos2Z.inj_succ.
    replace (Z.succ (Z.pos (digits2_pos p)) - 1) with
      (Z.succ (Z.pos (digits2_pos p) - 1)) by lia.
    rewrite !Z.pow_succ_r by lia. lia.
  - rewrite Pos2Z.inj_succ.
    replace (Z.succ (Z.pos (digits2_pos p)) - 1) with
      (Z.succ (Z.pos (digits2_pos p) - 1)) by lia.
    rewrite !Z.pow_succ_r by lia. lia.
  - simpl. lia.
Qed.

Lemma digits2_pos_unique (p : positive) (k : Z) :
  2 ^ (k - 1) <= Z.pos p < 2 ^ k -> Z.pos (digits2_pos p) = k.
Proof.
  intros [Hlo Hhi]. pose proof (digits2_pos_bounds p) as [Hlo' Hhi'].
  assert (0 < k).
  { destruct (Z_lt_le_dec 0 k) as [H|H]; [exact H|].
    destruct (Z.eq_dec k 0) as [->|Hne].
    - simpl in Hhi. lia.
    - rewrite Z.pow_neg_r in Hhi by lia. lia. }
  destruct (Z.lt_trichotomy (Z.pos (digits2_pos p)) k) as [Hlt|[E|Hgt]].
  - assert (2 ^ Z.pos (digits2_pos p) <= 2 ^ (k - 1))
      by (apply Z.pow_le_mono_r; lia). lia.
  - exact E.
  - assert (2 ^ k <= 2 ^ (Z.pos (digits2_pos p) - 1))
      by (apply Z.pow_le_mono_r; lia). lia.
Qed.

End digits.

(** *** Locations *)

Section locations.
Local Open Scope R_scope.

(** Where a fraction [theta] of a step lies. *)
Definition at_loc (l : location) (theta : R) : Prop :=
  match l with
  | loc_Exact => theta = 0
  | loc_Inexact Lt => 0 < theta < 1 / 2
  | loc_Inexact Eq => theta = 1 / 2
  | loc_Inexact Gt => 1 / 2 < theta < 1
  end.

(** [y] lies in [[m * 2^e, (m + 1) * 2^e)], at the location [l]. *)
Definition located (m e : Z) (l : location) (y : R) : Prop :=
  at_loc l (y / pow2 e - IZR m).

Lemma at_loc_range (l : location) (theta : R) :
  at_loc l theta -> 0 <= theta < 1.
Proof. destruct l as [|[]]; simpl; lra. Qed.

Lemma located_range (m e : Z) (l : location) (y : R) :
  located m e l y -> IZR m * pow2 e <= y < (IZR m + 1) * pow2 e.
Proof.
  intros H. apply at_loc_range in H. pose proof (pow2_pos e) as He.
  assert (E : y = y / pow2 e * pow2 e) by (field; lra).
  split.
  - rewrite E. apply Rmult_le_compat_r; lra.
  - rewrite E at 1. apply Rmult_lt_compat_r; lra.
Qed.

Lemma loc_of_record_of_loc (m : Z) (l : location) :
  loc_of_shr_record (shr_record_of_loc m l) = l
  /\ shr_m (shr_record_of_loc m l) = m.
Proof. destruct l as [|[]]; split; reflexivity. Qed.

Lemma IZR_xO (p : positive) : IZR (Z.pos p~0) = 2 * IZR (Z.pos p).
Proof. change (Z.pos p~0) with (2 * Z.pos p)%Z. rewrite mult_IZR. reflexivity. Qed.

Lemma IZR_xI (p : positive) : IZR (Z.pos p~1) = 2 * IZR (Z.pos p) + 1.
Proof.
  change (Z.pos p~1) with (2 * Z.pos p + 1)%Z.
  rewrite plus_IZR, mult_IZR. reflexivity.
Qed.

Lemma shr_1_located (mrs : shr_record) (e : Z) (y : R) :
  (0 <= shr_m mrs)%Z ->
  located (shr_m mrs) e (loc_of_shr_record mrs) y ->
  (0 <= shr_m (shr_1 mrs))%Z
  /\ located (shr_m (shr_1 mrs)) (e + 1) (loc_of_shr_record (shr_1 mrs)) y.
Proof.
  destruct mrs as [m r s]. cbn [shr_m]. intros Hm. unfold located.
  rewrite pow2_succ. pose proof (pow2_pos e) as He.
  replace (y / (2 * pow2 e)) with (y / pow2 e / 2) by (field; lra).
  set (u := y / pow2 e).
  destruct m as [|p|p]; [| |lia].
  - destruct r, s; simpl; intros H; split; try lia; lra.
  - destruct p as [p|p|].
    + rewrite IZR_xI.
      destruct r, s; simpl; intros H; split; try lia; lra.
    + rewrite IZR_xO.
      destruct r, s; simpl; intros H; split; try lia; lra.
    + destruct r, s; simpl; intros H; split; try lia; lra.
Qed.

Lemma iter_shr_1_located (p : positive) (mrs : shr_record) (e : Z) (y : R) :
  (0 <= shr_m mrs)%Z ->
  located (shr_m mrs) e (loc_of_shr_record mrs) y ->
  (0 <= shr_m (SpecFloat.iter_pos shr_1 p mrs))%Z
  /\ located (shr_m (SpecFloat.iter_pos shr_1 p mrs)) (e + Z.pos p)
       (loc_of_shr_record (SpecFloat.iter_pos shr_1 p mrs)) y.
Proof.
  revert mrs e. induction p as [p IH|p IH|]; intros mrs e Hm Hl; cbn [SpecFloat.iter_pos].
  - destruct (shr_1_located mrs e y Hm Hl) as [Hm1 Hl1].
    destruct (IH _ _ Hm1 Hl1) as [Hm2 Hl2].
    destruct (IH _ _ Hm2 Hl2) as [Hm3 Hl3].
    split; [exact Hm3|].
    replace (e + Z.pos p~1)%Z with (e + 1 + Z.pos p + Z.pos p)%Z by lia.
    exact Hl3.
  - destruct (IH _ _ Hm Hl) as [Hm2 Hl2].
    destruct (IH _ _ Hm2 Hl2) as [Hm3 Hl3].
    split; [exact Hm3|].
    replace (e + Z.pos p~0)%Z with (e + Z.pos p + Z.pos p)%Z by lia.
    exact Hl3.
  - apply shr_1_located; assumption.
Qed.

(** Shifting to an exponent [g >= e] keeps the location. *)
Lemma shr_located (m e g : Z) (l : location) (y : R) :
  (0 <= m)%Z -> (e <= g)%Z -> located m e l y ->
  exists mrs,
    shr (shr_record_of_loc m l) e (g - e) = (mrs, g)
    /\ (0 <= shr_m mrs)%Z
    /\ located (shr_m mrs) g (loc_of_shr_record mrs) y.
Proof.
  intros Hm Hg Hl. unfold shr.
  destruct (loc_of_record_of_loc m l) as [El Em].
  destruct (g - e)%Z as [|p|p] eqn:E; [| |lia].
  - exists (shr_record_of_loc m l). replace g with e by lia.
    rewrite El, Em. auto.
  - exists (SpecFloat.iter_pos shr_1 p (shr_record_of_loc m l)).
    replace (e + Z.pos p)%Z with g by lia. split; [reflexivity|].
    assert (Hg' : g = (e + Z.pos p)%Z) by lia. rewrite Hg'.
    apply iter_shr_1_located; rewrite ?El, Em; assumption.
Qed.

(** The integer chosen by [round_nearest_even] is a nearest one. *)
Lemma round_nearest_even_nearest (m : Z) (l : location) (u : R) :
  at_loc l (u - IZR m) ->
  let k := round_nearest_even m l in
  (m <= k <= m + 1)%Z
  /\ Rabs (IZR k - u) <= 1 / 2
  /\ forall j : Z, Rabs (IZR k - u) <= Rabs (IZR j - u).
Proof.
  intros H. cbv zeta.
  assert (Hk : forall k : Z, (k = m \/ k = m + 1)%Z ->
            ((k = m)%Z -> u - IZR m <= 1 / 2) ->
            ((k = m + 1)%Z -> 1 / 2 <= u - IZR m) ->
            (m <= k <= m + 1)%Z
            /\ Rabs (IZR k - u) <= 1 / 2
            /\ forall j : Z, Rabs (IZR k - u) <= Rabs (IZR j - u)).
  { intros k Hk Hlo Hhi. pose proof (at_loc_range _ _ H) as Hr.
    split; [lia|].
    assert (Hj : forall j : Z, IZR j <= IZR m \/ IZR m + 1 <= IZR j).
    { intros j. destruct (Z_le_gt_dec j m) as [Hle|Hgt].
      - left. apply IZR_le. exact Hle.
      - right. rewrite <- plus_IZR. apply IZR_le. lia. }
    destruct Hk as [->| ->].
    - specialize (Hlo eq_refl). split.
      + apply Rabs_le. lra.
      + intros j. destruct (Hj j); unfold Rabs;
          repeat destruct Rcase_abs; lra.
    - specialize (Hhi eq_refl). rewrite plus_IZR. split.
      + apply Rabs_le. lra.
      + intros j. destruct (Hj j); unfold Rabs;
          repeat destruct Rcase_abs; lra. }
  destruct l as [|[]]; simpl in H |- *.
  - apply Hk; [left; reflexivity|intros _; lra|intros E; lia].
  - destruct (Z.even m); apply Hk;
      solve [auto | intros _; lra | intros E; lia].
  - apply Hk; [left; reflexivity|intros _; lra|intros E; lia].
  - apply Hk; [right; reflexivity|intros E; lia|intros _; lra].
Qed.

End locations.

Section binary64_rounding.
Local Open Scope R_scope.

(** The exponent of the binary64 numbers that have [e] binary digits
    before the point. *)
Definition fexp64 (e : Z) : Z := fexp prec emax e.

Lemma fexp64_eq (e : Z) : fexp64 e = Z.max (e - 53) (-1074).
Proof. reflexivity. Qed.

(** The magnitudes binary64 can hold. *)
Definition representable (F : R) : Prop :=
  F = 0
  \/ exists m e, SpecFloat.bounded prec emax m e = true
                 /\ Rabs F = IZR (Z.pos m) * pow2 e.

Lemma bounded_spec (m : positive) (e : Z) :
  SpecFloat.bounded prec emax m e = true <->
  (e = fexp64 (Z.pos (digits2_pos m) + e) /\ e <= 971)%Z.
Proof.
  unfold SpecFloat.bounded, canonical_mantissa. rewrite andb_true_iff, Z.eqb_eq, Z.leb_le.
  unfold fexp64. change (emax - prec)%Z with 971%Z. intuition lia.
Qed.

(** A representable magnitude is on the grid of any exponent [g] that is
    the exponent of a binade [b], unless it lies below that binade. *)
Lemma representable_grid (m : positive) (e b : Z) :
  SpecFloat.bounded prec emax m e = true ->
  (exists j : Z, IZR (Z.pos m) * pow2 e = IZR j * pow2 (fexp64 b))
  \/ (IZR (Z.pos m) * pow2 e < pow2 (b - 1) /\ (fexp64 b <= b - 1)%Z).
Proof.
  intros Hb. apply bounded_spec in Hb as [Hc _].
  rewrite fexp64_eq in Hc. rewrite fexp64_eq.
  destruct (Z_le_gt_dec (Z.max (b - 53) (-1074)) e) as [Hle|Hgt].
  - left. exists (Z.pos m * 2 ^ (e - Z.max (b - 53) (-1074)))%Z.
    rewrite mult_IZR, <- pow2_IZR by lia.
    rewrite Rmult_assoc, <- pow2_add. f_equal. f_equal. lia.
  - right. split; [|lia].
    pose proof (digits2_pos_bounds m) as [_ Hhi].
    apply IZR_lt in Hhi. rewrite <- pow2_IZR in Hhi by lia.
    apply Rlt_le_trans with (pow2 (Z.pos (digits2_pos m)) * pow2 e).
    + apply Rmult_lt_compat_r; [apply pow2_pos|exact Hhi].
    + rewrite <- pow2_add. apply pow2_le. lia.
Qed.

(** What [binary_round_aux] returns for the magnitude [v] it has chosen
    on the grid of exponent [g]. *)
Definition rounded (s : bool) (g : Z) (v : R) (r : spec_float) : Prop :=
  match r with
  | S754_zero s' => s' = s /\ v = 0
  | S754_finite s' m e =>
      s' = s /\ SpecFloat.bounded prec emax m e = true /\ (g <= e)%Z
      /\ v = IZR (Z.pos m) * pow2 e
  | S754_infinity s' => s' = s /\ pow2 1024 <= v
  | S754_nan => False
  end.

Lemma IZR_lt_pow2 (m n : Z) : (0 <= n)%Z -> IZR m < pow2 n -> (m < 2 ^ n)%Z.
Proof. intros Hn H. rewrite pow2_IZR in H by exact Hn. apply lt_IZR. exact H. Qed.

Lemma pow2_le_IZR (m n : Z) : (0 <= n)%Z -> pow2 n < IZR m + 1 -> (2 ^ n <= m)%Z.
Proof.
  intros Hn H. rewrite pow2_IZR in H by exact Hn.
  rewrite <- plus_IZR in H. apply lt_IZR in H. lia.
Qed.

Lemma shr_fexp_unfold (m e : Z) (l : location) :
  shr_fexp prec emax m e l
  = shr (shr_record_of_loc m l) e (fexp64 (Zdigits2 m + e) - e).
Proof. reflexivity. Qed.

(** The rounding at the heart of every binary64 operation: the result
    is a nearest representable magnitude. *)
Theorem binary_round_aux_nearest (s : bool) (mx : positive) (ex : Z)
    (lx : location) (y : R) :
  located (Z.pos mx) ex lx y ->
  (ex <= fexp64 (Z.pos (digits2_pos mx) + ex))%Z ->
  let g := fexp64 (Z.pos (digits2_pos mx) + ex) in
  exists v : R,
    0 <= v
    /\ (forall F, representable F -> Rabs (v - y) <= Rabs (F - y))
    /\ Rabs (v - y) <= pow2 g / 2
    /\ rounded s g v (binary_round_aux prec emax s (Z.pos mx) ex lx).
Proof.
  intros Hloc Hex g.
  set (d := Z.pos (digits2_pos mx)) in *.
  assert (Hg : g = Z.max (d + ex - 53) (-1074)) by reflexivity.
  pose proof (pow2_pos g) as Hpg.
  pose proof (pow2_pos ex) as Hpe.
  pose proof (digits2_pos_bounds mx) as [Hdlo Hdhi]. fold d in Hdlo, Hdhi.
  pose proof (located_range _ _ _ _ Hloc) as [Hylo Hyhi].
  (* y between the ends of its binade *)
  assert (Hy1 : pow2 (d - 1 + ex) <= y).
  { rewrite pow2_add. apply Rle_trans with (IZR (Z.pos mx) * pow2 ex); [|lra].
    apply Rmult_le_compat_r; [lra|].
    rewrite pow2_IZR by lia. apply IZR_le. exact Hdlo. }
  assert (Hy2 : y < pow2 (d + ex)).
  { rewrite pow2_add. apply Rlt_le_trans with ((IZR (Z.pos mx) + 1) * pow2 ex);
      [lra|].
    apply Rmult_le_compat_r; [lra|].
    rewrite pow2_IZR by lia. rewrite <- plus_IZR. apply IZR_le. lia. }
  (* first shift *)
  destruct (shr_located (Z.pos mx) ex g lx y ltac:(lia) Hex Hloc)
    as (mrs1 & Hshr1 & Hm1 & Hloc1).
  set (m1 := shr_m mrs1) in *.
  pose proof (located_range _ _ _ _ Hloc1) as [Hm1lo Hm1hi].
  set (u := y / pow2 g).
  assert (Hu : y = u * pow2 g) by (unfold u; field; lra).
  destruct (round_nearest_even_nearest m1 (loc_of_shr_record mrs1) u Hloc1)
    as (Hk & Hhalf & Hnear).
  set (k := round_nearest_even m1 (loc_of_shr_record mrs1)) in *.
  assert (Hdist : forall j : Z,
            Rabs (IZR j * pow2 g - y) = Rabs (IZR j - u) * pow2 g).
  { intros j. rewrite Hu, <- Rmult_minus_distr_r, Rabs_mult.
    rewrite (Rabs_right (pow2 g)) by lra. reflexivity. }
  (* bounds on the shifted mantissa *)
  assert (Hm1hi' : (m1 < 2 ^ 53)%Z).
  { apply IZR_lt_pow2; [lia|].
    apply Rmult_lt_reg_r with (pow2 g); [exact Hpg|].
    rewrite <- pow2_add. apply Rle_lt_trans with y; [exact Hm1lo|].
    apply Rlt_le_trans with (pow2 (d + ex)); [exact Hy2|].
    apply pow2_le. lia. }
  assert (Hm1lo' : (-1074 < g)%Z -> (2 ^ 52 <= m1)%Z).
  { intros Hn. apply pow2_le_IZR; [lia|].
    apply Rmult_lt_reg_r with (pow2 g); [exact Hpg|].
    rewrite <- pow2_add. apply Rle_lt_trans with y; [|exact Hm1hi].
    apply Rle_trans with (pow2 (d - 1 + ex)); [|exact Hy1].
    apply pow2_le. lia. }
  exists (IZR k * pow2 g).
  split; [apply Rmult_le_pos; [apply IZR_le; lia|lra]|].
  split; [|split].
  - (* nearest among the representable magnitudes *)
    intros F [->|(m & e & Hb & HF)].
    + rewrite Hdist. replace (0 - y) with (IZR 0 * pow2 g - y) by lra.
      rewrite Hdist. apply Rmult_le_compat_r; [lra|apply Hnear].
    + assert (HM : Rabs (IZR k * pow2 g - y)
                   <= Rabs (IZR (Z.pos m) * pow2 e - y)).
      { destruct (representable_grid m e (d + ex) Hb) as [[j Hj]|[Hlow Hge]].
        - fold g in Hj. rewrite Hj, !Hdist.
          apply Rmult_le_compat_r; [lra|apply Hnear].
        - fold g in Hge.
          apply Rle_trans with (Rabs (IZR (2 ^ (d + ex - 1 - g)) * pow2 g - y)).
          + rewrite !Hdist. apply Rmult_le_compat_r; [lra|apply Hnear].
          + rewrite <- pow2_IZR, <- pow2_add by lia.
            replace (d + ex - 1 - g + g)%Z with (d - 1 + ex)%Z by lia.
            replace (d + ex - 1)%Z with (d - 1 + ex)%Z in Hlow by lia.
            unfold Rabs; repeat destruct Rcase_abs; lra. }
      eapply Rle_trans; [exact HM|].
      assert (0 < IZR (Z.pos m) * pow2 e)
        by (apply Rmult_lt_0_compat; [apply IZR_lt; lia|apply pow2_pos]).
      rewrite <- HF.
      assert (0 < y) by (pose proof (pow2_pos (d - 1 + ex)); lra).
      unfold Rabs; repeat destruct Rcase_abs; lra.
  - rewrite Hdist.
    replace (pow2 g / 2) with (1 / 2 * pow2 g) by lra.
    apply Rmult_le_compat_r; [lra|exact Hhalf].
  - (* the shape of the result *)
    unfold binary_round_aux. rewrite shr_fexp_unfold.
    change (Zdigits2 (Z.pos mx)) with d. fold g. rewrite Hshr1.
    fold m1. fold k. rewrite shr_fexp_unfold.
    destruct k as [|p|p] eqn:Ek; [| |lia].
    + change (Zdigits2 0) with 0%Z.
      assert (Hn : (fexp64 (0 + g) - g <= 0)%Z) by (rewrite fexp64_eq; lia).
      unfold shr. destruct (fexp64 (0 + g) - g)%Z; [| lia |]; simpl;
        (split; [reflexivity|lra]).
    + change (Zdigits2 (Z.pos p)) with (Z.pos (digits2_pos p)).
      pose proof (digits2_pos_bounds p) as [Hplo Hphi].
      destruct (Z_lt_le_dec (Z.pos p) (2 ^ 53)) as [Hlt|Hge].
      * (* no carry *)
        assert (Hdk : (Z.pos (digits2_pos p) <= 53)%Z).
        { destruct (Z_le_gt_dec (Z.pos (digits2_pos p)) 53) as [H|H];
            [exact H|].
          assert (2 ^ 53 <= 2 ^ (Z.pos (digits2_pos p) - 1))%Z
            by (apply Z.pow_le_mono_r; lia). lia. }
        assert (Hdk' : (-1074 < g)%Z -> Z.pos (digits2_pos p) = 53%Z).
        { intros Hn. apply digits2_pos_unique. specialize (Hm1lo' Hn).
          change (53 - 1)%Z with 52%Z. lia. }
        assert (Hn : (fexp64 (Z.pos (digits2_pos p) + g) - g <= 0)%Z)
          by (rewrite fexp64_eq; lia).
        assert (Hcanon : g = fexp64 (Z.pos (digits2_pos p) + g)).
        { rewrite fexp64_eq.
          destruct (Z_le_gt_dec g (-1074)) as [Hs|Hs]; [lia|].
          rewrite (Hdk' ltac:(lia)). lia. }
        unfold shr.
        destruct (fexp64 (Z.pos (digits2_pos p) + g) - g)%Z eqn:En2;
          [| lia |]; cbn [shr_m shr_record_of_loc];
          change (emax - prec)%Z with 971%Z.
        -- destruct (Z.leb_spec g 971) as [Hle|Hgt].
           ++ split; [reflexivity|]. split; [|split; [lia|reflexivity]].
              apply bounded_spec. split; [exact Hcanon|exact Hle].
           ++ split; [reflexivity|].
              apply Rle_trans with (IZR (2 ^ 52) * pow2 g).
              ** rewrite <- pow2_IZR, <- pow2_add by lia. apply pow2_le. lia.
              ** apply Rmult_le_compat_r; [lra|]. apply IZR_le.
                 specialize (Hm1lo' ltac:(lia)). lia.
        -- destruct (Z.leb_spec g 971) as [Hle|Hgt].
           ++ split; [reflexivity|]. split; [|split; [lia|reflexivity]].
              apply bounded_spec. split; [exact Hcanon|exact Hle].
           ++ split; [reflexivity|].
              apply Rle_trans with (IZR (2 ^ 52) * pow2 g).
              ** rewrite <- pow2_IZR, <- pow2_add by lia. apply pow2_le. lia.
              ** apply Rmult_le_compat_r; [lra|]. apply IZR_le.
                 specialize (Hm1lo' ltac:(lia)). lia.
      * (* the mantissa has been rounded up to 2^53 *)
        assert (Ep : Z.pos p = (2 ^ 53)%Z) by lia.
        assert (Ep' : p = 9007199254740992%positive)
          by (apply Pos2Z.inj; rewrite Ep; reflexivity).
        subst p.
        change (Z.pos (digits2_pos 9007199254740992)) with 54%Z.
        assert (En2 : (fexp64 (54 + g) - g = 1)%Z) by (rewrite fexp64_eq; lia).
        rewrite En2. unfold shr. cbn [SpecFloat.iter_pos shr_1 shr_record_of_loc shr_m].
        change (emax - prec)%Z with 971%Z.
        destruct (Z.leb_spec (g + 1) 971) as [Hle|Hgt].
        -- split; [reflexivity|]. split; [|split; [lia|]].
           ++ apply bounded_spec.
              change (Z.pos (digits2_pos 4503599627370496)) with 53%Z.
              rewrite fexp64_eq. lia.
           ++ rewrite pow2_succ.
              change 9007199254740992%Z with (2 * 4503599627370496)%Z.
              rewrite mult_IZR. lra.
        -- split; [reflexivity|].
           replace 1024%Z with (53 + 971)%Z by lia. rewrite pow2_add.
           rewrite (pow2_IZR 53) by lia.
           change (2 ^ 53)%Z with 9007199254740992%Z.
           apply Rmult_le_compat_l; [apply IZR_le; lia|].
           apply pow2_le. lia.
Qed.

End binary64_rounding.

Section float_values.
Local Open Scope R_scope.

(** The real number a binary64 value stands for; 0 for the infinities
    and NaN. *)
Definition SF2R (f : spec_float) : R :=
  match f with
  | S754_finite s m e => IZR (cond_Zopp s (Z.pos m)) * pow2 e
  | _ => 0
  end.

Definition B2R (x : float) : R := SF2R (Prim2SF x).

Definition SF_finite (f : spec_float) : bool :=
  match f with
  | S754_zero _ | S754_finite _ _ _ => true
  | _ => false
  end.

Definition signed (s : bool) (v : R) : R := if s then - v else v.

Lemma Rabs_signed (s : bool) (v : R) : Rabs (signed s v) = Rabs v.
Proof. destruct s; simpl; [apply Rabs_Ropp|reflexivity]. Qed.

Lemma SF2R_finite (s : bool) (m : positive) (e : Z) :
  SF2R (S754_finite s m e) = signed s (IZR (Z.pos m) * pow2 e).
Proof.
  destruct s; simpl; [|reflexivity].
  change (Z.neg m) with (- Z.pos m)%Z. rewrite opp_IZR. lra.
Qed.

Lemma rounded_valid (s : bool) (g : Z) (v : R) (r : spec_float) :
  rounded s g v r -> valid_binary r = true.
Proof. destruct r; simpl; intuition. Qed.

Lemma rounded_value (s : bool) (g : Z) (v : R) (r : spec_float) :
  rounded s g v r -> v < pow2 1024 ->
  SF_finite r = true /\ SF2R r = signed s v.
Proof.
  destruct r as [s'|s'| |s' m e]; simpl.
  - intros [-> ->] _. split; [reflexivity|]. destruct s; simpl; lra.
  - intros [_ H] Hv. lra.
  - contradiction.
  - intros (-> & _ & _ & ->) _. split; [reflexivity|].
    apply (SF2R_finite s m e).
Qed.

Lemma representable_SF (f : spec_float) :
  valid_binary f = true -> representable (SF2R f).
Proof.
  destruct f as [s|s| |s m e]; simpl; intros Hv; try (left; reflexivity).
  right. exists m, e. split; [exact Hv|].
  pose proof (SF2R_finite s m e) as E. simpl in E. rewrite E, Rabs_signed.
  apply Rabs_right. apply Rle_ge. apply Rmult_le_pos.
  - apply IZR_le. lia.
  - pose proof (pow2_pos e). lra.
Qed.

Lemma representable_B2R (x : float) : representable (B2R x).
Proof. apply representable_SF, Prim2SF_valid. Qed.

End float_values.

Section shifted_mantissa.

Lemma iter_xO_value (m d : positive) :
  Z.pos (Pos.iter xO m d) = (Z.pos m * 2 ^ Z.pos d)%Z.
Proof.
  induction d as [|d IH] using Pos.peano_ind.
  - simpl. lia.
  - rewrite Pos.iter_succ, Pos2Z.inj_succ, Z.pow_succ_r by lia.
    change (Z.pos (Pos.iter xO m d)~0) with (2 * Z.pos (Pos.iter xO m d))%Z.
    rewrite IH. lia.
Qed.

Lemma iter_xO_digits (m d : positive) :
  Z.pos (digits2_pos (Pos.iter xO m d))
  = (Z.pos (digits2_pos m) + Z.pos d)%Z.
Proof.
  induction d as [|d IH] using Pos.peano_ind.
  - simpl. lia.
  - rewrite Pos.iter_succ. cbn [digits2_pos].
    rewrite !Pos2Z.inj_succ, IH. lia.
Qed.

End shifted_mantissa.

Section operations.
Local Open Scope R_scope.

Lemma located_exact (m e : Z) : located m e loc_Exact (IZR m * pow2 e).
Proof.
  unfold located. simpl. pose proof (pow2_pos e). field. lra.
Qed.

(** [binary_round]: the nearest representable magnitude to [m * 2^e]. *)
Lemma binary_round_nearest (s : bool) (m : positive) (e : Z) :
  exists g v,
    0 <= v
    /\ (forall F, representable F ->
          Rabs (v - IZR (Z.pos m) * pow2 e)
          <= Rabs (F - IZR (Z.pos m) * pow2 e))
    /\ rounded s g v (binary_round prec emax s m e).
Proof.
  unfold binary_round, shl_align.
  change (fexp prec emax (Z.pos (digits2_pos m) + e)) with
    (fexp64 (Z.pos (digits2_pos m) + e)).
  destruct (fexp64 (Z.pos (digits2_pos m) + e) - e)%Z as [|d|d] eqn:E.
  - destruct (binary_round_aux_nearest s m e loc_Exact _ (located_exact _ _)
                ltac:(lia)) as (v & Hv & Hn & _ & Hr).
    eauto.
  - destruct (binary_round_aux_nearest s m e loc_Exact _ (located_exact _ _)
                ltac:(lia)) as (v & Hv & Hn & _ & Hr).
    eauto.
  - set (g := fexp64 (Z.pos (digits2_pos m) + e)) in *.
    assert (Hval : IZR (Z.pos m) * pow2 e
                   = IZR (Z.pos (Pos.iter xO m d)) * pow2 g).
    { rewrite iter_xO_value, mult_IZR, <- pow2_IZR by lia.
      rewrite Rmult_assoc, <- pow2_add. f_equal. f_equal. lia. }
    rewrite Hval.
    assert (Hpre : (g <= fexp64 (Z.pos (digits2_pos (Pos.iter xO m d)) + g))%Z).
    { rewrite iter_xO_digits.
      replace (Z.pos (digits2_pos m) + Z.pos d + g)%Z
        with (Z.pos (digits2_pos m) + e)%Z by lia.
      fold g. lia. }
    destruct (binary_round_aux_nearest s (Pos.iter xO m d) g loc_Exact _
                (located_exact _ _) Hpre) as (v & Hv & Hn & _ & Hr).
    eauto.
Qed.

(** The product of two finite binary64 values that are not zero. *)
Lemma mul_nearest (x s : float) (sx ss : bool) (mx ms : positive)
    (ex es : Z) :
  Prim2SF x = S754_finite sx mx ex ->
  Prim2SF s = S754_finite ss ms es ->
  let y := IZR (Z.pos mx) * pow2 ex * (IZR (Z.pos ms) * pow2 es) in
  exists g v,
    0 <= v
    /\ (forall F, representable F -> Rabs (v - y) <= Rabs (F - y))
    /\ Rabs (v - y) <= pow2 g / 2
    /\ rounded (xorb sx ss) g v (Prim2SF (x * s)).
Proof.
  intros Ex Es y.
  pose proof (Prim2SF_valid x) as Vx. rewrite Ex in Vx.
  pose proof (Prim2SF_valid s) as Vs. rewrite Es in Vs.
  simpl in Vx, Vs. apply bounded_spec in Vx as [Cx _], Vs as [Cs _].
  rewrite fexp64_eq in Cx, Cs.
  rewrite mul_spec, Ex, Es. unfold SF64mul, SFmul.
  assert (Hy : y = IZR (Z.pos (mx * ms)) * pow2 (ex + es)).
  { unfold y. rewrite Pos2Z.inj_mul, mult_IZR, pow2_add. ring. }
  rewrite Hy.
  assert (Hpre : (ex + es
                  <= fexp64 (Z.pos (digits2_pos (mx * ms)) + (ex + es)))%Z).
  { rewrite fexp64_eq.
    pose proof (digits2_pos_bounds mx) as [Hxl _].
    pose proof (digits2_pos_bounds ms) as [Hsl _].
    pose proof (digits2_pos_bounds (mx * ms)) as [_ Hph].
    rewrite Pos2Z.inj_mul in Hph.
    assert (Hd : (Z.pos (digits2_pos mx) + Z.pos (digits2_pos ms) - 1
                  <= Z.pos (digits2_pos (mx * ms)))%Z).
    { destruct (Z_le_gt_dec (Z.pos (digits2_pos mx) + Z.pos (digits2_pos ms) - 1)
                  (Z.pos (digits2_pos (mx * ms)))) as [H|H]; [exact H|].
      assert (2 ^ Z.pos (digits2_pos (mx * ms))
              <= 2 ^ (Z.pos (digits2_pos mx) - 1 + (Z.pos (digits2_pos ms) - 1)))%Z
        by (apply Z.pow_le_mono_r; lia).
      rewrite Z.pow_add_r in H0 by lia. nia. }
    lia. }
  destruct (binary_round_aux_nearest (xorb sx ss) (mx * ms) (ex + es)
              loc_Exact _ (located_exact _ _) Hpre)
    as (v & Hv & Hn & Hh & Hr).
  eauto 10.
Qed.

End operations.

Section powers_of_ten.
Local Open Scope R_scope.

Definition pow10 (e : Z) : R := powerRZ 10 e.

Lemma pow10_pos (e : Z) : 0 < pow10 e.
Proof. apply powerRZ_lt. lra. Qed.

Lemma pow10_add (a b : Z) : pow10 (a + b) = pow10 a * pow10 b.
Proof. apply powerRZ_add. lra. Qed.

Lemma pow10_IZR (n : Z) : (0 <= n)%Z -> pow10 n = IZR (10 ^ n).
Proof.
  intros H. unfold pow10. destruct n as [|p|p]; try lia.
  - simpl. reflexivity.
  - simpl. rewrite <- (positive_nat_Z p), <- pow_IZR. reflexivity.
Qed.

Lemma pow10_neg (e : Z) : pow10 (- e) = / pow10 e.
Proof.
  pose proof (pow10_pos e) as H.
  apply Rmult_eq_reg_l with (pow10 e); [|lra].
  rewrite <- pow10_add, Z.add_opp_diag_r, Rinv_r by lra. reflexivity.
Qed.

Lemma pow10_le (a b : Z) : (a <= b)%Z -> pow10 a <= pow10 b.
Proof.
  intros H. replace b with (a + (b - a))%Z by lia. rewrite pow10_add.
  assert (1 <= pow10 (b - a)).
  { rewrite pow10_IZR by lia. apply IZR_le.
    assert (0 < 10 ^ (b - a))%Z by (apply Z.pow_pos_nonneg; lia). lia. }
  pose proof (pow10_pos a). nra.
Qed.

Lemma pow10_succ (e : Z) : pow10 (e + 1) = 10 * pow10 e.
Proof. rewrite pow10_add. unfold pow10 at 2. simpl. lra. Qed.

Lemma pow10_lt (a b : Z) : (a < b)%Z -> pow10 a < pow10 b.
Proof.
  intros H. pose proof (pow10_le (a + 1) b ltac:(lia)) as Hle.
  rewrite pow10_succ in Hle. pose proof (pow10_pos a). lra.
Qed.

End powers_of_ten.

Section reading_decimals.
Local Open Scope R_scope.

Lemma log2_bounds (a : Z) : (0 < a)%Z -> (2 ^ Z.log2 a <= a < 2 ^ (Z.log2 a + 1))%Z.
Proof.
  intros H. pose proof (Z.log2_spec a H) as [H1 H2].
  replace (Z.log2 a + 1)%Z with (Z.succ (Z.log2 a)) by lia. lia.
Qed.

(** [float_of_decimal] gives a nearest binary64 magnitude to [m * 10^e]. *)
Lemma float_of_decimal_nearest (neg : bool) (m e : Z) :
  (0 < m)%Z ->
  let y := IZR m * pow10 e in
  exists g v,
    0 <= v
    /\ (forall F, representable F -> Rabs (v - y) <= Rabs (F - y))
    /\ rounded neg g v (Prim2SF (Py.float_of_decimal neg m e)).
Proof.
  intros Hm y. unfold Py.float_of_decimal.
  destruct (Z.eqb_spec m 0) as [E0|_]; [lia|].
  destruct (Z.leb_spec 0 e) as [He|He].
  - (* an integer *)
    assert (Hpos : (0 < m * 10 ^ e)%Z).
    { apply Z.mul_pos_pos; [exact Hm|]. apply Z.pow_pos_nonneg; lia. }
    destruct (m * 10 ^ e)%Z as [|P|P] eqn:EP; try lia.
    assert (Hy : y = IZR (Z.pos P) * pow2 0).
    { unfold y. rewrite <- EP, mult_IZR, <- pow10_IZR by lia.
      unfold pow2. simpl. lra. }
    rewrite Hy.
    destruct (binary_round_nearest neg P 0) as (g & v & Hv & Hn & Hr).
    assert (Enorm : binary_normalize prec emax (cond_Zopp neg (Z.pos P)) 0 false
                    = binary_round prec emax neg P 0)
      by (destruct neg; reflexivity).
    rewrite Enorm, Prim2SF_SF2Prim by (eapply rounded_valid; exact Hr).
    eauto.
  - (* a quotient *)
    set (d := (10 ^ (- e))%Z).
    set (k := Z.max 0 (Z.log2 d - Z.log2 m + 66)).
    set (n := (m * 2 ^ k)%Z).
    assert (Hd : (0 < d)%Z) by (apply Z.pow_pos_nonneg; lia).
    assert (Hk : (0 <= k)%Z) by lia.
    pose proof (log2_bounds m Hm) as [Hm1 _].
    pose proof (log2_bounds d Hd) as [_ Hd2].
    pose proof (Z.log2_nonneg m) as Hlm.
    pose proof (Z.log2_nonneg d) as Hld.
    assert (Hn : (d * 2 ^ 65 <= n)%Z).
    { unfold n.
      assert (2 ^ (Z.log2 d + 1) * 2 ^ 65 <= 2 ^ Z.log2 m * 2 ^ k)%Z.
      { rewrite <- !Z.pow_add_r by lia. apply Z.pow_le_mono_r; lia. }
      assert (0 < 2 ^ k)%Z by (apply Z.pow_pos_nonneg; lia).
      nia. }
    pose proof (Z.div_mod n d ltac:(lia)) as Hdiv.
    pose proof (Z.mod_pos_bound n d Hd) as Hrem.
    set (q := (n / d)%Z) in *. set (r := (n mod d)%Z) in *.
    assert (Hq : (2 ^ 65 <= q)%Z).
    { unfold q. apply Z.div_le_lower_bound; lia. }
    destruct q as [|Q|Q] eqn:EQ; try lia.
    pose proof (digits2_pos_bounds Q) as [_ HQ].
    assert (HdQ : (66 <= Z.pos (digits2_pos Q))%Z).
    { destruct (Z_le_gt_dec 66 (Z.pos (digits2_pos Q))) as [H|H]; [exact H|].
      assert (2 ^ Z.pos (digits2_pos Q) <= 2 ^ 65)%Z
        by (apply Z.pow_le_mono_r; lia). lia. }
    assert (Hpre : (- k <= fexp64 (Z.pos (digits2_pos Q) + - k))%Z)
      by (rewrite fexp64_eq; lia).
    set (loc := if (r =? 0)%Z then loc_Exact else loc_Inexact (2 * r ?= d)%Z).
    assert (Hloc : located (Z.pos Q) (- k) loc y).
    { unfold located.
      assert (E : y / pow2 (- k) - IZR (Z.pos Q) = IZR r / IZR d).
      { unfold y. unfold pow2. rewrite <- (Z.opp_involutive e) at 1.
        fold (pow10 (- - e)). rewrite pow10_neg, pow10_IZR by lia. fold d.
        fold (pow2 (- k)).
        assert (Hpk : pow2 (- k) = / pow2 k).
        { pose proof (pow2_pos k) as H.
          apply Rmult_eq_reg_l with (pow2 k); [|lra].
          rewrite <- pow2_add, Z.add_opp_diag_r, Rinv_r by lra. reflexivity. }
        rewrite Hpk, (pow2_IZR k) by lia.
        assert (En : IZR n = IZR d * IZR (Z.pos Q) + IZR r)
          by (rewrite Hdiv, plus_IZR, mult_IZR; reflexivity).
        unfold n in En. rewrite mult_IZR in En.
        assert (IZR d <> 0) by (apply not_0_IZR; lia).
        assert (IZR (2 ^ k) <> 0).
        { apply not_0_IZR. assert (0 < 2 ^ k)%Z by (apply Z.pow_pos_nonneg; lia).
          lia. }
        field_simplify; [|assumption|split; assumption].
        rewrite En. field. assumption. }
      rewrite E. unfold loc.
      assert (HdR : 0 < IZR d) by (apply IZR_lt; lia).
      destruct (Z.eqb_spec r 0) as [Er|Er].
      - simpl. rewrite Er. lra.
      - assert (0 < IZR r) by (apply IZR_lt; lia).
        destruct (Z.compare_spec (2 * r) d) as [Hc|Hc|Hc]; simpl.
        + apply (f_equal IZR) in Hc. rewrite mult_IZR in Hc.
          apply Rmult_eq_reg_r with (IZR d); [|lra].
          field_simplify; lra.
        + apply IZR_lt in Hc. rewrite mult_IZR in Hc. split.
          * apply Rdiv_lt_0_compat; lra.
          * apply Rmult_lt_reg_r with (IZR d); [lra|].
            field_simplify; lra.
        + apply IZR_lt in Hc. rewrite mult_IZR in Hc.
          assert (IZR r < IZR d) by (apply IZR_lt; lia). split.
          * apply Rmult_lt_reg_r with (IZR d); [lra|].
            field_simplify; lra.
          * apply Rmult_lt_reg_r with (IZR d); [lra|].
            field_simplify; lra. }
    destruct (binary_round_aux_nearest neg Q (- k) loc y Hloc Hpre)
      as (v & Hv & Hnear & _ & Hr).
    fold loc.
    rewrite Prim2SF_SF2Prim by (eapply rounded_valid; exact Hr).
    eauto.
Qed.

End reading_decimals.

(** ** Digit strings *)

Section digit_strings.
Import Py.

(** The number a [uint] denotes, read after the digits of [acc]. *)
Fixpoint uint_val (d : Decimal.uint) (acc : Z) : Z :=
  match d with
  | Decimal.Nil => acc
  | Decimal.D0 d => uint_val d (10 * acc + 0)
  | Decimal.D1 d => uint_val d (10 * acc + 1)
  | Decimal.D2 d => uint_val d (10 * acc + 2)
  | Decimal.D3 d => uint_val d (10 * acc + 3)
  | Decimal.D4 d => uint_val d (10 * acc + 4)
  | Decimal.D5 d => uint_val d (10 * acc + 5)
  | Decimal.D6 d => uint_val d (10 * acc + 6)
  | Decimal.D7 d => uint_val d (10 * acc + 7)
  | Decimal.D8 d => uint_val d (10 * acc + 8)
  | Decimal.D9 d => uint_val d (10 * acc + 9)
  end.

Definition uint_len (d : Decimal.uint) : Z := Z.of_nat (Decimal.nb_digits d).

Lemma uint_len_nonneg (d : Decimal.uint) : 0 <= uint_len d.
Proof. unfold uint_len. lia. Qed.

Lemma uint_val_acc (d : Decimal.uint) (acc : Z) :
  uint_val d acc = acc * 10 ^ uint_len d + uint_val d 0.
Proof.
  unfold uint_len. revert acc.
  induction d as [|d IH|d IH|d IH|d IH|d IH|d IH|d IH|d IH|d IH|d IH];
    intros acc; cbn [uint_val Decimal.nb_digits];
    [simpl; lia|..];
    rewrite IH, (IH (10 * 0 + _)), Nat2Z.inj_succ, Z.pow_succ_r by lia; lia.
Qed.

Lemma uint_val_bounds (d : Decimal.uint) :
  0 <= uint_val d 0 < 10 ^ uint_len d.
Proof.
  unfold uint_len.
  induction d as [|d IH|d IH|d IH|d IH|d IH|d IH|d IH|d IH|d IH|d IH];
    cbn [uint_val Decimal.nb_digits];
    [simpl; lia|..];
    rewrite uint_val_acc, Nat2Z.inj_succ, Z.pow_succ_r by lia;
    unfold uint_len; lia.
Qed.

Lemma of_uint_acc_val (d : Decimal.uint) (acc : positive) :
  Z.pos (Pos.of_uint_acc d acc) = uint_val d (Z.pos acc).
Proof.
  revert acc.
  induction d as [|d IH|d IH|d IH|d IH|d IH|d IH|d IH|d IH|d IH|d IH];
    intros acc; cbn [uint_val Pos.of_uint_acc]; [reflexivity|..];
    rewrite IH; f_equal; lia.
Qed.

Lemma of_uint_val (d : Decimal.uint) :
  Z.of_N (Pos.of_uint d) = uint_val d 0.
Proof.
  induction d as [|d IH|d IH|d IH|d IH|d IH|d IH|d IH|d IH|d IH|d IH];
    cbn [uint_val Pos.of_uint]; [reflexivity|exact IH|..];
    cbn [Z.of_N]; rewrite of_uint_acc_val; reflexivity.
Qed.

Lemma string_of_uint_length (d : Decimal.uint) :
  Z.of_nat (String.length (NilEmpty.string_of_uint d)) = uint_len d.
Proof.
  unfold uint_len. f_equal.
  induction d; cbn [NilEmpty.string_of_uint String.length Decimal.nb_digits];
    congruence.
Qed.

(** Reading the digits of a [uint]. *)
Lemma take_digits_uint (d : Decimal.uint) (acc n : Z) (rest : string) :
  take_digits acc n (NilEmpty.string_of_uint d +:+ rest)
  = take_digits (uint_val d acc) (n + uint_len d) rest.
Proof.
  unfold uint_len. revert acc n.
  induction d as [|d IH|d IH|d IH|d IH|d IH|d IH|d IH|d IH|d IH|d IH];
    intros acc n; cbn [NilEmpty.string_of_uint uint_val Decimal.nb_digits].
  1:{ simpl. f_equal. lia. }
  all: change (String ?c ?s +:+ rest) with (String c (s +:+ rest));
    cbn [take_digits];
    match goal with
    | |- context [is_digit ?c] =>
        change (is_digit c) with true;
        let v := eval vm_compute in (digit_val c) in
        change (digit_val c) with v
    end;
    cbv iota; rewrite IH, Nat2Z.inj_succ; f_equal; lia.
Qed.

Lemma nzhead_not_D0 (d d' : Decimal.uint) : Decimal.nzhead d <> Decimal.D0 d'.
Proof. induction d; simpl; try discriminate. exact IHd. Qed.

(** The decimal digits of a natural number: no leading zero. *)
Lemma to_uint_head (n : N) :
  (0 < n)%N ->
  exists d, N.to_uint n = d /\ d <> Decimal.Nil
            /\ (forall d', d <> Decimal.D0 d').
Proof.
  intros Hn. exists (N.to_uint n). split; [reflexivity|].
  pose proof (DecimalN.Unsigned.to_of (N.to_uint n)) as H.
  rewrite DecimalN.Unsigned.of_to in H.
  split.
  - intros E. rewrite E in H. discriminate H.
  - intros d' E. rewrite E in H. unfold Decimal.unorm in H.
    cbn [Decimal.nzhead] in H.
    destruct (Decimal.nzhead d') eqn:E'; try discriminate H.
    + (* the number would be zero *)
      injection H as H. subst d'.
      pose proof (DecimalN.Unsigned.of_to n) as Hz. rewrite E in Hz.
      simpl in Hz. subst n. lia.
    + exact (nzhead_not_D0 _ _ E').
Qed.

Lemma uint_val_head (d : Decimal.uint) :
  d <> Decimal.Nil -> (forall d', d <> Decimal.D0 d') ->
  10 ^ (uint_len d - 1) <= uint_val d 0.
Proof.
  intros Hnil Hz. unfold uint_len.
  destruct d as [|d|d|d|d|d|d|d|d|d|d];
    [contradiction|exfalso; exact (Hz d eq_refl)|..];
    cbn [uint_val Decimal.nb_digits]; rewrite uint_val_acc;
    pose proof (uint_val_bounds d) as [Hlo _];
    rewrite Nat2Z.inj_succ; unfold uint_len;
    replace (Z.succ (Z.of_nat (Decimal.nb_digits d)) - 1)
      with (Z.of_nat (Decimal.nb_digits d)) by lia;
    assert (0 < 10 ^ Z.of_nat (Decimal.nb_digits d))
      by (apply Z.pow_pos_nonneg; lia); nia.
Qed.

Lemma digits_of_eq (n : Z) :
  0 <= n ->
  exists d,
    digits_of n = NilEmpty.string_of_uint d
    /\ uint_val d 0 = n
    /\ 1 <= uint_len d
    /\ (0 < n -> 10 ^ (uint_len d - 1) <= n).
Proof.
  intros Hn. unfold digits_of, NilZero.string_of_uint.
  destruct (Z.eq_dec n 0) as [->|Hne].
  - exists (Decimal.D0 Decimal.Nil).
    split; [reflexivity|]. split; [reflexivity|].
    split; [unfold uint_len; simpl; lia|lia].
  - destruct (to_uint_head (Z.to_N n) ltac:(lia)) as (d & Ed & Hnil & Hz).
    rewrite Ed. exists d.
    assert (Hval : uint_val d 0 = n).
    { rewrite <- of_uint_val, <- Ed.
      change (Pos.of_uint (N.to_uint (Z.to_N n)))
        with (N.of_uint (N.to_uint (Z.to_N n))).
      rewrite DecimalN.Unsigned.of_to. lia. }
    split; [destruct d; [contradiction|reflexivity..]|].
    split; [exact Hval|]. split.
    + unfold uint_len. destruct d; [contradiction|..]; simpl; lia.
    + intros _. rewrite <- Hval. apply uint_val_head; assumption.
Qed.

(** The number of decimal digits of a positive number. *)
Lemma num_digits_bounds (n : Z) :
  0 < n -> 10 ^ (num_digits n - 1) <= n < 10 ^ num_digits n.
Proof.
  intros Hn. unfold num_digits.
  destruct (digits_of_eq n ltac:(lia)) as (d & -> & Hv & Hl & Hlo).
  rewrite string_of_uint_length. split; [auto|].
  rewrite <- Hv. apply uint_val_bounds.
Qed.

Lemma num_digits_pos (n : Z) : 0 <= n -> 1 <= num_digits n.
Proof.
  intros Hn. unfold num_digits.
  destruct (digits_of_eq n Hn) as (d & -> & _ & Hl & _).
  rewrite string_of_uint_length. exact Hl.
Qed.

Lemma num_digits_unique (n k : Z) :
  10 ^ (k - 1) <= n < 10 ^ k -> 0 < n -> num_digits n = k.
Proof.
  intros [Hlo Hhi] Hn. pose proof (num_digits_bounds n Hn) as [Hlo' Hhi'].
  pose proof (num_digits_pos n ltac:(lia)) as Hp.
  assert (0 < k).
  { destruct (Z_lt_le_dec 0 k) as [H|H]; [exact H|].
    destruct (Z.eq_dec k 0) as [->|Hne].
    - simpl in Hhi. lia.
    - rewrite Z.pow_neg_r in Hhi by lia. lia. }
  destruct (Z.lt_trichotomy (num_digits n) k) as [Hlt|[E|Hgt]].
  - assert (10 ^ num_digits n <= 10 ^ (k - 1))
      by (apply Z.pow_le_mono_r; lia). lia.
  - exact E.
  - assert (10 ^ k <= 10 ^ (num_digits n - 1))
      by (apply Z.pow_le_mono_r; lia). lia.
Qed.

(** Reading the digits of a number. *)
Lemma take_digits_of (q acc n : Z) (rest : string) :
  0 <= q ->
  take_digits acc n (digits_of q +:+ rest)
  = take_digits (acc * 10 ^ num_digits q + q) (n + num_digits q) rest.
Proof.
  intros Hq. unfold num_digits.
  destruct (digits_of_eq q Hq) as (d & -> & Hv & _ & _).
  rewrite take_digits_uint, string_of_uint_length, uint_val_acc, Hv.
  reflexivity.
Qed.

End digit_strings.

(** ** The nine significant digits of a number *)

Section significant_digits.
Import Py.
Local Open Scope R_scope.

Lemma Rabs_le_between (x a : R) : Rabs x <= a -> - a <= x <= a.
Proof. unfold Rabs. destruct (Rcase_abs x); lra. Qed.

Lemma div_half_even_near (n d : Z) :
  (0 < d)%Z -> Rabs (IZR (div_half_even n d) - IZR n / IZR d) <= 1 / 2.
Proof.
  intros Hd. unfold div_half_even.
  pose proof (Z.div_mod n d ltac:(lia)) as Hdiv.
  pose proof (Z.mod_pos_bound n d Hd) as Hrem.
  set (q := (n / d)%Z) in *. set (r := (n mod d)%Z) in *.
  assert (HdR : 0 < IZR d) by (apply IZR_lt; lia).
  assert (E : IZR n / IZR d = IZR q + IZR r / IZR d).
  { rewrite Hdiv, plus_IZR, mult_IZR. field. lra. }
  assert (Hr0 : 0 <= IZR r / IZR d).
  { apply Rmult_le_pos; [apply IZR_le; lia|].
    apply Rlt_le, Rinv_0_lt_compat. exact HdR. }
  assert (Hcmp : forall c : R, (IZR r <= c * IZR d -> IZR r / IZR d <= c)
                               /\ (c * IZR d <= IZR r -> c <= IZR r / IZR d)).
  { intros c. split; intros H.
    - apply Rmult_le_reg_r with (IZR d); [exact HdR|].
      replace (IZR r / IZR d * IZR d) with (IZR r) by (field; lra). exact H.
    - apply Rmult_le_reg_r with (IZR d); [exact HdR|].
      replace (IZR r / IZR d * IZR d) with (IZR r) by (field; lra). exact H. }
  rewrite E.
  assert (Hlow : (2 * r <= d)%Z ->
                 Rabs (IZR q - (IZR q + IZR r / IZR d)) <= 1 / 2).
  { intros H. apply IZR_le in H. rewrite mult_IZR in H.
    pose proof (proj1 (Hcmp (1 / 2)) ltac:(lra)).
    apply Rabs_le. lra. }
  assert (Hhigh : (d <= 2 * r)%Z ->
                  Rabs (IZR (q + 1) - (IZR q + IZR r / IZR d)) <= 1 / 2).
  { intros H. apply IZR_le in H. rewrite mult_IZR in H.
    pose proof (proj2 (Hcmp (1 / 2)) ltac:(lra)).
    assert (IZR r < IZR d) by (apply IZR_lt; lia).
    pose proof (proj1 (Hcmp 1) ltac:(lra)).
    rewrite plus_IZR. apply Rabs_le. lra. }
  destruct (Z.compare_spec (2 * r) d) as [Hc|Hc|Hc].
  - destruct (Z.even q); [apply Hlow|apply Hhigh]; lia.
  - apply Hlow. lia.
  - apply Hhigh. lia.
Qed.

Lemma scaled_round_near (n d s : Z) :
  (0 < d)%Z ->
  Rabs (IZR (scaled_round n d s) - IZR n / IZR d * pow10 s) <= 1 / 2.
Proof.
  intros Hd. unfold scaled_round.
  assert (HdR : 0 < IZR d) by (apply IZR_lt; lia).
  destruct (Z.leb_spec 0 s) as [Hs|Hs].
  - replace (IZR n / IZR d * pow10 s) with (IZR (n * 10 ^ s) / IZR d).
    + apply div_half_even_near. exact Hd.
    + rewrite mult_IZR, <- pow10_IZR by lia. field. lra.
  - assert (Hp : (0 < 10 ^ (- s))%Z) by (apply Z.pow_pos_nonneg; lia).
    replace (IZR n / IZR d * pow10 s) with (IZR n / IZR (d * 10 ^ (- s))).
    + apply div_half_even_near. lia.
    + rewrite mult_IZR, <- pow10_IZR by lia.
      rewrite <- (Z.opp_involutive s) at 2. rewrite (pow10_neg (- s)).
      pose proof (pow10_pos (- s)). field. lra.
Qed.

(** The decimal exponent of a positive quotient. *)
Lemma decimal_exponent_bounds (n d : Z) :
  (0 < n)%Z -> (0 < d)%Z ->
  let x := decimal_exponent n d in
  pow10 x <= IZR n / IZR d < pow10 (x + 1).
Proof.
  intros Hn Hd. unfold decimal_exponent.
  pose proof (num_digits_bounds n Hn) as [Hn1 Hn2].
  pose proof (num_digits_bounds d Hd) as [Hd1 Hd2].
  pose proof (num_digits_pos n ltac:(lia)) as Hnp.
  pose proof (num_digits_pos d ltac:(lia)) as Hdp.
  set (a := num_digits n) in *. set (b := num_digits d) in *.
  assert (HdR : 0 < IZR d) by (apply IZR_lt; lia).
  assert (HnR : 0 < IZR n) by (apply IZR_lt; lia).
  apply IZR_le in Hn1, Hd1. apply IZR_lt in Hn2, Hd2.
  rewrite <- pow10_IZR in Hn1, Hn2, Hd1, Hd2 by lia.
  assert (Hquot : forall c : R, 0 < c ->
            (c * IZR d <= IZR n <-> c <= IZR n / IZR d)).
  { intros c Hc. split; intros H.
    - apply Rmult_le_reg_r with (IZR d); [exact HdR|].
      replace (IZR n / IZR d * IZR d) with (IZR n) by (field; lra). exact H.
    - apply Rmult_le_compat_r with (r := IZR d) in H; [|lra].
      replace (IZR n / IZR d * IZR d) with (IZR n) in H by (field; lra).
      exact H. }
  assert (Hup : IZR n / IZR d < pow10 (a - b + 1)).
  { apply Rmult_lt_reg_r with (IZR d); [exact HdR|].
    replace (IZR n / IZR d * IZR d) with (IZR n) by (field; lra).
    apply Rlt_le_trans with (pow10 a); [exact Hn2|].
    replace a with (a - b + 1 + (b - 1))%Z at 1 by lia.
    rewrite pow10_add. apply Rmult_le_compat_l; [|exact Hd1].
    apply Rlt_le, pow10_pos. }
  assert (Hdown : pow10 (a - b - 1) <= IZR n / IZR d).
  { apply Hquot; [apply pow10_pos|].
    apply Rle_trans with (pow10 (a - 1)); [|exact Hn1].
    replace (a - 1)%Z with (a - b - 1 + b)%Z by lia.
    rewrite pow10_add. apply Rmult_le_compat_l; [|lra].
    apply Rlt_le, pow10_pos. }
  assert (Hge : (if (0 <=? a - b)%Z then (d * 10 ^ (a - b) <=? n)%Z
                 else (d <=? n * 10 ^ (- (a - b)))%Z) = true
                <-> pow10 (a - b) <= IZR n / IZR d).
  { rewrite <- (Hquot _ (pow10_pos _)).
    destruct (Z.leb_spec 0 (a - b)) as [Hx|Hx].
    - rewrite Z.leb_le, pow10_IZR, <- mult_IZR by lia. split; intros H.
      + apply IZR_le. lia.
      + apply le_IZR in H. lia.
    - rewrite Z.leb_le. rewrite <- (Z.opp_involutive (a - b)) at 2.
      rewrite pow10_neg, pow10_IZR by lia.
      assert (Hp : (0 < 10 ^ (- (a - b)))%Z) by (apply Z.pow_pos_nonneg; lia).
      assert (HpR : 0 < IZR (10 ^ (- (a - b)))) by (apply IZR_lt; lia).
      split; intros H.
      + apply Rmult_le_reg_r with (IZR (10 ^ (- (a - b)))); [exact HpR|].
        replace (/ IZR (10 ^ (- (a - b))) * IZR d * IZR (10 ^ (- (a - b))))
          with (IZR d) by (field; lra).
        rewrite <- mult_IZR. apply IZR_le. exact H.
      + apply Rmult_le_compat_r with (r := IZR (10 ^ (- (a - b)))) in H; [|lra].
        replace (/ IZR (10 ^ (- (a - b))) * IZR d * IZR (10 ^ (- (a - b))))
          with (IZR d) in H by (field; lra).
        rewrite <- mult_IZR in H. apply le_IZR in H. exact H. }
  destruct (if (0 <=? a - b)%Z then (d * 10 ^ (a - b) <=? n)%Z
            else (d <=? n * 10 ^ (- (a - b)))%Z) eqn:Etest; cbv zeta.
  - split; [apply Hge; reflexivity|exact Hup].
  - split.
    + replace (a - b - 1)%Z with (a - b - 1)%Z by lia. exact Hdown.
    + replace (a - b - 1 + 1)%Z with (a - b)%Z by lia.
      apply Rnot_le_lt. intros H. apply Hge in H. congruence.
Qed.

(** The nine digits [format_g] keeps of a positive quotient and their
    decimal exponent: [q * 10^(x - 8)] is within half a unit of the
    ninth digit. *)
Definition nine_digits (n d : Z) : Z * Z :=
  let x := decimal_exponent n d in
  let q := scaled_round n d (9 - 1 - x) in
  if (q =? 10 ^ 9)%Z then (10 ^ (9 - 1), x + 1)%Z else (q, x).

Lemma nine_digits_near (n d : Z) :
  (0 < n)%Z -> (0 < d)%Z ->
  let '(q, x) := nine_digits n d in
  (10 ^ 8 <= q < 10 ^ 9)%Z
  /\ Rabs (IZR q * pow10 (x - 8) - IZR n / IZR d)
     <= 5 / 1000000000 * (IZR n / IZR d).
Proof.
  intros Hn Hd. unfold nine_digits.
  pose proof (decimal_exponent_bounds n d Hn Hd) as [Hlo Hhi].
  set (x := decimal_exponent n d) in *.
  pose proof (scaled_round_near n d (9 - 1 - x) Hd) as Hq.
  set (q := scaled_round n d (9 - 1 - x)) in *.
  set (u := IZR n / IZR d) in *.
  pose proof (pow10_pos (9 - 1 - x)) as Hs.
  pose proof (pow10_pos (x - 8)) as Hs'.
  assert (Hinv : pow10 (9 - 1 - x) * pow10 (x - 8) = 1).
  { rewrite <- pow10_add. replace (9 - 1 - x + (x - 8))%Z with 0%Z by lia.
    reflexivity. }
  assert (Hx8 : pow10 x = 100000000 * pow10 (x - 8)).
  { replace x with (8 + (x - 8))%Z at 1 by lia. rewrite pow10_add.
    rewrite (pow10_IZR 8) by lia. reflexivity. }
  assert (Hx9 : pow10 (x + 1) = 1000000000 * pow10 (x - 8)).
  { replace (x + 1)%Z with (9 + (x - 8))%Z by lia. rewrite pow10_add.
    rewrite (pow10_IZR 9) by lia. reflexivity. }
  (* the scaled quotient lies between 10^8 and 10^9 *)
  assert (Hu : u * pow10 (9 - 1 - x) * pow10 (x - 8) = u)
    by (rewrite Rmult_assoc, Hinv; lra).
  assert (Hs1 : 100000000 <= u * pow10 (9 - 1 - x)).
  { apply Rmult_le_reg_r with (pow10 (x - 8)); [exact Hs'|]. lra. }
  assert (Hs2 : u * pow10 (9 - 1 - x) < 1000000000).
  { apply Rmult_lt_reg_r with (pow10 (x - 8)); [exact Hs'|]. lra. }
  apply Rabs_le_between in Hq.
  assert (Hq1 : (10 ^ 8 <= q)%Z).
  { assert (IZR (10 ^ 8 - 1) < IZR q).
    { rewrite minus_IZR. change (IZR (10 ^ 8)) with 100000000. lra. }
    apply lt_IZR in H. lia. }
  assert (Hq2 : (q <= 10 ^ 9)%Z).
  { assert (IZR q < IZR (10 ^ 9 + 1)).
    { rewrite plus_IZR. change (IZR (10 ^ 9)) with 1000000000. lra. }
    apply lt_IZR in H. lia. }
  assert (Herr : Rabs (IZR q * pow10 (x - 8) - u)
                 <= 5 / 1000000000 * u).
  { replace (IZR q * pow10 (x - 8) - u)
      with ((IZR q - u * pow10 (9 - 1 - x)) * pow10 (x - 8)) by lra.
    rewrite Rabs_mult, (Rabs_right (pow10 (x - 8))) by lra.
    apply Rle_trans with (1 / 2 * pow10 (x - 8)).
    - apply Rmult_le_compat_r; [lra|]. apply Rabs_le. lra.
    - lra. }
  destruct (Z.eqb_spec q (10 ^ 9)) as [E|Hne].
  - split; [simpl; lia|].
    replace (x + 1 - 8)%Z with (1 + (x - 8))%Z by lia.
    rewrite pow10_add, (pow10_IZR 1) by lia.
    change (10 ^ (9 - 1))%Z with 100000000%Z.
    change (IZR (10 ^ 1)) with 10.
    rewrite E in Herr. change (IZR (10 ^ 9)) with 1000000000 in Herr.
    replace (100000000 * (10 * pow10 (x - 8)) - u)
      with (1000000000 * pow10 (x - 8) - u) by lra.
    exact Herr.
  - split; [lia|exact Herr].
Qed.

End significant_digits.

(** ** Reading back the text of a number *)

Section digit_runs.
Import Py.

Fixpoint all_digits (s : string) : bool :=
  match s with
  | EmptyString => true
  | String c s' => is_digit c && all_digits s'
  end.

(** The number a run of digits denotes, read after the digits of [acc]. *)
Fixpoint digits_val (acc : Z) (s : string) : Z :=
  match s with
  | EmptyString => acc
  | String c s' => digits_val (10 * acc + digit_val c) s'
  end.

Definition slen (s : string) : Z := Z.of_nat (String.length s).

(** [rest] does not go on with a digit. *)
Definition stops (rest : string) : Prop :=
  match rest with
  | EmptyString => True
  | String c _ => is_digit c = false
  end.

Lemma slen_nonneg (s : string) : 0 <= slen s.
Proof. unfold slen. lia. Qed.

Lemma slen_cons (c : ascii) (s : string) : slen (String c s) = 1 + slen s.
Proof. unfold slen. cbn [String.length]. lia. Qed.

Lemma slen_app (a b : string) : slen (a +:+ b) = slen a + slen b.
Proof.
  induction a as [|c a IH]; [rewrite append_nil; unfold slen; simpl; lia|].
  rewrite append_cons, !slen_cons, IH. lia.
Qed.

Lemma all_digits_app (a b : string) :
  all_digits (a +:+ b) = all_digits a && all_digits b.
Proof.
  induction a as [|c a IH]; [reflexivity|].
  rewrite append_cons. simpl. rewrite IH, andb_assoc. reflexivity.
Qed.

Lemma digits_val_app (acc : Z) (a b : string) :
  digits_val acc (a +:+ b) = digits_val (digits_val acc a) b.
Proof.
  revert acc. induction a as [|c a IH]; intros acc; [reflexivity|].
  rewrite append_cons. simpl. apply IH.
Qed.

Lemma digits_val_acc (acc : Z) (s : string) :
  digits_val acc s = acc * 10 ^ slen s + digits_val 0 s.
Proof.
  revert acc. induction s as [|c s IH]; intros acc.
  - unfold slen. simpl. lia.
  - cbn [digits_val]. rewrite IH, (IH (10 * 0 + _)), slen_cons.
    rewrite Z.pow_add_r by (pose proof (slen_nonneg s); lia). lia.
Qed.

Lemma take_digits_run (acc n : Z) (s rest : string) :
  all_digits s = true -> stops rest ->
  take_digits acc n (s +:+ rest) = (digits_val acc s, n + slen s, rest).
Proof.
  revert acc n. induction s as [|c s IH]; intros acc n Hs Hr.
  - rewrite append_nil. unfold slen. simpl. rewrite Z.add_0_r.
    destruct rest as [|c r]; [reflexivity|].
    simpl in Hr. simpl. rewrite Hr. reflexivity.
  - simpl in Hs. apply andb_prop in Hs as [Hc Hs].
    rewrite append_cons. cbn [take_digits digits_val]. rewrite Hc.
    rewrite IH by assumption. rewrite slen_cons. f_equal. f_equal. lia.
Qed.

Lemma all_digits_zeros (n : nat) : all_digits (zeros n) = true.
Proof. induction n as [|n IH]; [reflexivity|exact IH]. Qed.

Lemma slen_zeros (n : nat) : slen (zeros n) = Z.of_nat n.
Proof.
  unfold slen. f_equal. induction n as [|n IH]; [reflexivity|].
  simpl. rewrite IH. reflexivity.
Qed.

Lemma digits_val_zeros (acc : Z) (n : nat) :
  digits_val acc (zeros n) = acc * 10 ^ Z.of_nat n.
Proof.
  revert acc. induction n as [|n IH]; intros acc.
  - simpl. lia.
  - cbn [zeros digits_val]. rewrite IH, Nat2Z.inj_succ, Z.pow_succ_r by lia.
    change (digit_val "0") with 0. lia.
Qed.

Lemma all_digits_uint (d : Decimal.uint) :
  all_digits (NilEmpty.string_of_uint d) = true.
Proof. induction d; simpl; auto. Qed.

Lemma digits_val_uint (d : Decimal.uint) (acc : Z) :
  digits_val acc (NilEmpty.string_of_uint d) = uint_val d acc.
Proof.
  revert acc. induction d; intros acc; simpl; [reflexivity|..];
    rewrite IHd; reflexivity.
Qed.

Lemma digits_of_digits (q : Z) :
  0 <= q ->
  all_digits (digits_of q) = true
  /\ digits_val 0 (digits_of q) = q
  /\ slen (digits_of q) = num_digits q.
Proof.
  intros Hq. destruct (digits_of_eq q Hq) as (d & E & Hv & _ & _).
  unfold num_digits, slen. rewrite E.
  split; [apply all_digits_uint|]. split; [|reflexivity].
  rewrite digits_val_uint. exact Hv.
Qed.

(** Trailing zeros removed. *)
Lemma rstrip_zeros (s : string) :
  exists j : nat, s = rstrip_by is_zero_char s +:+ zeros j.
Proof.
  induction s as [|c s [j IH]].
  - exists 0%nat. reflexivity.
  - cbn [rstrip_by]. destruct (rstrip_by is_zero_char s) as [|c' t] eqn:E.
    + destruct (is_zero_char c) eqn:Ec.
      * exists (S j). rewrite append_nil in IH |- *.
        unfold is_zero_char in Ec. apply Ascii.eqb_eq in Ec. subst c.
        simpl. rewrite <- IH. reflexivity.
      * exists j. rewrite append_cons, append_nil.
        rewrite append_nil in IH. rewrite <- IH. reflexivity.
    + exists j. rewrite append_cons, <- IH. reflexivity.
Qed.

(** [substring] cuts a string in two. *)
Lemma substring_split (k : nat) (s : string) :
  (k <= String.length s)%nat ->
  String.substring 0 k s +:+ String.substring k (String.length s - k) s = s.
Proof.
  revert k. induction s as [|c s IH]; intros k Hk.
  - destruct k; [reflexivity|simpl in Hk; lia].
  - destruct k as [|k].
    + cbn [String.substring String.length Nat.sub]. rewrite append_nil.
      clear. f_equal. induction s as [|c' s IH]; [reflexivity|].
      simpl. rewrite IH. reflexivity.
    + cbn [String.substring String.length Nat.sub]. rewrite append_cons.
      rewrite IH by (simpl in Hk; lia). reflexivity.
Qed.

Lemma substring_length (k : nat) (s : string) :
  (k <= String.length s)%nat ->
  String.length (String.substring 0 k s) = k.
Proof.
  revert k. induction s as [|c s IH]; intros k Hk.
  - destruct k; [reflexivity|simpl in Hk; lia].
  - destruct k as [|k]; [reflexivity|].
    simpl. rewrite IH by (simpl in Hk; lia). reflexivity.
Qed.

Lemma all_digits_substring (n m : nat) (s : string) :
  all_digits s = true -> all_digits (String.substring n m s) = true.
Proof.
  revert n m. induction s as [|c s IH]; intros n m H.
  - destruct n, m; reflexivity.
  - simpl in H. apply andb_prop in H as [Hc Hs].
    destruct n as [|n]; destruct m as [|m]; simpl; auto.
    rewrite Hc. simpl. apply IH. exact Hs.
Qed.

End digit_runs.

Section plain_text.
Import Py.

(** The characters of the text of a number. *)
Definition plain_char (c : ascii) : bool :=
  is_digit c || Ascii.eqb c "." || Ascii.eqb c "e" || Ascii.eqb c "+"
  || Ascii.eqb c "-".

Fixpoint plain (s : string) : bool :=
  match s with
  | EmptyString => true
  | String c s' => plain_char c && plain s'
  end.

Lemma plain_char_facts (c : ascii) :
  plain_char c = true ->
  to_ascii_char c = c /\ is_c_space c = false /\ Ascii.eqb c "_" = false.
Proof.
  destruct c as [[] [] [] [] [] [] [] []]; intros H;
    try discriminate H; repeat split; reflexivity.
Qed.

Lemma digit_char_facts (c : ascii) :
  is_digit c = true ->
  plain_char c = true
  /\ Ascii.eqb c "-" = false /\ Ascii.eqb c "+" = false
  /\ Ascii.eqb (lower c) "i" = false /\ Ascii.eqb (lower c) "n" = false
  /\ Ascii.eqb c "." = false /\ Ascii.eqb (lower c) "e" = false.
Proof.
  destruct c as [[] [] [] [] [] [] [] []]; intros H;
    try discriminate H; repeat split; reflexivity.
Qed.

Lemma plain_app (a b : string) : plain (a +:+ b) = plain a && plain b.
Proof.
  induction a as [|c a IH]; [reflexivity|].
  rewrite append_cons. simpl. rewrite IH, andb_assoc. reflexivity.
Qed.

Lemma plain_digits (s : string) : all_digits s = true -> plain s = true.
Proof.
  induction s as [|c s IH]; [reflexivity|]. simpl. intros H.
  apply andb_prop in H as [Hc Hs].
  destruct (digit_char_facts c Hc) as [-> _]. simpl. auto.
Qed.

Lemma to_ascii_plain (s : string) : plain s = true -> to_ascii s = s.
Proof.
  induction s as [|c s IH]; [reflexivity|]. simpl. intros H.
  apply andb_prop in H as [Hc Hs].
  destruct (plain_char_facts c Hc) as [-> _]. rewrite IH by exact Hs.
  reflexivity.
Qed.

Lemma lstrip_plain (s : string) :
  plain s = true -> lstrip_by is_c_space s = s.
Proof.
  destruct s as [|c s]; [reflexivity|]. simpl. intros H.
  apply andb_prop in H as [Hc Hs].
  destruct (plain_char_facts c Hc) as (_ & -> & _). reflexivity.
Qed.

Lemma rstrip_plain (s : string) :
  plain s = true -> rstrip_by is_c_space s = s.
Proof.
  induction s as [|c s IH]; [reflexivity|]. simpl. intros H.
  apply andb_prop in H as [Hc Hs]. rewrite IH by exact Hs.
  destruct (plain_char_facts c Hc) as (_ & -> & _).
  destruct s; reflexivity.
Qed.

Lemma drop_underscores_plain (prev : option ascii) (s : string) :
  plain s = true ->
  match prev with Some p => Ascii.eqb p "_" = false | None => True end ->
  drop_underscores prev s = Some s.
Proof.
  revert prev. induction s as [|c s IH]; intros prev H Hp.
  - simpl. destruct prev as [p|]; [rewrite Hp|]; reflexivity.
  - simpl in H. apply andb_prop in H as [Hc Hs].
    destruct (plain_char_facts c Hc) as (_ & _ & Hu).
    cbn [drop_underscores]. rewrite Hu.
    replace (match prev with
             | Some p => (p =? "_")%char
             | None => false
             end) with false by (destruct prev; [rewrite Hp|]; reflexivity).
    cbn [andb]. rewrite (IH (Some c) Hs Hu). reflexivity.
Qed.

Lemma numeric_text_plain (s : string) :
  plain s = true ->
  drop_underscores None (numeric_text s) = Some s.
Proof.
  intros H. unfold numeric_text.
  rewrite to_ascii_plain, lstrip_plain, rstrip_plain by exact H.
  apply drop_underscores_plain; [exact H|exact I].
Qed.

End plain_text.

Section reading_layouts.
Import Py.

Lemma substring_all (s : string) : String.substring 0 (String.length s) s = s.
Proof. induction s as [|c s IH]; [reflexivity|]. simpl. rewrite IH. reflexivity. Qed.

Lemma digits_val_single (c : ascii) (s : string) :
  digits_val 0 (String c s) = digits_val (digits_val 0 (String c "")) s.
Proof. reflexivity. Qed.

(** The exponent of the scientific layout reads back. *)
Lemma take_exponent_text (x : Z) :
  take_exponent ("e" +:+ exponent_text x) = Some x.
Proof.
  rewrite append_cons, append_nil. cbn [take_exponent].
  change (Ascii.eqb (lower "e") "e") with true. cbv iota.
  unfold exponent_text.
  set (pad := if Z.abs x <? 10 then "0" else "").
  assert (Hpad : all_digits pad = true /\ digits_val 0 pad = 0)
    by (unfold pad; destruct (Z.abs x <? 10); split; reflexivity).
  destruct Hpad as [Hpad1 Hpad2].
  destruct (digits_of_digits (Z.abs x) ltac:(lia)) as (Hd1 & Hd2 & Hd3).
  pose proof (num_digits_pos (Z.abs x) ltac:(lia)) as Hn.
  assert (Hrun : take_digits 0 0 (pad +:+ digits_of (Z.abs x))
                 = (Z.abs x, slen (pad +:+ digits_of (Z.abs x)), "")).
  { rewrite <- (append_empty_r (pad +:+ digits_of (Z.abs x))) at 1.
    rewrite take_digits_run; [|rewrite all_digits_app, Hpad1, Hd1; reflexivity
                              |exact I].
    rewrite digits_val_app, Hpad2, Hd2. reflexivity. }
  assert (Hlen : 0 < slen (pad +:+ digits_of (Z.abs x))).
  { rewrite slen_app, Hd3. pose proof (slen_nonneg pad). lia. }
  destruct (Z.ltb_spec x 0) as [Hx|Hx].
  - rewrite append_cons, append_nil. cbn [take_sign].
    change (Ascii.eqb "-" "-") with true. cbv iota.
    rewrite Hrun. apply Z.ltb_lt in Hlen. rewrite Hlen. f_equal. lia.
  - rewrite append_cons, append_nil. cbn [take_sign].
    change (Ascii.eqb "+" "-") with false.
    change (Ascii.eqb "+" "+") with true. cbv iota.
    rewrite Hrun. apply Z.ltb_lt in Hlen. rewrite Hlen. f_equal. lia.
Qed.

(** [float] on a text that starts with a digit after its sign. *)
Lemma float_numeric (neg : bool) (c0 : ascii) (rest0 : string) :
  is_digit c0 = true -> plain rest0 = true ->
  float ((if neg then "-" else "") +:+ String c0 rest0)
  = let '(ip, n1, r1) := take_digits 0 0 (String c0 rest0) in
    let '(mant, n2, r2) :=
      match r1 with
      | String c r1' =>
          if Ascii.eqb c "."%char then take_digits ip 0 r1'
          else (ip, 0, r1)
      | EmptyString => (ip, 0, r1)
      end in
    if 0 <? n1 + n2 then
      match take_exponent r2 with
      | Some ex => Ok (float_of_decimal neg mant (ex - n2))
      | None => Raise ValueError
      end
    else Raise ValueError.
Proof.
  intros Hc Hrest.
  destruct (digit_char_facts c0 Hc) as (Hp & Hm & Hpl & Hi & Hn & _).
  assert (Hbody : plain (String c0 rest0) = true)
    by (simpl; rewrite Hp, Hrest; reflexivity).
  unfold float.
  assert (Hsign : take_sign ((if neg then "-" else "") +:+ String c0 rest0)
                  = (neg, String c0 rest0)).
  { destruct neg.
    - rewrite append_cons, append_nil. reflexivity.
    - rewrite append_nil. cbn [take_sign]. rewrite Hm, Hpl. reflexivity. }
  rewrite numeric_text_plain.
  2:{ rewrite plain_app, Hbody. destruct neg; reflexivity. }
  rewrite Hsign.
  cbn [lower_str String.eqb]. rewrite Hi, Hn. cbn [andb orb].
  reflexivity.
Qed.

(** The text of nine significant digits reads back as the decimal it
    spells: the digits [ds] with the point after the first one, times
    [10^x]. *)
Lemma float_layout (neg : bool) (ds : string) (x : Z) :
  all_digits ds = true -> ds <> "" ->
  exists M E k,
    0 <= k /\ M = digits_val 0 ds * 10 ^ k /\ E + k = x + 1 - slen ds
    /\ float ((if neg then "-" else "") +:+ layout_g 9 ds x)
       = Ok (float_of_decimal neg M E).
Proof.
  intros Hds Hne.
  destruct ds as [|c0 tl]; [contradiction|].
  pose proof Hds as Hds'. simpl in Hds'. apply andb_prop in Hds' as [Hc0 Htl].
  destruct (digit_char_facts c0 Hc0) as (_ & _ & _ & _ & _ & Hdot & He).
  pose proof (slen_nonneg tl) as Hltl.
  unfold layout_g. fold (slen (String c0 tl)).
  destruct ((x <? -4) || (9 <=? x)) eqn:Esci.
  - (* scientific *)
    cbn [String.substring]. rewrite append_cons.
    rewrite float_numeric; [|exact Hc0|].
    2:{ rewrite !plain_app.
        assert (plain (exponent_text x) = true).
        { unfold exponent_text. rewrite !plain_app.
          rewrite (plain_digits (digits_of (Z.abs x)))
            by (apply digits_of_digits; lia).
          destruct (x <? 0), (Z.abs x <? 10); reflexivity. }
        rewrite H.
        replace (plain (String.substring 0 0 tl)) with true
          by (destruct tl; reflexivity).
        destruct (1 <? slen (String c0 tl)); [|reflexivity].
        rewrite plain_app, (plain_digits _ (all_digits_substring _ _ _ Htl)).
        reflexivity. }
    replace (String.substring 0 0 tl) with "" by (destruct tl; reflexivity).
    rewrite append_nil.
    assert (Hstop : stops ("e" +:+ exponent_text x)).
    { rewrite append_cons. reflexivity. }
    destruct (Z.ltb_spec 1 (slen (String c0 tl))) as [Hlen|Hlen].
    + (* several digits *)
      rewrite slen_cons in *.
      replace (Z.to_nat (1 + slen tl - 1)) with (String.length tl)
        by (unfold slen; lia).
      rewrite substring_all.
      assert (H1 : take_digits 0 0
                     (String c0 (("." +:+ tl) +:+ "e" +:+ exponent_text x))
                   = (digits_val 0 (String c0 ""), 1,
                      "." +:+ tl +:+ "e" +:+ exponent_text x)).
      { cbn [take_digits]. rewrite Hc0.
        rewrite !append_cons, !append_nil. cbn [take_digits].
        change (is_digit ".") with false. reflexivity. }
      rewrite H1. rewrite append_cons, append_nil.
      change (Ascii.eqb "." ".") with true. cbv iota.
      rewrite take_digits_run by assumption.
      rewrite <- digits_val_single.
      replace (0 <? 1 + (0 + slen tl)) with true by (symmetry; apply Z.ltb_lt; lia).
      rewrite take_exponent_text.
      exists (digits_val 0 (String c0 tl)), (x - (0 + slen tl)), 0.
      repeat split; try lia.
    + (* one digit *)
      rewrite slen_cons in Hlen. assert (Etl : tl = "").
      { destruct tl; [reflexivity|]. rewrite slen_cons in Hlen.
        pose proof (slen_nonneg tl). lia. }
      subst tl. rewrite append_nil.
      assert (H1 : take_digits 0 0 (String c0 ("e" +:+ exponent_text x))
                   = (digits_val 0 (String c0 ""), 1,
                      "e" +:+ exponent_text x)).
      { cbn [take_digits]. rewrite Hc0.
        rewrite append_cons, append_nil. cbn [take_digits].
        change (is_digit "e") with false. reflexivity. }
      rewrite H1. rewrite append_cons, append_nil.
      change (Ascii.eqb "e" ".") with false. cbv iota.
      rewrite <- (append_nil (exponent_text x)), <- append_cons.
      change (0 <? 1 + 0) with true. cbv iota.
      rewrite take_exponent_text.
      exists (digits_val 0 (String c0 "")), (x - 0), 0.
      rewrite slen_cons. unfold slen. simpl String.length.
      repeat split; lia.
  - apply orb_false_elim in Esci as [Ex1 Ex2].
    apply Z.ltb_ge in Ex1. apply Z.leb_gt in Ex2.
    destruct (Z.leb_spec 0 x) as [Hx|Hx].
    + destruct (Z.leb_spec (slen (String c0 tl)) (x + 1)) as [Hlen|Hlen].
      * (* an integer *)
        set (k := Z.to_nat (x + 1 - slen (String c0 tl))).
        rewrite append_cons.
        rewrite float_numeric; [|exact Hc0|].
        2:{ rewrite plain_app, (plain_digits _ Htl),
              (plain_digits _ (all_digits_zeros k)). reflexivity. }
        rewrite <- append_cons.
        rewrite <- (append_empty_r (String c0 tl +:+ zeros k)).
        rewrite take_digits_run;
          [|rewrite all_digits_app, Hds, all_digits_zeros; reflexivity|exact I].
        rewrite digits_val_app, digits_val_zeros, slen_app, slen_zeros.
        replace (0 <? 0 + (slen (String c0 tl) + Z.of_nat k) + 0) with true.
        2:{ symmetry. apply Z.ltb_lt. rewrite slen_cons. lia. }
        cbn [take_exponent].
        exists (digits_val 0 (String c0 tl) * 10 ^ Z.of_nat k), (0 - 0),
          (Z.of_nat k).
        unfold k. repeat split; try lia.
      * (* digits on both sides of the point *)
        set (a := Z.to_nat (x + 1)).
        assert (Ha : (a <= String.length (String c0 tl))%nat)
          by (unfold a, slen in *; lia).
        replace (Z.to_nat (slen (String c0 tl) - x - 1))
          with (String.length (String c0 tl) - a)%nat
          by (unfold a, slen; lia).
        pose proof (substring_split a (String c0 tl) Ha) as Hsplit.
        set (A := String.substring 0 a (String c0 tl)) in *.
        set (B := String.substring a (String.length (String c0 tl) - a)
                    (String c0 tl)) in *.
        assert (HA : all_digits A = true) by (apply all_digits_substring; exact Hds).
        assert (HB : all_digits B = true) by (apply all_digits_substring; exact Hds).
        assert (HlA : slen A = x + 1).
        { unfold slen, A. rewrite substring_length by exact Ha. unfold a. lia. }
        assert (EA : exists tA, A = String c0 tA).
        { unfold A. destruct a as [|a'] eqn:Ea; [unfold a in Ea; lia|].
          cbn [String.substring]. eauto. }
        destruct EA as [tA EA].
        assert (HtA : all_digits tA = true).
        { rewrite EA in HA. simpl in HA. apply andb_prop in HA as [_ H].
          exact H. }
        rewrite EA, append_cons.
        rewrite float_numeric; [|exact Hc0|].
        2:{ rewrite !plain_app, (plain_digits _ HtA), (plain_digits _ HB).
            reflexivity. }
        rewrite <- append_cons, <- EA.
        assert (Hstop : stops ("." +:+ B)) by (rewrite append_cons; reflexivity).
        rewrite take_digits_run by assumption.
        rewrite append_cons, append_nil.
        change (Ascii.eqb "." ".") with true. cbv iota.
        assert (HrunB : take_digits (digits_val 0 A) 0 B
                        = (digits_val (digits_val 0 A) B, 0 + slen B, "")).
        { pose proof (take_digits_run (digits_val 0 A) 0 B "" HB I) as H.
          rewrite append_empty_r in H. exact H. }
        rewrite HrunB.
        rewrite <- digits_val_app, Hsplit.
        assert (HlB : slen B = slen (String c0 tl) - (x + 1)).
        { assert (H : slen (A +:+ B) = slen (String c0 tl))
            by (rewrite Hsplit; reflexivity).
          rewrite slen_app in H. lia. }
        replace (0 <? 0 + slen A + (0 + slen B)) with true
          by (symmetry; apply Z.ltb_lt; pose proof (slen_nonneg B); lia).
        cbn [take_exponent].
        exists (digits_val 0 (String c0 tl)), (0 - (0 + slen B)), 0.
        repeat split; lia.
    + (* a fraction below one *)
      set (k := Z.to_nat (- x - 1)).
      rewrite !append_cons, append_nil.
      rewrite float_numeric; [|reflexivity|].
      2:{ cbn [plain]. change (plain_char ".") with true. cbn [andb].
          rewrite plain_app, (plain_digits _ (all_digits_zeros k)),
            (plain_digits _ Hds). reflexivity. }
      cbn [take_digits]. change (is_digit "0") with true.
      change (is_digit ".") with false. cbv iota.
      change (Ascii.eqb "." ".") with true. cbv iota.
      rewrite <- (append_empty_r (zeros k +:+ String c0 tl)).
      rewrite take_digits_run;
        [|rewrite all_digits_app, Hds, all_digits_zeros; reflexivity|exact I].
      change (10 * 0 + digit_val "0") with 0.
      rewrite digits_val_app, digits_val_zeros, slen_app, slen_zeros.
      cbn [Z.mul].
      replace (0 <? 0 + 1 + (0 + (Z.of_nat k + slen (String c0 tl)))) with true.
      2:{ symmetry. apply Z.ltb_lt. rewrite slen_cons. lia. }
      cbn [take_exponent].
      exists (digits_val 0 (String c0 tl)),
        (0 - (0 + (Z.of_nat k + slen (String c0 tl)))), 0.
      unfold k. repeat split; lia.
Qed.

End reading_layouts.

Section read_back.
Import Py Transform.
Local Open Scope R_scope.

(** The quotient of integers [format_g] works on. *)
Definition numerator (m : positive) (e : Z) : Z :=
  if (0 <=? e)%Z then (Z.pos m * 2 ^ e)%Z else Z.pos m.

Definition denominator (e : Z) : Z :=
  if (0 <=? e)%Z then 1%Z else (2 ^ (- e))%Z.

Lemma quotient_value (m : positive) (e : Z) :
  (0 < numerator m e)%Z /\ (0 < denominator e)%Z
  /\ IZR (numerator m e) / IZR (denominator e) = IZR (Z.pos m) * pow2 e.
Proof.
  unfold numerator, denominator. destruct (Z.leb_spec 0 e) as [He|He].
  - assert (0 < 2 ^ e)%Z by (apply Z.pow_pos_nonneg; lia).
    split; [lia|]. split; [lia|].
    rewrite mult_IZR, <- pow2_IZR by lia. field.
  - assert (0 < 2 ^ (- e))%Z by (apply Z.pow_pos_nonneg; lia).
    split; [lia|]. split; [lia|].
    rewrite <- pow2_IZR by lia.
    pose proof (pow2_pos (- e)) as Hp.
    assert (E : pow2 e * pow2 (- e) = 1).
    { rewrite <- pow2_add, Z.add_opp_diag_r. reflexivity. }
    assert (E' : pow2 e = / pow2 (- e)).
    { apply Rmult_eq_reg_r with (pow2 (- e)); [|lra]. rewrite E. field. lra. }
    rewrite E'. field. lra.
Qed.

Lemma g9_finite (v : PrimFloat.float) (s : bool) (m : positive) (e : Z) :
  Prim2SF v = S754_finite s m e ->
  g9 v
  = (if s then "-" else "")
    +:+ layout_g 9
          (rstrip_by is_zero_char
             (digits_of (fst (nine_digits (numerator m e) (denominator e)))))
          (snd (nine_digits (numerator m e) (denominator e))).
Proof.
  intros H. unfold g9, format_g. rewrite H. cbv zeta.
  change (Z.max 1 9) with 9%Z.
  fold (numerator m e). fold (denominator e). unfold nine_digits.
  destruct (scaled_round (numerator m e) (denominator e)
              (9 - 1 - decimal_exponent (numerator m e) (denominator e))
            =? 10 ^ 9)%Z; reflexivity.
Qed.

(** The digits that are written, without the trailing zeros. *)
Lemma written_digits (q : Z) :
  (10 ^ 8 <= q < 10 ^ 9)%Z ->
  let ds := rstrip_by is_zero_char (digits_of q) in
  all_digits ds = true /\ ds <> ""
  /\ exists j : Z, (0 <= j)%Z /\ (slen ds + j = 9)%Z
                   /\ (q = digits_val 0 ds * 10 ^ j)%Z.
Proof.
  intros Hq ds.
  destruct (digits_of_digits q ltac:(lia)) as (Hd & Hv & Hl).
  rewrite (num_digits_unique q 9) in Hl by (simpl; lia).
  destruct (rstrip_zeros (digits_of q)) as [j Hj]. fold ds in Hj.
  rewrite Hj in Hd, Hv, Hl.
  rewrite all_digits_app in Hd. apply andb_prop in Hd as [Hd _].
  rewrite digits_val_app, digits_val_zeros in Hv.
  rewrite slen_app, slen_zeros in Hl.
  split; [exact Hd|]. split.
  - intros E. rewrite E in Hv. simpl in Hv. lia.
  - exists (Z.of_nat j). split; [lia|]. split; [exact Hl|]. lia.
Qed.

(** What reading back the text of a float gives: a binary64 magnitude
    [v] nearest to the decimal [D] of nine digits, which is within
    [5e-9] of the magnitude that was written. *)
Lemma float_g9_finite (x : PrimFloat.float) (s : bool) (m : positive) (e : Z) :
  Prim2SF x = S754_finite s m e ->
  let X := IZR (Z.pos m) * pow2 e in
  exists x' (g : Z) (v D : R),
    float (g9 x) = Ok x'
    /\ rounded s g v (Prim2SF x')
    /\ 0 <= v
    /\ (forall F, representable F -> Rabs (v - D) <= Rabs (F - D))
    /\ Rabs (D - X) <= 5 / 1000000000 * X
    /\ exists (q k : Z), (10 ^ 8 <= q < 10 ^ 9)%Z /\ D = IZR q * pow10 k
         /\ Rabs (IZR q - X * pow10 (- k)) <= 1 / 2.
Proof.
  intros Hx X.
  destruct (quotient_value m e) as (Hn & Hd & Hval). fold X in Hval.
  pose proof (nine_digits_near _ _ Hn Hd) as Hnine.
  rewrite (g9_finite x s m e Hx).
  destruct (nine_digits (numerator m e) (denominator e)) as [q x10] eqn:Enine.
  destruct Hnine as [Hq Herr]. rewrite Hval in Herr. cbn [fst snd].
  destruct (written_digits q Hq) as (Hds & Hne & j & Hj & Hlen & Hqv).
  destruct (float_layout s _ x10 Hds Hne) as (M & E & k & Hk & HM & HE & Hfloat).
  set (ds := rstrip_by is_zero_char (digits_of q)) in *.
  assert (HV : (0 < digits_val 0 ds)%Z).
  { assert (0 < 10 ^ j)%Z by (apply Z.pow_pos_nonneg; lia). nia. }
  assert (HMpos : (0 < M)%Z).
  { assert (0 < 10 ^ k)%Z by (apply Z.pow_pos_nonneg; lia). nia. }
  assert (HD : IZR M * pow10 E = IZR q * pow10 (x10 - 8)).
  { rewrite HM, Hqv, !mult_IZR, <- !pow10_IZR by lia.
    rewrite !Rmult_assoc, <- !pow10_add. f_equal. f_equal. lia. }
  destruct (float_of_decimal_nearest s M E HMpos) as (g & v & Hv & Hnear & Hr).
  cbv zeta in Hnear. rewrite HD in Hnear.
  exists (float_of_decimal s M E), g, v, (IZR q * pow10 (x10 - 8)).
  split; [exact Hfloat|]. split; [exact Hr|]. split; [exact Hv|].
  split; [exact Hnear|]. split; [exact Herr|].
  exists q, (x10 - 8)%Z. split; [exact Hq|]. split; [reflexivity|].
  (* the digits are the nearest integer to the scaled magnitude *)
  unfold nine_digits in Enine.
  pose proof (scaled_round_near (numerator m e) (denominator e)
                (9 - 1 - decimal_exponent (numerator m e) (denominator e)) Hd)
    as Hsr.
  rewrite Hval in Hsr.
  destruct (Z.eqb_spec
              (scaled_round (numerator m e) (denominator e)
                 (9 - 1 - decimal_exponent (numerator m e) (denominator e)))
              (10 ^ 9)) as [E9|N9];
    injection Enine as Eq Ex.
  - subst x10. rewrite E9 in Hsr.
    replace (- (decimal_exponent (numerator m e) (denominator e) + 1 - 8))%Z
      with (-1 + (9 - 1 - decimal_exponent (numerator m e) (denominator e)))%Z
      by lia.
    rewrite pow10_add. rewrite <- Eq.
    set (u := X * pow10 (9 - 1 - decimal_exponent (numerator m e) (denominator e)))
      in *.
    replace (X * (pow10 (-1) * pow10 (9 - 1 - decimal_exponent (numerator m e)
                                         (denominator e))))
      with (u * pow10 (-1)) by (unfold u; ring).
    assert (E1 : pow10 (-1) = / 10) by (unfold pow10; simpl; lra).
    rewrite E1. change (IZR (10 ^ (9 - 1))) with 100000000.
    change (IZR (10 ^ 9)) with 1000000000 in Hsr.
    apply Rabs_le_between in Hsr. apply Rabs_le. lra.
  - subst x10. rewrite <- Eq.
    replace (- (decimal_exponent (numerator m e) (denominator e) - 8))%Z
      with (9 - 1 - decimal_exponent (numerator m e) (denominator e))%Z by lia.
    exact Hsr.
Qed.

End read_back.

Section largest_float.
Local Open Scope R_scope.

(** The largest binary64 magnitude. *)
Definition Fmax : R := IZR (2 ^ 53 - 1) * pow2 971.

Lemma Fmax_representable : representable Fmax.
Proof.
  right. exists 9007199254740991%positive, 971%Z. split; [reflexivity|].
  unfold Fmax. apply Rabs_right. apply Rle_ge.
  apply Rmult_le_pos; [apply IZR_le; lia|]. pose proof (pow2_pos 971). lra.
Qed.

Lemma Fmax_IZR : Fmax = IZR ((2 ^ 53 - 1) * 2 ^ 971).
Proof. unfold Fmax. rewrite mult_IZR, <- pow2_IZR by lia. reflexivity. Qed.

Lemma Fmax_lt : Fmax < pow2 1024.
Proof.
  rewrite Fmax_IZR, pow2_IZR by lia. apply IZR_lt.
  apply Z.ltb_lt. vm_compute. reflexivity.
Qed.

(** Every finite binary64 magnitude is at most [Fmax]. *)
Lemma bounded_le_Fmax (m : positive) (e : Z) :
  SpecFloat.bounded prec emax m e = true -> IZR (Z.pos m) * pow2 e <= Fmax.
Proof.
  intros Hb. apply bounded_spec in Hb as [Hc He]. rewrite fexp64_eq in Hc.
  pose proof (digits2_pos_bounds m) as [_ Hm].
  assert (Hd : (Z.pos (digits2_pos m) <= 53)%Z) by lia.
  assert (Hm' : (Z.pos m <= 2 ^ 53 - 1)%Z).
  { assert (2 ^ Z.pos (digits2_pos m) <= 2 ^ 53)%Z
      by (apply Z.pow_le_mono_r; lia). lia. }
  unfold Fmax. pose proof (pow2_pos e). pose proof (pow2_le e 971 He).
  apply Rmult_le_compat; try lra.
  - apply IZR_le. lia.
  - apply IZR_le. exact Hm'.
Qed.

(** The decimal of nine digits nearest to a finite magnitude is not
    above [Fmax]: the nine digits of [Fmax] are 1.79769313, rounded
    down. *)
Lemma nine_digits_le_Fmax (X : R) (q k : Z) :
  0 < X <= Fmax -> (10 ^ 8 <= q < 10 ^ 9)%Z ->
  Rabs (IZR q - X * pow10 (- k)) <= 1 / 2 ->
  IZR q * pow10 k <= Fmax.
Proof.
  intros [HX0 HX] Hq Hnear. apply Rabs_le_between in Hnear.
  pose proof (pow10_pos k) as Hk. pose proof (pow10_pos (- k)) as Hk'.
  assert (Hinv : pow10 (- k) * pow10 k = 1).
  { rewrite <- pow10_add. replace (- k + k)%Z with 0%Z by lia. reflexivity. }
  destruct (Z_le_gt_dec k 299) as [Hlow|Hk1].
  - (* below 10^308 *)
    apply Rle_trans with (IZR (10 ^ 9) * pow10 299).
    + apply Rmult_le_compat.
      * apply IZR_le. lia.
      * lra.
      * apply IZR_le. lia.
      * apply pow10_le. exact Hlow.
    + rewrite pow10_IZR, <- mult_IZR, Fmax_IZR by lia. apply IZR_le.
      apply Z.leb_le. vm_compute. reflexivity.
  - destruct (Z_le_gt_dec k 300) as [Hk2|Hk2].
    + (* the top decade *)
      assert (k = 300%Z) by lia. subst k.
      change (Z.opp 300) with (-300)%Z in *.
      assert (Hq' : (q <= 179769313)%Z).
      { assert (H : IZR q < IZR 179769314); [|apply lt_IZR in H; lia].
        assert (Hmono : X * pow10 (-300) <= Fmax * pow10 (-300))
          by (apply Rmult_le_compat_r; lra).
        assert (Hstrict : Fmax * pow10 (-300) + 1 / 2 < IZR 179769314).
        { apply Rmult_lt_reg_r with (pow10 300); [exact Hk|].
          rewrite Rmult_plus_distr_r, Rmult_assoc, Hinv, Rmult_1_r.
          rewrite Fmax_IZR, (pow10_IZR 300) by lia.
          apply Rmult_lt_reg_l with 2; [lra|].
          replace (2 * (IZR ((2 ^ 53 - 1) * 2 ^ 971)
                        + 1 / 2 * IZR (10 ^ 300)))
            with (IZR (2 * ((2 ^ 53 - 1) * 2 ^ 971) + 10 ^ 300))
            by (rewrite plus_IZR, mult_IZR; lra).
          rewrite <- !mult_IZR. apply IZR_lt.
          apply Z.ltb_lt. vm_compute. reflexivity. }
        lra. }
      apply Rle_trans with (IZR 179769313 * pow10 300).
      * apply Rmult_le_compat_r; [lra|]. apply IZR_le. exact Hq'.
      * rewrite pow10_IZR, <- mult_IZR, Fmax_IZR by lia. apply IZR_le.
        apply Z.leb_le. vm_compute. reflexivity.
    + (* no finite magnitude is that large *)
      exfalso.
      assert (H1 : IZR (10 ^ 8) - 1 / 2 <= X * pow10 (- k)).
      { assert (IZR (10 ^ 8) <= IZR q) by (apply IZR_le; lia). lra. }
      assert (H2 : X * pow10 (- k) <= Fmax * pow10 (-301)).
      { apply Rmult_le_compat; try lra. apply pow10_le. lia. }
      assert (H3 : Fmax * pow10 (-301) < IZR (10 ^ 8) - 1 / 2).
      { apply Rmult_lt_reg_r with (pow10 301); [apply pow10_pos|].
        rewrite Rmult_assoc, <- pow10_add.
        replace (-301 + 301)%Z with 0%Z by lia.
        change (pow10 0) with 1. rewrite Rmult_1_r.
        rewrite Fmax_IZR, (pow10_IZR 301) by lia.
        apply Rmult_lt_reg_l with 2; [lra|].
        replace (2 * ((IZR (10 ^ 8) - 1 / 2) * IZR (10 ^ 301)))
          with (IZR ((2 * 10 ^ 8 - 1) * 10 ^ 301))
          by (rewrite mult_IZR, minus_IZR, mult_IZR; lra).
        rewrite <- mult_IZR. apply IZR_lt.
        apply Z.ltb_lt. vm_compute. reflexivity. }
      lra.
Qed.

End largest_float.

Section read_back_bounds.
Import Py Transform.
Local Open Scope R_scope.

(** Reading back the text of a finite float that is not zero gives a
    finite float of the same sign within [1e-8] of it. *)
Lemma read_back_finite (x : PrimFloat.float) (s : bool) (m : positive)
    (e : Z) :
  Prim2SF x = S754_finite s m e ->
  let X := IZR (Z.pos m) * pow2 e in
  exists x' m' e',
    float (g9 x) = Ok x'
    /\ Prim2SF x' = S754_finite s m' e'
    /\ Rabs (IZR (Z.pos m') * pow2 e' - X) <= 1 / 100000000 * X.
Proof.
  intros Hx X.
  pose proof (Prim2SF_valid x) as Hvalid. rewrite Hx in Hvalid.
  simpl in Hvalid.
  assert (HX0 : 0 < X).
  { apply Rmult_lt_0_compat; [apply IZR_lt; lia|apply pow2_pos]. }
  assert (HXmax : X <= Fmax) by (apply bounded_le_Fmax; exact Hvalid).
  assert (HXrep : representable X).
  { right. exists m, e. split; [exact Hvalid|]. apply Rabs_right.
    apply Rle_ge, Rlt_le. exact HX0. }
  destruct (float_g9_finite x s m e Hx)
    as (x' & g & v & D & Hfloat & Hr & Hv & Hnear & HD & q & k & Hq & ED & Hqn).
  fold X in HD, Hqn.
  assert (HDmax : D <= Fmax).
  { rewrite ED. apply (nine_digits_le_Fmax X q k); auto. }
  pose proof (Hnear X HXrep) as Hn1.
  pose proof (Hnear Fmax Fmax_representable) as Hn2.
  assert (Hvmax : v <= Fmax).
  { revert Hn2. unfold Rabs. repeat destruct Rcase_abs; lra. }
  assert (Herr : Rabs (v - X) <= 1 / 100000000 * X).
  { revert Hn1 HD. unfold Rabs. repeat destruct Rcase_abs; lra. }
  assert (Hvpos : 0 < v).
  { revert Herr. unfold Rabs. destruct Rcase_abs; lra. }
  pose proof Fmax_lt as HF.
  destruct (Prim2SF x') as [s'|s'| |s' m' e'] eqn:Ex'; cbn [rounded] in Hr.
  - destruct Hr as [_ Hr]. lra.
  - destruct Hr as [_ Hr]. lra.
  - contradiction.
  - destruct Hr as (-> & _ & _ & Ev). exists x', m', e'.
    split; [exact Hfloat|]. split; [exact Ex'|]. rewrite <- Ev. exact Herr.
Qed.

(** A zero is written [0] or [-0] and reads back as itself. *)
Lemma read_back_zero (x : PrimFloat.float) (s : bool) :
  Prim2SF x = S754_zero s ->
  exists x', float (g9 x) = Ok x' /\ Prim2SF x' = S754_zero s.
Proof.
  intros Hx. unfold g9, format_g. rewrite Hx. cbv zeta.
  destruct s.
  - exists neg_zero. split; vm_compute; reflexivity.
  - exists zero. split; vm_compute; reflexivity.
Qed.

End read_back_bounds.

Section scaled_translation.
Import Py Transform.
Local Open Scope R_scope.

Lemma pow2_m53 : pow2 (-53) <= 1 / 1000000000000000.
Proof.
  assert (E : pow2 (-53) * pow2 53 = 1).
  { rewrite <- pow2_add. reflexivity. }
  rewrite (pow2_IZR 53) in E by lia.
  assert (H : 1000000000000000 <= IZR (2 ^ 53)) by (apply IZR_le; lia).
  pose proof (pow2_pos (-53)) as Hp. nra.
Qed.

(** The error of scaling, writing nine digits, reading and scaling
    back, in magnitudes: [v1] is the rounded product [X * S], [T] what is
    read back from its text, [v2] the rounded product [T * R]. *)
Lemma scaled_back_error (X S R v1 T v2 : R) :
  0 < X -> 0 < S -> 0 < R ->
  Rabs (S * R - 1) <= 1 / 10000000 ->
  0 <= v1 ->
  Rabs (v1 - X * S) <= pow2 (-53) * v1 ->
  Rabs (T - v1) <= 1 / 100000000 * v1 ->
  Rabs (v2 - T * R) <= Rabs (X - T * R) ->
  Rabs (v2 - X) <= 1 / 1000000 * X.
Proof.
  intros HX HS HR Hinv Hv1 Hmul Hread Hnear.
  pose proof pow2_m53 as Heps. pose proof (pow2_pos (-53)) as Heps0.
  apply Rabs_le_between in Hinv, Hmul, Hread.
  set (W := v1 * R). set (P := X * (S * R)).
  assert (HW : 0 <= W) by (apply Rmult_le_pos; lra).
  assert (HP1 : P - X <= 1 / 10000000 * X).
  { unfold P. replace (X * (S * R) - X) with (X * (S * R - 1)) by ring.
    rewrite (Rmult_comm _ X). apply Rmult_le_compat_l; lra. }
  assert (HP2 : - (1 / 10000000 * X) <= P - X).
  { unfold P. replace (X * (S * R) - X) with (X * (S * R - 1)) by ring.
    replace (- (1 / 10000000 * X)) with (X * - (1 / 10000000)) by ring.
    apply Rmult_le_compat_l; lra. }
  assert (HWP1 : W - P <= 1 / 1000000000000000 * W).
  { unfold W, P. replace (v1 * R - X * (S * R)) with ((v1 - X * S) * R) by ring.
    replace (1 / 1000000000000000 * (v1 * R))
      with (1 / 1000000000000000 * v1 * R) by ring.
    apply Rmult_le_compat_r; [lra|]. nra. }
  assert (HWP2 : - (1 / 1000000000000000 * W) <= W - P).
  { unfold W, P. replace (v1 * R - X * (S * R)) with ((v1 - X * S) * R) by ring.
    replace (- (1 / 1000000000000000 * (v1 * R)))
      with (- (1 / 1000000000000000 * v1) * R) by ring.
    apply Rmult_le_compat_r; [lra|]. nra. }
  assert (HT1 : T * R - W <= 1 / 100000000 * W).
  { unfold W. replace (T * R - v1 * R) with ((T - v1) * R) by ring.
    replace (1 / 100000000 * (v1 * R)) with (1 / 100000000 * v1 * R) by ring.
    apply Rmult_le_compat_r; lra. }
  assert (HT2 : - (1 / 100000000 * W) <= T * R - W).
  { unfold W. replace (T * R - v1 * R) with ((T - v1) * R) by ring.
    replace (- (1 / 100000000 * (v1 * R)))
      with (- (1 / 100000000 * v1) * R) by ring.
    apply Rmult_le_compat_r; lra. }
  set (y := T * R) in *.
  assert (Hy : Rabs (X - y) <= 2 / 10000000 * X).
  { apply Rabs_le. lra. }
  apply Rabs_le_between in Hy.
  revert Hnear. unfold Rabs. repeat destruct Rcase_abs; lra.
Qed.

(** A translation that is scaled, written, read and scaled back. *)
Lemma translation_back (x s r : PrimFloat.float) (sx ss st : bool)
    (mx ms mr mt : positive) (ex es er et : Z) :
  Prim2SF x = S754_finite sx mx ex ->
  Prim2SF s = S754_finite ss ms es ->
  Prim2SF r = S754_finite ss mr er ->
  Rabs (IZR (Z.pos ms) * pow2 es * (IZR (Z.pos mr) * pow2 er) - 1)
  <= 1 / 10000000 ->
  Prim2SF (x * s)%float = S754_finite st mt et ->
  (2 ^ 52 <= Z.pos mt)%Z ->
  IZR (Z.pos mx) * pow2 ex < pow2 1023 ->
  exists t' m' e',
    float (g9 (x * s)%float) = Ok t'
    /\ Prim2SF (t' * r)%float = S754_finite sx m' e'
    /\ Rabs (IZR (Z.pos m') * pow2 e' - IZR (Z.pos mx) * pow2 ex)
       <= 1 / 1000000 * (IZR (Z.pos mx) * pow2 ex).
Proof.
  intros Hx Hs Hr Hinv Ht Hnormal Htop.
  set (X := IZR (Z.pos mx) * pow2 ex) in *.
  set (S := IZR (Z.pos ms) * pow2 es) in *.
  set (R := IZR (Z.pos mr) * pow2 er) in *.
  assert (Hpos : forall (m : positive) (e : Z), 0 < IZR (Z.pos m) * pow2 e).
  { intros m e. apply Rmult_lt_0_compat; [apply IZR_lt; lia|apply pow2_pos]. }
  pose proof (Hpos mx ex) as HX. fold X in HX.
  pose proof (Hpos ms es) as HS. fold S in HS.
  pose proof (Hpos mr er) as HR. fold R in HR.
  (* the first product *)
  destruct (mul_nearest x s sx ss mx ms ex es Hx Hs)
    as (g1 & v1 & Hv1 & _ & Hhalf1 & Hr1).
  cbv zeta in Hhalf1. fold X S in Hhalf1.
  rewrite Ht in Hr1. cbn [rounded] in Hr1.
  destruct Hr1 as (Est & Hb1 & Hg1 & Ev1).
  assert (Hmul : Rabs (v1 - X * S) <= pow2 (-53) * v1).
  { eapply Rle_trans; [exact Hhalf1|]. rewrite Ev1.
    apply Rle_trans with (pow2 (-53) * (IZR (2 ^ 52) * pow2 et)).
    - rewrite <- (pow2_IZR 52), <- !pow2_add by lia.
      replace (-53 + (52 + et))%Z with (-1 + et)%Z by lia.
      rewrite pow2_add. pose proof (pow2_le g1 et Hg1).
      assert (E1 : pow2 (-1) = 1 / 2) by (unfold pow2; simpl; lra).
      rewrite E1. lra.
    - apply Rmult_le_compat_l; [pose proof (pow2_pos (-53)); lra|].
      apply Rmult_le_compat_r; [pose proof (pow2_pos et); lra|].
      apply IZR_le. exact Hnormal. }
  (* written and read back *)
  destruct (read_back_finite (x * s)%float st mt et Ht)
    as (t' & m1 & e1 & Hfloat & Ht' & Hread).
  cbv zeta in Hread. rewrite <- Ev1 in Hread.
  set (T := IZR (Z.pos m1) * pow2 e1) in *.
  (* the second product *)
  destruct (mul_nearest t' r st ss m1 mr e1 er Ht' Hr)
    as (g2 & v2 & Hv2 & Hnear2 & _ & Hr2).
  cbv zeta in Hnear2. fold T R in Hnear2.
  assert (HXrep : representable X).
  { pose proof (Prim2SF_valid x) as Hvalid. rewrite Hx in Hvalid.
    right. exists mx, ex. split; [exact Hvalid|]. apply Rabs_right.
    apply Rle_ge, Rlt_le. exact HX. }
  pose proof (Hnear2 X HXrep) as Hn.
  pose proof (scaled_back_error X S R v1 T v2 HX HS HR Hinv Hv1 Hmul Hread Hn)
    as Herr.
  assert (Hv2top : v2 < pow2 1024).
  { apply Rabs_le_between in Herr.
    replace 1024%Z with (1023 + 1)%Z by lia. rewrite pow2_succ. lra. }
  assert (Hv2pos : 0 < v2).
  { apply Rabs_le_between in Herr. lra. }
  assert (Esign : xorb st ss = sx).
  { rewrite Est. destruct sx, ss; reflexivity. }
  rewrite Esign in Hr2.
  destruct (Prim2SF (t' * r)%float) as [s2|s2| |s2 m2 e2] eqn:E2;
    cbn [rounded] in Hr2.
  - destruct Hr2 as [_ Hr2]. lra.
  - destruct Hr2 as [_ Hr2]. lra.
  - contradiction.
  - destruct Hr2 as (-> & _ & _ & Ev2). exists t', m2, e2.
    split; [exact Hfloat|]. split; [exact E2|]. rewrite <- Ev2. exact Herr.
Qed.

(** A translation of zero stays zero. *)
Lemma translation_back_zero (x s r : PrimFloat.float) (sx ss sr : bool)
    (ms mr : positive) (es er : Z) :
  Prim2SF x = S754_zero sx ->
  Prim2SF s = S754_finite ss ms es ->
  Prim2SF r = S754_finite sr mr er ->
  exists t' s',
    float (g9 (x * s)%float) = Ok t'
    /\ Prim2SF (t' * r)%float = S754_zero s'.
Proof.
  intros Hx Hs Hr.
  assert (Ht : Prim2SF (x * s)%float = S754_zero (xorb sx ss)).
  { rewrite mul_spec, Hx, Hs. reflexivity. }
  destruct (read_back_zero _ _ Ht) as (t' & Hfloat & Ht').
  exists t', (xorb (xorb sx ss) sr). split; [exact Hfloat|].
  rewrite mul_spec, Ht', Hr. reflexivity.
Qed.

End scaled_translation.

(** ** The tolerance of the round trip *)

Section exact_tolerance.
Import Py Transform.

(** The value of a finite binary64 number, counted in units of
    [2^-1074], the smallest positive one; [None] for an infinity or
    NaN. *)
Definition units (x : PrimFloat.float) : option Z :=
  match Prim2SF x with
  | S754_zero _ => Some 0
  | S754_finite s m e => Some (cond_Zopp s (Z.pos m * 2 ^ (e + 1074)))
  | _ => None
  end.

(** [|x' - x| <= 1e-6 * |x|], in exact arithmetic. *)
Definition close (x' x : PrimFloat.float) : bool :=
  match units x', units x with
  | Some a, Some b => 1000000 * Z.abs (a - b) <=? Z.abs b
  | _, _ => false
  end.

Definition finite (x : PrimFloat.float) : bool :=
  match units x with Some _ => true | None => false end.

(** [|x| < 2^1023]: not in the topmost binade. *)
Definition below_top (x : PrimFloat.float) : bool :=
  match units x with
  | Some a => Z.abs a <? 2 ^ 2097
  | None => false
  end.

(** [|t| >= 2^-1022]: a finite number that has all its 53 bits. *)
Definition normal (t : PrimFloat.float) : bool :=
  match units t with
  | Some a => 2 ^ 52 <=? Z.abs a
  | None => false
  end.

(** [r] is the inverse of [s] up to rounding: [|s * r - 1| <= 1e-7] in
    exact arithmetic (the product counts units of [2^-2148]). *)
Definition inverse_scales (s r : PrimFloat.float) : bool :=
  match units s, units r with
  | Some a, Some b => 10000000 * Z.abs (a * b - 2 ^ 2148) <=? 2 ^ 2148
  | _, _ => false
  end.

(** A translation component the encoding keeps: zero, or below the
    topmost binade with a scaled value [x * s] that is normal (it has
    neither overflowed nor lost bits to underflow). *)
Definition translation_kept (x s : PrimFloat.float) : bool :=
  match units x with
  | Some 0 => true
  | Some _ => below_top x && normal (x * s)%float
  | None => false
  end.

Definition all_close (m m' : Matrix) : bool :=
  forallb
    (fun i => forallb (fun j => close (entry m i j) (entry m' i j)) (seq 0 4))
    (seq 0 4).

(** The matrix read back from the encoding of [mat] is within the
    tolerance of [mat], entry by entry. *)
Definition reconstructs (mat : Matrix) (s r : PrimFloat.float) : bool :=
  match parse_3mf_transform (Some (matrix_to_3mf_transform mat s)) r with
  | Ok m => all_close m mat
  | Raise _ => false
  end.

End exact_tolerance.

Section tolerance_facts.
Import Py Transform.
Local Open Scope R_scope.

Lemma valid_exponent (x : PrimFloat.float) (s : bool) (m : positive) (e : Z) :
  Prim2SF x = S754_finite s m e ->
  (-1074 <= e)%Z
  /\ (e = -1074 \/ 2 ^ 52 <= Z.pos m)%Z.
Proof.
  intros Hx. pose proof (Prim2SF_valid x) as Hv. rewrite Hx in Hv.
  simpl in Hv. apply bounded_spec in Hv as [Hc _]. rewrite fexp64_eq in Hc.
  split; [lia|].
  destruct (Z.eq_dec e (-1074)%Z) as [E|N]; [left; exact E|right].
  pose proof (digits2_pos_bounds m) as [Hlo _].
  replace (Z.pos (digits2_pos m)) with 53%Z in Hlo by lia. exact Hlo.
Qed.

Lemma units_value (x : PrimFloat.float) (s : bool) (m : positive) (e : Z) :
  Prim2SF x = S754_finite s m e ->
  units x = Some (cond_Zopp s (Z.pos m * 2 ^ (e + 1074)))
  /\ IZR (Z.pos m * 2 ^ (e + 1074)) = IZR (Z.pos m) * pow2 e * pow2 1074.
Proof.
  intros Hx. destruct (valid_exponent x s m e Hx) as [He _].
  unfold units. rewrite Hx. split; [reflexivity|].
  rewrite mult_IZR, <- pow2_IZR, pow2_add by lia. ring.
Qed.

Lemma Zabs_cond_Zopp (s : bool) (a : Z) : Z.abs (cond_Zopp s a) = Z.abs a.
Proof. destruct s; simpl; lia. Qed.

(** Two finite numbers of the same sign whose magnitudes are within
    [1e-6] are close. *)
Lemma close_magnitudes (x' x : PrimFloat.float) (s : bool)
    (m' m : positive) (e' e : Z) :
  Prim2SF x' = S754_finite s m' e' ->
  Prim2SF x = S754_finite s m e ->
  Rabs (IZR (Z.pos m') * pow2 e' - IZR (Z.pos m) * pow2 e)
  <= 1 / 1000000 * (IZR (Z.pos m) * pow2 e) ->
  close x' x = true.
Proof.
  intros Hx' Hx Herr.
  destruct (units_value x' s m' e' Hx') as [Eu' Ev'].
  destruct (units_value x s m e Hx) as [Eu Ev].
  unfold close. rewrite Eu', Eu. apply Z.leb_le.
  set (a' := (Z.pos m' * 2 ^ (e' + 1074))%Z) in *.
  set (a := (Z.pos m * 2 ^ (e + 1074))%Z) in *.
  assert (Ha : (0 <= a)%Z) by (unfold a; apply Z.mul_nonneg_nonneg; [lia|];
                               apply Z.pow_nonneg; lia).
  assert (Hd : Z.abs (cond_Zopp s a' - cond_Zopp s a) = Z.abs (a' - a))
    by (destruct s; simpl; lia).
  rewrite Hd, Zabs_cond_Zopp, (Z.abs_eq a) by exact Ha.
  apply le_IZR. rewrite mult_IZR, abs_IZR, minus_IZR, Ev', Ev.
  pose proof (pow2_pos 1074) as Hp.
  rewrite <- Rmult_minus_distr_r, Rabs_mult, (Rabs_right (pow2 1074)) by lra.
  apply Rmult_le_compat_r with (r := pow2 1074) in Herr; [|lra]. lra.
Qed.

Lemma close_zeros (x' x : PrimFloat.float) (s' s : bool) :
  Prim2SF x' = S754_zero s' -> Prim2SF x = S754_zero s -> close x' x = true.
Proof. intros Hx' Hx. unfold close, units. rewrite Hx', Hx. reflexivity. Qed.

(** An entry of the upper-left block is read back within the tolerance. *)
Lemma block_entry_close (x : PrimFloat.float) :
  finite x = true ->
  exists x', float (g9 x) = Ok x' /\ close x' x = true.
Proof.
  unfold finite, units. destruct (Prim2SF x) as [s|s| |s m e] eqn:Hx;
    try discriminate; intros _.
  - destruct (read_back_zero x s Hx) as (x' & Hf & Hx'). exists x'.
    split; [exact Hf|]. exact (close_zeros _ _ _ _ Hx' Hx).
  - destruct (read_back_finite x s m e Hx) as (x' & m' & e' & Hf & Hx' & Herr).
    exists x'. split; [exact Hf|].
    apply (close_magnitudes x' x s m' m e' e Hx' Hx).
    cbv zeta in Herr.
    assert (0 < IZR (Z.pos m) * pow2 e)
      by (apply Rmult_lt_0_compat; [apply IZR_lt; lia|apply pow2_pos]).
    lra.
Qed.

(** What [inverse_scales] says of two floats. *)
Lemma inverse_scales_spec (s r : PrimFloat.float) :
  inverse_scales s r = true ->
  exists ss ms es mr er,
    Prim2SF s = S754_finite ss ms es
    /\ Prim2SF r = S754_finite ss mr er
    /\ Rabs (IZR (Z.pos ms) * pow2 es * (IZR (Z.pos mr) * pow2 er) - 1)
       <= 1 / 10000000.
Proof.
  unfold inverse_scales.
  destruct (units s) as [ua|] eqn:Eua; [|discriminate].
  destruct (units r) as [ub|] eqn:Eub; [|discriminate].
  intros H. apply Z.leb_le in H.
  set (P := (2 ^ 2148)%Z) in *.
  assert (HP : (0 < P)%Z) by (apply Z.pow_pos_nonneg; lia).
  assert (Hprod : (0 < ua * ub)%Z) by lia.
  unfold units in Eua, Eub.
  destruct (Prim2SF s) as [ss|ss| |ss ms es] eqn:Hs; try discriminate Eua.
  { injection Eua as <-. lia. }
  destruct (Prim2SF r) as [sr|sr| |sr mr er] eqn:Hr; try discriminate Eub.
  { injection Eub as <-. lia. }
  injection Eua as <-. injection Eub as <-.
  destruct (units_value s ss ms es Hs) as [_ Evs].
  destruct (units_value r sr mr er Hr) as [_ Evr].
  destruct (valid_exponent s ss ms es Hs) as [Hes _].
  destruct (valid_exponent r sr mr er Hr) as [Her _].
  set (a := (Z.pos ms * 2 ^ (es + 1074))%Z) in *.
  set (b := (Z.pos mr * 2 ^ (er + 1074))%Z) in *.
  assert (Ha : (0 < a)%Z)
    by (unfold a; apply Z.mul_pos_pos; [lia|apply Z.pow_pos_nonneg; lia]).
  assert (Hb : (0 < b)%Z)
    by (unfold b; apply Z.mul_pos_pos; [lia|apply Z.pow_pos_nonneg; lia]).
  assert (Hab : (0 < a * b)%Z) by (apply Z.mul_pos_pos; assumption).
  assert (Esign : ss = sr).
  { destruct ss, sr; try reflexivity; simpl in Hprod; exfalso;
      [replace (- a * b)%Z with (- (a * b))%Z in Hprod by ring
      |replace (a * - b)%Z with (- (a * b))%Z in Hprod by ring]; lia. }
  subst sr.
  assert (Eprod : (cond_Zopp ss a * cond_Zopp ss b = a * b)%Z)
    by (destruct ss; simpl; ring).
  rewrite Eprod in H.
  exists ss, ms, es, mr, er. split; [reflexivity|]. split; [reflexivity|].
  apply IZR_le in H. rewrite mult_IZR, abs_IZR, minus_IZR, mult_IZR in H.
  unfold P in H. rewrite Evs, Evr, <- (pow2_IZR 2148) in H by lia.
  replace 2148%Z with (1074 + 1074)%Z in H by lia.
  rewrite pow2_add in H.
  pose proof (pow2_pos 1074) as Hq.
  set (S := IZR (Z.pos ms) * pow2 es) in *.
  set (R := IZR (Z.pos mr) * pow2 er) in *.
  set (p := pow2 1074) in *.
  replace (S * p * (R * p) - p * p) with ((S * R - 1) * (p * p)) in H
    by ring.
  assert (Hpp : 0 < p * p) by (apply Rmult_lt_0_compat; assumption).
  rewrite Rabs_mult, (Rabs_right (p * p)) in H by lra.
  assert (H' : 10000000 * Rabs (S * R - 1) * (p * p) <= 1 * (p * p))
    by lra.
  apply Rmult_le_reg_r in H'; [lra|exact Hpp].
Qed.

(** A translation component is read back within the tolerance. *)
Lemma translation_close (x s r : PrimFloat.float) :
  inverse_scales s r = true ->
  translation_kept x s = true ->
  exists t', float (g9 (x * s)%float) = Ok t' /\ close (t' * r)%float x = true.
Proof.
  intros Hinv Hkept.
  destruct (inverse_scales_spec s r Hinv)
    as (ss & ms & es & mr & er & Hs & Hr & HSR).
  unfold translation_kept in Hkept.
  destruct (Prim2SF x) as [sx|sx| |sx mx ex] eqn:Hx.
  - destruct (translation_back_zero x s r sx ss ss ms mr es er Hx Hs Hr)
      as (t' & s' & Hf & Hz).
    exists t'. split; [exact Hf|]. exact (close_zeros _ _ _ _ Hz Hx).
  - unfold units in Hkept. rewrite Hx in Hkept. discriminate.
  - unfold units in Hkept. rewrite Hx in Hkept. discriminate.
  - destruct (units_value x sx mx ex Hx) as [Eu Ev].
    destruct (valid_exponent x sx mx ex Hx) as [Hex _].
    assert (Hmag : (0 < Z.pos mx * 2 ^ (ex + 1074))%Z)
      by (apply Z.mul_pos_pos; [lia|apply Z.pow_pos_nonneg; lia]).
    rewrite Eu in Hkept.
    assert (Hk : below_top x && normal (x * s)%float = true).
    { destruct (cond_Zopp sx (Z.pos mx * 2 ^ (ex + 1074))) eqn:E;
        [destruct sx; simpl in E; lia|exact Hkept|exact Hkept]. }
    apply andb_prop in Hk as [Htop Hnorm].
    unfold below_top in Htop. rewrite Eu, Zabs_cond_Zopp in Htop.
    apply Z.ltb_lt in Htop. rewrite Z.abs_eq in Htop by lia.
    assert (HX : IZR (Z.pos mx) * pow2 ex < pow2 1023).
    { apply IZR_lt in Htop. rewrite Ev, <- (pow2_IZR 2097) in Htop by lia.
      replace 2097%Z with (1023 + 1074)%Z in Htop by lia.
      rewrite pow2_add in Htop. pose proof (pow2_pos 1074).
      apply Rmult_lt_reg_r in Htop; assumption. }
    unfold normal, units in Hnorm.
    destruct (Prim2SF (x * s)%float) as [st|st| |st mt et] eqn:Ht;
      try discriminate.
    rewrite Zabs_cond_Zopp in Hnorm. apply Z.leb_le in Hnorm.
    assert (Hmt : (2 ^ 52 <= Z.pos mt)%Z).
    { destruct (valid_exponent _ st mt et Ht) as [_ [E|H]]; [|exact H].
      subst et. change (-1074 + 1074)%Z with 0%Z in Hnorm.
      rewrite Z.pow_0_r, Z.mul_1_r in Hnorm. lia. }
    destruct (translation_back x s r sx ss st mx ms mr mt ex es er et
                Hx Hs Hr HSR Ht Hmt HX)
      as (t' & m' & e' & Hf & Hres & Herr).
    exists t'. split; [exact Hf|].
    exact (close_magnitudes _ x sx m' mx e' ex Hres Hx Herr).
Qed.

End tolerance_facts.

Section samples.
Import Py Transform.

(** A matrix whose bottom row is not (0, 0, 0, 1). *)
Definition projective : Matrix :=
  ((1, 0, 0, 0), (0, 1, 0, 0), (0, 0, 1, 0), (0, 0, 0, 2))%float.

(** An affine matrix whose translation, once scaled by 1000, is beyond
    the largest binary64 value. *)
Definition far_away : Matrix :=
  ((1, 0, 0, 0x1p1020), (0, 1, 0, 0), (0, 0, 1, 0), (0, 0, 0, 1))%float.

(** An affine matrix whose translation loses bits when it is scaled by
    [2^-74]: the product is below the normal range. *)
Definition minute : Matrix :=
  ((1, 0, 0, 0x1.8p-1000), (0, 1, 0, 0), (0, 0, 1, 0), (0, 0, 0, 1))%float.

(** An affine matrix whose translation is the largest binary64 value. *)
Definition topmost : Matrix :=
  ((1, 0, 0, 0x1.fffffffffffffp1023), (0, 1, 0, 0), (0, 0, 1, 0),
   (0, 0, 0, 1))%float.

(** An affine matrix with an entry that is not a number. *)
Definition undefined_entry : Matrix :=
  ((nan, 0, 0, 0), (0, 1, 0, 0), (0, 0, 1, 0), (0, 0, 0, 1))%float.

(** An affine matrix: a scaling by one half and a translation. *)
Definition affine_sample : Matrix :=
  ((0.5, 0, 0, 0.25), (0, 1, 0, 0.5), (0, 0, 1, 0.75), (0, 0, 0, 1))%float.

(** An affine matrix none of whose entries has a short decimal text: a
    rotation about the third axis by one radian, tenths, and a
    translation in thirds. *)
Definition turned : Matrix :=
  ((0x1.14a280fb5068cp-1, -0x1.aed548f090ceep-1, 0x1.999999999999ap-4,
    0x1.5555555555555p-2),
   (0x1.aed548f090ceep-1, 0x1.14a280fb5068cp-1, -0x1.999999999999ap-3,
    -0x1.5555555555555p-1),
   (0, 0, 0x1.3333333333333p+0, 0x1.8p-52),
   (0, 0, 0, 1))%float.

End samples.

(** C4 (as amended): for an affine matrix [mat] (bottom row (0, 0, 0, 1))
    whose upper-left 3x3 entries are finite, and scales [s] and [r] with
    [|s * r - 1| <= 1e-7] (so [r] is 1/s up to its rounding): when every
    translation component is zero, or lies below the topmost binade and
    has a scaled value [mat[i][3] * s] in the normal range, decoding the
    encoded string with [r] returns a matrix every entry of which is
    within the relative tolerance 1e-6 of the entry of [mat], in exact
    arithmetic. *)
Theorem decode_encode_within_tolerance (mat : Transform.Matrix)
    (s r : PrimFloat.float) :
  Transform.row mat 3 = (0, 0, 0, 1)%float ->
  inverse_scales s r = true ->
  (forall i j, (i < 3)%nat -> (j < 3)%nat ->
     finite (Transform.entry mat i j) = true) ->
  (forall i, (i < 3)%nat ->
     translation_kept (Transform.entry mat i 3) s = true) ->
  exists m,
    Transform.parse_3mf_transform
      (Some (Transform.matrix_to_3mf_transform mat s)) r = Py.Ok m
    /\ forall i j, (i < 4)%nat -> (j < 4)%nat ->
         close (Transform.entry m i j) (Transform.entry mat i j) = true.
Proof.
  intros Hrow Hinv Hblock Htrans.
  destruct mat as [[[[[[a00 a01] a02] a03] [[[a10 a11] a12] a13]]
                     [[[a20 a21] a22] a23]] r3].
  cbn [Transform.row] in Hrow. subst r3.
  pose proof (Hblock 0%nat 0%nat ltac:(lia) ltac:(lia)) as H00.
  pose proof (Hblock 0%nat 1%nat ltac:(lia) ltac:(lia)) as H01.
  pose proof (Hblock 0%nat 2%nat ltac:(lia) ltac:(lia)) as H02.
  pose proof (Hblock 1%nat 0%nat ltac:(lia) ltac:(lia)) as H10.
  pose proof (Hblock 1%nat 1%nat ltac:(lia) ltac:(lia)) as H11.
  pose proof (Hblock 1%nat 2%nat ltac:(lia) ltac:(lia)) as H12.
  pose proof (Hblock 2%nat 0%nat ltac:(lia) ltac:(lia)) as H20.
  pose proof (Hblock 2%nat 1%nat ltac:(lia) ltac:(lia)) as H21.
  pose proof (Hblock 2%nat 2%nat ltac:(lia) ltac:(lia)) as H22.
  pose proof (Htrans 0%nat ltac:(lia)) as H03.
  pose proof (Htrans 1%nat ltac:(lia)) as H13.
  pose proof (Htrans 2%nat ltac:(lia)) as H23.
  cbn [Transform.entry Transform.row Transform.col] in *.
  destruct (block_entry_close _ H00) as (b00 & F00 & C00).
  destruct (block_entry_close _ H01) as (b01 & F01 & C01).
  destruct (block_entry_close _ H02) as (b02 & F02 & C02).
  destruct (block_entry_close _ H10) as (b10 & F10 & C10).
  destruct (block_entry_close _ H11) as (b11 & F11 & C11).
  destruct (block_entry_close _ H12) as (b12 & F12 & C12).
  destruct (block_entry_close _ H20) as (b20 & F20 & C20).
  destruct (block_entry_close _ H21) as (b21 & F21 & C21).
  destruct (block_entry_close _ H22) as (b22 & F22 & C22).
  destruct (translation_close _ s r Hinv H03) as (t0 & F03 & C03).
  destruct (translation_close _ s r Hinv H13) as (t1 & F13 & C13).
  destruct (translation_close _ s r Hinv H23) as (t2 & F23 & C23).
  rewrite decode_encode_reads_tokens. unfold encoded_tokens.
  cbn [Transform.entry Transform.row Transform.col Py.map_result].
  rewrite F00, F01, F02, F10, F11, F12, F20, F21, F22, F03, F13, F23.
  cbn [Py.bind]. eexists. split; [reflexivity|].
  intros i j Hi Hj.
  destruct i as [|[|[|[|i]]]]; [| | | |lia];
    (destruct j as [|[|[|[|j]]]]; [| | | |lia]);
    cbn [Transform.entry Transform.row Transform.col];
    first [assumption | vm_compute; reflexivity].
Qed.

Lemma decode_encode_within_tolerance_witness :
  exists m,
    Transform.parse_3mf_transform
      (Some (Transform.matrix_to_3mf_transform turned 1000)) (1 / 1000)%float
    = Py.Ok m
    /\ forall i j, (i < 4)%nat -> (j < 4)%nat ->
         close (Transform.entry m i j) (Transform.entry turned i j) = true.
Proof.
  apply (decode_encode_within_tolerance turned 1000%float (1 / 1000)%float).
  - reflexivity.
  - vm_compute. reflexivity.
  - intros i j Hi Hj.
    destruct i as [|[|[|i]]]; [| | |lia];
      (destruct j as [|[|[|j]]]; [| | |lia]); vm_compute; reflexivity.
  - intros i Hi.
    destruct i as [|[|[|i]]]; [| | |lia]; vm_compute; reflexivity.
Defined.

(** The samples under the tolerance test. *)
Example samples_reconstructed :
  reconstructs affine_sample 1000 (1 / 1000)%float = true
  /\ reconstructs turned 1000 (1 / 1000)%float = true
  /\ Transform.matrix_to_3mf_transform turned 1000
     = "0.540302306 0.841470985 0 -0.841470985 0.540302306 0 0.1 -0.2 1.2 333.333333 -666.666667 3.33066907e-13".
Proof. repeat split; vm_compute; reflexivity. Qed.

Example projective_not_reconstructed :
  reconstructs projective 1000 (1 / 1000)%float = false.
Proof. vm_compute. reflexivity. Qed.

(** Each condition on the translation is needed.  A translation that
    overflows when scaled is written as [inf]. *)
Example far_away_not_reconstructed :
  Transform.g9 (Transform.entry far_away 0 3 * 1000)%float = "inf"
  /\ inverse_scales 1000 (1 / 1000)%float = true
  /\ reconstructs far_away 1000 (1 / 1000)%float = false.
Proof. repeat split; vm_compute; reflexivity. Qed.

(** A translation whose scaled value falls below the normal range comes
    back a third too large, although the scales are exact inverses. *)
Example minute_not_reconstructed :
  inverse_scales 0x1p-74 0x1p74 = true
  /\ normal (Transform.entry minute 0 3 * 0x1p-74)%float = false
  /\ reconstructs minute 0x1p-74 0x1p74 = false.
Proof. repeat split; vm_compute; reflexivity. Qed.

(** A translation in the topmost binade can come back as an infinity,
    although the scales are exact inverses and nothing overflows when
    it is scaled. *)
Example topmost_not_reconstructed :
  inverse_scales 0.25 4 = true
  /\ normal (Transform.entry topmost 0 3 * 0.25)%float = true
  /\ below_top (Transform.entry topmost 0 3) = false
  /\ reconstructs topmost 0.25 4 = false.
Proof. repeat split; vm_compute; reflexivity. Qed.

(** An entry that is not a number is not read back within any
    tolerance. *)
Example undefined_entry_not_reconstructed :
  finite (Transform.entry undefined_entry 0 0) = false
  /\ reconstructs undefined_entry 1000 (1 / 1000)%float = false.
Proof. repeat split; vm_compute; reflexivity. Qed.

(** C4 (as stated) fails: the text has no place for the bottom row, so a
    matrix with bottom row (0, 0, 0, 2) comes back with (0, 0, 0, 1), far
    outside the tolerance. *)
Lemma decode_encode_loses_bottom_row :
  inverse_scales 1000 (1 / 1000)%float = true
  /\ Transform.parse_3mf_transform
       (Some (Transform.matrix_to_3mf_transform projective 1000))
       (1 / 1000)%float
     = Py.Ok Transform.Identity4
  /\ Transform.entry projective 3 3 = 2%float
  /\ Transform.entry Transform.Identity4 3 3 = 1%float
  /\ close (Transform.entry Transform.Identity4 3 3)
       (Transform.entry projective 3 3) = false.
Proof. repeat split; vm_compute; reflexivity. Qed.

(** The inverse of a scale need not exist in binary64: for the smallest
    positive scale the quotient [1 / s] is an infinity, and so is the
    translation that is read back. *)
Example tiny_scale_not_reconstructed :
  (1 / 0x1p-1074)%float = infinity
  /\ inverse_scales 0x1p-1074 (1 / 0x1p-1074)%float = false
  /\ reconstructs affine_sample 0x1p-1074 (1 / 0x1p-1074)%float = false.
Proof. repeat split; vm_compute; reflexivity. Qed.

(** * Further properties of the writer *)

(** ** The collected groups *)

Section collected_groups.
Import Serializer.

Definition is_mesh (o : bobject) : bool := String.eqb (type o) "MESH".

(** An empty that carries an assembly id. *)
Definition tagged_empty (o : bobject) : bool :=
  String.eqb (type o) "EMPTY"
  && match bambu_object_id o with Some _ => true | None => false end.

Definition mesh_children (o : bobject) : list bobject :=
  List.filter is_mesh (children o).

Definition has_mesh_child (o : bobject) : bool :=
  match mesh_children o with [] => false | _ :: _ => true end.

Definition export_source (ctx : context) (selection_only : bool) : list bobject :=
  if selection_only then selected_objects ctx else scene_objects ctx.

(** The groups as the property describes them. *)
Definition expected_groups (source : list bobject) : list group :=
  if existsb tagged_empty source then
    map (fun empty => {| parent := empty; g_children := mesh_children empty |})
        (List.filter (fun o => tagged_empty o && has_mesh_child o) source)
  else
    map (fun m => {| parent := m; g_children := [m] |})
        (List.filter is_mesh source).

Lemma filter_none_existsb {A : Type} (f : A -> bool) (l : list A) :
  List.filter f l = [] -> existsb f l = false.
Proof.
  induction l as [|x l IH]; simpl; [reflexivity|].
  destruct (f x); [discriminate|exact IH].
Qed.

Lemma filter_some_existsb {A : Type} (f : A -> bool) (l : list A) (x : A)
    (r : list A) :
  List.filter f l = x :: r -> existsb f l = true.
Proof.
  induction l as [|y l IH]; simpl; [discriminate|].
  destruct (f y); [reflexivity|exact IH].
Qed.

Lemma groups_of_empties (l : list bobject) :
  flat_map
    (fun empty =>
       match List.filter (is_type "MESH") (children empty) with
       | [] => []
       | cs => [{| parent := empty; g_children := cs |}]
       end)
    (List.filter (fun o => is_type "EMPTY" o && has_object_id o) l)
  = map (fun empty => {| parent := empty; g_children := mesh_children empty |})
        (List.filter (fun o => tagged_empty o && has_mesh_child o) l).
Proof.
  induction l as [|o l IH]; [reflexivity|].
  cbn [List.filter].
  change (is_type "EMPTY" o && has_object_id o) with (tagged_empty o).
  destruct (tagged_empty o); cbn [andb flat_map]; [|exact IH].
  change (List.filter (is_type "MESH") (children o)) with (mesh_children o).
  unfold has_mesh_child.
  destruct (mesh_children o) as [|c cs] eqn:E.
  - exact IH.
  - cbn [map app]. rewrite E, IH. reflexivity.
Qed.

(** A scene with a tagged empty over a mesh and a light, a tagged empty
    without mesh, and a loose mesh. *)
Definition scene_object (nm ty : string) (kids : list bobject)
    (id : option Z) : bobject :=
  {| name := nm; type := ty; children := kids;
     matrix_world := Transform.Identity4; matrix_local := Transform.Identity4;
     mesh_vertices := []; mesh_polygons := [];
     bambu_object_id := id; bambu_uuid := None;
     bambu_build_transform := None; bambu_printable := None;
     bambu_extruder := None; bambu_part_id := None; bambu_part_uuid := None;
     bambu_component_transform := None; bambu_subtype := None;
     bambu_part_name := None |}.

Definition mixed_scene : context :=
  {| selected_objects := [scene_object "Loose" "MESH" [] None];
     scene_objects :=
       [ scene_object "Loose" "MESH" [] None;
         scene_object "Asm" "EMPTY"
           [ scene_object "Part" "MESH" [] None;
             scene_object "Lamp" "LIGHT" [] None ] (Some 4);
         scene_object "Bare" "EMPTY" [] (Some 5) ] |}.

End collected_groups.

(** The groups of an export.  When the source (the selection or the
    scene) has an empty that carries an assembly id, the groups are exactly
    the tagged empties that have a mesh child, in source order, each with
    all its mesh children in order, and no mesh outside them is exported;
    otherwise every mesh of the source is a group of its own, in source
    order.  Every group has a parent from the source, at least one child,
    and all its children are meshes. *)
Theorem collected_groups_shape (ctx : Serializer.context) (selection_only : bool) :
  let source := export_source ctx selection_only in
  let groups := Serializer._collect_export_groups ctx selection_only in
  groups = expected_groups source
  /\ Forall
       (fun g =>
          In (Serializer.parent g) source
          /\ Serializer.g_children g <> []
          /\ Forall (fun c => Serializer.type c = "MESH")
                (Serializer.g_children g))
       groups.
Proof.
  cbv zeta.
  assert (E : Serializer._collect_export_groups ctx selection_only
              = expected_groups (export_source ctx selection_only)).
  { unfold Serializer._collect_export_groups, expected_groups, export_source.
    set (source := if selection_only then Serializer.selected_objects ctx
                   else Serializer.scene_objects ctx).
    pose proof (groups_of_empties source) as Hg.
    change (fun o => Serializer.is_type "EMPTY" o && Serializer.has_object_id o)
      with tagged_empty in *.
    destruct (List.filter tagged_empty source) as [|e es] eqn:Hempties.
    - rewrite (filter_none_existsb _ _ Hempties). reflexivity.
    - rewrite (filter_some_existsb _ _ _ _ Hempties). exact Hg. }
  split; [exact E|]. rewrite E. unfold expected_groups.
  apply List.Forall_forall. intros g Hg.
  destruct (existsb tagged_empty (export_source ctx selection_only)).
  - apply in_map_iff in Hg as (e & <- & He).
    apply filter_In in He as [Hsrc Htag]. cbn [Serializer.parent Serializer.g_children].
    apply andb_prop in Htag as [_ Hchild].
    repeat split; [exact Hsrc| |].
    + unfold has_mesh_child in Hchild.
      destruct (mesh_children e); [discriminate Hchild|discriminate].
    + apply List.Forall_forall. intros c Hc.
      apply filter_In in Hc as [_ Hc]. apply String.eqb_eq. exact Hc.
  - apply in_map_iff in Hg as (m & <- & Hm).
    apply filter_In in Hm as [Hsrc Hmesh]. cbn [Serializer.parent Serializer.g_children].
    repeat split; [exact Hsrc|discriminate|].
    constructor; [apply String.eqb_eq; exact Hmesh|constructor].
Qed.

(** In the sample scene only the empty with a mesh child is exported, with
    its mesh child only; the selection, which has no tagged empty, gives
    the loose mesh as its own group. *)
Example collected_groups_mixed_scene :
  map (fun g => (Serializer.name (Serializer.parent g),
                 map Serializer.name (Serializer.g_children g)))
      (Serializer._collect_export_groups mixed_scene false)
  = [("Asm", ["Part"])]
  /\ map (fun g => (Serializer.name (Serializer.parent g),
                    map Serializer.name (Serializer.g_children g)))
         (Serializer._collect_export_groups mixed_scene true)
     = [("Loose", ["Loose"])].
Proof. split; vm_compute; reflexivity. Qed.

(** ** Part ids within one sub-model *)

Section part_ids.
Import Serializer.
Variable uuid_at : nat -> string.

(** A loop keeps what holds at its start and is kept by every round;
    the property may mention the elements done so far. *)
Lemma gfold_ind {A S : Type} (f : S -> A -> gen S) (Q : list A -> S -> Prop)
    (xs : list A) (s0 : S) (n : nat) :
  Q [] s0 ->
  (forall pre x s m, Q pre s -> Q (pre ++ [x]) (fst (f s x m))) ->
  Q xs (fst (gfold f xs s0 n)).
Proof.
  intros H0 Hstep.
  assert (H : forall pre s m, Q pre s -> Q (pre ++ xs) (fst (gfold f xs s m))).
  { induction xs as [|x xs IH]; intros pre s m Hpre; simpl.
    - rewrite app_nil_r. exact Hpre.
    - unfold gbind. destruct (f s x m) as [s' m'] eqn:E.
      replace (pre ++ x :: xs) with ((pre ++ [x]) ++ xs)
        by (rewrite <- app_assoc; reflexivity).
      apply IH. specialize (Hstep pre x s m Hpre). rewrite E in Hstep.
      exact Hstep. }
  apply (H [] s0 n H0).
Qed.

(** The ids given to the children, as a function of the allocator state. *)
Fixpoint assigned_ids (mesh_objects : list bobject) (fallback_id : Z)
    (used_ids : gset Z) : list Z :=
  match mesh_objects with
  | [] => []
  | obj :: rest =>
      let '(part_id, fallback_id', used_ids') :=
        part_id_of obj fallback_id used_ids in
      part_id :: assigned_ids rest fallback_id' used_ids'
  end.

(** One round of the loop of [_build_sub_model], spelled out. *)
Lemma sub_model_step_result (st : sub_state) (obj : bobject) (n : nat) :
  sub_model_step uuid_at st obj n
  = (let p := part_id_of obj (ss_fallback_id st) (ss_used_ids st) in
     let obj_uuid := or_default (uuid_at n) (bambu_part_uuid obj) in
     {| ss_fallback_id := snd (fst p);
        ss_used_ids := snd p;
        ss_lines := ss_lines st ++ mesh_object_lines obj (fst (fst p)) obj_uuid;
        ss_components :=
          ss_components st
          ++ [{| pc_id := fst (fst p); pc_uuid := obj_uuid;
                 pc_transform :=
                   transform_or (bambu_component_transform obj)
                                (matrix_local obj) |}] |},
     S n).
Proof.
  unfold sub_model_step.
  destruct (part_id_of obj (ss_fallback_id st) (ss_used_ids st)) as [[a b] c].
  reflexivity.
Qed.

Lemma sub_model_loop_ids (mesh_objects : list bobject) (st : sub_state)
    (n : nat) :
  map pc_id (ss_components (fst (gfold (sub_model_step uuid_at) mesh_objects st n)))
  = map pc_id (ss_components st)
    ++ assigned_ids mesh_objects (ss_fallback_id st) (ss_used_ids st).
Proof.
  revert st n. induction mesh_objects as [|obj rest IH]; intros st n.
  - simpl. rewrite app_nil_r. reflexivity.
  - cbn [gfold assigned_ids]. unfold gbind.
    rewrite sub_model_step_result. cbv zeta. rewrite IH. cbn [ss_components
      ss_fallback_id ss_used_ids].
    destruct (part_id_of obj (ss_fallback_id st) (ss_used_ids st))
      as [[part_id fallback_id] used_ids].
    cbn [fst snd]. rewrite map_app, <- app_assoc. reflexivity.
Qed.

Lemma build_sub_model_ids (mesh_objects : list bobject) (n : nat) :
  map pc_id (snd (fst (_build_sub_model uuid_at mesh_objects n)))
  = assigned_ids mesh_objects 1 (stored_part_ids mesh_objects).
Proof.
  unfold _build_sub_model, gbind, ret.
  pose proof (sub_model_loop_ids mesh_objects
                {| ss_fallback_id := 1;
                   ss_used_ids := stored_part_ids mesh_objects;
                   ss_lines := [xml_decl; model_open_tag; version_line;
                                " <resources>"];
                   ss_components := [] |} n) as H.
  destruct (gfold (sub_model_step uuid_at) mesh_objects _ n) as [st m].
  simpl in *. exact H.
Qed.

(** The ids the children carry, in order. *)
Definition stored_ids (mesh_objects : list bobject) : list Z :=
  omap bambu_part_id mesh_objects.

Lemma stored_part_ids_from (mesh_objects : list bobject) (used : gset Z) (x : Z) :
  x ∈ fold_left
        (fun used obj =>
           match bambu_part_id obj with
           | Some pid => {[pid]} ∪ used
           | None => used
           end)
        mesh_objects used
  <-> x ∈ used \/ x ∈ stored_ids mesh_objects.
Proof.
  revert used. induction mesh_objects as [|obj rest IH]; intros used; simpl.
  - unfold stored_ids. simpl. rewrite elem_of_nil. tauto.
  - rewrite IH. unfold stored_ids. simpl.
    destruct (bambu_part_id obj) as [pid|]; simpl.
    + rewrite elem_of_union, elem_of_singleton, elem_of_cons. tauto.
    + tauto.
Qed.

Lemma stored_part_ids_spec (mesh_objects : list bobject) (x : Z) :
  x ∈ stored_part_ids mesh_objects <-> x ∈ stored_ids mesh_objects.
Proof.
  unfold stored_part_ids. rewrite stored_part_ids_from, elem_of_empty. tauto.
Qed.

Lemma skip_used_ge (fuel : nat) (used_ids : gset Z) (fallback_id : Z) :
  fallback_id <= skip_used fuel used_ids fallback_id.
Proof.
  revert fallback_id. induction fuel as [|fuel IH]; intros n; simpl; [lia|].
  destruct (decide (n ∈ used_ids)); [|lia].
  specialize (IH (n + 1)). lia.
Qed.

(** Every assigned id is a stored one of a child, or is at least the
    fallback counter and not a used one. *)
Lemma assigned_ids_origin (mesh_objects : list bobject) (fallback_id : Z)
    (used_ids : gset Z) (x : Z) :
  x ∈ assigned_ids mesh_objects fallback_id used_ids ->
  x ∈ stored_ids mesh_objects \/ (fallback_id <= x /\ x ∉ used_ids).
Proof.
  revert fallback_id used_ids.
  induction mesh_objects as [|obj rest IH]; intros fallback_id used_ids; simpl.
  - intros H. apply elem_of_nil in H. destruct H.
  - unfold part_id_of, stored_ids. simpl.
    destruct (bambu_part_id obj) as [pid|]; simpl.
    + intros H. apply elem_of_cons in H as [->|H].
      * left. apply elem_of_cons. left. reflexivity.
      * destruct (IH _ _ H) as [Hs|Hf]; [|right; exact Hf].
        left. apply elem_of_cons. right. exact Hs.
    + intros H. apply elem_of_cons in H as [->|H].
      * right. split; [apply skip_used_ge|apply skip_used_free].
      * destruct (IH _ _ H) as [Hs|[Hge Hnot]]; [left; exact Hs|].
        right. pose proof (skip_used_ge (S (size used_ids)) used_ids fallback_id).
        unfold first_free in *. split; [lia|].
        intros Hin. apply Hnot. apply elem_of_union. right. exact Hin.
Qed.

Lemma assigned_ids_NoDup (mesh_objects : list bobject) (fallback_id : Z)
    (used_ids : gset Z) :
  NoDup (stored_ids mesh_objects) ->
  (forall x, x ∈ stored_ids mesh_objects -> x ∈ used_ids) ->
  NoDup (assigned_ids mesh_objects fallback_id used_ids).
Proof.
  revert fallback_id used_ids.
  induction mesh_objects as [|obj rest IH]; intros fallback_id used_ids Hnd Hsub;
    simpl; [constructor|].
  unfold part_id_of. unfold stored_ids in *. simpl in *.
  destruct (bambu_part_id obj) as [pid|]; simpl in *.
  - apply NoDup_cons in Hnd as [Hpid Hnd]. apply NoDup_cons. split.
    + intros Hin. apply assigned_ids_origin in Hin as [Hs|[_ Hnot]].
      * apply Hpid. exact Hs.
      * apply Hnot, Hsub. apply elem_of_cons. left. reflexivity.
    + apply IH; [exact Hnd|].
      intros x Hx. apply Hsub. apply elem_of_cons. right. exact Hx.
  - apply NoDup_cons. split.
    + intros Hin. apply assigned_ids_origin in Hin as [Hs|[_ Hnot]].
      * apply (skip_used_free used_ids fallback_id). apply Hsub. exact Hs.
      * apply Hnot. apply elem_of_union. left. apply elem_of_singleton. reflexivity.
    + apply IH; [exact Hnd|].
      intros x Hx. apply elem_of_union. right. apply Hsub. exact Hx.
Qed.

End part_ids.

Section part_components.
Import Serializer.
Variable uuid_at : nat -> string.

(** What a component keeps of its child; [used] are ids a fresh id avoids. *)
Definition follows (used : gset Z) (child : bobject) (comp : part_component)
  : Prop :=
  match bambu_part_id child with
  | Some pid => pc_id comp = pid
  | None => 1 <= pc_id comp /\ pc_id comp ∉ used
  end
  /\ (forall u, bambu_part_uuid child = Some u -> pc_uuid comp = u)
  /\ pc_transform comp
     = transform_or (bambu_component_transform child) (matrix_local child).

Lemma follows_mono (used used' : gset Z) (child : bobject)
    (comp : part_component) :
  used ⊆ used' -> follows used' child comp -> follows used child comp.
Proof.
  unfold follows. intros Hsub (Hid & Hu & Ht). repeat split; try assumption.
  destruct (bambu_part_id child); [exact Hid|].
  destruct Hid as [Hge Hnot]. split; [exact Hge|]. intros Hin.
  apply Hnot, Hsub, Hin.
Qed.

Lemma sub_model_loop_follows (mesh_objects : list bobject) (st : sub_state)
    (n : nat) :
  1 <= ss_fallback_id st ->
  exists comps,
    ss_components (fst (gfold (sub_model_step uuid_at) mesh_objects st n))
    = ss_components st ++ comps
    /\ Forall2 (follows (ss_used_ids st)) mesh_objects comps.
Proof.
  revert st n. induction mesh_objects as [|obj rest IH]; intros st n Hf.
  - exists []. simpl. rewrite app_nil_r. split; [reflexivity|constructor].
  - cbn [gfold]. unfold gbind. rewrite sub_model_step_result. cbv zeta.
    match goal with
    | |- context [gfold _ rest ?s ?m] =>
        destruct (IH s m) as (comps & Hcomps & Hall)
    end.
    { cbn [ss_fallback_id]. unfold part_id_of.
      destruct (bambu_part_id obj); cbn [fst snd]; [exact Hf|].
      pose proof (skip_used_ge (S (size (ss_used_ids st))) (ss_used_ids st)
                    (ss_fallback_id st)).
      unfold first_free. lia. }
    rewrite Hcomps. cbn [ss_components ss_used_ids] in *.
    eexists. split; [rewrite <- app_assoc; reflexivity|].
    constructor.
    + unfold follows, part_id_of. cbn [pc_id pc_uuid pc_transform].
      destruct (bambu_part_id obj) as [pid|]; cbn [fst snd].
      * repeat split. intros u ->. reflexivity.
      * repeat split.
        -- pose proof (skip_used_ge (S (size (ss_used_ids st))) (ss_used_ids st)
                         (ss_fallback_id st)).
           unfold first_free. lia.
        -- apply skip_used_free.
        -- intros u ->. reflexivity.
    + eapply Forall2_impl; [exact Hall|].
      intros child comp. apply follows_mono.
      unfold part_id_of. destruct (bambu_part_id obj); cbn [snd]; set_solver.
Qed.

End part_components.

Section stored_transforms.
Import Serializer.

Lemma transform_or_cases (stored : option string) (mat : Transform.Matrix) :
  transform_or stored mat
  = match stored with
    | Some t =>
        if String.eqb t "" then Transform.matrix_to_3mf_transform mat 1000
        else t
    | None => Transform.matrix_to_3mf_transform mat 1000
    end.
Proof. destruct stored; reflexivity. Qed.

Lemma Forall2_map_eq {A B C : Type} (f : A -> C) (g : B -> C)
    (R : A -> B -> Prop) (l : list A) (k : list B) :
  Forall2 R l k -> (forall a b, R a b -> g b = f a) -> map g k = map f l.
Proof.
  intros H HR. induction H as [|a b l k Hab _ IH]; simpl; [reflexivity|].
  rewrite (HR a b Hab), IH. reflexivity.
Qed.

(** A mesh that is moved by (1, 2, 3) millimetres and carries the given
    part id and component transform. *)
Definition moved_mesh (nm : string) (pid : option Z) (stored : option string)
  : bobject :=
  {| name := nm; type := "MESH"; children := [];
     matrix_world := Transform.Identity4;
     matrix_local :=
       ((1, 0, 0, 0x1.0624dd2f1a9fcp-10), (0, 1, 0, 0x1.0624dd2f1a9fcp-9),
        (0, 0, 1, 0x1.89374bc6a7efap-9), (0, 0, 0, 1))%float;
     mesh_vertices := []; mesh_polygons := [];
     bambu_object_id := None; bambu_uuid := None;
     bambu_build_transform := None; bambu_printable := None;
     bambu_extruder := None; bambu_part_id := pid; bambu_part_uuid := None;
     bambu_component_transform := stored; bambu_subtype := None;
     bambu_part_name := None |}.

Definition moved_children : list bobject :=
  [ moved_mesh "a" (Some 7) (Some "2 0 0 0 2 0 0 0 2 5 6 7");
    moved_mesh "b" None (Some "");
    moved_mesh "c" None None ].

End stored_transforms.

(** Within one sub-model part there is one component per child, in the
    order of the children.  A child that carries a part id keeps it; a
    child without one gets an id that is at least 1 and is none of the ids
    the children carry.  A stored part uuid is kept, and the transform is
    the stored text when there is a non-empty one, else the text that
    encodes the child's local matrix in millimetres. *)
Theorem sub_model_components_follow_children (uuid_at : nat -> string)
    (mesh_objects : list Serializer.bobject) (n : nat) :
  Forall2
    (fun child comp =>
       match Serializer.bambu_part_id child with
       | Some pid => Serializer.pc_id comp = pid
       | None => 1 <= Serializer.pc_id comp
                 /\ Serializer.pc_id comp ∉ stored_ids mesh_objects
       end
       /\ (forall u, Serializer.bambu_part_uuid child = Some u ->
                     Serializer.pc_uuid comp = u)
       /\ Serializer.pc_transform comp
          = match Serializer.bambu_component_transform child with
            | Some t =>
                if String.eqb t "" then
                  Transform.matrix_to_3mf_transform
                    (Serializer.matrix_local child) 1000
                else t
            | None =>
                Transform.matrix_to_3mf_transform
                  (Serializer.matrix_local child) 1000
            end)
    mesh_objects
    (snd (fst (Serializer._build_sub_model uuid_at mesh_objects n))).
Proof.
  unfold Serializer._build_sub_model, Serializer.gbind, Serializer.ret.
  match goal with
  | |- context [Serializer.gfold _ mesh_objects ?s n] =>
      destruct (sub_model_loop_follows uuid_at mesh_objects s n)
        as (comps & Hcomps & Hall); [simpl; lia|]
  end.
  destruct (Serializer.gfold _ mesh_objects _ n) as [st m].
  simpl in *. rewrite Hcomps.
  eapply Forall2_impl; [exact Hall|].
  intros child comp (Hid & Hu & Ht). repeat split; try assumption.
  - destruct (Serializer.bambu_part_id child); [exact Hid|].
    destruct Hid as [Hge Hnot]. split; [exact Hge|].
    intros Hin. apply Hnot. apply stored_part_ids_spec. exact Hin.
  - rewrite Ht. apply transform_or_cases.
Qed.

(** The sample: a stored transform is kept, an empty or missing one is
    replaced by the text of the local matrix, the translation in
    millimetres in the last three places; the stored id 7 is kept. *)
Lemma sub_model_components_follow_children_witness :
  map Serializer.pc_transform
    (snd (fst (Serializer._build_sub_model no_uuid moved_children 0%nat)))
  = [ "2 0 0 0 2 0 0 0 2 5 6 7"; "1 0 0 0 1 0 0 0 1 1 2 3";
      "1 0 0 0 1 0 0 0 1 1 2 3" ]
  /\ hd_error
       (map Serializer.pc_id
          (snd (fst (Serializer._build_sub_model no_uuid moved_children 0%nat))))
     = Some 7.
Proof.
  pose proof (sub_model_components_follow_children no_uuid moved_children
                0%nat) as H.
  split.
  - rewrite (Forall2_map_eq
               (fun child =>
                  match Serializer.bambu_component_transform child with
                  | Some t =>
                      if String.eqb t "" then
                        Transform.matrix_to_3mf_transform
                          (Serializer.matrix_local child) 1000
                      else t
                  | None =>
                      Transform.matrix_to_3mf_transform
                        (Serializer.matrix_local child) 1000
                  end)
               Serializer.pc_transform _ _ _ H).
    + vm_compute. reflexivity.
    + intros child comp (_ & _ & Ht). exact Ht.
  - destruct (snd (fst (Serializer._build_sub_model no_uuid moved_children
                          0%nat))) as [|comp comps]; [inversion H|].
    apply Forall2_cons_1 in H as [(Hid & _) _]. simpl in Hid.
    simpl. rewrite Hid. reflexivity.
Defined.

(** When the part ids the children carry are pairwise distinct, so are
    the part ids of the whole sub-model part: a fresh id never repeats a
    stored id or an earlier fresh id. *)
Theorem sub_model_part_ids_distinct (uuid_at : nat -> string)
    (mesh_objects : list Serializer.bobject) (n : nat) :
  NoDup (stored_ids mesh_objects) ->
  NoDup (map Serializer.pc_id
           (snd (fst (Serializer._build_sub_model uuid_at mesh_objects n)))).
Proof.
  intros H. rewrite build_sub_model_ids.
  apply assigned_ids_NoDup; [exact H|].
  intros x Hx. apply stored_part_ids_spec. exact Hx.
Qed.

(** A mesh that carries a part id. *)
Definition part_mesh (nm : string) (pid : Z) : Serializer.bobject :=
  {| Serializer.name := nm; Serializer.type := "MESH";
     Serializer.children := [];
     Serializer.matrix_world := Transform.Identity4;
     Serializer.matrix_local := Transform.Identity4;
     Serializer.mesh_vertices := []; Serializer.mesh_polygons := [];
     Serializer.bambu_object_id := None; Serializer.bambu_uuid := None;
     Serializer.bambu_build_transform := None;
     Serializer.bambu_printable := None; Serializer.bambu_extruder := None;
     Serializer.bambu_part_id := Some pid; Serializer.bambu_part_uuid := None;
     Serializer.bambu_component_transform := None;
     Serializer.bambu_subtype := None; Serializer.bambu_part_name := None |}.

Definition mixed_children : list Serializer.bobject :=
  [part_mesh "a" 2; plain_mesh "b"; part_mesh "c" 1; plain_mesh "d"].

Lemma sub_model_part_ids_distinct_witness :
  NoDup (stored_ids mixed_children)
  /\ NoDup (map Serializer.pc_id
              (snd (fst (Serializer._build_sub_model no_uuid mixed_children 0%nat)))).
Proof.
  assert (H : NoDup (stored_ids mixed_children)).
  { change (stored_ids mixed_children) with [2; 1].
    apply NoDup_cons. split; [|apply NoDup_singleton].
    rewrite list_elem_of_singleton. discriminate. }
  split; [exact H|].
  apply (sub_model_part_ids_distinct no_uuid mixed_children 0%nat H).
Defined.

Example mixed_children_ids :
  map Serializer.pc_id
    (snd (fst (Serializer._build_sub_model no_uuid mixed_children 0%nat)))
  = [2; 3; 1; 4].
Proof. vm_compute. reflexivity. Qed.

(** ** The loop over the groups *)

Section group_loop.
Import Serializer.
Variable uuid_at : nat -> string.

Lemma gfold_ind_in {A S : Type} (f : S -> A -> gen S) (Q : list A -> S -> Prop)
    (xs : list A) (s0 : S) (n : nat) :
  Q [] s0 ->
  (forall pre x s m, In x xs -> Q pre s -> Q (pre ++ [x]) (fst (f s x m))) ->
  Q xs (fst (gfold f xs s0 n)).
Proof.
  intros H0 Hstep.
  assert (H : forall ys pre s m,
             (forall x, In x ys -> In x xs) ->
             Q pre s -> Q (pre ++ ys) (fst (gfold f ys s m))).
  { induction ys as [|x ys IH]; intros pre s m Hin Hpre; simpl.
    - rewrite app_nil_r. exact Hpre.
    - unfold gbind. destruct (f s x m) as [s' m'] eqn:E.
      replace (pre ++ x :: ys) with ((pre ++ [x]) ++ ys)
        by (rewrite <- app_assoc; reflexivity).
      apply IH; [intros y Hy; apply Hin; right; exact Hy|].
      assert (Hx : In x xs) by (apply Hin; left; reflexivity).
      specialize (Hstep pre x s m Hx Hpre). rewrite E in Hstep. exact Hstep. }
  apply (H xs [] s0 n); [auto|exact H0].
Qed.

(** The component of the assembly made from a part of its sub-model. *)
Definition to_component (sub_path : string) (comp : part_component)
  : Parser.component :=
  {| Parser.c_path := sub_path;
     Parser.c_objectid := pc_id comp;
     Parser.c_uuid := pc_uuid comp;
     Parser.c_transform := pc_transform comp |}.

Lemma component_loop (sub_path : string) (comps : list part_component)
    (acc : list Parser.component) (n : nat) :
  fst (gfold (component_of uuid_at sub_path) comps acc n)
  = acc ++ map (to_component sub_path) comps.
Proof.
  revert acc n. induction comps as [|comp comps IH]; intros acc n; simpl.
  - rewrite app_nil_r. reflexivity.
  - unfold gbind, component_of at 2, uuid4, ret. simpl.
    unfold gbind. rewrite IH, <- app_assoc. reflexivity.
Qed.

(** The state after one group. *)
Lemma export_group_result (st : export_state) (g : group) (n : nat) :
  exists xml comps m obj_uuid item_uuid,
    _build_sub_model uuid_at (g_children g) n = ((xml, comps), m)
    /\ fst (export_group uuid_at st g n)
       = let id := fst (assembly_id_of (parent g) (next_part_id st)) in
         {| next_part_id := snd (assembly_id_of (parent g) (next_part_id st));
            sub_model_refs := sub_model_refs st ++ [sub_path_of id];
            sub_model_xmls := Dict.set (sub_path_of id) xml (sub_model_xmls st);
            assembly_objects :=
              assembly_objects st
              ++ [{| a_id := id; a_uuid := obj_uuid;
                     a_components := map (to_component (sub_path_of id)) comps |}];
            build_items :=
              build_items st
              ++ [{| Parser.b_objectid := id;
                     Parser.b_uuid := item_uuid;
                     Parser.b_transform :=
                       transform_or (bambu_build_transform (parent g))
                                    (matrix_world (parent g));
                     Parser.b_printable :=
                       or_default true (bambu_printable (parent g)) |}] |}.
Proof.
  unfold export_group.
  destruct (assembly_id_of (parent g) (next_part_id st)) as [id next].
  unfold gbind.
  destruct (_build_sub_model uuid_at (g_children g) n) as [[xml comps] m].
  unfold uuid4, ret. cbn.
  pose proof (component_loop (sub_path_of id) comps [] (S m)) as Hloop.
  destruct (gfold (component_of uuid_at (sub_path_of id)) comps [] (S m))
    as [components k].
  simpl in Hloop. subst components.
  exists xml, comps, m, (or_default (uuid_at m) (bambu_uuid (parent g))),
    (uuid_at k).
  split; reflexivity.
Qed.

End group_loop.

Section group_loop_invariants.
Import Serializer.
Variable uuid_at : nat -> string.

Lemma assigned_ids_length (mesh_objects : list bobject) (fallback_id : Z)
    (used_ids : gset Z) :
  length (assigned_ids mesh_objects fallback_id used_ids) = length mesh_objects.
Proof.
  revert fallback_id used_ids.
  induction mesh_objects as [|obj rest IH]; intros f u; simpl; [reflexivity|].
  destruct (part_id_of obj f u) as [[a b] c]. simpl. rewrite IH. reflexivity.
Qed.

Lemma build_sub_model_length (mesh_objects : list bobject) (n : nat) :
  length (snd (fst (_build_sub_model uuid_at mesh_objects n)))
  = length mesh_objects.
Proof.
  rewrite <- (length_map pc_id), build_sub_model_ids. apply assigned_ids_length.
Qed.

Lemma dict_set_keeps {V : Type} (k k' : string) (v : V)
    (d : Dict.pydict string V) :
  is_Some (Dict.get k' d) -> is_Some (Dict.get k' (Dict.set k v d)).
Proof.
  induction d as [|[k0 v0] d IH]; simpl.
  - intros [x Hx]. discriminate.
  - destruct (decide (k0 = k')) as [->|Hne]; intros H.
    + destruct (decide (k' = k)) as [->|Hne']; simpl.
      * destruct (decide (k = k)); [eauto|contradiction].
      * destruct (decide (k' = k')); [eauto|contradiction].
    + destruct (decide (k0 = k)) as [->|Hne']; simpl.
      * destruct (decide (k = k')); [eauto|exact H].
      * destruct (decide (k0 = k')); [contradiction|apply IH; exact H].
Qed.

(** What an assembly keeps of its group. *)
Definition assembly_of_group (g : group) (asm : assembly) : Prop :=
  (forall id, bambu_object_id (parent g) = Some id -> a_id asm = id)
  /\ length (a_components asm) = length (g_children g)
  /\ Forall
       (fun c =>
          Parser.c_path c
          = "/3D/Objects/object_" +:+ Py.str_of_int (a_id asm) +:+ ".model")
       (a_components asm).

(** What a build item keeps of its group. *)
Definition item_of_group (g : group) (bi : Parser.build_item) : Prop :=
  Parser.b_transform bi
  = match bambu_build_transform (parent g) with
    | Some t =>
        if String.eqb t "" then
          Transform.matrix_to_3mf_transform (matrix_world (parent g)) 1000
        else t
    | None => Transform.matrix_to_3mf_transform (matrix_world (parent g)) 1000
    end
  /\ Parser.b_printable bi
     = match bambu_printable (parent g) with
       | Some flag => flag
       | None => true
       end.

Definition groups_exported (groups : list group) (st : export_state) : Prop :=
  Forall2 assembly_of_group groups (assembly_objects st)
  /\ Forall2 item_of_group groups (build_items st)
  /\ map Parser.b_objectid (build_items st) = map a_id (assembly_objects st)
  /\ sub_model_refs st
     = map (fun asm =>
              "/3D/Objects/object_" +:+ Py.str_of_int (a_id asm) +:+ ".model")
           (assembly_objects st)
  /\ Forall
       (fun asm =>
          is_Some
            (Dict.get
               ("/3D/Objects/object_" +:+ Py.str_of_int (a_id asm) +:+ ".model")
               (sub_model_xmls st)))
       (assembly_objects st).

Lemma groups_exported_step (pre : list group) (g : group) (st : export_state)
    (m : nat) :
  groups_exported pre st ->
  groups_exported (pre ++ [g]) (fst (export_group uuid_at st g m)).
Proof.
  intros (Hasm & Hitem & Hids & Hrefs & Hxml).
  destruct (export_group_result uuid_at st g m)
    as (xml & comps & k & u1 & u2 & Hsub & ->).
  cbv zeta. unfold groups_exported.
  cbn [assembly_objects build_items sub_model_refs sub_model_xmls].
  repeat split.
  - apply Forall2_app; [exact Hasm|]. constructor; [|constructor].
    unfold assembly_of_group. cbn [a_id a_components]. repeat split.
    + intros id Hid. unfold assembly_id_of. rewrite Hid. reflexivity.
    + rewrite length_map.
      pose proof (build_sub_model_length (g_children g) m) as Hlen.
      rewrite Hsub in Hlen. exact Hlen.
    + apply List.Forall_forall. intros c Hc.
      apply in_map_iff in Hc as (pc & <- & _). reflexivity.
  - apply Forall2_app; [exact Hitem|]. constructor; [|constructor].
    split; cbn [Parser.b_transform Parser.b_printable].
    + apply transform_or_cases.
    + destruct (bambu_printable (parent g)); reflexivity.
  - rewrite !map_app, Hids. reflexivity.
  - rewrite map_app, Hrefs. reflexivity.
  - apply Forall_app. split.
    + eapply Forall_impl; [exact Hxml|]. intros asm. apply dict_set_keeps.
    + constructor; [|constructor]. cbn [a_id].
      rewrite dict_get_set. eauto.
Qed.

Lemma groups_exported_all (groups : list group) (n : nat) :
  groups_exported groups (fst (export_groups uuid_at groups n)).
Proof.
  unfold export_groups.
  apply (gfold_ind (export_group uuid_at) groups_exported).
  - unfold groups_exported. simpl. repeat split; constructor.
  - intros pre x s m. apply groups_exported_step.
Qed.

Lemma fresh_ids_loop (groups : list group) (n : nat) :
  (forall g, In g groups -> bambu_object_id (parent g) = None) ->
  let st := fst (export_groups uuid_at groups n) in
  next_part_id st = Z.of_nat (length groups) + 1
  /\ map a_id (assembly_objects st) = map Z.of_nat (seq 1 (length groups)).
Proof.
  intros Hnone. cbv zeta. unfold export_groups.
  apply (gfold_ind_in (export_group uuid_at)
           (fun pre st =>
              next_part_id st = Z.of_nat (length pre) + 1
              /\ map a_id (assembly_objects st)
                 = map Z.of_nat (seq 1 (length pre)))).
  - split; reflexivity.
  - intros pre g st m Hg [Hnext Hids].
    destruct (export_group_result uuid_at st g m)
      as (xml & comps & k & u1 & u2 & _ & ->).
    cbv zeta. cbn [next_part_id assembly_objects].
    unfold assembly_id_of. rewrite (Hnone g Hg). cbn [fst snd].
    rewrite length_app, map_app, Hids, Hnext. cbn [length map a_id].
    rewrite Nat.add_1_r, seq_S, map_app. cbn [map].
    split; [lia|]. repeat f_equal. lia.
Qed.

End group_loop_invariants.

(** The loop over the groups makes one assembly and one build item per
    group, in group order.  A group that carries an assembly id keeps it;
    the assembly has one component per child, each pointing at the
    sub-model part named after the assembly id; the build item has the
    assembly's id, the stored build transform when there is a non-empty
    one (else the text of the world matrix) and the stored printable flag
    (else true); the listed sub-model paths are those of the assemblies,
    and each of them has a sub-model text. *)
Theorem export_groups_structure (uuid_at : nat -> string)
    (groups : list Serializer.group) (n : nat) :
  let st := fst (Serializer.export_groups uuid_at groups n) in
  Forall2 assembly_of_group groups (Serializer.assembly_objects st)
  /\ Forall2 item_of_group groups (Serializer.build_items st)
  /\ map Parser.b_objectid (Serializer.build_items st)
     = map Serializer.a_id (Serializer.assembly_objects st)
  /\ Serializer.sub_model_refs st
     = map (fun asm =>
              "/3D/Objects/object_" +:+ Py.str_of_int (Serializer.a_id asm)
              +:+ ".model")
           (Serializer.assembly_objects st)
  /\ Forall
       (fun asm =>
          is_Some
            (Dict.get
               ("/3D/Objects/object_" +:+ Py.str_of_int (Serializer.a_id asm)
                +:+ ".model")
               (Serializer.sub_model_xmls st)))
       (Serializer.assembly_objects st).
Proof. apply groups_exported_all. Qed.

Section exported_sample.
Import Serializer.

Lemma Forall2_map_eq_in {A B C : Type} (f : A -> C) (g : B -> C)
    (R : A -> B -> Prop) (l : list A) (k : list B) :
  Forall2 R l k -> (forall a b, In a l -> R a b -> g b = f a) ->
  map g k = map f l.
Proof.
  intros H. induction H as [|a b l k Hab _ IH]; intros HR; simpl;
    [reflexivity|].
  rewrite (HR a b (or_introl eq_refl) Hab), IH; [reflexivity|].
  intros a' b' Hin. apply HR. right. exact Hin.
Qed.

(** An empty with an assembly id over one mesh, moved by (1, 2, 3)
    millimetres in the world, with the given build transform and
    printable flag. *)
Definition placed_empty (nm : string) (id : Z) (stored : option string)
    (flag : option bool) : bobject :=
  {| name := nm; type := "EMPTY";
     children := [scene_object (nm +:+ "_part") "MESH" [] None];
     matrix_world :=
       ((1, 0, 0, 0x1.0624dd2f1a9fcp-10), (0, 1, 0, 0x1.0624dd2f1a9fcp-9),
        (0, 0, 1, 0x1.89374bc6a7efap-9), (0, 0, 0, 1))%float;
     matrix_local := Transform.Identity4;
     mesh_vertices := []; mesh_polygons := [];
     bambu_object_id := Some id; bambu_uuid := None;
     bambu_build_transform := stored; bambu_printable := flag;
     bambu_extruder := None; bambu_part_id := None; bambu_part_uuid := None;
     bambu_component_transform := None; bambu_subtype := None;
     bambu_part_name := None |}.

Definition placed_scene : context :=
  {| selected_objects := [];
     scene_objects :=
       [ placed_empty "A" 5 (Some "2 0 0 0 2 0 0 0 2 5 6 7") (Some false);
         placed_empty "B" 9 None None ] |}.

End exported_sample.

(** The sample: the stored ids 5 and 9 name the assemblies, the build
    items and the sub-model parts; a stored build transform and printable
    flag are kept, missing ones give the text of the world matrix and
    true. *)
Lemma export_groups_structure_witness :
  let st :=
    fst (Serializer.export_groups no_uuid
           (Serializer._collect_export_groups placed_scene false) 0%nat) in
  map Serializer.a_id (Serializer.assembly_objects st) = [5; 9]
  /\ map Parser.b_objectid (Serializer.build_items st) = [5; 9]
  /\ Serializer.sub_model_refs st
     = ["/3D/Objects/object_5.model"; "/3D/Objects/object_9.model"]
  /\ map Parser.b_transform (Serializer.build_items st)
     = ["2 0 0 0 2 0 0 0 2 5 6 7"; "1 0 0 0 1 0 0 0 1 1 2 3"]
  /\ map Parser.b_printable (Serializer.build_items st) = [false; true].
Proof.
  cbv zeta.
  destruct (export_groups_structure no_uuid
              (Serializer._collect_export_groups placed_scene false) 0%nat)
    as (Hasm & Hitem & Hids & Hrefs & _).
  assert (Ha : map Serializer.a_id
                 (Serializer.assembly_objects
                    (fst (Serializer.export_groups no_uuid
                            (Serializer._collect_export_groups placed_scene
                               false) 0%nat)))
               = [5; 9]).
  { rewrite (Forall2_map_eq_in
               (fun g => match Serializer.bambu_object_id (Serializer.parent g)
                         with Some id => id | None => 0 end)
               Serializer.a_id _ _ _ Hasm); [reflexivity|].
    intros g asm Hin (Hid & _).
    destruct Hin as [<-|[<-|[]]]; apply Hid; reflexivity. }
  split; [|split; [|split; [|split]]].
  - exact Ha.
  - rewrite Hids. exact Ha.
  - rewrite Hrefs.
    rewrite <- (map_map Serializer.a_id
                  (fun id => "/3D/Objects/object_" +:+ Py.str_of_int id
                             +:+ ".model")).
    rewrite Ha. vm_compute. reflexivity.
  - rewrite (Forall2_map_eq _ Parser.b_transform _ _ _ Hitem
               (fun g bi H => proj1 H)).
    vm_compute. reflexivity.
  - rewrite (Forall2_map_eq _ Parser.b_printable _ _ _ Hitem
               (fun g bi H => proj2 H)).
    reflexivity.
Defined.

(** When no group carries an assembly id, the groups get the ids
    1, 2, ..., N in order, which are pairwise distinct. *)
Theorem fresh_assembly_ids_count_up (uuid_at : nat -> string)
    (groups : list Serializer.group) (n : nat) :
  (forall g, In g groups ->
             Serializer.bambu_object_id (Serializer.parent g) = None) ->
  assembly_ids (fst (Serializer.export_groups uuid_at groups n))
  = map Z.of_nat (seq 1 (length groups))
  /\ NoDup (assembly_ids (fst (Serializer.export_groups uuid_at groups n))).
Proof.
  intros H. destruct (fresh_ids_loop uuid_at groups n H) as [_ Hids].
  unfold assembly_ids. rewrite Hids. split; [reflexivity|].
  apply NoDup_fmap_2; [apply Nat2Z.inj'|apply NoDup_seq].
Qed.

Lemma fresh_assembly_ids_count_up_witness :
  assembly_ids
    (fst (Serializer.export_groups no_uuid
            (Serializer._collect_export_groups two_meshes false) 0%nat))
  = map Z.of_nat
        (seq 1 (length (Serializer._collect_export_groups two_meshes false)))
  /\ NoDup
       (assembly_ids
          (fst (Serializer.export_groups no_uuid
                  (Serializer._collect_export_groups two_meshes false) 0%nat))).
Proof.
  apply (fresh_assembly_ids_count_up no_uuid
           (Serializer._collect_export_groups two_meshes false) 0%nat).
  intros g Hg. simpl in Hg. destruct Hg as [<-|[<-|[]]]; reflexivity.
Defined.

(** ** Escaping *)

Section escaping.
Import Py Serializer.

Fixpoint has_char (c : ascii) (s : string) : bool :=
  match s with
  | EmptyString => false
  | String x s' => Ascii.eqb x c || has_char c s'
  end.

Lemma has_char_app (c : ascii) (a b : string) :
  has_char c (a +:+ b) = has_char c a || has_char c b.
Proof.
  induction a as [|x a IH]; [reflexivity|].
  rewrite append_cons. simpl. rewrite IH, orb_assoc. reflexivity.
Qed.

(** Replacing [old] by a text without [old] leaves no [old]. *)
Lemma replace_char_removes (old : ascii) (new s : string) :
  has_char old new = false -> has_char old (replace_char old new s) = false.
Proof.
  intros Hnew. induction s as [|x s IH]; [reflexivity|]. simpl.
  destruct (Ascii.eqb x old) eqn:E.
  - rewrite has_char_app, Hnew, IH. reflexivity.
  - simpl. rewrite E, IH. reflexivity.
Qed.

(** A replacement brings in no character that neither text has. *)
Lemma replace_char_keeps_out (c old : ascii) (new s : string) :
  has_char c new = false -> has_char c s = false ->
  has_char c (replace_char old new s) = false.
Proof.
  intros Hnew. induction s as [|x s IH]; [reflexivity|]. simpl.
  intros H. apply orb_false_elim in H as [Hx Hs].
  destruct (Ascii.eqb x old).
  - rewrite has_char_app, Hnew, (IH Hs). reflexivity.
  - simpl. rewrite Hx, (IH Hs). reflexivity.
Qed.

Lemma replace_char_absent (old : ascii) (new s : string) :
  has_char old s = false -> replace_char old new s = s.
Proof.
  induction s as [|x s IH]; [reflexivity|]. simpl.
  intros H. apply orb_false_elim in H as [Hx Hs].
  rewrite Hx, (IH Hs). reflexivity.
Qed.

End escaping.

(** Escaped text holds no [<], no [>] and no double quote, so it cannot end
    the attribute or element it is written into; text that has none of the
    four special characters is left as it is. *)
Theorem esc_leaves_no_markup (text : string) :
  has_char "<" (Serializer._esc text) = false
  /\ has_char ">" (Serializer._esc text) = false
  /\ has_char "034" (Serializer._esc text) = false
  /\ (has_char "&" text = false -> has_char "<" text = false ->
      has_char ">" text = false -> has_char "034" text = false ->
      Serializer._esc text = text).
Proof.
  unfold Serializer._esc.
  destruct (String.eqb_spec text "") as [->|_].
  { repeat split. }
  repeat split.
  - apply replace_char_keeps_out; [reflexivity|].
    apply replace_char_keeps_out; [reflexivity|].
    apply replace_char_removes. reflexivity.
  - apply replace_char_keeps_out; [reflexivity|].
    apply replace_char_removes. reflexivity.
  - apply replace_char_removes. reflexivity.
  - intros Ha Hl Hg Hq.
    rewrite (replace_char_absent "&" _ _ Ha), (replace_char_absent "<" _ _ Hl),
      (replace_char_absent ">" _ _ Hg), (replace_char_absent "034" _ _ Hq).
    reflexivity.
Qed.

(** ** After the cleanup *)

Section after_cleanup.
Import Serializer.

Lemma filter_all_true {A : Type} (f : A -> bool) (l : list A) :
  List.Forall (fun x => f x = true) l -> List.filter f l = l.
Proof.
  induction 1 as [|x l Hx _ IH]; simpl; [reflexivity|].
  rewrite Hx, IH. reflexivity.
Qed.

Lemma filter_Forall_true {A : Type} (f : A -> bool) (l : list A) :
  List.Forall (fun x => f x = true) (List.filter f l).
Proof.
  apply List.Forall_forall. intros x Hx. apply filter_In in Hx. apply Hx.
Qed.

(** The lists that are kept are not empty and hold live entries only. *)
Lemma kept_lists {P E : Type} (entries : P -> list E) (live : E -> bool)
    (l : list P) :
  List.Forall (fun k => k <> [] /\ List.Forall (fun e => live e = true) k)
    (List.filter non_empty (map (fun p => List.filter live (entries p)) l)).
Proof.
  apply List.Forall_forall. intros k Hk.
  apply filter_In in Hk as [Hin Hne].
  apply in_map_iff in Hin as (p & <- & _). split.
  - destruct (List.filter live (entries p)); [discriminate|discriminate].
  - apply filter_Forall_true.
Qed.

Lemma Forall_of_map {A B : Type} (f : A -> B) (Q : B -> Prop) (l : list A) :
  List.Forall Q (map f l) -> List.Forall (fun x => Q (f x)) l.
Proof.
  induction l as [|x l IH]; simpl; intros H; [constructor|].
  inversion H; subst. constructor; auto.
Qed.

End after_cleanup.

(** After the cleanup no plate is empty and nothing refers to a deleted
    object: every instance of every [model_settings] plate and every
    assemble item names a valid object id, every object of every
    [slice_info] plate has a valid name; cleaning the assemble items again
    changes nothing. *)
Theorem cleanup_leaves_live_references
    (ms_plates : list Serializer.ms_plate)
    (ms_assemble : list (Dict.pydict string string))
    (plates_json : list Serializer.slice_plate)
    (valid_object_ids valid_names : gset string) :
  List.Forall
    (fun plate =>
       ms_entries plate <> []
       /\ List.Forall
            (fun inst => Dict.get_or "object_id" "" inst ∈ valid_object_ids)
            (ms_entries plate))
    (Serializer._clean_stale_plates ms_plates valid_object_ids)
  /\ List.Forall
       (fun plate =>
          slice_entries plate <> []
          /\ List.Forall
               (fun obj =>
                  Serializer.or_default "" (Serializer.po_name obj) ∈ valid_names)
               (slice_entries plate))
       (Serializer._clean_stale_slice_plates plates_json valid_names)
  /\ List.Forall
       (fun item => Dict.get_or "object_id" "" item ∈ valid_object_ids)
       (Serializer._clean_stale_assemble ms_assemble valid_object_ids)
  /\ Serializer._clean_stale_assemble
       (Serializer._clean_stale_assemble ms_assemble valid_object_ids)
       valid_object_ids
     = Serializer._clean_stale_assemble ms_assemble valid_object_ids.
Proof.
  repeat split.
  - destruct (ms_cleanup_facts ms_plates valid_object_ids) as (_ & _ & Hent).
    pose proof (kept_lists ms_entries
                  (Serializer.live_instance valid_object_ids) ms_plates) as H.
    rewrite <- Hent in H. apply Forall_of_map in H.
    eapply List.Forall_impl; [|exact H]. intros plate [Hne Hlive].
    split; [exact Hne|].
    eapply List.Forall_impl; [|exact Hlive]. intros inst Hi.
    apply bool_decide_eq_true in Hi. exact Hi.
  - destruct (slice_cleanup_facts plates_json valid_names) as (_ & _ & Hent).
    pose proof (kept_lists slice_entries
                  (Serializer.live_object valid_names) plates_json) as H.
    rewrite <- Hent in H. apply Forall_of_map in H.
    eapply List.Forall_impl; [|exact H]. intros plate [Hne Hlive].
    split; [exact Hne|].
    eapply List.Forall_impl; [|exact Hlive]. intros obj Hi.
    apply bool_decide_eq_true in Hi. exact Hi.
  - unfold Serializer._clean_stale_assemble.
    destruct ms_assemble as [|item rest]; [constructor|].
    eapply List.Forall_impl; [|apply filter_Forall_true].
    intros inst Hi. apply bool_decide_eq_true in Hi. exact Hi.
  - unfold Serializer._clean_stale_assemble.
    destruct ms_assemble as [|item rest]; [reflexivity|].
    destruct (List.filter _ (item :: rest)) as [|x l] eqn:E; [reflexivity|].
    rewrite <- E. apply filter_all_true, filter_Forall_true.
Qed.

(** ** The default plates *)

Section default_plates.
Import Py Serializer.

Lemma dict_get_or_head {V : Type} (k : string) (v default : V)
    (d : Dict.pydict string V) :
  Dict.get_or k default ((k, v) :: d) = v.
Proof.
  unfold Dict.get_or. simpl.
  destruct (decide (k = k)); [reflexivity|contradiction].
Qed.

Lemma enumerate_In {A : Type} (xs : list A) (i : Z) (x : A) :
  In (i, x) (enumerate xs) -> In x xs.
Proof. apply in_combine_r. Qed.

Lemma enumerate_length {A : Type} (xs : list A) :
  length (enumerate xs) = length xs.
Proof.
  unfold enumerate. rewrite length_combine, length_map, length_seq.
  apply Nat.min_id.
Qed.

Lemma pairs_non_empty (groups : list group) (asms : list assembly) :
  groups <> [] -> asms <> [] ->
  enumerate (combine groups asms) <> [].
Proof.
  intros Hg Ha E. apply (f_equal (@length _)) in E.
  rewrite enumerate_length in E.
  destruct groups; [contradiction|]. destruct asms; [contradiction|].
  discriminate.
Qed.

Lemma map_non_empty {A B : Type} (f : A -> B) (l : list A) :
  l <> [] -> map f l <> [].
Proof. destruct l; [contradiction|discriminate]. Qed.

Lemma default_instances_live (groups : list group) (asms : list assembly)
    (rest : Z -> list (string * string)) :
  List.Forall
    (fun inst =>
       live_instance
         (list_to_set (map (fun asm => str_of_int (a_id asm)) asms)) inst
       = true)
    (map (fun '(idx, (_, asm)) =>
            ("object_id", str_of_int (a_id asm)) :: rest idx)
         (enumerate (combine groups asms))).
Proof.
  apply List.Forall_forall. intros inst Hin.
  apply in_map_iff in Hin as ([idx [g asm]] & <- & Hin).
  apply enumerate_In, in_combine_r in Hin.
  unfold live_instance. rewrite dict_get_or_head.
  apply bool_decide_eq_true. apply elem_of_list_to_set.
  apply list_elem_of_In. apply in_map_iff. exists asm. split; [reflexivity|exact Hin].
Qed.

Lemma default_objects_live (groups : list group) (asms : list assembly) :
  List.Forall
    (fun obj =>
       live_object (list_to_set (map (fun g => name (parent g)) groups)) obj
       = true)
    (map (fun '(idx, (g, _)) =>
            {| po_name := Some (name (parent g));
               po_identify_id := Some (str_of_int idx);
               po_skipped := Some false |})
         (enumerate (combine groups asms))).
Proof.
  apply List.Forall_forall. intros obj Hin.
  apply in_map_iff in Hin as ([idx [g asm]] & <- & Hin).
  apply enumerate_In, in_combine_l in Hin.
  unfold live_object. cbn [po_name or_default].
  apply bool_decide_eq_true. apply elem_of_list_to_set.
  apply list_elem_of_In. apply in_map_iff. exists g. split; [reflexivity|exact Hin].
Qed.

End default_plates.

(** The plates made for an export from scratch refer to the exported
    objects only: with at least one group and one assembly, the cleanup
    for the ids of these assemblies and the names of these groups leaves
    the default [model_settings] plate, the default assemble items and the
    default [slice_info] plate exactly as they were generated. *)
Theorem default_plates_survive_cleanup (groups : list Serializer.group)
    (assembly_objects : list Serializer.assembly) :
  groups <> [] -> assembly_objects <> [] ->
  let valid_object_ids : gset string :=
    list_to_set
      (map (fun asm => Py.str_of_int (Serializer.a_id asm)) assembly_objects) in
  let valid_names : gset string :=
    list_to_set
      (map (fun g => Serializer.name (Serializer.parent g)) groups) in
  Serializer._clean_stale_plates
    (fst (Serializer._generate_default_plates groups assembly_objects))
    valid_object_ids
  = fst (Serializer._generate_default_plates groups assembly_objects)
  /\ Serializer._clean_stale_assemble
       (snd (Serializer._generate_default_plates groups assembly_objects))
       valid_object_ids
     = snd (Serializer._generate_default_plates groups assembly_objects)
  /\ Serializer._clean_stale_slice_plates
       (Serializer._generate_default_slice_plates groups assembly_objects)
       valid_names
     = Serializer._generate_default_slice_plates groups assembly_objects.
Proof.
  intros Hg Ha. cbv zeta.
  pose proof (pairs_non_empty groups assembly_objects Hg Ha) as Hne.
  repeat split.
  - unfold Serializer._generate_default_plates, Serializer._clean_stale_plates,
      Serializer.surviving_plates.
    cbn [fst flat_map Serializer.mp_instances Serializer.mp_metadata
         Serializer.or_default].
    rewrite (filter_all_true _ _
               (default_instances_live groups assembly_objects
                  (fun idx => [("instance_id", "0");
                               ("identify_id", Py.str_of_int idx)]))).
    pose proof (map_non_empty
                  (fun '(idx, (_, asm)) =>
                     [("object_id", Py.str_of_int (Serializer.a_id asm));
                      ("instance_id", "0");
                      ("identify_id", Py.str_of_int idx)])
                  _ Hne) as Hm.
    destruct (map _ (Serializer.enumerate (combine groups assembly_objects)))
      as [|inst insts]; [contradiction|].
    reflexivity.
  - unfold Serializer._generate_default_plates, Serializer._clean_stale_assemble.
    cbn [snd].
    rewrite (filter_all_true _ _
               (default_instances_live groups assembly_objects
                  (fun idx => [("instance_id", "0"); ("transform", "");
                               ("offset", "")]))).
    destruct (map _ (Serializer.enumerate (combine groups assembly_objects)));
      reflexivity.
  - unfold Serializer._generate_default_slice_plates,
      Serializer._clean_stale_slice_plates, Serializer.surviving_slice_plates.
    cbn [flat_map Serializer.sp_objects Serializer.sp_metadata
         Serializer.sp_index Serializer.sp_filaments Serializer.or_default].
    rewrite (filter_all_true _ _ (default_objects_live groups assembly_objects)).
    pose proof (map_non_empty
                  (fun '(idx, (g, _)) =>
                     {| Serializer.po_name :=
                          Some (Serializer.name (Serializer.parent g));
                        Serializer.po_identify_id := Some (Py.str_of_int idx);
                        Serializer.po_skipped := Some false |})
                  _ Hne) as Hm.
    destruct (map _ (Serializer.enumerate (combine groups assembly_objects)))
      as [|obj objs]; [contradiction|].
    reflexivity.
Qed.

Lemma default_plates_survive_cleanup_witness :
  let groups := Serializer._collect_export_groups two_meshes false in
  let assembly_objects :=
    Serializer.assembly_objects (fst (Serializer.export_groups no_uuid groups 0%nat)) in
  let valid_object_ids : gset string :=
    list_to_set
      (map (fun asm => Py.str_of_int (Serializer.a_id asm)) assembly_objects) in
  let valid_names : gset string :=
    list_to_set
      (map (fun g => Serializer.name (Serializer.parent g)) groups) in
  Serializer._clean_stale_plates
    (fst (Serializer._generate_default_plates groups assembly_objects))
    valid_object_ids
  = fst (Serializer._generate_default_plates groups assembly_objects)
  /\ Serializer._clean_stale_assemble
       (snd (Serializer._generate_default_plates groups assembly_objects))
       valid_object_ids
     = snd (Serializer._generate_default_plates groups assembly_objects)
  /\ Serializer._clean_stale_slice_plates
       (Serializer._generate_default_slice_plates groups assembly_objects)
       valid_names
     = Serializer._generate_default_slice_plates groups assembly_objects.
Proof.
  apply (default_plates_survive_cleanup
           (Serializer._collect_export_groups two_meshes false)
           (Serializer.assembly_objects
              (fst (Serializer.export_groups no_uuid
                      (Serializer._collect_export_groups two_meshes false)
                      0%nat)))).
  - intros H. vm_compute in H. discriminate.
  - intros H. vm_compute in H. discriminate.
Defined.


(** ** The members of the archive *)

Section archive_members.
Import Py Serializer.
Variable uuid_at : nat -> string.
Variable version_string : string.

(** The name under which a part path is stored: [path.lstrip("/")]. *)
Definition member_of (path : string) : string :=
  lstrip_by (Ascii.eqb "/"%char) path.

Definition sub_name (x : string) : Prop :=
  exists t, x = "3D/Objects/object_" +:+ t.

Lemma member_of_sub_path (id : Z) :
  member_of (sub_path_of id)
  = "3D/Objects/object_" +:+ str_of_int id +:+ ".model".
Proof. reflexivity. Qed.

Lemma sub_path_of_member (id : Z) :
  sub_path_of id = String "/" (member_of (sub_path_of id)).
Proof. reflexivity. Qed.

Definition sub_keys (d : Dict.pydict string string) : Prop :=
  List.Forall (fun k => exists id, k = sub_path_of id) (Dict.keys d)
  /\ NoDup (Dict.keys d).

Lemma dict_set_keys {V : Type} (k : string) (v : V)
    (d : Dict.pydict string V) :
  (In k (Dict.keys d) /\ Dict.keys (Dict.set k v d) = Dict.keys d)
  \/ (~ In k (Dict.keys d) /\ Dict.keys (Dict.set k v d) = Dict.keys d ++ [k]).
Proof.
  unfold Dict.keys. induction d as [|[k' v'] d IH]; simpl.
  - right. split; [tauto|reflexivity].
  - destruct (decide (k' = k)) as [->|Hne]; simpl.
    + left. split; [tauto|reflexivity].
    + destruct IH as [[Hin E]|[Hout E]]; rewrite E.
      * left. split; [tauto|reflexivity].
      * right. split; [tauto|reflexivity].
Qed.

Lemma dict_get_keys {V : Type} (k : string) (d : Dict.pydict string V) :
  is_Some (Dict.get k d) -> In k (Dict.keys d).
Proof.
  induction d as [|[k' v'] d IH]; simpl.
  - intros [x Hx]. discriminate.
  - destruct (decide (k' = k)) as [->|Hne]; [tauto|]. intros H. right. auto.
Qed.

Lemma sub_keys_set (id : Z) (xml : string) (d : Dict.pydict string string) :
  sub_keys d -> sub_keys (Dict.set (sub_path_of id) xml d).
Proof.
  intros [Hform Hnd]. unfold sub_keys.
  destruct (dict_set_keys (sub_path_of id) xml d) as [[_ ->]|[Hout ->]].
  - split; assumption.
  - split.
    + apply List.Forall_app. split; [exact Hform|].
      constructor; [eauto|constructor].
    + apply NoDup_app. repeat split.
      * exact Hnd.
      * intros x Hx Hin. apply list_elem_of_singleton in Hin. subst x.
        apply Hout. apply list_elem_of_In. exact Hx.
      * apply NoDup_singleton.
Qed.

Lemma sub_keys_loop (groups : list group) (n : nat) :
  sub_keys (sub_model_xmls (fst (export_groups uuid_at groups n))).
Proof.
  unfold export_groups.
  apply (gfold_ind (export_group uuid_at) (fun _ st => sub_keys (sub_model_xmls st))).
  - split; constructor.
  - intros pre g st m Hst.
    destruct (export_group_result uuid_at st g m)
      as (xml & comps & k & u1 & u2 & _ & ->).
    cbv zeta. cbn [sub_model_xmls]. apply sub_keys_set. exact Hst.
Qed.

(** The names of the sub-model members are pairwise distinct and all
    lie under [3D/Objects/]. *)
Lemma sub_members (d : Dict.pydict string string) :
  sub_keys d ->
  NoDup (map member_of (Dict.keys d))
  /\ List.Forall sub_name (map member_of (Dict.keys d)).
Proof.
  intros [Hform Hnd]. split.
  - apply NoDup_fmap_2_strong; [|exact Hnd].
    intros x y Hx Hy E.
    apply list_elem_of_In in Hx, Hy.
    rewrite List.Forall_forall in Hform.
    destruct (Hform x Hx) as [i ->]. destruct (Hform y Hy) as [j ->].
    rewrite (sub_path_of_member i), (sub_path_of_member j), E. reflexivity.
  - apply List.Forall_forall. intros x Hx.
    apply in_map_iff in Hx as (k & <- & Hk).
    rewrite List.Forall_forall in Hform.
    destruct (Hform k Hk) as [i ->].
    rewrite member_of_sub_path. eexists. reflexivity.
Qed.

Definition opc_names : list string :=
  ["[Content_Types].xml"; "_rels/.rels"; "3D/3dmodel.model";
   "3D/_rels/3dmodel.model.rels"].

Definition config_names : list string :=
  ["Metadata/model_settings.config"; "Metadata/slice_info.config"].

Definition settings_names (project_settings : string) : list string :=
  if String.eqb project_settings "" then []
  else ["Metadata/project_settings.config"].

Lemma sub_name_not_fixed (x : string) (project_settings : string) :
  sub_name x ->
  ~ In x (opc_names ++ config_names ++ ["Metadata/project_settings.config"]).
Proof.
  intros [t ->] Hin. simpl in Hin.
  repeat (destruct Hin as [Hin|Hin];
          [rewrite !append_cons in Hin; discriminate Hin|]).
  exact Hin.
Qed.

Lemma settings_names_fixed (project_settings x : string) :
  In x (opc_names ++ config_names ++ settings_names project_settings) ->
  In x (opc_names ++ config_names ++ ["Metadata/project_settings.config"]).
Proof.
  unfold settings_names. destruct (String.eqb project_settings "").
  - simpl. tauto.
  - tauto.
Qed.

Lemma fixed_names_distinct (project_settings : string) :
  NoDup (opc_names ++ config_names ++ settings_names project_settings).
Proof.
  unfold settings_names. destruct (String.eqb project_settings "").
  - apply (bool_decide_unpack _). vm_compute. reflexivity.
  - apply (bool_decide_unpack _). vm_compute. reflexivity.
Qed.

Lemma member_names_distinct (subs : list string) (project_settings : string) :
  NoDup subs -> List.Forall sub_name subs ->
  NoDup (opc_names ++ subs ++ config_names ++ settings_names project_settings).
Proof.
  intros Hnd Hsub.
  rewrite (Permutation_app_swap_app opc_names subs).
  apply NoDup_app. repeat split.
  - exact Hnd.
  - intros x Hx Hin. apply list_elem_of_In in Hx, Hin.
    rewrite List.Forall_forall in Hsub.
    apply (sub_name_not_fixed x project_settings (Hsub x Hx)).
    apply (settings_names_fixed project_settings). exact Hin.
  - apply fixed_names_distinct.
Qed.

Lemma Forall2_right {A B : Type} (R : A -> B -> Prop) (Q : B -> Prop)
    (l : list A) (k : list B) :
  Forall2 R l k -> (forall x y, R x y -> Q y) -> List.Forall Q k.
Proof.
  intros H HQ. induction H as [|x y l k Hxy _ IH]; constructor; eauto.
Qed.

Lemma keyed_names {V : Type} (f : string -> string)
    (d : Dict.pydict string V) :
  map fst (map (fun '(path, xml_str) => (f path, xml_str)) d)
  = map f (Dict.keys d).
Proof.
  unfold Dict.keys. rewrite !map_map. apply map_ext. intros [k v]. reflexivity.
Qed.

Lemma write_members_names (data : bpy_data) (groups : list group) (n : nat) :
  map fst (fst (write_members uuid_at version_string data groups n))
  = opc_names
    ++ map member_of
         (Dict.keys (sub_model_xmls (fst (export_groups uuid_at groups n))))
    ++ config_names
    ++ settings_names
         (project_settings_of data (_find_bambu_collection data)).
Proof.
  unfold write_members. cbv zeta. unfold gbind.
  destruct (export_groups uuid_at groups n) as [st n1]. cbn [fst].
  match goal with
  | |- context [match ?X with pair _ _ => _ end] => destruct X as [pl asmb]
  end.
  unfold _build_main_model, gbind, uuid4, ret. cbn [fst].
  rewrite !map_app, keyed_names. unfold settings_names.
  destruct (String.eqb (project_settings_of data (_find_bambu_collection data)) "");
    reflexivity.
Qed.

End archive_members.

(** The archive of an export never holds two members of the same name.
    It holds the four package parts and the two configuration parts, and
    for every component of every assembly the sub-model part that the
    component's path names (without its leading slash).  The project
    settings part is a member exactly when the stored reference leads to
    a non-empty text. *)
Theorem archive_members_complete (uuid_at : nat -> string)
    (version_string : string) (data : Serializer.bpy_data)
    (groups : list Serializer.group) (n : nat) :
  let st := fst (Serializer.export_groups uuid_at groups n) in
  let names :=
    map fst (fst (Serializer.write_members uuid_at version_string data
                    groups n)) in
  NoDup names
  /\ (forall p,
        In p ["[Content_Types].xml"; "_rels/.rels"; "3D/3dmodel.model";
              "3D/_rels/3dmodel.model.rels"; "Metadata/model_settings.config";
              "Metadata/slice_info.config"] ->
        In p names)
  /\ List.Forall
       (fun asm =>
          List.Forall
            (fun c =>
               In (Py.lstrip_by (Ascii.eqb "/"%char) (Parser.c_path c)) names)
            (Serializer.a_components asm))
       (Serializer.assembly_objects st)
  /\ (In "Metadata/project_settings.config" names
      <-> Serializer.project_settings_of data
            (Serializer._find_bambu_collection data) <> "").
Proof.
  cbv zeta. rewrite write_members_names.
  pose proof (sub_members _ (sub_keys_loop uuid_at groups n)) as [Hnd Hsub].
  repeat split.
  - apply member_names_distinct; assumption.
  - intros p Hp. simpl in Hp. rewrite !in_app_iff. unfold opc_names, config_names.
    simpl. tauto.
  - destruct (groups_exported_all uuid_at groups n)
      as (Hasm & _ & _ & _ & Hxml).
    apply (Forall2_right _ (fun asm =>
             List.Forall (fun c => Parser.c_path c
                                   = Serializer.sub_path_of (Serializer.a_id asm))
               (Serializer.a_components asm))) in Hasm.
    2:{ intros g asm (_ & _ & H). exact H. }
    rewrite List.Forall_forall in Hasm, Hxml.
    apply List.Forall_forall. intros asm Hin.
    pose proof (Hasm asm Hin) as Hpaths. pose proof (Hxml asm Hin) as Hsome.
    apply List.Forall_forall. intros c Hc.
    rewrite List.Forall_forall in Hpaths. rewrite (Hpaths c Hc).
    rewrite !in_app_iff. right. left.
    apply in_map. apply dict_get_keys. exact Hsome.
  - intros Hin E. rewrite E in Hin. unfold settings_names in Hin.
    rewrite String.eqb_refl, app_nil_r in Hin.
    rewrite !in_app_iff in Hin. destruct Hin as [Hin|[Hin|Hin]].
    + simpl in Hin. repeat (destruct Hin as [Hin|Hin]; [discriminate Hin|]).
      exact Hin.
    + rewrite List.Forall_forall in Hsub. destruct (Hsub _ Hin) as [t Ht].
      rewrite !append_cons in Ht. discriminate Ht.
    + simpl in Hin. repeat (destruct Hin as [Hin|Hin]; [discriminate Hin|]).
      exact Hin.
  - intros Hne. rewrite !in_app_iff. right. right. right.
    unfold settings_names.
    destruct (String.eqb_spec
                (Serializer.project_settings_of data
                   (Serializer._find_bambu_collection data)) "")
      as [E|_]; [contradiction|].
    left. reflexivity.
Qed.

(** * Further properties of the transform codec *)

Section codec_facts.
Import Py Transform.

Lemma float_raises_value_error (s : string) (e : exn) :
  float s = Raise e -> e = ValueError.
Proof.
  unfold float.
  destruct (drop_underscores None (numeric_text s)) as [t|];
    [|intros H; inversion H; reflexivity].
  destruct (take_sign t) as [neg body].
  destruct (String.eqb (lower_str body) "inf"
            || String.eqb (lower_str body) "infinity"); [discriminate|].
  destruct (String.eqb (lower_str body) "nan"); [discriminate|].
  destruct (take_digits 0 0 body) as [[ip n1] r1].
  match goal with
  | |- context [let '(q, x) := ?c in _] => destruct c as [[mant n2] r2]
  end.
  destruct (0 <? n1 + n2); [|intros H; inversion H; reflexivity].
  destruct (take_exponent r2); [discriminate|].
  intros H; inversion H; reflexivity.
Qed.

Lemma map_result_raises {A B : Type} (f : A -> result B) (xs : list A)
    (e : exn) :
  map_result f xs = Raise e -> exists x, In x xs /\ f x = Raise e.
Proof.
  induction xs as [|x xs IH]; simpl; [discriminate|].
  destruct (f x) as [y|e'] eqn:Ex; simpl.
  - destruct (map_result f xs) as [ys|e'']; simpl; [discriminate|].
    intros H. inversion H; subst.
    destruct (IH eq_refl) as (x' & Hin & Hx'). eauto.
  - intros H. inversion H; subst. eauto.
Qed.

End codec_facts.

(** Whatever the matrix and the scale (infinities and NaN included), the
    text the encoder writes has no blank at either end and splits at
    blanks into exactly the twelve nine-digit texts it was joined from,
    in column-major order. *)
Theorem matrix_to_3mf_transform_tokens (mat : Transform.Matrix)
    (scale : PrimFloat.float) :
  let text := Transform.matrix_to_3mf_transform mat scale in
  Py.strip text = text
  /\ Py.split text = encoded_tokens mat scale
  /\ length (Py.split text) = 12%nat
  /\ text <> "".
Proof.
  cbv zeta.
  pose proof (encoded_tokens_are_tokens mat scale) as Htok.
  assert (Hsplit : Py.split (Transform.matrix_to_3mf_transform mat scale)
                   = encoded_tokens mat scale).
  { rewrite matrix_to_3mf_transform_join. apply split_join. exact Htok. }
  repeat split.
  - rewrite matrix_to_3mf_transform_join. apply strip_join. exact Htok.
  - exact Hsplit.
  - rewrite Hsplit. reflexivity.
  - intros E. rewrite E in Hsplit. discriminate Hsplit.
Qed.

(** The decoder fails with [ValueError] only, and only because [float]
    rejects one of the blank-separated tokens of the text. *)
Theorem parse_3mf_transform_raises_value_error (t : option string)
    (scale : PrimFloat.float) (e : Py.exn) :
  Transform.parse_3mf_transform t scale = Py.Raise e ->
  e = Py.ValueError
  /\ exists s tok,
       t = Some s /\ In tok (Py.split (Py.strip s))
       /\ Py.float tok = Py.Raise Py.ValueError.
Proof.
  unfold Transform.parse_3mf_transform.
  destruct t as [s|]; [|discriminate].
  destruct (String.eqb s "" || String.eqb (Py.strip s) ""); [discriminate|].
  destruct (Py.map_result Py.float (Py.split (Py.strip s))) as [vals|e'] eqn:E;
    simpl.
  - do 13 (destruct vals as [|? vals]; [discriminate|]); discriminate.
  - intros H. inversion H; subst.
    destruct (map_result_raises _ _ _ E) as (tok & Hin & Htok).
    pose proof (float_raises_value_error _ _ Htok) as ->.
    split; [reflexivity|]. exists s, tok. auto.
Qed.

Lemma parse_3mf_transform_raises_value_error_witness :
  Py.ValueError = Py.ValueError
  /\ exists s tok,
       Some "1 0 0 0 1 0 0 0 1 0 0 x" = Some s
       /\ In tok (Py.split (Py.strip s))
       /\ Py.float tok = Py.Raise Py.ValueError.
Proof.
  apply (parse_3mf_transform_raises_value_error
           (Some "1 0 0 0 1 0 0 0 1 0 0 x") Transform.MM_TO_M Py.ValueError).
  vm_compute. reflexivity.
Defined.

(** A decoded matrix is affine, and the scale touches the translation
    only: when the decoder returns a matrix for one scale it returns one
    for every scale, with bottom row (0, 0, 0, 1) and the same upper-left
    3x3 block. *)
Theorem parse_3mf_transform_affine (t : option string)
    (scale scale' : PrimFloat.float) (m : Transform.Matrix) :
  Transform.parse_3mf_transform t scale = Py.Ok m ->
  Transform.row m 3 = (0, 0, 0, 1)%float
  /\ exists m',
       Transform.parse_3mf_transform t scale' = Py.Ok m'
       /\ Transform.row m' 3 = (0, 0, 0, 1)%float
       /\ forall i j, (i < 3)%nat -> (j < 3)%nat ->
            Transform.entry m' i j = Transform.entry m i j.
Proof.
  unfold Transform.parse_3mf_transform.
  destruct t as [s|].
  2:{ intros H. inversion H; subst. split; [reflexivity|].
      eexists. repeat split. }
  destruct (String.eqb s "" || String.eqb (Py.strip s) "").
  { intros H. inversion H; subst. split; [reflexivity|].
    eexists. repeat split. }
  destruct (Py.map_result Py.float (Py.split (Py.strip s))) as [vals|e'];
    simpl; [|discriminate].
  do 12 (destruct vals as [|? vals];
         [intros H; inversion H; subst; split; [reflexivity|];
          eexists; repeat split|]).
  destruct vals as [|? vals].
  - intros H. inversion H; subst. split; [reflexivity|].
    eexists. split; [reflexivity|]. split; [reflexivity|].
    intros i j Hi Hj.
    destruct i as [|[|[|i]]]; [| | |lia];
      (destruct j as [|[|[|j]]]; [| | |lia]); reflexivity.
  - intros H. inversion H; subst. split; [reflexivity|].
    eexists. repeat split.
Qed.

Lemma parse_3mf_transform_affine_witness :
  Transform.row
    ((1, 0, 0, 0x1.47ae147ae147bp-7), (0, 1, 0, 0x1.47ae147ae147bp-6),
     (0, 0, 1, 0x1.eb851eb851eb8p-6), (0, 0, 0, 1))%float 3
  = (0, 0, 0, 1)%float
  /\ exists m',
       Transform.parse_3mf_transform (Some "1 0 0 0 1 0 0 0 1 10 20 30") 1
       = Py.Ok m'
       /\ Transform.row m' 3 = (0, 0, 0, 1)%float
       /\ forall i j, (i < 3)%nat -> (j < 3)%nat ->
            Transform.entry m' i j
            = Transform.entry
                ((1, 0, 0, 0x1.47ae147ae147bp-7), (0, 1, 0, 0x1.47ae147ae147bp-6),
                 (0, 0, 1, 0x1.eb851eb851eb8p-6), (0, 0, 0, 1))%float i j.
Proof.
  apply (parse_3mf_transform_affine (Some "1 0 0 0 1 0 0 0 1 10 20 30")
           Transform.MM_TO_M 1%float).
  vm_compute. reflexivity.
Defined.

(** * Further properties of the package parser *)

Section dict_folds.
Context {A K V : Type} `{EqDecision K}.
Variables (key : A -> K) (val : A -> V).

Lemma dict_get_set_ne (k k' : K) (v : V) (d : Dict.pydict K V) :
  k <> k' -> Dict.get k' (Dict.set k v d) = Dict.get k' d.
Proof.
  intros Hne. induction d as [|[k0 v0] d IH]; simpl.
  - destruct (decide (k = k')); [contradiction|reflexivity].
  - destruct (decide (k0 = k)) as [->|Hk0]; simpl.
    + destruct (decide (k = k')); [contradiction|reflexivity].
    + destruct (decide (k0 = k')); [reflexivity|exact IH].
Qed.

Lemma find_app_last (f : A -> bool) (l : list A) (x : A) :
  List.find f (l ++ [x])
  = match List.find f l with
    | Some y => Some y
    | None => if f x then Some x else None
    end.
Proof.
  induction l as [|y l IH]; simpl; [reflexivity|].
  destruct (f y); [reflexivity|exact IH].
Qed.

(** A dict filled by [d[key(x)] = val(x)] in a loop holds, for every key,
    the value of the last element that has this key. *)
Lemma fold_set_last_wins (xs : list A) (d0 : Dict.pydict K V) (k : K) :
  Dict.get k (fold_left (fun d x => Dict.set (key x) (val x) d) xs d0)
  = match List.find (fun x => bool_decide (key x = k)) (rev xs) with
    | Some x => Some (val x)
    | None => Dict.get k d0
    end.
Proof.
  revert d0. induction xs as [|x xs IH]; intros d0; simpl; [reflexivity|].
  rewrite IH, find_app_last.
  destruct (List.find _ (rev xs)); [reflexivity|].
  destruct (decide (key x = k)) as [E|N].
  - rewrite (bool_decide_eq_true_2 _ E), <- E. apply dict_get_set.
  - rewrite (bool_decide_eq_false_2 _ N). apply dict_get_set_ne. exact N.
Qed.

End dict_folds.

Section assembly_root.
Import Py Parser.

(** The [<object>] elements of the [<resources>] section, in file order. *)
Definition object_elements (root : Xml.element) : list Xml.element :=
  match Xml.find (_qn "core" "resources") root with
  | Some resources => Xml.findall (_qn "core" "object") resources
  | None => []
  end.

Lemma map_result_raise_in {A B : Type} (f : A -> result B) (xs : list A)
    (x : A) (e0 : exn) :
  In x xs -> f x = Raise e0 -> exists e, map_result f xs = Raise e.
Proof.
  intros Hin Hx. induction xs as [|y xs IH]; [contradiction|]. simpl.
  destruct (f y) as [v|e] eqn:Ey; simpl; [|eauto].
  destruct Hin as [->|Hin]; [congruence|].
  destruct (IH Hin) as [e He]. rewrite He. simpl. eauto.
Qed.

Lemma parse_assembly_objects (root : Xml.element)
    (metadata : Dict.pydict string string)
    (objects : Dict.pydict Z assembly_object) (build_items : list build_item) :
  _parse_assembly root = Ok (metadata, objects, build_items) ->
  metadata = parse_metadata root
  /\ exists objs,
       map_result parse_object (object_elements root) = Ok objs
       /\ objects
          = fold_left (fun objects obj => Dict.set (o_id obj) obj objects) objs [].
Proof.
  unfold _parse_assembly, object_elements.
  destruct (Xml.find (_qn "core" "resources") root) as [resources|]; simpl.
  - destruct (map_result parse_object _) as [objs|e]; simpl; [|discriminate].
    destruct (map_result parse_item _) as [items|e]; simpl; [|discriminate].
    intros H. inversion H; subst. split; [reflexivity|].
    exists objs. split; reflexivity.
  - destruct (map_result parse_item _) as [items|e]; simpl; [|discriminate].
    intros H. inversion H; subst. split; [reflexivity|].
    exists []. split; reflexivity.
Qed.

(** An assembly root with two [Title] entries and two objects of id 1. *)
Definition repeated_root : Xml.element :=
  Xml.Element (_qn "core" "model") [] None
    [ Xml.Element (_qn "core" "metadata") [("name", "Title")] (Some " first ") [];
      Xml.Element (_qn "core" "metadata") [("name", "Title")] (Some "second") [];
      Xml.Element (_qn "core" "resources") [] None
        [ Xml.Element (_qn "core" "object")
            [("id", "1"); (_attr "p" "UUID", "a")] None [];
          Xml.Element (_qn "core" "object")
            [("id", "1"); (_attr "p" "UUID", "b")] None [] ] ].

(** An assembly root whose only object carries no id. *)
Definition nameless_root : Xml.element :=
  Xml.Element (_qn "core" "model") [] None
    [ Xml.Element (_qn "core" "resources") [] None
        [ Xml.Element (_qn "core" "object") [(_attr "p" "UUID", "a")] None [] ] ].

End assembly_root.

(** When the assembly root parses, a metadata name that occurs several
    times keeps the stripped text of its last [<metadata>] element, and an
    object id that occurs several times keeps its last [<object>]: every
    lookup answers with the last element of that key in document order. *)
Theorem parse_assembly_last_wins (root : Xml.element)
    (metadata : Dict.pydict string string)
    (objects : Dict.pydict Z Parser.assembly_object)
    (build_items : list Parser.build_item) :
  Parser._parse_assembly root = Py.Ok (metadata, objects, build_items) ->
  (forall name,
     Dict.get name metadata
     = option_map
         (fun m => Py.strip (Parser.text_or_empty (Xml.text m)))
         (List.find (fun m => bool_decide (Xml.get_or "name" "" m = name))
            (rev (Xml.findall (Parser._qn "core" "metadata") root))))
  /\ exists objs,
       Py.map_result Parser.parse_object (object_elements root) = Py.Ok objs
       /\ forall id,
            Dict.get id objects
            = List.find (fun o => bool_decide (Parser.o_id o = id)) (rev objs).
Proof.
  intros H. apply parse_assembly_objects in H as (-> & objs & Hobjs & ->).
  split.
  - intros name. unfold Parser.parse_metadata.
    rewrite (fold_set_last_wins
               (fun m => Xml.get_or "name" "" m)
               (fun m => Py.strip (Parser.text_or_empty (Xml.text m)))).
    destruct (List.find _ _); reflexivity.
  - exists objs. split; [exact Hobjs|]. intros id.
    rewrite (fold_set_last_wins Parser.o_id (fun o => o)).
    destruct (List.find _ _); reflexivity.
Qed.

Lemma parse_assembly_last_wins_witness :
  (forall name,
     Dict.get name [("Title", "second")]
     = option_map
         (fun m => Py.strip (Parser.text_or_empty (Xml.text m)))
         (List.find (fun m => bool_decide (Xml.get_or "name" "" m = name))
            (rev (Xml.findall (Parser._qn "core" "metadata") repeated_root))))
  /\ exists objs,
       Py.map_result Parser.parse_object (object_elements repeated_root)
       = Py.Ok objs
       /\ forall id,
            Dict.get id
              [(1, {| Parser.o_id := 1; Parser.o_uuid := "b";
                      Parser.o_name := ""; Parser.o_extruder := 1;
                      Parser.o_components := [] |})]
            = List.find (fun o => bool_decide (Parser.o_id o = id)) (rev objs).
Proof.
  apply (parse_assembly_last_wins repeated_root
           [("Title", "second")]
           [(1, {| Parser.o_id := 1; Parser.o_uuid := "b";
                   Parser.o_name := ""; Parser.o_extruder := 1;
                   Parser.o_components := [] |})]
           []).
  vm_compute. reflexivity.
Defined.

(** An [<object>] of the resources that carries no [id] makes the parse
    of the whole assembly root raise: no metadata, object or build item is
    returned. *)
Theorem parse_assembly_object_without_id_raises (root resources obj_el : Xml.element) :
  Xml.find (Parser._qn "core" "resources") root = Some resources ->
  In obj_el (Xml.findall (Parser._qn "core" "object") resources) ->
  Xml.get "id" obj_el = None ->
  exists e, Parser._parse_assembly root = Py.Raise e.
Proof.
  intros Hres Hin Hid.
  assert (Hobj : Parser.parse_object obj_el = Py.Raise Py.TypeError).
  { unfold Parser.parse_object. rewrite Hid. reflexivity. }
  destruct (map_result_raise_in _ _ _ _ Hin Hobj) as [e He].
  exists e. unfold Parser._parse_assembly. rewrite Hres, He. reflexivity.
Qed.

Lemma parse_assembly_object_without_id_raises_witness :
  exists e, Parser._parse_assembly nameless_root = Py.Raise e.
Proof.
  apply (parse_assembly_object_without_id_raises nameless_root
           (Xml.Element (Parser._qn "core" "resources") [] None
              [ Xml.Element (Parser._qn "core" "object")
                  [(Parser._attr "p" "UUID", "a")] None [] ])
           (Xml.Element (Parser._qn "core" "object")
              [(Parser._attr "p" "UUID", "a")] None [])).
  - vm_compute. reflexivity.
  - vm_compute. left. reflexivity.
  - vm_compute. reflexivity.
Defined.

(** ** The plates of [slice_info] *)

Section slice_plates.
Import Py Parser.

(** What an object entry keeps of its [<object>] element. *)
Definition object_of (obj_el : Xml.element) (o : slice_object) : Prop :=
  so_identify_id o = attribute "identify_id" "" obj_el
  /\ so_name o = attribute "name" "" obj_el
  /\ (so_skipped o = true <-> attribute "skipped" "false" obj_el = "true").

(** What a filament entry keeps of its [<filament>] element. *)
Definition filament_of (fil_el : Xml.element) (info : plate_filament) : Prop :=
  (exists s, Dict.get "id" (Xml.attrib fil_el) = Some s /\ int s = Ok (pf_id info))
  /\ pf_type info = attribute "type" "" fil_el
  /\ pf_color info = attribute "color" "#808080" fil_el
  /\ pf_tray_info_idx info = attribute "tray_info_idx" "" fil_el
  /\ pf_used_m info = attribute "used_m" "" fil_el
  /\ pf_used_g info = attribute "used_g" "" fil_el.

(** The last [<metadata>] of a plate that has the key [k]. *)
Definition last_metadata (k : option string) (metas : list Xml.element)
  : option Xml.element :=
  List.find (fun meta => bool_decide (Dict.get "key" (Xml.attrib meta) = k))
            (rev metas).

(** What a plate keeps of its [<plate>] element. *)
Definition plate_of (plate_el : Xml.element) (plate : slice_plate) : Prop :=
  Forall2 object_of (Xml.findall "object" plate_el) (sp_objects plate)
  /\ Forall2 filament_of (Xml.findall "filament" plate_el) (sp_filaments plate)
  /\ (forall k,
        Dict.get k (sp_metadata plate)
        = option_map (fun meta => Dict.get "value" (Xml.attrib meta))
            (last_metadata k (Xml.findall "metadata" plate_el)))
  /\ match last_metadata (Some "index") (Xml.findall "metadata" plate_el) with
     | Some meta =>
         exists s,
           Dict.get "value" (Xml.attrib meta) = Some s
           /\ int s = Ok (sp_index plate)
     | None => sp_index plate = 0
     end.

Lemma last_metadata_cons (k : option string) (meta : Xml.element)
    (metas : list Xml.element) :
  last_metadata k (meta :: metas)
  = match last_metadata k metas with
    | Some m => Some m
    | None =>
        if bool_decide (Dict.get "key" (Xml.attrib meta) = k) then Some meta
        else None
    end.
Proof.
  unfold last_metadata. simpl.
  apply (find_app_last
           (fun meta => bool_decide (Dict.get "key" (Xml.attrib meta) = k))).
Qed.

Lemma int_attr_text (v : option string) (z : Z) :
  int_attr v = Ok z -> exists s, v = Some s /\ int s = Ok z.
Proof.
  destruct v as [s|]; simpl; [|discriminate]. intros H. exists s. auto.
Qed.

Lemma plate_metadata_result (metas : list Xml.element) (index index' : Z)
    (metadata metadata' : Dict.pydict (option string) (option string)) :
  plate_metadata metas index metadata = Ok (index', metadata') ->
  metadata'
  = fold_left
      (fun d meta => Dict.set (Xml.get "key" meta) (Xml.get "value" meta) d)
      metas metadata
  /\ match last_metadata (Some "index") metas with
     | Some meta =>
         exists s,
           Dict.get "value" (Xml.attrib meta) = Some s /\ int s = Ok index'
     | None => index' = index
     end.
Proof.
  revert index metadata.
  induction metas as [|meta metas IH]; intros index metadata; simpl.
  - intros H. inversion H; subst. split; reflexivity.
  - rewrite last_metadata_cons.
    destruct (decide (Xml.get "key" meta = Some "index")) as [E|N].
    + destruct (int_attr (Xml.get "value" meta)) as [i|e] eqn:Ei; simpl;
        [|discriminate].
      intros H. destruct (IH _ _ H) as [Hmd Hidx]. split; [exact Hmd|].
      destruct (last_metadata (Some "index") metas); [exact Hidx|].
      rewrite (bool_decide_eq_true_2 _ E). subst index'.
      apply int_attr_text. exact Ei.
    + intros H. destruct (IH _ _ H) as [Hmd Hidx]. split; [exact Hmd|].
      destruct (last_metadata (Some "index") metas); [exact Hidx|].
      rewrite (bool_decide_eq_false_2 _ N). exact Hidx.
Qed.

Lemma plate_filaments_result (fils : list Xml.element)
    (filaments filaments' : gmap Z filament) (seen seen' : list plate_filament) :
  plate_filaments fils filaments seen = Ok (filaments', seen') ->
  exists new, seen' = seen ++ new /\ Forall2 filament_of fils new.
Proof.
  revert filaments seen.
  induction fils as [|fil_el fils IH]; intros filaments seen; simpl.
  - intros H. inversion H; subst. exists []. rewrite app_nil_r.
    split; [reflexivity|constructor].
  - destruct (int_attr (Xml.get "id" fil_el)) as [fid|e] eqn:Eid; simpl;
      [|discriminate].
    intros H. destruct (IH _ _ H) as (new & -> & Hnew).
    exists (filament_info fid fil_el :: new). split.
    + rewrite <- app_assoc. reflexivity.
    + constructor; [|exact Hnew]. split.
      * apply int_attr_text. exact Eid.
      * repeat split.
Qed.

Lemma plate_objects_result (obj_els : list Xml.element) :
  Forall2 object_of obj_els (map plate_object obj_els).
Proof.
  induction obj_els as [|obj_el obj_els IH]; simpl; constructor; [|exact IH].
  unfold object_of, plate_object. cbn [so_identify_id so_name so_skipped].
  repeat split; try apply String.eqb_eq.
Qed.

Lemma parse_plate_result (plate_el : Xml.element)
    (filaments filaments' : gmap Z filament) (plate : slice_plate) :
  parse_plate plate_el filaments = Ok (filaments', plate) ->
  plate_of plate_el plate.
Proof.
  unfold parse_plate.
  destruct (plate_metadata (Xml.findall "metadata" plate_el) 0 [])
    as [[index metadata]|e] eqn:Emeta; simpl; [|discriminate].
  destruct (plate_filaments (Xml.findall "filament" plate_el) filaments [])
    as [[f fils]|e] eqn:Efil; simpl; [|discriminate].
  intros H. inversion H; subst. unfold plate_of.
  cbn [sp_objects sp_filaments sp_metadata sp_index].
  destruct (plate_metadata_result _ _ _ _ _ Emeta) as [Hmd Hidx].
  destruct (plate_filaments_result _ _ _ _ _ Efil) as (new & Hnew & Hf).
  simpl in Hnew. subst fils.
  split; [apply plate_objects_result|]. split; [exact Hf|]. split; [|exact Hidx].
  intros k. rewrite Hmd.
  rewrite (fold_set_last_wins (fun meta => Xml.get "key" meta)
             (fun meta => Xml.get "value" meta)).
  unfold last_metadata.
  destruct (List.find _ (rev (Xml.findall "metadata" plate_el))); reflexivity.
Qed.

Lemma parse_plates_result (plate_els : list Xml.element)
    (filaments filaments' : gmap Z filament) (plates plates' : list slice_plate) :
  parse_plates plate_els filaments plates = Ok (filaments', plates') ->
  exists new, plates' = plates ++ new /\ Forall2 plate_of plate_els new.
Proof.
  revert filaments plates.
  induction plate_els as [|plate_el plate_els IH]; intros filaments plates; simpl.
  - intros H. inversion H; subst. exists []. rewrite app_nil_r.
    split; [reflexivity|constructor].
  - destruct (parse_plate plate_el filaments) as [[f plate]|e] eqn:Eplate;
      simpl; [|discriminate].
    intros H. destruct (IH _ _ H) as (new & -> & Hnew).
    exists (plate :: new). split.
    + rewrite <- app_assoc. reflexivity.
    + constructor; [|exact Hnew]. eapply parse_plate_result. exact Eplate.
Qed.

(** A part of two plates: the first with a repeated metadata key, an
    object that is skipped and a filament without color; the second
    without metadata. *)
Definition busy_root : Xml.element :=
  Xml.Element "config" [] None
    [ Xml.Element "plate" [] None
        [ Xml.Element "metadata" [("key", "index"); ("value", "4")] None [];
          Xml.Element "metadata" [("key", "weight"); ("value", "1.5")] None [];
          Xml.Element "metadata" [("key", "weight"); ("value", "2.5")] None [];
          Xml.Element "object"
            [("identify_id", "10"); ("name", "Cube"); ("skipped", "true")]
            None [];
          Xml.Element "object" [("name", "Cone")] None [];
          Xml.Element "filament" [("id", "2"); ("type", "PETG")] None [] ];
      Xml.Element "plate" [] None
        [ Xml.Element "filament"
            [("id", "2"); ("type", "PLA"); ("color", "#00FF00");
             ("used_g", "3.2")] None [] ] ].

Definition busy_plates : list slice_plate :=
  [ {| sp_index := 4;
       sp_objects :=
         [ {| so_identify_id := "10"; so_name := "Cube"; so_skipped := true |};
           {| so_identify_id := ""; so_name := "Cone"; so_skipped := false |} ];
       sp_filaments :=
         [ {| pf_id := 2; pf_type := "PETG"; pf_color := "#808080";
              pf_tray_info_idx := ""; pf_used_m := ""; pf_used_g := "" |} ];
       sp_metadata :=
         [ (Some "index", Some "4"); (Some "weight", Some "2.5") ] |};
    {| sp_index := 0;
       sp_objects := [];
       sp_filaments :=
         [ {| pf_id := 2; pf_type := "PLA"; pf_color := "#00FF00";
              pf_tray_info_idx := ""; pf_used_m := ""; pf_used_g := "3.2" |} ];
       sp_metadata := [] |} ].

Definition busy_filaments : gmap Z filament :=
  {[ 2 := {| fil_id := 2; fil_type := "PETG"; fil_color := "#808080";
             fil_tray_info_idx := "" |} ]}.

End slice_plates.

(** When a [slice_info] part parses, there is one plate per [<plate>]
    element, in document order.  A plate has one entry per [<object>]
    element, in order, with its [identify_id] and [name] attributes (the
    empty string when missing) and skipped exactly when the [skipped]
    attribute is [true]; one entry per [<filament>] element, in order,
    with the id read from it and its attributes, a missing color being
    [#808080] and any other missing one the empty string; for every
    metadata key the value of the last [<metadata>] with that key; and as
    index the number read from the last [<metadata>] with key [index], or
    0 when there is none. *)
Theorem parse_slice_info_plates_in_order (root : Xml.element)
    (filaments : gmap Z Parser.filament) (plates : list Parser.slice_plate) :
  Parser._parse_slice_info (Some root) = Py.Ok (filaments, plates) ->
  Forall2 plate_of (Xml.findall "plate" root) plates.
Proof.
  unfold Parser._parse_slice_info. intros Hrun.
  destruct (parse_plates_result _ _ _ _ _ Hrun) as (new & -> & Hnew).
  exact Hnew.
Qed.

Lemma parse_slice_info_plates_in_order_witness :
  Parser._parse_slice_info (Some busy_root)
  = Py.Ok (busy_filaments, busy_plates)
  /\ Forall2 plate_of (Xml.findall "plate" busy_root) busy_plates.
Proof.
  assert (Hrun : Parser._parse_slice_info (Some busy_root)
                 = Py.Ok (busy_filaments, busy_plates))
    by (vm_compute; reflexivity).
  split; [exact Hrun|].
  exact (parse_slice_info_plates_in_order busy_root busy_filaments busy_plates
           Hrun).
Defined.

(** ** Sub-model meshes *)

Section sub_models.
Import Py Parser.

Definition has_mesh (obj_el : Xml.element) : bool :=
  match Xml.find (_qn "core" "mesh") obj_el with
  | Some _ => true
  | None => false
  end.

(** What a yielded pair keeps of its [<object>] element. *)
Definition mesh_of (obj_el : Xml.element) (p : Z * mesh) : Prop :=
  int_attr (Xml.get "id" obj_el) = Ok (fst p)
  /\ exists mesh_el,
       Xml.find (_qn "core" "mesh") obj_el = Some mesh_el
       /\ Forall2 (fun v xyz => parse_vertex v = Ok xyz)
            (vertex_elements mesh_el) (m_vertices (snd p))
       /\ Forall2 (fun t tri => parse_triangle t = Ok tri)
            (triangle_elements mesh_el) (m_triangles (snd p)).

Lemma mesh_objects_result (obj_els : list Xml.element)
    (meshes : list (Z * mesh)) :
  mesh_objects obj_els = Ok meshes ->
  Forall2 mesh_of (List.filter has_mesh obj_els) meshes.
Proof.
  revert meshes. induction obj_els as [|obj_el rest IH]; intros meshes; simpl.
  - intros H. inversion H; subst. constructor.
  - destruct (int_attr (Xml.get "id" obj_el)) as [obj_id|e] eqn:Eid; simpl;
      [|discriminate].
    unfold has_mesh at 1.
    destruct (Xml.find (_qn "core" "mesh") obj_el) as [mesh_el|] eqn:Emesh.
    + destruct (parse_mesh mesh_el) as [m|e] eqn:Em; simpl; [|discriminate].
      destruct (mesh_objects rest) as [ms|e]; simpl; [|discriminate].
      intros H. inversion H; subst. constructor; [|apply IH; reflexivity].
      split; [exact Eid|]. exists mesh_el. split; [exact Emesh|].
      unfold parse_mesh in Em. simpl.
      destruct (map_result parse_vertex (vertex_elements mesh_el))
        as [vs|e] eqn:Ev; simpl in Em; [|discriminate].
      destruct (map_result parse_triangle (triangle_elements mesh_el))
        as [ts|e] eqn:Et; simpl in Em; [|discriminate].
      inversion Em; subst. simpl.
      split; apply map_result_Forall2; assumption.
    + apply IH.
Qed.

Lemma mesh_objects_raise (obj_els : list Xml.element) (obj_el : Xml.element)
    (e0 : exn) :
  In obj_el obj_els -> int_attr (Xml.get "id" obj_el) = Raise e0 ->
  exists e, mesh_objects obj_els = Raise e.
Proof.
  intros Hin Hid. induction obj_els as [|y rest IH]; [contradiction|]. simpl.
  destruct (int_attr (Xml.get "id" y)) as [obj_id|e] eqn:Ey; simpl; [|eauto].
  destruct Hin as [->|Hin]; [congruence|].
  destruct (IH Hin) as [e He].
  destruct (Xml.find (_qn "core" "mesh") y) as [mesh_el|]; [|eauto].
  destruct (parse_mesh mesh_el) as [m|e']; simpl; [|eauto].
  rewrite He. simpl. eauto.
Qed.

(** A sub-model with a mesh of one triangle and an object without mesh. *)
Definition triangle_root : Xml.element :=
  Xml.Element (_qn "core" "model") [] None
    [ Xml.Element (_qn "core" "resources") [] None
        [ Xml.Element (_qn "core" "object") [("id", "1")] None
            [ Xml.Element (_qn "core" "mesh") [] None
                [ Xml.Element (_qn "core" "vertices") [] None
                    [ Xml.Element (_qn "core" "vertex")
                        [("x", "0"); ("y", "0"); ("z", "0")] None [];
                      Xml.Element (_qn "core" "vertex")
                        [("x", "1"); ("y", "0"); ("z", "0")] None [];
                      Xml.Element (_qn "core" "vertex")
                        [("x", "0"); ("y", "1"); ("z", "0")] None [] ];
                  Xml.Element (_qn "core" "triangles") [] None
                    [ Xml.Element (_qn "core" "triangle")
                        [("v1", "0"); ("v2", "1"); ("v3", "2")] None [] ] ] ];
          Xml.Element (_qn "core" "object") [("id", "2")] None [] ] ].

(** A sub-model whose only object has neither an id nor a mesh. *)
Definition bare_root : Xml.element :=
  Xml.Element (_qn "core" "model") [] None
    [ Xml.Element (_qn "core" "resources") [] None
        [ Xml.Element (_qn "core" "object") [] None [] ] ].

End sub_models.

(** When a sub-model parses, it yields one mesh per [<object>] that has a
    [<mesh>] child, in document order, under the id read from the object;
    the objects without [<mesh>] yield nothing.  The mesh holds the
    vertices and the triangles of its element in order, none dropped and
    none added (none at all when [<vertices>] or [<triangles>] is
    missing). *)
Theorem parse_sub_model_meshes (root : Xml.element)
    (meshes : list (Z * Parser.mesh)) :
  Parser._parse_sub_model root = Py.Ok meshes ->
  Forall2 mesh_of (List.filter has_mesh (object_elements root)) meshes.
Proof.
  unfold Parser._parse_sub_model, object_elements.
  destruct (Xml.find (Parser._qn "core" "resources") root) as [resources|].
  - apply mesh_objects_result.
  - intros H. inversion H; subst. constructor.
Qed.

Lemma parse_sub_model_meshes_witness :
  Forall2 mesh_of (List.filter has_mesh (object_elements triangle_root))
    [(1, {| Parser.m_vertices := [(0, 0, 0); (1, 0, 0); (0, 1, 0)]%float;
            Parser.m_triangles := [(0, 1, 2)] |})].
Proof.
  apply (parse_sub_model_meshes triangle_root
           [(1, {| Parser.m_vertices := [(0, 0, 0); (1, 0, 0); (0, 1, 0)]%float;
                   Parser.m_triangles := [(0, 1, 2)] |})]).
  vm_compute. reflexivity.
Defined.

(** An [<object>] of a sub-model whose [id] is missing or is not an
    integer makes the sub-model parse raise, also when the object has no
    [<mesh>] and would have been passed over. *)
Theorem parse_sub_model_bad_id_raises (root obj_el : Xml.element)
    (e0 : Py.exn) :
  In obj_el (object_elements root) ->
  Parser.int_attr (Xml.get "id" obj_el) = Py.Raise e0 ->
  exists e, Parser._parse_sub_model root = Py.Raise e.
Proof.
  unfold Parser._parse_sub_model, object_elements.
  destruct (Xml.find (Parser._qn "core" "resources") root) as [resources|];
    [|contradiction].
  apply mesh_objects_raise.
Qed.

Lemma parse_sub_model_bad_id_raises_witness :
  exists e, Parser._parse_sub_model bare_root = Py.Raise e.
Proof.
  apply (parse_sub_model_bad_id_raises bare_root
           (Xml.Element (Parser._qn "core" "object") [] None [])
           Py.TypeError).
  - vm_compute. left. reflexivity.
  - vm_compute. reflexivity.
Defined.

(** ** Object settings *)

Section object_settings.
Import Py Parser.

(** The last [<metadata>] with a given key. *)
Definition last_with_key (k : string) (metas : list Xml.element)
  : option Xml.element :=
  List.find (fun meta => bool_decide (Xml.get "key" meta = Some k)) (rev metas).

Lemma last_with_key_cons (k : string) (meta : Xml.element)
    (metas : list Xml.element) :
  last_with_key k (meta :: metas)
  = match last_with_key k metas with
    | Some m => Some m
    | None => if bool_decide (Xml.get "key" meta = Some k) then Some meta
              else None
    end.
Proof.
  unfold last_with_key. simpl.
  apply (find_app_last
           (fun meta => bool_decide (Xml.get "key" meta = Some k))).
Qed.

Lemma name_and_extruder_result {A : Type} (some : Z -> A) (default : A)
    (metas : list Xml.element) (name0 name : string) (extruder0 extruder : A) :
  name_and_extruder some default metas name0 extruder0 = Ok (name, extruder) ->
  name = match last_with_key "name" metas with
         | Some meta => text_or_empty (Xml.get "value" meta)
         | None => name0
         end
  /\ match last_with_key "extruder" metas with
     | Some meta => int_if_set some default (Xml.get "value" meta) = Ok extruder
     | None => extruder = extruder0
     end.
Proof.
  revert name0 extruder0.
  induction metas as [|meta metas IH]; intros name0 extruder0; simpl.
  - intros H. inversion H; subst. split; reflexivity.
  - rewrite !last_with_key_cons.
    destruct (decide (Xml.get "key" meta = Some "name")) as [En|Nn].
    + intros H. destruct (IH _ _ H) as [Hname Hext].
      rewrite (bool_decide_eq_true_2 _ En).
      assert (Nx : Xml.get "key" meta <> Some "extruder")
        by (rewrite En; discriminate).
      rewrite (bool_decide_eq_false_2 _ Nx).
      split.
      * rewrite Hname. destruct (last_with_key "name" metas); reflexivity.
      * destruct (last_with_key "extruder" metas); exact Hext.
    + rewrite (bool_decide_eq_false_2 _ Nn).
      destruct (decide (Xml.get "key" meta = Some "extruder")) as [Ex|Nx].
      * rewrite (bool_decide_eq_true_2 _ Ex).
        destruct (int_if_set some default (Xml.get "value" meta))
          as [e|err] eqn:Eint; simpl; [|discriminate].
        intros H. destruct (IH _ _ H) as [Hname Hext]. split.
        -- rewrite Hname. destruct (last_with_key "name" metas); reflexivity.
        -- destruct (last_with_key "extruder" metas); [exact Hext|].
           rewrite Hext. exact Eint.
      * rewrite (bool_decide_eq_false_2 _ Nx).
        intros H. destruct (IH _ _ H) as [Hname Hext]. split.
        -- rewrite Hname. destruct (last_with_key "name" metas); reflexivity.
        -- destruct (last_with_key "extruder" metas); exact Hext.
Qed.

(** What an entry keeps of its [<object>] element. *)
Definition settings_of (obj_el : Xml.element) (e : Z * object_settings)
  : Prop :=
  (exists s, Dict.get "id" (Xml.attrib obj_el) = Some s /\ int s = Ok (fst e))
  /\ os_name (snd e)
     = match last_with_key "name" (Xml.findall "metadata" obj_el) with
       | Some meta =>
           match Dict.get "value" (Xml.attrib meta) with
           | Some v => v
           | None => ""
           end
       | None => ""
       end
  /\ match last_with_key "extruder" (Xml.findall "metadata" obj_el) with
     | Some meta =>
         match Dict.get "value" (Xml.attrib meta) with
         | Some s =>
             if String.eqb s "" then os_extruder (snd e) = 1
             else int s = Ok (os_extruder (snd e))
         | None => os_extruder (snd e) = 1
         end
     | None => os_extruder (snd e) = 1
     end.

Lemma int_if_set_cases (val : option string) (extruder : Z) :
  int_if_set (fun z => z) 1 val = Ok extruder ->
  match val with
  | Some s => if String.eqb s "" then extruder = 1 else int s = Ok extruder
  | None => extruder = 1
  end.
Proof.
  unfold int_if_set. destruct val as [s|].
  - destruct (String.eqb s "").
    + intros H. inversion H. reflexivity.
    + destruct (int s) as [z|err]; simpl; [|discriminate].
      intros H. inversion H. reflexivity.
  - intros H. inversion H. reflexivity.
Qed.

Lemma parse_settings_object_result (obj_el : Xml.element)
    (e : Z * object_settings) :
  parse_settings_object obj_el = Ok e -> settings_of obj_el e.
Proof.
  unfold parse_settings_object.
  destruct (int_attr (Xml.get "id" obj_el)) as [obj_id|err] eqn:Eid; simpl;
    [|discriminate].
  destruct (name_and_extruder (fun z => z) 1
              (Xml.findall "metadata" obj_el) "" 1)
    as [[name extruder]|err] eqn:Emeta; simpl; [|discriminate].
  destruct (map_result parse_part (Xml.findall "part" obj_el))
    as [parts|err] eqn:Eparts; simpl; [|discriminate].
  intros H. inversion H; subst. unfold settings_of.
  cbn [fst snd os_name os_extruder].
  destruct (name_and_extruder_result _ _ _ _ _ _ _ Emeta) as [Hname Hext].
  split; [|split].
  - destruct (Xml.get "id" obj_el) as [s|] eqn:Es; simpl in Eid;
      [|discriminate].
    exists s. split; [exact Es|exact Eid].
  - rewrite Hname.
    destruct (last_with_key "name" (Xml.findall "metadata" obj_el))
      as [meta|]; [|reflexivity].
    unfold text_or_empty, Xml.get.
    destruct (Dict.get "value" (Xml.attrib meta)); reflexivity.
  - destruct (last_with_key "extruder" (Xml.findall "metadata" obj_el))
      as [meta|]; [|exact Hext].
    apply int_if_set_cases in Hext. exact Hext.
Qed.

(** Three objects, two of them with the id 7.  The first gives its
    extruder twice, the second resets it with an empty value, the third
    has a name without a value. *)
Definition reset_root : Xml.element :=
  Xml.Element "config" [] None
    [ Xml.Element "object" [("id", "7")] None
        [ Xml.Element "metadata" [("key", "name"); ("value", "Cube")] None [];
          Xml.Element "metadata" [("key", "extruder"); ("value", "2")] None [];
          Xml.Element "metadata" [("key", "name"); ("value", "Box")] None [];
          Xml.Element "metadata" [("key", "extruder"); ("value", "3")] None [] ];
      Xml.Element "object" [("id", "8")] None
        [ Xml.Element "metadata" [("key", "extruder"); ("value", "3")] None [];
          Xml.Element "metadata" [("key", "extruder"); ("value", "")] None [] ];
      Xml.Element "object" [("id", "7")] None
        [ Xml.Element "metadata" [("key", "extruder"); ("value", "4")] None [];
          Xml.Element "metadata" [("key", "name")] None [] ] ].

Definition reset_settings : Dict.pydict Z object_settings :=
  [ (7, {| os_name := ""; os_extruder := 4; os_parts := [] |});
    (8, {| os_name := ""; os_extruder := 1; os_parts := [] |}) ].

End object_settings.

(** When [model_settings] parses, its [<object>] elements give one entry
    each, in order, under the id read from the element's [id] attribute.
    The name of an entry is the [value] attribute of the last metadata
    with key [name] (the empty string when there is none or it has no
    value); its extruder is the number read from the [value] attribute of
    the last metadata with key [extruder], and is 1 when that value is
    empty or missing or when there is no such metadata.  The returned
    dict answers every id with the entry of the last object of that
    id. *)
Theorem parse_model_settings_last_wins (root : Xml.element)
    (settings : Dict.pydict Z Parser.object_settings) :
  Parser._parse_model_settings (Some root) = Py.Ok settings ->
  exists entries,
    Forall2 settings_of (Xml.findall "object" root) entries
    /\ forall id,
         Dict.get id settings
         = option_map snd
             (List.find (fun e => bool_decide (fst e = id)) (rev entries)).
Proof.
  unfold Parser._parse_model_settings.
  destruct (Py.map_result Parser.parse_settings_object
              (Xml.findall "object" root)) as [entries|err] eqn:E; simpl;
    [|discriminate].
  intros H. inversion H; subst. exists entries. split.
  - eapply Forall2_impl; [apply map_result_Forall2; exact E|].
    intros obj_el e. apply parse_settings_object_result.
  - intros id. rewrite (fold_set_last_wins fst snd).
    destruct (List.find _ _); reflexivity.
Qed.

Lemma parse_model_settings_last_wins_witness :
  Parser._parse_model_settings (Some reset_root) = Py.Ok reset_settings
  /\ exists entries,
       Forall2 settings_of (Xml.findall "object" reset_root) entries
       /\ forall id,
            Dict.get id reset_settings
            = option_map snd
                (List.find (fun e => bool_decide (fst e = id)) (rev entries)).
Proof.
  assert (Hrun : Parser._parse_model_settings (Some reset_root)
                 = Py.Ok reset_settings)
    by (vm_compute; reflexivity).
  split; [exact Hrun|].
  exact (parse_model_settings_last_wins reset_root reset_settings Hrun).
Defined.

(** ** Enriched objects *)

Section enrichment.
Import Py Parser.

(** What every object of a parsed assembly root satisfies. *)
Definition fresh_entry (kv : Z * assembly_object) : Prop :=
  o_id (snd kv) = fst kv /\ o_name (snd kv) = "" /\ o_extruder (snd kv) = 1.

Lemma dict_set_Forall {K V : Type} `{EqDecision K} (P : K * V -> Prop)
    (k : K) (v : V) (d : Dict.pydict K V) :
  List.Forall P d -> P (k, v) -> List.Forall P (Dict.set k v d).
Proof.
  intros Hd Hkv. induction Hd as [|[k0 v0] d H0 Hd IH]; simpl.
  - constructor; [exact Hkv|constructor].
  - destruct (decide (k0 = k)); constructor; assumption.
Qed.

Lemma dict_get_In {K V : Type} `{EqDecision K} (k : K) (v : V)
    (d : Dict.pydict K V) :
  Dict.get k d = Some v -> In (k, v) d.
Proof.
  induction d as [|[k0 v0] d IH]; simpl; [discriminate|].
  destruct (decide (k0 = k)) as [->|N].
  - intros H. inversion H; subst. left. reflexivity.
  - intros H. right. apply IH. exact H.
Qed.

Lemma parse_object_fresh (obj_el : Xml.element) (obj : assembly_object) :
  parse_object obj_el = Ok obj -> o_name obj = "" /\ o_extruder obj = 1.
Proof.
  unfold parse_object.
  destruct (int_attr (Xml.get "id" obj_el)) as [obj_id|e]; simpl;
    [|discriminate].
  match goal with
  | |- bind ?c _ = _ -> _ => destruct c as [comps|e]; simpl; [|discriminate]
  end.
  intros H. inversion H; subst. split; reflexivity.
Qed.

Lemma parsed_objects_fresh (root : Xml.element)
    (metadata : Dict.pydict string string)
    (objects : Dict.pydict Z assembly_object) (build_items : list build_item) :
  _parse_assembly root = Ok (metadata, objects, build_items) ->
  List.Forall fresh_entry objects.
Proof.
  intros H. apply parse_assembly_objects in H as (_ & objs & Hobjs & ->).
  apply map_result_Forall2 in Hobjs.
  assert (Hfresh : List.Forall (fun o => o_name o = "" /\ o_extruder o = 1) objs).
  { apply (Forall2_right _ _ _ _ Hobjs). intros el o. apply parse_object_fresh. }
  clear Hobjs.
  assert (G : forall d0, List.Forall fresh_entry d0 ->
            List.Forall fresh_entry
              (fold_left (fun objects obj => Dict.set (o_id obj) obj objects)
                         objs d0)).
  { induction Hfresh as [|o objs [Hn He] _ IH]; intros d0 Hd0; simpl;
      [exact Hd0|].
    apply IH. apply dict_set_Forall; [exact Hd0|].
    repeat split; assumption. }
  apply G. constructor.
Qed.

Lemma enrich_objects_get (objects : Dict.pydict Z assembly_object)
    (model_settings : Dict.pydict Z object_settings) (id : Z) :
  Dict.get id (_enrich_objects objects model_settings)
  = option_map
      (fun obj =>
         match Dict.get id model_settings with
         | Some ms =>
             {| o_id := o_id obj; o_uuid := o_uuid obj;
                o_name := os_name ms; o_extruder := os_extruder ms;
                o_components := o_components obj |}
         | None => obj
         end)
      (Dict.get id objects).
Proof.
  unfold _enrich_objects.
  induction objects as [|[k o] d IH]; simpl; [reflexivity|].
  destruct (Dict.get k model_settings) as [ms|] eqn:Ek; simpl;
    (destruct (decide (k = id)) as [->|N];
     [rewrite Ek; reflexivity|exact IH]).
Qed.

End enrichment.

(** After the objects of a parsed assembly root are enriched from any
    [model_settings], the dict has the same ids in the same order, every
    object found under an id has this id and the uuid and components it
    was parsed with, and its name and extruder are those of the settings
    entry of its id, or the empty name and extruder 1 when the settings
    have no entry for it. *)
Theorem enrich_objects_by_id (root : Xml.element)
    (metadata : Dict.pydict string string)
    (objects : Dict.pydict Z Parser.assembly_object)
    (build_items : list Parser.build_item)
    (model_settings : Dict.pydict Z Parser.object_settings) :
  Parser._parse_assembly root = Py.Ok (metadata, objects, build_items) ->
  Dict.keys (Parser._enrich_objects objects model_settings) = Dict.keys objects
  /\ forall id obj',
       Dict.get id (Parser._enrich_objects objects model_settings) = Some obj' ->
       Parser.o_id obj' = id
       /\ (exists obj,
             Dict.get id objects = Some obj
             /\ Parser.o_uuid obj' = Parser.o_uuid obj
             /\ Parser.o_components obj' = Parser.o_components obj)
       /\ match Dict.get id model_settings with
          | Some ms =>
              Parser.o_name obj' = Parser.os_name ms
              /\ Parser.o_extruder obj' = Parser.os_extruder ms
          | None => Parser.o_name obj' = "" /\ Parser.o_extruder obj' = 1
          end.
Proof.
  intros Hparse. pose proof (parsed_objects_fresh _ _ _ _ Hparse) as Hfresh.
  split.
  - unfold Parser._enrich_objects, Dict.keys. rewrite map_map.
    apply map_ext. intros [k o].
    destruct (Dict.get k model_settings); reflexivity.
  - intros id obj' Hget. rewrite enrich_objects_get in Hget.
    destruct (Dict.get id objects) as [obj|] eqn:Eobj; [|discriminate].
    simpl in Hget. inversion Hget as [Hobj']. clear Hget.
    rewrite List.Forall_forall in Hfresh.
    destruct (Hfresh _ (dict_get_In _ _ _ Eobj)) as (Hid & Hname & Hext).
    simpl in Hid, Hname, Hext.
    destruct (Dict.get id model_settings) as [ms|]; simpl.
    + repeat split; try reflexivity; [exact Hid|].
      exists obj. repeat split.
    + repeat split; try assumption. exists obj. repeat split.
Qed.

Lemma enrich_objects_by_id_witness :
  let objects :=
    [(1, {| Parser.o_id := 1; Parser.o_uuid := "b"; Parser.o_name := "";
            Parser.o_extruder := 1; Parser.o_components := [] |})] in
  let model_settings :=
    [(1, {| Parser.os_name := "Cube"; Parser.os_extruder := 2;
            Parser.os_parts := [] |})] in
  Dict.keys (Parser._enrich_objects objects model_settings) = Dict.keys objects
  /\ forall id obj',
       Dict.get id (Parser._enrich_objects objects model_settings) = Some obj' ->
       Parser.o_id obj' = id
       /\ (exists obj,
             Dict.get id objects = Some obj
             /\ Parser.o_uuid obj' = Parser.o_uuid obj
             /\ Parser.o_components obj' = Parser.o_components obj)
       /\ match Dict.get id model_settings with
          | Some ms =>
              Parser.o_name obj' = Parser.os_name ms
              /\ Parser.o_extruder obj' = Parser.os_extruder ms
          | None => Parser.o_name obj' = "" /\ Parser.o_extruder obj' = 1
          end.
Proof.
  apply (enrich_objects_by_id repeated_root [("Title", "second")]
           [(1, {| Parser.o_id := 1; Parser.o_uuid := "b"; Parser.o_name := "";
                   Parser.o_extruder := 1; Parser.o_components := [] |})]
           []
           [(1, {| Parser.os_name := "Cube"; Parser.os_extruder := 2;
                   Parser.os_parts := [] |})]).
  vm_compute. reflexivity.
Defined.

(** ** What the cleanup leaves alone *)

Section cleanup_frame.
Context {P E X : Type}.
Variables (entries : P -> list E) (live : E -> bool)
          (keep : P -> list E -> P) (reindex : Z -> P -> P) (field : P -> X).
Hypothesis field_keep : forall p k, field (keep p k) = field p.
Hypothesis field_reindex : forall i p, field (reindex i p) = field p.

(** The plates that keep an entry. *)
Definition keeps_entry (p : P) : bool := non_empty (List.filter live (entries p)).

Lemma survivors_field (l : list P) :
  map field (survivors entries live keep l)
  = map field (List.filter keeps_entry l).
Proof using field_keep.
  induction l as [|p l IH]; simpl; [reflexivity|].
  unfold keeps_entry at 1.
  destruct (List.filter live (entries p)) as [|e k]; simpl; [exact IH|].
  rewrite field_keep, IH. reflexivity.
Qed.

Lemma renumbered_field (n : nat) (l : list P) :
  map field (renumbered_from reindex n l) = map field l.
Proof using field_reindex.
  unfold renumbered_from. revert n.
  induction l as [|p l IH]; intros n; simpl; [reflexivity|].
  rewrite field_reindex. f_equal. apply IH.
Qed.

Lemma cleaned_field (l : list P) :
  map field (cleaned entries live keep reindex l)
  = map field (List.filter keeps_entry l).
Proof using All.
  rewrite cleaned_unfold, renumbered_field. apply survivors_field.
Qed.

End cleanup_frame.

Section cleanup_frame_samples.
Import Serializer.

(** Two plates; the instance of the first one refers to object 9. *)
Definition locked_plates : list ms_plate :=
  [ {| mp_metadata := Some [("index", "1"); ("locked", "true")];
       mp_instances := Some [[("object_id", "9")]] |};
    {| mp_metadata := Some [("index", "2"); ("locked", "false")];
       mp_instances := Some [[("object_id", "1")]] |} ].

Definition used_plates : list slice_plate :=
  [ {| sp_index := Some 1; sp_metadata := Some [("index", Some "1")];
       sp_objects := Some [ {| po_name := Some "Gone"; po_identify_id := None;
                               po_skipped := None |} ];
       sp_filaments := Some [] |};
    {| sp_index := Some 2;
       sp_metadata := Some [("index", Some "2"); ("prediction", Some "60")];
       sp_objects := Some [ {| po_name := Some "Cube"; po_identify_id := None;
                               po_skipped := None |} ];
       sp_filaments := Some [] |} ].

End cleanup_frame_samples.

(** The cleanup touches nothing but the entries and the [index] metadata:
    the plates that keep an entry keep, in order, every other metadata
    value, and a [slice_info] plate also keeps its own index field and its
    filaments (they are not recomputed for the objects that are left). *)
Theorem cleanup_keeps_other_fields
    (ms_plates : list Serializer.ms_plate)
    (plates_json : list Serializer.slice_plate)
    (valid_object_ids valid_names : gset string) (k : string) :
  k <> "index" ->
  let kept_ms :=
    List.filter
      (keeps_entry ms_entries (Serializer.live_instance valid_object_ids))
      ms_plates in
  let kept_slice :=
    List.filter (keeps_entry slice_entries (Serializer.live_object valid_names))
      plates_json in
  let r := Serializer._clean_stale_plates ms_plates valid_object_ids in
  let q := Serializer._clean_stale_slice_plates plates_json valid_names in
  map (fun p => Dict.get k (Serializer.or_default [] (Serializer.mp_metadata p))) r
  = map (fun p => Dict.get k (Serializer.or_default [] (Serializer.mp_metadata p)))
        kept_ms
  /\ map (fun p => Dict.get k (Serializer.or_default [] (Serializer.sp_metadata p))) q
     = map (fun p => Dict.get k (Serializer.or_default [] (Serializer.sp_metadata p)))
           kept_slice
  /\ map Serializer.sp_index q = map Serializer.sp_index kept_slice
  /\ map Serializer.sp_filaments q = map Serializer.sp_filaments kept_slice.
Proof.
  intros Hk. cbv zeta.
  rewrite clean_stale_plates_cleaned, clean_stale_slice_plates_cleaned.
  assert (Hne : "index" <> k) by congruence.
  repeat split.
  - apply (cleaned_field ms_entries _ ms_keep ms_reindex
             (fun p => Dict.get k (Serializer.or_default [] (Serializer.mp_metadata p)))).
    + reflexivity.
    + intros i p. simpl. apply dict_get_set_ne. exact Hne.
  - apply (cleaned_field slice_entries _ slice_keep slice_reindex
             (fun p => Dict.get k (Serializer.or_default [] (Serializer.sp_metadata p)))).
    + reflexivity.
    + intros i p. simpl. apply dict_get_set_ne. exact Hne.
  - apply (cleaned_field slice_entries _ slice_keep slice_reindex
             Serializer.sp_index); reflexivity.
  - apply (cleaned_field slice_entries _ slice_keep slice_reindex
             Serializer.sp_filaments); reflexivity.
Qed.

Lemma cleanup_keeps_other_fields_witness :
  let valid_object_ids : gset string := {["1"]} in
  let valid_names : gset string := {["Cube"]} in
  let kept_ms :=
    List.filter
      (keeps_entry ms_entries (Serializer.live_instance valid_object_ids))
      locked_plates in
  let kept_slice :=
    List.filter (keeps_entry slice_entries (Serializer.live_object valid_names))
      used_plates in
  let r := Serializer._clean_stale_plates locked_plates valid_object_ids in
  let q := Serializer._clean_stale_slice_plates used_plates valid_names in
  map (fun p => Dict.get "locked"
                  (Serializer.or_default [] (Serializer.mp_metadata p))) r
  = map (fun p => Dict.get "locked"
                    (Serializer.or_default [] (Serializer.mp_metadata p)))
        kept_ms
  /\ map (fun p => Dict.get "locked"
                     (Serializer.or_default [] (Serializer.sp_metadata p))) q
     = map (fun p => Dict.get "locked"
                       (Serializer.or_default [] (Serializer.sp_metadata p)))
           kept_slice
  /\ map Serializer.sp_index q = map Serializer.sp_index kept_slice
  /\ map Serializer.sp_filaments q = map Serializer.sp_filaments kept_slice.
Proof.
  apply (cleanup_keeps_other_fields locked_plates used_plates
           {["1"]} {["Cube"]} "locked").
  discriminate.
Defined.

(** The second plate of the sample moves to index 1 in its metadata and
    keeps 2 as its own index field. *)
Example used_plates_cleaned :
  map (fun p => (Serializer.sp_index p, slice_index p))
      (Serializer._clean_stale_slice_plates used_plates {["Cube"]})
  = [(Some 2, Some (Some "1"))].
Proof. vm_compute. reflexivity. Qed.

(** ** Text parts *)

Section text_parts.
Import Py Parser.

Lemma utf8_decode_raises (bs : list Byte.byte) (e : exn) :
  utf8_decode bs = Raise e -> e = UnicodeDecodeError.
Proof.
  remember (length bs) as n eqn:Hn. revert bs Hn.
  induction n as [n IH] using lt_wf_ind. intros bs Hn.
  assert (Hrec : forall r, (length r < length bs)%nat ->
                           utf8_decode r = Raise e -> e = UnicodeDecodeError).
  { intros r Hr. apply (IH (length r)); [subst n; exact Hr|reflexivity]. }
  clear IH Hn.
  destruct bs as [|b0 r0]; simpl; [discriminate|].
  destruct (bval b0 <? 128).
  { destruct (utf8_decode r0) as [t|e'] eqn:E; simpl; [discriminate|].
    intros H. inversion H; subst. apply (Hrec r0); [simpl; lia|exact E]. }
  destruct r0 as [|b1 r1]; [intros H; inversion H; reflexivity|].
  destruct ((194 <=? bval b0) && (bval b0 <=? 223) && is_cont b1).
  { destruct (utf8_decode r1) as [t|e'] eqn:E; simpl; [discriminate|].
    intros H. inversion H; subst. apply (Hrec r1); [simpl; lia|exact E]. }
  destruct r1 as [|b2 r2]; [intros H; inversion H; reflexivity|].
  match goal with
  | |- (if ?c then _ else _) = _ -> _ => destruct c
  end.
  { destruct (utf8_decode r2) as [t|e'] eqn:E; simpl; [discriminate|].
    intros H. inversion H; subst. apply (Hrec r2); [simpl; lia|exact E]. }
  destruct r2 as [|b3 r3]; [intros H; inversion H; reflexivity|].
  match goal with
  | |- (if ?c then _ else _) = _ -> _ => destruct c
  end.
  { destruct (utf8_decode r3) as [t|e'] eqn:E; simpl; [discriminate|].
    intros H. inversion H; subst. apply (Hrec r3); [simpl; lia|exact E]. }
  intros H; inversion H; reflexivity.
Qed.

Lemma utf8_decode_non_empty (b : Byte.byte) (bs : list Byte.byte)
    (s : list Z) :
  utf8_decode (b :: bs) = Ok s -> s <> [].
Proof.
  simpl.
  destruct (bval b <? 128).
  { destruct (utf8_decode bs); simpl; [|discriminate].
    intros H. inversion H. discriminate. }
  destruct bs as [|b1 r1]; [discriminate|].
  destruct ((194 <=? bval b) && (bval b <=? 223) && is_cont b1).
  { destruct (utf8_decode r1); simpl; [|discriminate].
    intros H. inversion H. discriminate. }
  destruct r1 as [|b2 r2]; [discriminate|].
  match goal with
  | |- (if ?c then _ else _) = _ -> _ => destruct c
  end.
  { destruct (utf8_decode r2); simpl; [|discriminate].
    intros H. inversion H. discriminate. }
  destruct r2 as [|b3 r3]; [discriminate|].
  match goal with
  | |- (if ?c then _ else _) = _ -> _ => destruct c
  end.
  { destruct (utf8_decode r3); simpl; [|discriminate].
    intros H. inversion H. discriminate. }
  discriminate.
Qed.

End text_parts.

(** [_read_zip_str] never returns the empty string.  It answers [None]
    exactly for a member that is missing (the read ends in [KeyError],
    which is caught) or has no bytes, and a non-empty text for a member
    whose bytes decode.  It fails exactly when the read of the member ends
    in another exception, which comes through unchanged, or when the
    bytes do not decode, with [UnicodeDecodeError]. *)
Theorem read_zip_str_outcomes (zf : gmap string (Py.result (list Byte.byte)))
    (path : string) :
  match Parser._read_zip_str zf path with
  | Py.Ok None =>
      zf !! path = None \/ zf !! path = Some (Py.Raise Py.KeyError)
      \/ zf !! path = Some (Py.Ok [])
  | Py.Ok (Some s) =>
      s <> []
      /\ exists raw,
           zf !! path = Some (Py.Ok raw) /\ raw <> []
           /\ Parser.utf8_decode raw = Py.Ok s
  | Py.Raise e =>
      (zf !! path = Some (Py.Raise e) /\ e <> Py.KeyError)
      \/ (e = Py.UnicodeDecodeError
          /\ exists raw,
               zf !! path = Some (Py.Ok raw)
               /\ Parser.utf8_decode raw = Py.Raise Py.UnicodeDecodeError)
  end.
Proof.
  unfold Parser._read_zip_str, Parser._read_zip, Parser.read.
  destruct (zf !! path) as [[[|b raw]|e]|] eqn:E; cbn [Py.bind].
  - right. right. reflexivity.
  - destruct (Parser.utf8_decode (b :: raw)) as [s|e] eqn:Ed; cbn [Py.bind].
    + split; [eapply utf8_decode_non_empty; exact Ed|].
      exists (b :: raw). repeat split; [discriminate|exact Ed].
    + pose proof (utf8_decode_raises _ _ Ed) as ->.
      right. split; [reflexivity|]. exists (b :: raw). split; [reflexivity|exact Ed].
  - destruct e; cbn [Py.bind];
      try (left; split; [reflexivity|discriminate]).
    right. left. reflexivity.
  - left. reflexivity.
Qed.
